(* ===== verification/_CoqProject ===== *)
-Q . S2P
Prelude.v
Float32.v
Net.v
Messages.v
Base64.v
Config.v
Strconv.v
Aof.v
Util.v
GcsFunc.v
GlobalScheduler.v
GlobalSchedulerThms.v
Liveness.v
Sql.v
LocalScheduler.v
Worker.v
WorkerThms.v
PyWorker.v
PyWorkerThms.v
LocalObjStore.v
LocalObjStoreThms.v
LobsChannels.v
LobsData.v
MemSql.v
GcsDb.v
GcsObj.v
GcsObjSpec.v
GcsObjInv.v
GcsObjThms.v
GcsObjRaces.v
GcsObjDirectory.v
Types.v
GcsObjRecovery.v
Startup.v
Cluster.v
Recovery.v
Submission.v
Interfaces.v
Reruns.v
System.v
SystemThms.v
Restarts.v
PyClient.v
EndToEnd.v
Platform.v
PlatformThms.v
Locks.v
DataRaces.v
