(* ===== verification/Prelude.v ===== *)
(** * Babyray: a verification library for its Go services

    Babyray is a small clone of Ray: a Python client submits functions to a
    cluster of nodes, whose Go services schedule them, run them, store their
    results and find those results again.  This library models the services
    and proves what they promise one another.  It has to be read with the
    sources under [src/go]; every definition carries the name of the Go
    function, method, type or constant it translates, and its shape follows
    the Go text, early returns and ignored errors included.

    ** The program and where it is modelled

    - Object table, [cmd/gcsobjtable/main.go]: [GcsObj] has one definition per
      handler over the record [GCSObjServer]; what the locks make atomic is
      one function, the goroutines a handler starts are returned as actions
      ([gcs_action]).  [cmd/gcsobjtable/db.go], the SQLite layer, is [GcsDb];
      [WriteObjectLocationsToAOF], with the buffered writer it goes through, is
      [Aof].  [GcsObjRaces] interleaves the two lock sections of
      [RegisterLineage].
      The database driver is a parameter: [Sql] states its interface
      ([SqlDriver]), the documented behaviour the proofs use ([SqlLaws]) and
      the same for a database that does not fail ([SqlHealthy]); [MemSql]
      is an instance that satisfies both.
    - Global scheduler, [cmd/globalscheduler/main.go]: [GlobalScheduler]
      (heartbeats, the liveness report, both placement policies, [Schedule])
      with float32 arithmetic from [Float32]; the loop [LiveNodesHeartbeat] is
      in [Liveness], as a function of its rounds.
    - Local scheduler, [cmd/localscheduler/main.go]: [LocalScheduler]
      ([Schedule], kill and revive, the heartbeat loop with its back-off).
    - Worker, [cmd/worker/main.go] and its script [execute.py]: [Worker].
      [executeFunction] and the script are functions, joined by [Base64];
      [Run] is a machine of atomic steps ([Run_step]) over the counters and
      the semaphore, and [wexec] interleaves any number of calls with kills
      and revivals.
    - Local object store, [cmd/localobjstore/main.go]: [LocalObjStore] has
      the shared-memory files and the handlers; [LobsChannels] has the part of
      [Get] and [LocationFound] that waits on channels, as a machine of
      atomic steps ([lexec]).
    - Function table, [cmd/gcsfunctable/main.go]: [GcsFunc].
    - Configuration, [config/config.go]: [Config]; addresses: [Net]; reading
      numbers: [Strconv].
    - [util/util.go], [customlog/customlog.go] and every service's [LocalLog]:
      [Util].
    - The [main] functions, the set-up of [SendHeartbeats] and the main of the
      chain conductor: [Startup].  A start is a computation over what the machine
      answers that records what it listens on, dials, registers and leaves
      running, and yields the server's initial state.
    - Messages, [proto/rayclient.proto] and its generated Go: [Messages].
    - Python client, [src/python/babyray/__init__.py]: [PyClient] ([get], futures,
      remote functions, over the stubs and [posix_ipc]).
    - Python worker, [src/pythonserver/worker.py], which the compose files start in
      the place of the Go worker: [PyWorker].  [Run] is again a machine of atomic
      steps ([WorkerServer_Run_step]), here over Python's semaphore with its
      condition; [pexec] interleaves the calls.
    - The mutexes of all services, with what every handler reads and writes under
      them: [DataRaces], on the generic [Locks].

    The services call one another over gRPC.  A call whose answer matters is a
    parameter of the caller (a function from the request to a [reply]); calls
    whose answer is dropped are returned as lists in the order in which they
    are made.  [Cluster], [Recovery], [Reruns] and [Submission] compose the models
    along these calls.  [Interfaces] has the Go interfaces through which the
    servers reach their peers as classes with laws, with the peers as instances.
    [System] puts the object table, the stores of all nodes and the messages
    between them into one machine ([sys_exec]), with loss, reordering, failures
    and restarts.  [Platform] adds everything that fills the stores, the function
    table, the schedulers and the workers with the tasks on their way
    ([pf_exec]): a closed system, whose only inputs are the clients' calls.

    ** What the theorems show

    - [GcsObjSpec] gives the object table's contract: the abstract set of
      nodes that hold an object ([locations]), of which memory is a cache and
      SQLite the store.  [GcsObjInv] proves the invariant of all reachable
      states and [GcsObjThms] the contract: the cache is transparent, nobody
      waits for a known object, a waiting client is called back, nothing
      panics.  [GcsObjRecovery] says which nodes an answer can name, when a
      flush succeeds, and what is rescheduled when nodes die.
    - [GcsObjDirectory] refines an abstract directory, which knows where objects
      are and who waits and has neither cache nor database: every run of the
      table is a run of the directory, callback for callback.
    - [GcsDb] proves the flush atomic and readable again, against the laws of
      the driver, for every iteration order of the Go maps.
    - [GlobalSchedulerThms]: the search equals a reference definition; the
      picked worker is live and has a minimal estimate, and every such worker can
      be picked; the byte counts of the locality policy are exact.
    - [Types]: uids and nodes, both plain words in Go, are never confused and
      none are made up, by the object table and both schedulers; machine words
      stay machine words.
    - [GcsObjRaces]: what overlapping registrations of lineage guarantee, and
      that two with one uid can overwrite each other.
    - [Aof]: the append-only file reads back as the map it was written from,
      whatever the file system does.
    - [Startup]: every address a service dials while it starts is one on which
      the expected peer listens; the processes of a node come up exactly when
      their ports differ.
    - [WorkerThms]: the protocol with the script is a round trip; at most ten
      calls run and the reported counters are exact in every interleaving;
      every call ends; [Run] implements its sequential specification; a killed
      worker stores nothing new.
    - [PyWorkerThms]: the Python worker counts its calls right in every
      interleaving, but its semaphore gains a slot with every call that ends;
      every call ends unless the worker is killed; [Run] implements its
      specification; what a run stores is the pickled result of its call.
    - [LocalObjStoreThms], [LobsChannels]: stored bytes are copied back
      unchanged, a remote [Get] replicates them, a lone waiting [Get] is woken.
    - [Cluster]: a lost object is recomputed by the call that created it, and
      a result reaches the client that waits for it.
    - [Submission]: a submitted call is run on the registered function and its
      result reaches every client that waits for it, whichever way the call is
      dispatched.
    - [Recovery]: an object whose holders died is rescheduled from the fourth
      liveness round on, and the run that follows restores the very same bytes.

    - [LobsData], [System], [SystemThms]: in every run of the whole cluster a
      [Get] answers with the stored bytes; callbacks name nodes that have the
      object, and the [Get] they wake gets it.
    - [PlatformThms]: on the whole platform every call that a worker takes was
      submitted, every object is the result of its task, and [get] returns it,
      as long as no uid and no name is drawn twice.
    - [EndToEnd]: [get(f.remote(...))] of the Python client is the value that the
      function returned, whether Go or Python workers run it, in every run in which
      the store has answered; [get]
      keeps the shape of containers ([PyClient], [EndToEnd]).
    - [Interfaces]: an object the global scheduler has placed is not placed again
      while its node and the nodes that announce it live, whatever the table's
      other clients do; and an acknowledged run has left its result with the
      store, for all peers that keep the laws.
    - [DataRaces]: which handlers never race however many calls overlap, and
      which pairs can.

    Several theorems state what the code does where that is not what its
    comments or tests intend: an answer for a known object never names a live
    holder, a notification after a flush forgets the flushed holders, a node
    that notifies twice blocks every later flush, flushed objects are not
    recovered, a second [Get] strands the first, a Python exception ends the Go
    worker, a restarted store loses its objects ([Restarts]), asking for an
    object that does not exist ends the global scheduler, waiting on the node that computes
    an object ends the table's persistence ([SystemThms]), a cancelled context
    makes a task run twice ([Reruns]), an announcement after a flush lets an
    object be rescheduled whose placed node is alive ([Interfaces]), the Python
    worker exceeds its limit of tasks and counts for ever the calls that return
    while it is killed ([PyWorkerThms]), [get(cache=False)] of a remote
    object always fails ([PyClient]),
    and maps are accessed without their locks ([DataRaces]).

    ** Conventions

    Unsigned words are [N] with the wrap-around written out ([+64], [-32], ..
    in [go_scope]); [float32] is IEEE binary32, each operation rounded once, as
    on amd64 (other ports of Go may fuse a product and a sum).  Go's map
    iteration order, [rand.Intn] and [rand.Shuffle] are parameters ([order],
    [picker]) over which the theorems quantify.  A Go error is a [goerror];
    panics and [log.Fatalf] are the constructors [Panics] and [Fatal] of
    [outcome].  Clocks are parameters in nanoseconds.

    Fuel occurs in five places: [write_loop] of [Aof] turns at most twice
    ([write_loop_stops]); [retry] of the local scheduler takes one unit
    per attempt, and [retry_backoff] shows that one more than the number of
    failures suffices; [heartbeat_round] uses it for its two loops;
    [Run_alone] takes one unit per step, and [Run_implements_spec] shows that
    eleven suffice on every path; [Run_until] of the Python worker likewise, with
    fourteen ([python_Run_implements_spec]).

    ** What is not modelled

    gRPC and protobuf themselves (a nil request arriving as an empty one is a
    hypothesis of the one theorem that needs it), the log of memory usage, and
    the handlers of the chain conductor, which have no bodies and do not
    compile.  The flush never takes its append-only-file branch, a constant of
    the source, so [flushToDisk] has the other branch only.  The handlers of the
    object table that take no lock ([GetObjectLocations], [RegisterLiveNodes],
    [RegisterGenerating]) are modelled as atomic, which is what they do when no
    other call overlaps with them; that such overlaps are data races is
    [unlocked_calls_race] of [DataRaces], and what Go makes of a race is left out.
    The file writes of one [Store] or [Get] are atomic too, and outside
    [GcsObjRaces] so are the two lock sections of [RegisterLineage].  The bytes of
    a [Copy] are those of the file when its reply is built.  Of the Python
    programs, [demo] of the client and [serve] of the worker are left out.
    Timeouts of calls are not represented: a call that is never answered stays
    where it waits. *)
From Stdlib Require Strings.Byte.
From stdpp Require Export base tactics gmap sets list strings pretty fin_maps.

(** ** Go values *)

Declare Scope go_scope.
Delimit Scope go_scope with go.

(** The unsigned machine integers of the program are [N] with the
    wrap-around written out. *)
Abbreviation uint64 := N (only parsing).
Abbreviation uint32 := N (only parsing).
Abbreviation bytes := (list Byte.byte) (only parsing).

#[export] Instance byte_eq_dec : EqDecision Byte.byte := Byte.byte_eq_dec.

Definition two64 : N := 18446744073709551616.
Definition two63 : N := 9223372036854775808.
Definition two32 : N := 4294967296.

Definition wrap64 (n : N) : uint64 := (n mod two64)%N.
Definition wrap32 (n : N) : uint32 := (n mod two32)%N.

Notation "a +64 b" := (wrap64 (a + b)) (at level 50, left associativity) : go_scope.
(** Subtraction of unsigned words wraps: [a - b + 2^64 mod 2^64]. *)
Notation "a -64 b" := (wrap64 (two64 + a - b)) (at level 50, left associativity) : go_scope.
Notation "a +32 b" := (wrap32 (a + b)) (at level 50, left associativity) : go_scope.
Notation "a -32 b" := (wrap32 (two32 + a - b)) (at level 50, left associativity) : go_scope.

(** gRPC status codes and Go [error] values. *)
Inductive code := Internal | NotFound | InvalidArgument | Unimplemented | Unknown.

Inductive goerror :=
  | StatusError (c : code) (msg : string)
  | PlainError (msg : string).

#[export] Instance code_eq_dec : EqDecision code.
Proof. solve_decision. Defined.
#[export] Instance goerror_eq_dec : EqDecision goerror.
Proof. solve_decision. Defined.

(** [err.Error()] *)
Definition error_text (e : goerror) : string :=
  match e with StatusError _ m => m | PlainError m => m end.

(** A call that either yields a value or an error: Go's
    [v, err := f(); if err != nil { return err }] is the bind below. *)
Inductive result (A : Type) := Ok (a : A) | Err (e : goerror).
Arguments Ok {_} _.
Arguments Err {_} _.

#[export] Instance Ok_inj {A} : Inj (=) (=) (@Ok A).
Proof. by intros x y [= ->]. Qed.

#[export] Instance result_ret : MRet result := λ A a, Ok a.
#[export] Instance result_bind : MBind result := λ A B k r,
  match r with Ok a => k a | Err e => Err e end.
#[export] Instance result_fmap : FMap result := λ A B f r,
  match r with Ok a => Ok (f a) | Err e => Err e end.

(** How a Go call ends: it returns, panics, or takes the process down
    ([log.Fatalf]). *)
Inductive outcome (A : Type) :=
  | Returns (a : A)
  | Panics (why : string)
  | Fatal (why : string).
Arguments Returns {_} _.
Arguments Panics {_} _.
Arguments Fatal {_} _.

#[export] Instance outcome_ret : MRet outcome := λ A a, Returns a.
#[export] Instance outcome_bind : MBind outcome := λ A B k o,
  match o with Returns a => k a | Panics w => Panics w | Fatal w => Fatal w end.

(** [H : x ← m; k x = Returns _]: the value of [m] and what remains. *)
Tactic Notation "bind_inv" hyp(H) "as" simple_intropattern(p) :=
  match type of H with
  | context [mbind _ ?m] =>
      let E := fresh "E" in
      destruct m as [p| |] eqn:E; cbn [mbind outcome_bind] in H; try discriminate H
  end.

(** What a gRPC method hands back: the response pointer and the error. *)
Definition reply (A : Type) : Type := option A * option goerror.

(** ** Nondeterminism of the Go runtime *)

(** The iteration order of [for k, v := range m] is unspecified: an [order]
    is one way of ordering the entries a loop visits. *)
Record order := Order {
  reorder : ∀ {A}, list A → list A;
  reorder_perm : ∀ A (l : list A), reorder l ≡ₚ l
}.

Definition range {A} (o : order) (m : gmap N A) : list (N * A) :=
  reorder o (map_to_list m).

Definition range_keys {A} (o : order) (m : gmap N A) : list N := (range o m).*1.

(** [rand.Intn n] returns some value of [0, n). *)
Record picker := Picker {
  intn : nat → nat;
  intn_lt : ∀ n, 0 < n → intn n < n
}.

Program Definition order_id : order := {| reorder A l := l |}.
Next Obligation. done. Qed.

Program Definition order_rev : order := {| reorder A l := reverse l |}.
Next Obligation. intros. apply reverse_Permutation. Qed.

Program Definition pick_first : picker := {| intn _ := 0 |}.
Next Obligation. done. Qed.

Program Definition pick_last : picker := {| intn n := n - 1 |}.
Next Obligation. simpl; lia. Qed.

(** [rand.Shuffle(len(l), swap)]: the Fisher-Yates loop, from the last index
    down to 1, with one draw per index. *)
Definition swap {A} (i j : nat) (l : list A) : list A :=
  match l !! i, l !! j with
  | Some x, Some y => <[i := y]> (<[j := x]> l)
  | _, _ => l
  end.

Fixpoint shuffle_from {A} (p : nat → picker) (i : nat) (l : list A) : list A :=
  match i with
  | O => l
  | S i' => shuffle_from p i' (swap i (intn (p i) (S i)) l)
  end.

Definition shuffle {A} (p : nat → picker) (l : list A) : list A :=
  shuffle_from p (length l - 1) l.

(** ** Generic lemmas *)

Lemma range_perm {A} o (m : gmap N A) : range o m ≡ₚ map_to_list m.
Proof. apply reorder_perm. Qed.

Lemma elem_of_range {A} o (m : gmap N A) k v :
  (k, v) ∈ range o m ↔ m !! k = Some v.
Proof. by rewrite range_perm, elem_of_map_to_list. Qed.

Lemma elem_of_range_keys {A} o (m : gmap N A) k :
  k ∈ range_keys o m ↔ is_Some (m !! k).
Proof.
  unfold range_keys. rewrite list_elem_of_fmap. split.
  - intros ([k' v] & -> & Hin%elem_of_range). by exists v.
  - intros [v Hv]. exists (k, v). by rewrite elem_of_range.
Qed.

Lemma NoDup_range_keys {A} o (m : gmap N A) : NoDup (range_keys o m).
Proof.
  unfold range_keys. rewrite range_perm. apply NoDup_fst_map_to_list.
Qed.

Lemma wrap64_small n : (n < two64)%N → wrap64 n = n.
Proof. apply N.mod_small. Qed.

Lemma wrap64_lt n : (wrap64 n < two64)%N.
Proof. by apply N.mod_lt. Qed.

Lemma wrap32_small n : (n < two32)%N → wrap32 n = n.
Proof. apply N.mod_small. Qed.

Lemma wrap32_lt n : (wrap32 n < two32)%N.
Proof. by apply N.mod_lt. Qed.

Lemma swap_perm {A} i j (l : list A) : swap i j l ≡ₚ l.
Proof.
  unfold swap. destruct (l !! i) as [x|] eqn:Hi; [|done].
  destruct (l !! j) as [y|] eqn:Hj; [|done].
  destruct (decide (i = j)) as [->|Hne].
  - rewrite list_insert_insert_eq. simplify_eq. by rewrite list_insert_id.
  - assert (i < length l) by eauto using lookup_lt_Some.
    assert (j < length l) by eauto using lookup_lt_Some.
    apply Permutation_inj. split.
    { by rewrite !length_insert. }
    exists (λ k, if decide (k = i) then j else if decide (k = j) then i else k).
    split.
    + intros a b Hab. repeat case_decide; naive_solver.
    + intros k. repeat case_decide; subst.
      * by rewrite list_lookup_insert_eq by (rewrite length_insert; lia).
      * rewrite list_lookup_insert_ne, list_lookup_insert_eq by lia. done.
      * by rewrite !list_lookup_insert_ne by lia.
Qed.

Lemma shuffle_from_perm {A} p i (l : list A) : shuffle_from p i l ≡ₚ l.
Proof.
  revert l. induction i as [|i IH]; intros l; simpl; [done|].
  by rewrite IH, swap_perm.
Qed.

Lemma shuffle_perm {A} p (l : list A) : shuffle p l ≡ₚ l.
Proof. apply shuffle_from_perm. Qed.

Lemma swap_same {A} i (l : list A) : swap i i l = l.
Proof.
  unfold swap. destruct (l !! i) as [x|] eqn:Hi; [|done].
  by rewrite list_insert_insert_eq, list_insert_id.
Qed.

(** Draws that leave every element where it is. *)
Lemma shuffle_from_still {A} p i (l : list A) :
  (∀ k, 0 < k ≤ i → p k = pick_last) → shuffle_from p i l = l.
Proof.
  revert l. induction i as [|i IH]; intros l Hp; simpl; [done|].
  rewrite Hp by lia. replace (intn pick_last (S (S i))) with (S i) by (simpl; lia).
  rewrite swap_same. apply IH. intros k Hk. apply Hp. lia.
Qed.

(** Every element can come first: the shuffle excludes nobody. *)
Lemma shuffle_first {A} (l : list A) x : x ∈ l → ∃ p, head (shuffle p l) = Some x.
Proof.
  intros [j Hj]%list_elem_of_lookup_1. pose proof (lookup_lt_Some _ _ _ Hj) as Hlt.
  unfold shuffle. destruct j as [|j].
  { exists (λ _, pick_last). rewrite shuffle_from_still by done. by destruct l. }
  exists (λ k, if decide (k = S j) then pick_first else pick_last).
  assert (∀ i, S j ≤ i → shuffle_from (λ k, if decide (k = S j) then pick_first else pick_last) i l
    = swap (S j) 0 l) as ->; [| |lia].
  - intros i Hi. induction i as [|i IH]; [lia|]. simpl. case_decide as Hd.
    + injection Hd as ->. simpl. apply shuffle_from_still. intros k Hk. rewrite decide_False by lia. done.
    + replace (intn pick_last (S (S i))) with (S i) by (simpl; lia). rewrite swap_same. apply IH. lia.
  - unfold swap. rewrite Hj. destruct l as [|y l]; [done|]. done.
Qed.

Lemma picker_lookup {A} (p : picker) (l : list A) :
  l ≠ [] → ∃ x, l !! intn p (length l) = Some x ∧ x ∈ l.
Proof.
  intros Hne. destruct (lookup_lt_is_Some_2 l (intn p (length l))) as [x Hx].
  { apply intn_lt. by destruct l; [|simpl; lia]. }
  exists x. eauto using list_elem_of_lookup_2.
Qed.

Lemma elem_of_option_list {A} (x : A) (o : option A) : x ∈ option_list o ↔ o = Some x.
Proof.
  destruct o; simpl; [rewrite list_elem_of_singleton; naive_solver|].
  split; [by intros ?%not_elem_of_nil|done].
Qed.

(** ** Automation *)

(** Facts about map loops and words that side conditions ask for. *)
Create HintDb babyray.
#[export] Hint Resolve range_perm NoDup_range_keys shuffle_perm swap_perm
  wrap64_lt wrap32_lt wrap64_small wrap32_small : babyray.
#[export] Hint Rewrite @elem_of_range @elem_of_range_keys @elem_of_option_list : babyray.
