(* ===== verification/Float32.v ===== *)
(** * Go's [float32]

    IEEE 754 binary32 with round-to-nearest-even, as the executable
    specification floats of the Standard Library at precision 24 and
    exponent bound 128.  Used by the heartbeat statistics and by the
    waiting-time estimates of the global scheduler.  The comparison lemmas
    below are what a minimum search over such floats needs. *)
From Stdlib Require Import SpecFloat.
From S2P Require Import Prelude.

Definition float32 : Type := spec_float.

Definition prec32 : Z := 24.
Definition emax32 : Z := 128.

Definition fadd : float32 → float32 → float32 := SFadd prec32 emax32.
Definition fmul : float32 → float32 → float32 := SFmul prec32 emax32.
Definition fdiv : float32 → float32 → float32 := SFdiv prec32 emax32.
Definition flt : float32 → float32 → bool := SFltb.

(** The conversion [float32(n)] of an unsigned integer. *)
Definition of_uint (n : N) : float32 :=
  binary_normalize prec32 emax32 (Z.of_N n) 0 false.

(** A decimal constant [n/d] of the source, rounded to float32. *)
Definition of_ratio (n d : N) : float32 := fdiv (of_uint n) (of_uint d).

(** [math.MaxFloat32], that is (2^24 - 1) * 2^104. *)
Definition MaxFloat32 : float32 := S754_finite false 16777215 104.

Definition is_nan (x : float32) : bool :=
  match x with S754_nan => true | _ => false end.

(** ** [<] on float32 is a strict order; NaN is unordered *)

Lemma pos_cmp p q : Pos.compare_cont Eq p q = Pos.compare p q.
Proof. done. Qed.

Lemma flt_irrefl x : flt x x = false.
Proof.
  destruct x as [[]|[]| |[] m e]; try done; unfold flt, SFltb; simpl;
    by rewrite Z.compare_refl, pos_cmp, Pos.compare_refl.
Qed.

Lemma SFcompare_finite_lt m1 e1 m2 e2 s :
  flt (S754_finite s m1 e1) (S754_finite s m2 e2) = true ↔
  if s then (e2 < e1)%Z ∨ e1 = e2 ∧ (m2 < m1)%positive
  else (e1 < e2)%Z ∨ e1 = e2 ∧ (m1 < m2)%positive.
Proof.
  unfold flt, SFltb; destruct s; simpl; rewrite pos_cmp;
    destruct (Z.compare_spec e1 e2); subst; simpl;
    destruct (Pos.compare_spec m1 m2); subst; simpl;
    (split; intros; [try discriminate; lia | done || lia]).
Qed.

Lemma flt_trans x y z : flt x y = true → flt y z = true → flt x z = true.
Proof.
  destruct x as [[]|[]| |[] m1 e1], y as [[]|[]| |[] m2 e2],
    z as [[]|[]| |[] m3 e3]; try done;
  rewrite ?SFcompare_finite_lt; lia.
Qed.

(** What is not below [y] is above everything below [y]. *)
Lemma flt_cotrans x y z :
  flt x y = true → is_nan z = false → flt z y = false → flt x z = true.
Proof.
  destruct x as [[]|[]| |[] m1 e1], y as [[]|[]| |[] m2 e2],
    z as [[]|[]| |[] m3 e3]; try done;
  rewrite <-?not_true_iff_false, ?SFcompare_finite_lt; lia.
Qed.

Lemma flt_nan_l x : flt S754_nan x = false.
Proof. done. Qed.

Lemma flt_nan_r x : flt x S754_nan = false.
Proof. by destruct x as [[]|[]| |[] ??]. Qed.

(** Every number except the infinities and NaN is below [MaxFloat32] or is
    [MaxFloat32] itself, so the estimates a search that starts at
    [MaxFloat32] never takes are these. *)
Definition at_most_max (x : float32) : bool := flt x MaxFloat32.

Lemma at_most_max_not_nan x : at_most_max x = true → is_nan x = false.
Proof. by destruct x. Qed.

Lemma at_most_max_not_inf : at_most_max (S754_infinity false) = false.
Proof. done. Qed.

Create HintDb float32.
#[export] Hint Resolve flt_irrefl flt_trans : float32.

Example of_uint_exact : of_uint 16777217 = of_uint 16777216.
Proof. reflexivity. Qed.
