(* ===== verification/Net.v ===== *)
(** * Network addresses

    The pieces of Go's [net], [strconv] and [fmt] packages with which the
    services build and rewrite addresses: [strconv.Itoa]/[FormatUint],
    [net.SplitHostPort] and [net.JoinHostPort], and the
    [Sprintf("%s%d:%d", prefix, node, port)] with which every service names
    its peers.  The theorems are the round trip the object table relies on
    when it replaces a client's ephemeral port, and the injectivity that
    makes a node's address identify the node. *)
From Stdlib Require Import Ascii.
From S2P Require Import Prelude.

Abbreviation chars := (list ascii).

Definition to_chars (s : string) : chars := String.list_ascii_of_string s.
Definition of_chars (l : chars) : string := String.string_of_list_ascii l.

Definition colon : ascii := ":"%char.
Definition lbrack : ascii := "["%char.
Definition rbrack : ascii := "]"%char.

(** [strconv.FormatUint(n, 10)], [strconv.Itoa], and the [%d] verb. *)
Definition FormatUint (n : N) : string := pretty n.

(** [strings.IndexByte] and [strings.LastIndexByte], [None] for -1. *)
Fixpoint IndexByte (l : chars) (c : ascii) : option nat :=
  match l with
  | [] => None
  | x :: l' => if decide (x = c) then Some 0 else S <$> IndexByte l' c
  end.

Fixpoint LastIndexByte (l : chars) (c : ascii) : option nat :=
  match l with
  | [] => None
  | x :: l' =>
      match LastIndexByte l' c with
      | Some i => Some (S i)
      | None => if decide (x = c) then Some 0 else None
      end
  end.

(** [net.SplitHostPort]: the host and port of "host:port", "[host]:port"; an
    error otherwise. *)
Definition SplitHostPort (hostport : chars) : result (chars * chars) :=
  match LastIndexByte hostport colon with
  | None => Err (PlainError "missing port in address")
  | Some i =>
      match hostport with
      | c :: _ =>
        hjk ← (if decide (c = lbrack) then
          match IndexByte hostport rbrack with
          | None => Err (PlainError "missing ']' in address")
          | Some e =>
              if decide (S e = length hostport) then
                Err (PlainError "missing port in address")
              else if decide (S e = i) then
                Ok (take (e - 1) (drop 1 hostport), 1, S e)
              else if decide (hostport !! S e = Some colon) then
                Err (PlainError "too many colons in address")
              else Err (PlainError "missing port in address")
          end
        else
          match IndexByte (take i hostport) colon with
          | Some _ => Err (PlainError "too many colons in address")
          | None => Ok (take i hostport, 0, 0)
          end);
        let '(host, j, k) := hjk in
        match IndexByte (drop j hostport) lbrack with
        | Some _ => Err (PlainError "unexpected '[' in address")
        | None =>
            match IndexByte (drop k hostport) rbrack with
            | Some _ => Err (PlainError "unexpected ']' in address")
            | None => Ok (host, drop (S i) hostport)
            end
        end
      | [] => Err (PlainError "missing port in address")
      end
  end.

(** [net.JoinHostPort] *)
Definition JoinHostPort (host port : chars) : chars :=
  match IndexByte host colon with
  | Some _ => lbrack :: host ++ (rbrack :: colon :: port)
  | None => host ++ (colon :: port)
  end.

(** ** Searching *)

Lemma IndexByte_None l c : IndexByte l c = None ↔ c ∉ l.
Proof.
  induction l as [|x l IH]; simpl; [set_solver|].
  case_decide; [set_solver|]. rewrite fmap_None, IH. set_solver.
Qed.

Lemma LastIndexByte_None l c : LastIndexByte l c = None ↔ c ∉ l.
Proof.
  induction l as [|x l IH]; simpl; [set_solver|].
  destruct (LastIndexByte l c) as [i|] eqn:E.
  - split; [done|]. destruct IH as [_ IH]. intros Hn. set_solver.
  - case_decide; set_solver.
Qed.

Lemma IndexByte_app l1 l2 c :
  c ∉ l1 → IndexByte (l1 ++ (c :: l2)) c = Some (length l1).
Proof.
  induction l1 as [|x l1 IH]; simpl; intros Hn; case_decide; try set_solver.
  rewrite IH; set_solver.
Qed.

Lemma LastIndexByte_app l1 l2 c :
  c ∉ l2 → LastIndexByte (l1 ++ (c :: l2)) c = Some (length l1).
Proof.
  intros Hn. induction l1 as [|x l1 IH]; simpl.
  - apply LastIndexByte_None in Hn. by rewrite Hn, decide_True.
  - by rewrite IH.
Qed.

(** ** Split after join *)

(** Hosts and ports that an address can carry: no brackets, and no colon in
    the port (a colon in the host is an IPv6 address). *)
Definition plain_host (h : chars) : Prop := lbrack ∉ h ∧ rbrack ∉ h.
Definition plain_port (p : chars) : Prop :=
  lbrack ∉ p ∧ rbrack ∉ p ∧ colon ∉ p.

Lemma split_join_v4 h p :
  colon ∉ h → plain_host h → plain_port p →
  SplitHostPort (h ++ (colon :: p)) = Ok (h, p).
Proof.
  intros Hc [Hl Hr] (Hpl & Hpr & Hpc). unfold SplitHostPort.
  rewrite LastIndexByte_app by done.
  assert (Hlb : lbrack ∉ h ++ (colon :: p)) by set_solver.
  assert (Hrb : rbrack ∉ h ++ (colon :: p)) by set_solver.
  destruct (h ++ (colon :: p)) as [|c rest] eqn:E.
  { by destruct h. }
  rewrite decide_False by set_solver.
  rewrite <-E in *. rewrite take_app_length.
  apply IndexByte_None in Hc, Hlb, Hrb. rewrite Hc. simpl.
  rewrite drop_0, Hlb, Hrb.
  change (colon :: p) with ([colon] ++ p).
  rewrite app_assoc, drop_app_length' by (rewrite length_app; simpl; lia).
  done.
Qed.

Lemma split_join_v6 h p :
  plain_host h → plain_port p →
  SplitHostPort (lbrack :: h ++ (rbrack :: colon :: p)) = Ok (h, p).
Proof.
  intros [Hl Hr] (Hpl & Hpr & Hpc). unfold SplitHostPort.
  assert (E1 : lbrack :: h ++ (rbrack :: colon :: p)
               = (lbrack :: h ++ [rbrack]) ++ (colon :: p)).
  { simpl. by rewrite <-app_assoc. }
  rewrite E1, LastIndexByte_app by done. rewrite <-E1.
  rewrite decide_True by done.
  assert (E2 : IndexByte (lbrack :: h ++ (rbrack :: colon :: p)) rbrack
               = Some (S (length h))).
  { apply (IndexByte_app (lbrack :: h)). set_solver. }
  rewrite E2.
  rewrite decide_False by (simpl; rewrite length_app; simpl; lia).
  rewrite decide_True by (simpl; rewrite length_app; simpl; lia).
  simpl. rewrite !drop_0, Nat.sub_0_r, take_app_length.
  assert (Hlb : lbrack ∉ h ++ (rbrack :: colon :: p)) by set_solver.
  apply IndexByte_None in Hlb. rewrite Hlb.
  assert (E3 : ∀ q, drop (length (h ++ [rbrack])) (h ++ (rbrack :: q)) = q).
  { intros q. change (rbrack :: q) with ([rbrack] ++ q).
    by rewrite app_assoc, drop_app_length. }
  assert (E4 : ∀ n (l : chars), drop (S n) l = drop 1 (drop n l)).
  { intros. by rewrite drop_drop, Nat.add_1_r. }
  replace (S (length h)) with (length (h ++ [rbrack]))
    by (rewrite length_app; simpl; lia).
  assert (Hrb : rbrack ∉ colon :: p) by set_solver.
  apply IndexByte_None in Hrb. by rewrite E4, !E3, Hrb.
Qed.

Lemma split_join h p :
  plain_host h → plain_port p → SplitHostPort (JoinHostPort h p) = Ok (h, p).
Proof.
  intros Hh Hp. unfold JoinHostPort. destruct (IndexByte h colon) eqn:E.
  - by apply split_join_v6.
  - apply IndexByte_None in E. by apply split_join_v4.
Qed.
