(* ===== verification/Messages.v ===== *)
(** * The protocol messages

    The records of [proto/rayclient.proto] that the services exchange, with
    the fields of the message prefixed by a short name of the message.
    Repeated fields are lists, map fields are finite maps, [bytes] fields are
    byte lists (on the wire a nil and an empty slice are the same). *)
From S2P Require Import Prelude Float32.

Record StatusResponse := {
  st_Success : bool; st_ErrorCode : Z; st_ErrorMessage : string; st_Details : string }.

(** [&pb.StatusResponse{Success: b}] *)
Definition Status (b : bool) : StatusResponse :=
  {| st_Success := b; st_ErrorCode := 0; st_ErrorMessage := ""; st_Details := "" |}.

Record GlobalScheduleRequest := {
  gs_Uid : uint64; gs_Name : uint64; gs_Args : bytes; gs_Kwargs : bytes;
  gs_Uids : list uint64; gs_NewObject : bool; gs_NodeId : uint64;
  gs_LocalityFlag : bool }.

Record HeartbeatRequest := {
  hb_RunningTasks : uint32; hb_QueuedTasks : uint32; hb_AvgRunningTime : float32;
  hb_AvgBandwidth : float32; hb_NodeId : uint64 }.

Record ScheduleRequest := {
  sr_Name : uint64; sr_Args : bytes; sr_Kwargs : bytes; sr_Uids : list uint64;
  sr_NodeId : uint64; sr_LocalityFlag : bool }.

Record ScheduleResponse := { sp_Uid : uint64 }.

Record StoreRequest := { so_Uid : uint64; so_ObjectBytes : bytes }.

Record GetRequest := {
  ge_Uid : uint64; ge_Testing : bool; ge_Copy : bool; ge_Cache : bool }.

Record GetResponse := {
  gr_Uid : uint64; gr_ObjectBytes : bytes; gr_Local : bool; gr_Size : uint64 }.

Record BandwidthResponse := { bw_AvgBandwidth : float32 }.

Record LocationFoundCallback := {
  lf_Uid : uint64; lf_Location : uint64; lf_Address : string; lf_Port : uint64 }.

Record CopyRequest := { cr_Uid : uint64; cr_Requester : uint64 }.

Record CopyResponse := { cp_Uid : uint64; cp_ObjectBytes : bytes }.

Record RunRequest := {
  rr_Uid : uint64; rr_Name : uint64; rr_Args : bytes; rr_Kwargs : bytes }.

Record WorkerStatusResponse := {
  ws_NumRunningTasks : uint32; ws_NumQueuedTasks : uint32;
  ws_AverageRunningTime : float32 }.

Record NotifyOwnsRequest := {
  no_Uid : uint64; no_NodeId : uint64; no_ObjectSize : uint64 }.

Record RequestLocationRequest := { rl_Uid : uint64; rl_Requester : uint64 }.

Record RequestLocationResponse := { rl_ImmediatelyFound : bool }.

Record ObjectLocationsRequest := { ol_Args : list uint64 }.

Record LocationByteTuple := { lb_Locations : list uint64; lb_Bytes : uint64 }.

Record ObjectLocationsResponse := { ol_Locations : gmap N LocationByteTuple }.

Record LiveNodesRequest := { ln_LiveNodes : gmap N bool }.

Record GeneratingRequest := { gn_Uid : uint64; gn_NodeId : uint64 }.

Record RegisterRequest := { rg_SerializedFunc : bytes }.

Record RegisterResponse := { rg_Name : uint64 }.

Record FetchRequest := { fe_Name : uint64; fe_CallbackNodeId : uint64 }.

Record FetchResponse := { fe_SerializedFunc : bytes }.
