(* ===== verification/Base64.v ===== *)
(** * Standard base64, as the worker and its Python script use it

    [encoding/base64]'s [StdEncoding] on the Go side ([EncodeToString],
    [DecodeString]) and [base64.b64decode]/[b64encode] on the Python side.
    The two decoders differ on malformed text: Go's refuses every byte outside
    the alphabet except line breaks, Python's skips such bytes. *)
From Stdlib Require Import Strings.Byte.
From S2P Require Import Prelude.

Local Open Scope N_scope.

Definition byte_N (b : byte) : N := Byte.to_N b.
Definition N_byte (n : N) : byte := default Byte.x00 (Byte.of_N n).

Definition alphabet : bytes :=
  String.list_byte_of_string "ABCDEFGHIJKLMNOPQRSTUVWXYZabcdefghijklmnopqrstuvwxyz0123456789+/".
Definition padChar : byte := "="%byte.
Definition newline : byte := Byte.x0a.
Definition carriage_return : byte := Byte.x0d.

Definition encode_char (s : N) : byte := default padChar (alphabet !! N.to_nat s).
Definition decodeMap (b : byte) : option N :=
  (λ p, N.of_nat p.1) <$> list_find (λ c, c = b) alphabet.

(** Six bits of a group of three bytes, and the three bytes of four sextets. *)
Definition sextet (v : N) (k : N) : N := v / 2 ^ (6 * k) mod 64.
Definition octet (v : N) (k : N) : N := v / 2 ^ (8 * k) mod 256.
Definition group (b0 b1 b2 : N) : N := b0 * 65536 + b1 * 256 + b2.
Definition quantum (s0 s1 s2 s3 : N) : N := s0 * 262144 + s1 * 4096 + s2 * 64 + s3.

Fixpoint EncodeToString (src : bytes) : bytes :=
  match src with
  | [] => []
  | [b0] =>
      let v := group (byte_N b0) 0 0 in
      [encode_char (sextet v 3); encode_char (sextet v 2); padChar; padChar]
  | [b0; b1] =>
      let v := group (byte_N b0) (byte_N b1) 0 in
      [encode_char (sextet v 3); encode_char (sextet v 2);
       encode_char (sextet v 1); padChar]
  | b0 :: b1 :: b2 :: src =>
      let v := group (byte_N b0) (byte_N b1) (byte_N b2) in
      encode_char (sextet v 3) :: encode_char (sextet v 2) ::
      encode_char (sextet v 1) :: encode_char (sextet v 0) :: EncodeToString src
  end.

Definition illegal : goerror := PlainError "illegal base64 data".

(** The quanta of the text without its line breaks.  Padding ends the text;
    the bits it leaves over are not checked. *)
Fixpoint decode_quanta (src : bytes) : result bytes :=
  match src with
  | [] => Ok []
  | c0 :: c1 :: c2 :: c3 :: src =>
      match decodeMap c0, decodeMap c1, decodeMap c2, decodeMap c3 with
      | Some s0, Some s1, Some s2, Some s3 =>
          let v := quantum s0 s1 s2 s3 in
          rest ← decode_quanta src;
          Ok (N_byte (octet v 2) :: N_byte (octet v 1) :: N_byte (octet v 0) :: rest)
      | Some s0, Some s1, Some s2, None =>
          if decide (c3 = padChar ∧ src = []) then
            let v := quantum s0 s1 s2 0 in
            Ok [N_byte (octet v 2); N_byte (octet v 1)]
          else Err illegal
      | Some s0, Some s1, None, _ =>
          if decide (c2 = padChar ∧ c3 = padChar ∧ src = []) then
            Ok [N_byte (octet (quantum s0 s1 0 0) 2)]
          else Err illegal
      | _, _, _, _ => Err illegal
      end
  | _ => Err illegal
  end.

Definition DecodeString (s : bytes) : result bytes :=
  decode_quanta (filter (λ c, c ≠ newline ∧ c ≠ carriage_return) s).

(** Python's lenient decoder ([binascii.a2b_base64]): [q] holds the sextets
    of the open quantum, [pads] the padding seen since the last of them. *)
Fixpoint a2b_base64 (q : list N) (pads : nat) (l : bytes) : option bytes :=
  match l with
  | [] => if decide (q = []) then Some [] else None
  | c :: l =>
      if decide (c = padChar) then
        if decide (2 ≤ length q)%nat then
          if decide (4 ≤ length q + S pads)%nat then
            match q with
            | [s0; s1] => Some [N_byte (octet (quantum s0 s1 0 0) 2)]
            | [s0; s1; s2] =>
                let v := quantum s0 s1 s2 0 in
                Some [N_byte (octet v 2); N_byte (octet v 1)]
            | _ => None
            end
          else a2b_base64 q (S pads) l
        else a2b_base64 q pads l
      else
        match decodeMap c with
        | None => a2b_base64 q pads l
        | Some s =>
            match q with
            | [s0; s1; s2] =>
                let v := quantum s0 s1 s2 s in
                rest ← a2b_base64 [] 0 l;
                Some (N_byte (octet v 2) :: N_byte (octet v 1) :: N_byte (octet v 0) :: rest)
            | _ => a2b_base64 (q ++ [s]) 0 l
            end
        end
  end.

Definition b64decode (s : bytes) : option bytes := a2b_base64 [] 0 s.

(** ** Lemmas *)

Lemma byte_N_bound b : byte_N b < 256.
Proof. pose proof (Byte.to_N_bounded b). unfold byte_N. lia. Qed.

Lemma N_byte_N b : N_byte (byte_N b) = b.
Proof. unfold N_byte, byte_N. by rewrite Byte.of_to_N. Qed.

Lemma alphabet_spec s : s < 64 →
  decodeMap (encode_char s) = Some s ∧ encode_char s ≠ padChar ∧
  encode_char s ≠ newline ∧ encode_char s ≠ carriage_return.
Proof.
  intros Hs.
  assert (Hall : Forall (λ s, decodeMap (encode_char s) = Some s ∧ encode_char s ≠ padChar ∧
    encode_char s ≠ newline ∧ encode_char s ≠ carriage_return) (N.of_nat <$> seq 0 64)).
  { apply (bool_decide_unpack _). vm_compute. exact I. }
  rewrite Forall_forall in Hall. apply Hall.
  apply list_elem_of_fmap. exists (N.to_nat s). rewrite elem_of_seq. lia.
Qed.

Lemma decodeMap_pad : decodeMap padChar = None.
Proof. reflexivity. Qed.

#[local] Ltac Zify.zify_post_hook ::= Z.to_euclidean_division_equations.

Lemma sextet_lt v k : sextet v k < 64.
Proof. unfold sextet. by apply N.mod_lt. Qed.

Lemma quantum_sextets v : v < 16777216 →
  quantum (sextet v 3) (sextet v 2) (sextet v 1) (sextet v 0) = v.
Proof.
  unfold quantum, sextet. change (2 ^ (6 * 3)) with 262144. change (2 ^ (6 * 2)) with 4096.
  change (2 ^ (6 * 1)) with 64. change (2 ^ (6 * 0)) with 1. lia.
Qed.

Lemma group_octets b0 b1 b2 : b0 < 256 → b1 < 256 → b2 < 256 →
  octet (group b0 b1 b2) 2 = b0 ∧ octet (group b0 b1 b2) 1 = b1 ∧
  octet (group b0 b1 b2) 0 = b2 ∧ group b0 b1 b2 < 16777216.
Proof.
  unfold group, octet. change (2 ^ (8 * 2)) with 65536. change (2 ^ (8 * 1)) with 256.
  change (2 ^ (8 * 0)) with 1. lia.
Qed.

Lemma sextet_zero b0 b1 : sextet (group b0 b1 0) 0 = 0 ∧ sextet (group b0 0 0) 1 = 0.
Proof.
  unfold group, sextet. change (2 ^ (6 * 1)) with 64. change (2 ^ (6 * 0)) with 1. lia.
Qed.

(** Induction by groups of three bytes, the way the encoder consumes them. *)
Lemma bytes_ind3 (P : bytes → Prop) :
  P [] → (∀ a, P [a]) → (∀ a b, P [a; b]) →
  (∀ a b c l, P l → P (a :: b :: c :: l)) → ∀ l, P l.
Proof.
  intros H0 H1 H2 H3 l. assert (Hl : ∀ n l, (length l ≤ n)%nat → P l).
  { clear l. induction n as [|n IH]; intros [|a [|b [|c l]]] Hn; simpl in Hn; auto; try lia.
    apply H3, IH. lia. }
  by apply (Hl (length l)).
Qed.

Lemma encode_char_decode s : s < 64 → decodeMap (encode_char s) = Some s.
Proof. intros H. by apply alphabet_spec. Qed.

Lemma encode_char_pad s : s < 64 → encode_char s ≠ padChar.
Proof. intros H. by apply alphabet_spec. Qed.

Lemma encode_char_line s : s < 64 → encode_char s ≠ newline ∧ encode_char s ≠ carriage_return.
Proof. intros H. by apply alphabet_spec. Qed.

(** The bytes of a group come back from its four sextets. *)
Lemma octets_back b0 b1 b2 :
  let v := group (byte_N b0) (byte_N b1) (byte_N b2) in
  let w := quantum (sextet v 3) (sextet v 2) (sextet v 1) (sextet v 0) in
  N_byte (octet w 2) = b0 ∧ N_byte (octet w 1) = b1 ∧ N_byte (octet w 0) = b2.
Proof.
  destruct (group_octets (byte_N b0) (byte_N b1) (byte_N b2)) as (H0 & H1 & H2 & Hv);
    [apply byte_N_bound..|].
  simpl. rewrite quantum_sextets by done. rewrite H0, H1, H2. by rewrite !N_byte_N.
Qed.

Lemma octets_back_two b0 b1 :
  let v := group (byte_N b0) (byte_N b1) 0 in
  let w := quantum (sextet v 3) (sextet v 2) (sextet v 1) 0 in
  N_byte (octet w 2) = b0 ∧ N_byte (octet w 1) = b1.
Proof.
  destruct (octets_back b0 b1 Byte.x00) as (H0 & H1 & _). revert H0 H1.
  change (byte_N Byte.x00) with 0. simpl.
  by rewrite (proj1 (sextet_zero (byte_N b0) (byte_N b1))).
Qed.

Lemma octets_back_one b0 :
  let v := group (byte_N b0) 0 0 in
  N_byte (octet (quantum (sextet v 3) (sextet v 2) 0 0) 2) = b0.
Proof.
  destruct (octets_back_two b0 Byte.x00) as [H0 _]. revert H0.
  change (byte_N Byte.x00) with 0. simpl.
  by rewrite (proj2 (sextet_zero (byte_N b0) 0)).
Qed.

Lemma EncodeToString_lines bs :
  Forall (λ c, c ≠ newline ∧ c ≠ carriage_return) (EncodeToString bs).
Proof.
  assert (Hp : padChar ≠ newline ∧ padChar ≠ carriage_return) by done.
  induction bs using bytes_ind3; simpl;
    repeat first [apply Forall_nil_2 | apply Forall_cons_2];
    auto using encode_char_line, sextet_lt.
Qed.

Lemma decode_quanta_encode bs : decode_quanta (EncodeToString bs) = Ok bs.
Proof.
  induction bs as [|a|a b|a b c l IH] using bytes_ind3; [done|..];
    cbn [EncodeToString decode_quanta];
    rewrite !encode_char_decode by apply sextet_lt; rewrite ?decodeMap_pad.
  - rewrite decide_True by done. by rewrite octets_back_one.
  - rewrite decide_True by done. by destruct (octets_back_two a b) as [-> ->].
  - rewrite IH. simpl. by destruct (octets_back a b c) as (-> & -> & ->).
Qed.

Lemma filter_all {A} (P : A → Prop) `{∀ x, Decision (P x)} l : Forall P l → filter P l = l.
Proof.
  induction 1 as [|x l Hx _ IH]; [done|]. by rewrite filter_cons_True, IH.
Qed.

Lemma decode_encode bs : DecodeString (EncodeToString bs) = Ok bs.
Proof.
  unfold DecodeString. rewrite filter_all by apply EncodeToString_lines.
  apply decode_quanta_encode.
Qed.

Lemma a2b_char q pads s l : s < 64 →
  a2b_base64 q pads (encode_char s :: l) =
    match q with
    | [s0; s1; s2] =>
        let v := quantum s0 s1 s2 s in
        rest ← a2b_base64 [] 0 l;
        Some (N_byte (octet v 2) :: N_byte (octet v 1) :: N_byte (octet v 0) :: rest)
    | _ => a2b_base64 (q ++ [s]) 0 l
    end.
Proof.
  intros Hs. simpl. rewrite decide_False by auto using encode_char_pad.
  by rewrite encode_char_decode.
Qed.

Lemma b64decode_encode bs : b64decode (EncodeToString bs) = Some bs.
Proof.
  unfold b64decode.
  induction bs as [|a|a b|a b c l IH] using bytes_ind3; [done|..];
    cbn [EncodeToString]; rewrite !a2b_char by apply sextet_lt; cbn [app].
  - simpl. by rewrite octets_back_one.
  - simpl. by destruct (octets_back_two a b) as [-> ->].
  - rewrite IH. simpl. by destruct (octets_back a b c) as (-> & -> & ->).
Qed.
