(* ===== verification/Config.v ===== *)
(** * Configuration and peer addresses

    [go/config/config.go]: the record the YAML file is decoded into, the
    loader, and the [Sprintf("%s%d:%d", prefix, id, port)] with which every
    service names its peers.  The environment, the file system and the YAML
    decoder are parameters of the loader. *)
From Stdlib Require Import Ascii.
From S2P Require Import Prelude Float32 Net.

Record NodeIDs := { id_GCS : Z; id_GlobalScheduler : Z; id_Ourself : Z }.

Record Ports := {
  port_LocalObjectStore : Z; port_LocalScheduler : Z; port_LocalWorkerStart : Z;
  port_GCSFunctionTable : Z; port_GCSObjectTable : Z; port_GlobalScheduler : Z }.

Record Config := {
  NumWorkerNodes : Z; ClusterSize : Z; SimulatedDelay : float32;
  cfg_NodeIDs : NodeIDs; cfg_Ports : Ports; NodePrefix : string;
  FlushIntervalSec : Z; EnableChainReplication : bool }.

Section Load.
Context (Getenv : string → string) (Join : list string → string)
        (ReadFile : string → result bytes) (Unmarshal : bytes → result Config).

(** [LoadConfig]: any failure ends the process. *)
Definition LoadConfig : outcome Config :=
  let rootPath := Getenv "PROJECT_ROOT" in
  let configFile := Join [rootPath; "config"; "app_config.yaml"] in
  match ReadFile configFile with
  | Err e => Fatal ("error: " +:+ error_text e)
  | Ok yamlFile =>
      match Unmarshal yamlFile with
      | Err e => Fatal ("Unmarshal: " +:+ error_text e)
      | Ok config => Returns config
      end
  end.

(** The package variable [cfg], nil until the package's [init] has run. *)
Definition init : outcome (option Config) := config ← LoadConfig; Returns (Some config).
Definition GetConfig (cfg : option Config) : option Config := cfg.

(** Every service that starts sees the file's configuration, never a nil one. *)
Lemma init_GetConfig cfg : init = Returns cfg → ∃ config, LoadConfig = Returns config ∧ GetConfig cfg = Some config.
Proof. unfold init. destruct LoadConfig as [config| |]; simpl; [|done..]. intros [= <-]. by exists config. Qed.
End Load.

(** The configuration shipped in [config/app_config.yaml]. *)
Definition app_config : Config := {|
  NumWorkerNodes := 5; ClusterSize := 0; SimulatedDelay := of_uint 0;
  cfg_NodeIDs := {| id_GCS := 0; id_GlobalScheduler := 1; id_Ourself := 2 |};
  cfg_Ports := {| port_LocalObjectStore := 50000; port_LocalScheduler := 50001;
    port_LocalWorkerStart := 50002; port_GCSFunctionTable := 50000;
    port_GCSObjectTable := 50001; port_GlobalScheduler := 50000 |};
  NodePrefix := "node"; FlushIntervalSec := 1; EnableChainReplication := true |}.

(** [fmt.Sprintf("%s%d:%d", prefix, id, port)] for a [uint64] node id. *)
Definition node_address (prefix : string) (id : uint64) (port : Z) : string :=
  prefix +:+ FormatUint id +:+ ":" +:+ pretty port.

(** ** Decimal numbers hold no colon, so an address identifies its node *)

Lemma digit_not_colon n : pretty_N_char n ≠ colon.
Proof. unfold pretty_N_char, colon. intros E. by repeat (discriminate || case_match). Qed.

Lemma to_chars_app s1 s2 : to_chars (s1 +:+ s2) = to_chars s1 ++ to_chars s2.
Proof. induction s1 as [|c s1 IH]; [done|].
  change (c :: to_chars (s1 +:+ s2) = c :: (to_chars s1 ++ to_chars s2)). by rewrite IH.
Qed.

Lemma pretty_go_no_colon n s :
  colon ∉ to_chars s → colon ∉ to_chars (pretty_N_go n s).
Proof.
  revert s. induction (N.lt_wf_0 n) as [n _ IH]. intros s Hs.
  destruct (decide (0 < n)%N) as [Hn|Hn].
  - rewrite pretty_N_go_step by done. apply IH; [by apply N.div_lt|].
    change (colon ∉ pretty_N_char (n `mod` 10) :: to_chars s).
    rewrite elem_of_cons. intros [E|?]; [|done]. by eapply digit_not_colon.
  - replace n with 0%N by lia. by rewrite pretty_N_go_0.
Qed.

Lemma FormatUint_no_colon n : colon ∉ to_chars (FormatUint n).
Proof.
  unfold FormatUint, pretty, pretty_N. case_decide; [|apply pretty_go_no_colon].
  - change (colon ∉ ["0"%char]). by rewrite list_elem_of_singleton.
  - apply not_elem_of_nil.
Qed.

Lemma chars_split_colon (l1 l2 r1 r2 : chars) :
  colon ∉ l1 → colon ∉ l2 → l1 ++ (colon :: r1) = l2 ++ (colon :: r2) →
  l1 = l2 ∧ r1 = r2.
Proof.
  intros H1 H2 E. pose proof (IndexByte_app l1 r1 colon H1) as E1.
  rewrite E, IndexByte_app in E1 by done. injection E1 as E1.
  apply app_inj_1 in E as [-> E]; [|done]. by injection E.
Qed.

Lemma to_chars_inj s1 s2 : to_chars s1 = to_chars s2 → s1 = s2.
Proof.
  intros E. rewrite <-(String.string_of_list_ascii_of_string s1).
  rewrite <-(String.string_of_list_ascii_of_string s2).
  unfold to_chars in E. by rewrite E.
Qed.

Lemma node_address_same prefix id1 id2 port1 port2 :
  node_address prefix id1 port1 = node_address prefix id2 port2 →
  id1 = id2 ∧ port1 = port2.
Proof.
  unfold node_address. intros E. apply (inj (String.app prefix)) in E.
  apply (f_equal to_chars) in E. rewrite !to_chars_app in E.
  apply chars_split_colon in E as [Ei Ep]; [|apply FormatUint_no_colon..].
  apply to_chars_inj in Ei, Ep. split; by apply (inj pretty).
Qed.
