(* ===== verification/Strconv.v ===== *)
(** * Numbers in text

    The part of Go's [strconv] that reads numbers: [Atoi], with which the
    services read their node id, over the loop of [ParseUint]; and the unbounded
    decimal reader of the append-only file, with which that loop agrees below
    2^64.  [FormatUint] of [Net] prints; the theorems are that reading inverts
    printing and that a printed number holds digits only. *)
From Stdlib Require Import Ascii.
From S2P Require Import Prelude Net Config.

Definition digit (c : ascii) : option N :=
  if decide (48 ≤ N_of_ascii c ≤ 57)%N then Some (N_of_ascii c - 48)%N else None.

Definition read_digit (acc : option N) (c : ascii) : option N :=
  a ← acc; d ← digit c; Some (10 * a + d)%N.

Definition read_decimal (l : chars) : option N :=
  match l with [] => None | _ => foldl read_digit (Some 0%N) l end.

(** The loop of [strconv.ParseUint] to base 10: it ends at the first character
    that is not a digit and at the first digit that leaves 64 bits, whichever
    comes first. *)
Inductive uint_result := UintOk (n : N) | UintSyntax | UintRange.

Definition parse_step (r : uint_result) (c : ascii) : uint_result :=
  match r with
  | UintOk n =>
      match digit c with
      | Some d => if decide (10 * n + d < two64)%N then UintOk (10 * n + d) else UintRange
      | None => UintSyntax
      end
  | r => r
  end.

Definition ParseUint (l : chars) : uint_result :=
  match l with [] => UintSyntax | _ => foldl parse_step (UintOk 0) l end.

(** [strconv.Atoi] on a 64-bit machine: an optional sign and decimal digits.
    The value that goes with an error is 0, or the nearest [int] when the number
    is out of range. *)
Definition max_int : Z := 9223372036854775807.
Definition min_int : Z := -9223372036854775808.

Definition Atoi (s : string) : Z * option goerror :=
  let s := to_chars s in
  let '(neg, digits) :=
    match s with
    | c :: rest => if decide (c = "-"%char) then (true, rest)
                   else if decide (c = "+"%char) then (false, rest) else (false, s)
    | [] => (false, s)
    end in
  let out_of_range := (if neg : bool then min_int else max_int, Some (PlainError "value out of range")) in
  match ParseUint digits with
  | UintSyntax => (0%Z, Some (PlainError "invalid syntax"))
  | UintRange => out_of_range
  | UintOk n =>
      let z := if neg then (- Z.of_N n)%Z else Z.of_N n in
      if decide (min_int ≤ z ≤ max_int)%Z then (z, None) else out_of_range
  end.

(** The conversion [uint64(i)] of an [int]. *)
Definition to_uint64 (i : Z) : uint64 := Z.to_N (i mod Z.of_N two64).

Example Atoi_ok : Atoi "4" = (4%Z, None). Proof. reflexivity. Qed.
Example Atoi_unset : (Atoi "").1 = 0%Z. Proof. reflexivity. Qed.
Example Atoi_negative : to_uint64 (Atoi "-1").1 = 18446744073709551615%N.
Proof. vm_compute. reflexivity. Qed.
Example Atoi_overflow : (Atoi "99999999999999999999x").1 = max_int.
Proof. vm_compute. reflexivity. Qed.
Example Atoi_garbage : (Atoi "9223372036854775808x").1 = 0%Z.
Proof. vm_compute. reflexivity. Qed.

(** ** Reading inverts printing *)

Lemma read_digits_none l : foldl read_digit None l = None.
Proof. by induction l. Qed.

(** More digits make a larger number. *)
Lemma read_digits_grow l a n : foldl read_digit (Some a) l = Some n → (a ≤ n)%N.
Proof.
  revert a. induction l as [|c l IH]; intros a; [by intros [= ->]|].
  cbn [foldl]. unfold read_digit at 2. cbn [mbind option_bind].
  destruct (digit c) as [d|]; cbn [mbind option_bind]; [|by rewrite read_digits_none].
  intros E%IH. lia.
Qed.

Lemma read_decimal_go n s :
  foldl read_digit (Some 0%N) (to_chars (pretty_N_go n s))
  = foldl read_digit (Some n) (to_chars s).
Proof.
  revert s. induction (N.lt_wf_0 n) as [n _ IH]. intros s.
  destruct (decide (0 < n)%N) as [Hn|Hn]; [|by replace n with 0%N by lia; rewrite pretty_N_go_0].
  rewrite pretty_N_go_step by done. rewrite IH by (by apply N.div_lt).
  change (to_chars (String ?c s)) with (c :: to_chars s). cbn [foldl].
  f_equal. unfold read_digit at 1. cbn [mbind option_bind].
  assert (n `mod` 10 < 10)%N as Hd by (by apply N.mod_lt).
  assert (digit (pretty_N_char (n `mod` 10)) = Some (n `mod` 10)%N) as ->.
  { remember (n `mod` 10)%N as d.
    assert (d = 0 ∨ d = 1 ∨ d = 2 ∨ d = 3 ∨ d = 4 ∨ d = 5 ∨ d = 6 ∨ d = 7 ∨ d = 8 ∨ d = 9)%N
      as Hc by lia.
    clear -Hc. by repeat destruct Hc as [->|Hc]; [..|subst]. }
  cbn [mbind option_bind]. f_equal. by rewrite <-N.div_mod.
Qed.

Lemma FormatUint_nonempty n : to_chars (FormatUint n) ≠ [].
Proof.
  unfold FormatUint, pretty, pretty_N. case_decide as Hn; [done|].
  assert (∀ n s, s ≠ "" → pretty_N_go n s ≠ "") as Hgo.
  { clear. intros n. induction (N.lt_wf_0 n) as [n _ IH]. intros s Hs.
    destruct (decide (0 < n)%N); [|by replace n with 0%N by lia; rewrite pretty_N_go_0].
    rewrite pretty_N_go_step by done. apply IH; [by apply N.div_lt|done]. }
  rewrite pretty_N_go_step by lia. intros E.
  apply (Hgo (n `div` 10)%N (String (pretty_N_char (n `mod` 10)) "")); [done|].
  by apply to_chars_inj.
Qed.

(** Decimal numbers read back. *)
Lemma read_FormatUint n : read_decimal (to_chars (FormatUint n)) = Some n.
Proof.
  pose proof (FormatUint_nonempty n) as Hne. unfold read_decimal.
  destruct (to_chars (FormatUint n)) as [|c l] eqn:E; [done|]. rewrite <-E. clear E Hne.
  unfold FormatUint, pretty, pretty_N. case_decide as Hn; [by subst|].
  apply read_decimal_go.
Qed.

(** A character that is not a digit does not occur in a decimal number. *)
Lemma digits_of_FormatUint n c : digit c = None → c ∉ to_chars (FormatUint n).
Proof.
  intros Hc Hin. pose proof (read_FormatUint n) as Hr. revert Hr Hin.
  unfold read_decimal. destruct (to_chars (FormatUint n)) as [|c' l]; [done|].
  generalize (c' :: l). clear c' l. intros l Hr Hin. revert Hr.
  assert (∀ l, foldl read_digit None l = None) as HN by (induction l0; done).
  generalize (Some 0%N). induction l as [|x l IH]; [by apply not_elem_of_nil in Hin|].
  intros acc. cbn [foldl]. apply elem_of_cons in Hin as [->|Hin]; [|by apply IH].
  unfold read_digit at 2. rewrite Hc. destruct acc; cbn; by rewrite HN.
Qed.

(** [ParseUint] reads what fits 64 bits as [read_decimal] does. *)
Lemma parse_step_read l a n :
  foldl read_digit (Some a) l = Some n → (n < two64)%N → foldl parse_step (UintOk a) l = UintOk n.
Proof.
  revert a. induction l as [|c l IH]; intros a; [by intros [= ->]|].
  cbn [foldl]. unfold read_digit at 2, parse_step at 2. cbn [mbind option_bind].
  destruct (digit c) as [d|]; cbn [mbind option_bind]; [|by rewrite read_digits_none].
  intros E Hn. pose proof (read_digits_grow _ _ _ E). rewrite decide_True by lia. by apply IH.
Qed.

Lemma ParseUint_read l n : read_decimal l = Some n → (n < two64)%N → ParseUint l = UintOk n.
Proof. unfold read_decimal, ParseUint. destruct l; [done|]. apply parse_step_read. Qed.

(** A node id that fits an [int] is read back from its decimal text. *)
Lemma Atoi_FormatUint n :
  (n < two63)%N → Atoi (FormatUint n) = (Z.of_N n, None).
Proof.
  intros Hn. unfold Atoi.
  pose proof (read_FormatUint n) as Hr. pose proof (FormatUint_nonempty n) as Hne.
  pose proof (digits_of_FormatUint n "-"%char eq_refl) as Hm.
  pose proof (digits_of_FormatUint n "+"%char eq_refl) as Hp.
  destruct (to_chars (FormatUint n)) as [|c l]; [done|].
  rewrite decide_False by (intros ->; apply Hm; left).
  rewrite decide_False by (intros ->; apply Hp; left).
  rewrite (ParseUint_read _ _ Hr) by (unfold two63, two64 in *; lia).
  unfold two63, max_int, min_int in *. by rewrite decide_True by lia.
Qed.

Lemma to_uint64_of_N n : (n < two64)%N → to_uint64 (Z.of_N n) = n.
Proof. intros Hn. unfold to_uint64. rewrite Z.mod_small by lia. apply N2Z.id. Qed.
