(* ===== verification/Aof.v ===== *)
(** * The append-only file of the object table

    [WriteObjectLocationsToAOF] of [go/cmd/gcsobjtable/main.go], over the
    [os.File] and the [bufio.Writer] it writes through.  The operating system
    may refuse to open the file or any of its writes, after accepting a prefix:
    [open_fault] and [write_fault] range over every such behaviour.  The
    theorem is that the written text can be read back. *)
From Stdlib Require Import Ascii.
From S2P Require Import Prelude Net Config Strconv.

(** The file, and how many writes it has seen. *)
Record File := { content : chars; writes : nat }.

Record Writer := { wr : File; buf : chars; err : option goerror }.

(** [bufio.NewWriter]'s buffer of 4096 bytes. *)
Definition defaultBufSize : nat := N.to_nat 4096.

Definition linefeed : ascii := ascii_of_nat 10.
Definition comma : ascii := ","%char.

(** One line of the file, [key: [v1,v2,..]]. *)
Definition values_str (values : list N) : string :=
  foldl (λ valuesStr iv, (if decide (0 < iv.1) then valuesStr +:+ "," else valuesStr)
                           +:+ FormatUint iv.2) "" (imap pair values).

Definition entry_line (key : N) (values : list N) : chars :=
  to_chars (FormatUint key +:+ ": [" +:+ values_str values +:+ "]") ++ [linefeed].

Section Write.
Context (open_fault : option goerror) (write_fault : nat → chars → option (nat * goerror)).

(** [file.Write]: the number of bytes accepted, and an error when that is not
    all of them. *)
Definition file_write (f : File) (p : chars) : File * nat * option goerror :=
  match write_fault (writes f) p with
  | None => ({| content := content f ++ p; writes := S (writes f) |}, length p, None)
  | Some (n, e) =>
      let n := n `min` length p in
      ({| content := content f ++ take n p; writes := S (writes f) |}, n, Some e)
  end.

Definition NewWriter (f : File) : Writer := {| wr := f; buf := []; err := None |}.

Definition Flush (w : Writer) : Writer * option goerror :=
  match err w with
  | Some e => (w, Some e)
  | None =>
      if decide (buf w = []) then (w, None)
      else
        let '(f, n, e) := file_write (wr w) (buf w) in
        match e with
        | Some e => ({| wr := f; buf := drop n (buf w); err := Some e |}, Some e)
        | None => ({| wr := f; buf := []; err := None |}, None)
        end
  end.

(** The loop of [bufio.Writer.WriteString]: a text longer than the free space
    goes straight to the file when the buffer is empty and fills it up
    otherwise.  It runs at most twice. *)
Fixpoint write_loop (fuel : nat) (w : Writer) (s : chars) : Writer * chars :=
  match fuel with
  | O => (w, s)
  | S fuel =>
      let Available := defaultBufSize - length (buf w) in
      if decide (Available < length s ∧ err w = None) then
        if decide (buf w = []) then
          let '(f, n, e) := file_write (wr w) s in
          write_loop fuel {| wr := f; buf := buf w; err := e |} (drop n s)
        else
          let w := {| wr := wr w; buf := buf w ++ take Available s; err := err w |} in
          write_loop fuel (Flush w).1 (drop Available s)
      else (w, s)
  end.

Definition WriteString (w : Writer) (s : chars) : Writer * option goerror :=
  let '(w, s) := write_loop 2 w s in
  match err w with
  | Some e => (w, Some e)
  | None => ({| wr := wr w; buf := buf w ++ s; err := None |}, None)
  end.

(** The loop over the map, in the order it visits the entries. *)
Fixpoint write_entries (w : Writer) (entries : list (N * list N)) : Writer * option goerror :=
  match entries with
  | [] => (w, None)
  | (key, values) :: entries =>
      match WriteString w (entry_line key values) with
      | (w, Some e) => (w, Some (PlainError ("error writing to file: " +:+ error_text e)))
      | (w, None) => write_entries w entries
      end
  end.

Definition WriteObjectLocationsToAOF (o : order) (file : File)
    (objectLocations : gmap N (list N)) : File * option goerror :=
  match open_fault with
  | Some e => (file, Some (PlainError ("error opening file: " +:+ error_text e)))
  | None =>
      match write_entries (NewWriter file) (range o objectLocations) with
      | (w, Some e) => (wr w, Some e)
      | (w, None) =>
          match Flush w with
          | (w, Some e) => (wr w, Some (PlainError ("error flushing buffer: " +:+ error_text e)))
          | (w, None) => (wr w, None)
          end
      end
  end.
End Write.

(** ** A reader of the file, the reference for the format *)

(** The pieces between the occurrences of [c]. *)
Fixpoint split_on (c : ascii) (l : chars) : list chars :=
  match l with
  | [] => [[]]
  | x :: l' =>
      if decide (x = c) then [] :: split_on c l'
      else match split_on c l' with
           | piece :: pieces => (x :: piece) :: pieces
           | [] => [[x]]
           end
  end.

Definition read_values (l : chars) : option (list N) :=
  match l with [] => Some [] | _ => mapM read_decimal (split_on comma l) end.

Definition read_line (l : chars) : option (N * list N) :=
  i ← IndexByte l colon;
  key ← read_decimal (take i l);
  match drop (S i) l with
  | sp :: br :: rest =>
      if decide (sp = " "%char ∧ br = lbrack ∧ last rest = Some rbrack) then
        values ← read_values (take (length rest - 1) rest); Some (key, values)
      else None
  | _ => None
  end.

(** Every line ends in a newline, so the last piece is empty. *)
Definition read_aof (l : chars) : option (list (N * list N)) :=
  let pieces := split_on linefeed l in
  if decide (last pieces = Some []) then mapM read_line (take (length pieces - 1) pieces)
  else None.

Example aof_line : entry_line 1 [10; 20; 30]%N = to_chars "1: [10,20,30]" ++ [linefeed].
Proof. reflexivity. Qed.
Example aof_read : read_aof (entry_line 1 [10; 20; 30]%N ++ entry_line 2 [])
  = Some [(1%N, [10; 20; 30]%N); (2%N, [])].
Proof. vm_compute. reflexivity. Qed.

(** ** Reading back what was written *)

Lemma split_on_plain c l : c ∉ l → split_on c l = [l].
Proof.
  induction l as [|x l IH]; intros Hn; [done|]. simpl.
  rewrite decide_False by (intros ->; apply Hn; left).
  rewrite IH; [done|]. intros ?; apply Hn; by right.
Qed.

Lemma split_on_app c l1 l2 : c ∉ l1 → split_on c (l1 ++ c :: l2) = l1 :: split_on c l2.
Proof.
  induction l1 as [|x l1 IH]; intros Hn; simpl; [by rewrite decide_True|].
  rewrite decide_False by (intros ->; apply Hn; left).
  rewrite IH; [done|]. intros ?; apply Hn; by right.
Qed.

Definition tail_values (values : list N) : chars :=
  values ≫= λ v, comma :: to_chars (FormatUint v).

Lemma values_str_tail k values acc :
  to_chars (foldl (λ valuesStr iv,
      (if decide (0 < iv.1) then valuesStr +:+ "," else valuesStr) +:+ FormatUint iv.2)
    acc (imap (λ i v, (S k + i, v)) values)) = to_chars acc ++ tail_values values.
Proof.
  revert k acc. induction values as [|v values IH]; intros k acc; cbn [imap foldl].
  { symmetry. apply app_nil_r. }
  rewrite (imap_ext _ (λ i v, (S (S k) + i, v))) by (intros; cbn; f_equal; lia).
  rewrite IH. cbn [fst snd]. rewrite decide_True by lia.
  rewrite !to_chars_app, <-!app_assoc. done.
Qed.

Lemma values_str_cons v values :
  to_chars (values_str (v :: values)) = to_chars (FormatUint v) ++ tail_values values.
Proof.
  unfold values_str. cbn [imap foldl fst snd]. rewrite decide_False by lia.
  rewrite (imap_ext _ (λ i v, (1 + i, v))) by done. apply (values_str_tail 0).
Qed.

Lemma split_on_values v values :
  split_on comma (to_chars (FormatUint v) ++ tail_values values)
  = (λ v, to_chars (FormatUint v)) <$> (v :: values).
Proof.
  revert v. induction values as [|v' values IH]; intros v.
  - cbn. rewrite app_nil_r. by apply split_on_plain, digits_of_FormatUint.
  - change (tail_values (v' :: values))
      with (comma :: (to_chars (FormatUint v') ++ tail_values values)).
    rewrite split_on_app by (by apply digits_of_FormatUint). by rewrite IH.
Qed.

Lemma read_values_str values : read_values (to_chars (values_str values)) = Some values.
Proof.
  destruct values as [|v values]; [done|]. rewrite values_str_cons. unfold read_values.
  destruct (_ ++ _) eqn:E.
  { apply app_eq_nil in E as [E _]. by apply FormatUint_nonempty in E. }
  rewrite <-E, split_on_values. apply mapM_Some. induction (v :: values); constructor; [|done].
  apply read_FormatUint.
Qed.

(** What an entry's line holds before its newline. *)
Definition line_chars (key : N) (values : list N) : chars :=
  to_chars (FormatUint key) ++ (colon :: " "%char :: lbrack ::
    (to_chars (values_str values) ++ [rbrack])).

Lemma entry_line_chars key values : entry_line key values = line_chars key values ++ [linefeed].
Proof.
  unfold entry_line, line_chars. rewrite !to_chars_app, <-!app_assoc.
  change (to_chars ": [") with [colon; " "%char; lbrack]. cbn [app]. by rewrite <-app_assoc.
Qed.

Lemma values_str_no_linefeed values : linefeed ∉ to_chars (values_str values).
Proof.
  destruct values as [|v values]; [by apply not_elem_of_nil|].
  rewrite values_str_cons, elem_of_app. intros [H|H].
  - by eapply digits_of_FormatUint in H.
  - unfold tail_values in H. apply list_elem_of_bind in H as (x & [H|H]%elem_of_cons & _); [done|].
    by eapply digits_of_FormatUint in H.
Qed.

Lemma line_chars_no_linefeed key values : linefeed ∉ line_chars key values.
Proof.
  unfold line_chars. pose proof (values_str_no_linefeed values) as Hv.
  pose proof (digits_of_FormatUint key linefeed eq_refl) as Hk.
  rewrite elem_of_app, !elem_of_cons, elem_of_app, list_elem_of_singleton.
  intros [?|[?|[?|[?|[?|?]]]]]; done.
Qed.

Lemma read_line_chars key values : read_line (line_chars key values) = Some (key, values).
Proof.
  unfold read_line, line_chars.
  rewrite IndexByte_app by (by apply digits_of_FormatUint). cbn [mbind option_bind].
  rewrite take_app_length, read_FormatUint. cbn [mbind option_bind].
  rewrite <-Nat.add_1_r, drop_app_add. cbn [drop].
  rewrite last_snoc, decide_True by done.
  rewrite length_app, Nat.add_sub, take_app_length, read_values_str. done.
Qed.

Definition aof_text (entries : list (N * list N)) : chars :=
  entries ≫= λ e, entry_line e.1 e.2.

(** The reader inverts the writer's format. *)
Lemma read_aof_text entries : read_aof (aof_text entries) = Some entries.
Proof.
  assert (split_on linefeed (aof_text entries) = ((λ e, line_chars e.1 e.2) <$> entries) ++ [[]])
    as E.
  { induction entries as [|[key values] entries IH]; [done|].
    change (aof_text ((key, values) :: entries))
      with (entry_line key values ++ aof_text entries).
    rewrite entry_line_chars, <-app_assoc. cbn [app].
    rewrite split_on_app by apply line_chars_no_linefeed. by rewrite IH. }
  unfold read_aof. rewrite E, last_snoc, decide_True by done.
  rewrite length_app, Nat.add_sub, take_app_length. apply mapM_Some. clear E.
  induction entries as [|[key values] entries IH]; constructor; [|done].
  apply read_line_chars.
Qed.

(** ** Writing through the buffer *)

Section Writer_proofs.
Context (open_fault : option goerror) (write_fault : nat → chars → option (nat * goerror)).
Implicit Types (w : Writer) (f : File).

(** [w] has been given the text [T] since the file held [T0]: everything is in
    the file or in the buffer, or an error is recorded and the file holds a
    prefix. *)
Definition writer_inv (T0 T : chars) w : Prop :=
  length (buf w) ≤ defaultBufSize ∧
  ∃ p, content (wr w) = T0 ++ p ∧
       match err w with None => p ++ buf w = T | Some _ => p `prefix_of` T end.

Lemma file_write_cases f p f' n e :
  file_write write_fault f p = (f', n, e) →
  content f' = content f ++ take n p ∧ (e = None → n = length p).
Proof.
  unfold file_write. destruct (write_fault (writes f) p) as [[m e']|]; intros [= <- <- <-]; cbn.
  - done.
  - by rewrite firstn_all.
Qed.

Lemma Flush_inv T0 T w :
  writer_inv T0 T w →
  writer_inv T0 T (Flush write_fault w).1 ∧
  (Flush write_fault w).2 = err (Flush write_fault w).1 ∧
  (err (Flush write_fault w).1 = None → buf (Flush write_fault w).1 = []).
Proof.
  intros (Hb & p & Hp & Hw). unfold Flush. destruct (err w) eqn:Ee.
  { cbn. rewrite Ee. split_and!; [|done..]. split; [done|]. exists p. by rewrite Ee. }
  case_decide as Hbuf.
  { cbn. rewrite Ee. split_and!; [|done..]. split; [done|]. exists p. by rewrite Ee. }
  destruct (file_write _ _ _) as [[f n] e] eqn:Ef. apply file_write_cases in Ef as [Ef Hn].
  destruct e as [e|]; (split; [split; cbn|done]).
  - rewrite length_drop; lia.
  - exists (p ++ take n (buf w)). rewrite Ef, Hp, app_assoc. split; [done|].
    rewrite <-Hw. apply prefix_app, prefix_take.
  - lia.
  - exists (p ++ buf w). by rewrite Ef, Hn, firstn_all, Hp, !app_assoc, app_nil_r by done.
Qed.

Lemma write_loop_inv fuel T0 T w s w' s' :
  writer_inv T0 T w → write_loop write_fault fuel w s = (w', s') →
  ∃ s1, s = s1 ++ s' ∧ writer_inv T0 (T ++ s1) w'.
Proof.
  revert T w s. induction fuel as [|fuel IH]; intros T w s Hinv E; cbn in E.
  { injection E as -> ->. exists []. by rewrite app_nil_r. }
  case_decide as Hc.
  2: { injection E as -> ->. exists []. by rewrite app_nil_r. }
  destruct Hinv as (Hb & p & Hp & Hw), Hc as [Hlen Herr]. rewrite Herr in Hw.
  assert (∀ n (w2 : Writer), writer_inv T0 (T ++ take n s) w2 →
    write_loop write_fault fuel w2 (drop n s) = (w', s') →
    ∃ s1, s = s1 ++ s' ∧ writer_inv T0 (T ++ s1) w') as Hstep.
  { intros n w2 H2 E2. destruct (IH _ _ _ H2 E2) as (s1 & Hs1 & H1).
    exists (take n s ++ s1). rewrite <-app_assoc, <-Hs1, take_drop. by rewrite app_assoc. }
  case_decide as Hbuf.
  - destruct (file_write _ _ _) as [[f n] e] eqn:Ef. apply file_write_cases in Ef as [Ef Hn].
    apply Hstep in E; [done|]. split; [done|]. exists (p ++ take n s); cbn.
    rewrite Ef, Hp, <-app_assoc. split; [done|]. rewrite Hbuf, app_nil_r in Hw. subst p.
    destruct e; [done|]. by rewrite Hbuf, app_nil_r.
  - apply Hstep in E; [done|]. apply Flush_inv. split; cbn.
    { rewrite length_app, length_take; lia. }
    exists p. rewrite Herr, app_assoc. by subst T.
Qed.

(** The loop never needs a third turn: the first leaves the buffer empty. *)
Lemma write_loop_stops w s w' s' :
  length (buf w) ≤ defaultBufSize → write_loop write_fault 2 w s = (w', s') →
  err w' ≠ None ∨ length (buf w') + length s' ≤ defaultBufSize.
Proof.
  assert (∀ fuel w s w' s', buf w = [] → write_loop write_fault (S fuel) w s = (w', s') →
    err w' ≠ None ∨ length (buf w') + length s' ≤ defaultBufSize) as Hempty.
  { clear. intros fuel w s w' s' Hb E. cbn in E. case_decide as Hc.
    2: { injection E as <- <-. rewrite Hb in *. cbn in *. destruct (err w); [by left|right].
         apply not_and_l in Hc as [|]; [lia|done]. }
    rewrite decide_True in E by done.
    destruct (file_write _ _ _) as [[f n] e] eqn:Ef. apply file_write_cases in Ef as [_ Hn].
    destruct e as [e|]; [left|right].
    - destruct fuel; cbn in E; [|rewrite decide_False in E by (by intros [? ?])];
        injection E as <- <-; done.
    - rewrite Hn, drop_all in E by done.
      destruct fuel; cbn in E; [|rewrite decide_False in E by (cbn; lia)];
        injection E as <- <-; cbn; rewrite Hb; cbn; lia. }
  intros Hb E. destruct (decide (buf w = [])) as [|Hne]; [by eapply Hempty|].
  cbn [write_loop] in E. case_decide as Hc.
  2: { injection E as <- <-. destruct (err w) eqn:?; [left; congruence|right].
       apply not_and_l in Hc as [|]; [lia|done]. }
  rewrite decide_False in E by done.
  set (w2 := {| wr := _; buf := _; err := _ |}) in E.
  assert (writer_inv (content (wr w)) (buf w2) w2) as H2.
  { split; cbn; [rewrite length_app, length_take; lia|]. exists []. rewrite app_nil_r.
    destruct Hc as [_ ->]. done. }
  apply Flush_inv in H2 as (_ & _ & H2).
  destruct (decide (err (Flush write_fault w2).1 = None)) as [He|He].
  - exact (Hempty 0 _ _ _ _ (H2 He) E).
  - left. rewrite decide_False in E by (by intros [??]). by injection E as <- <-.
Qed.

Lemma WriteString_inv T0 T w s :
  writer_inv T0 T w →
  writer_inv T0 (T ++ s) (WriteString write_fault w s).1 ∧
  (WriteString write_fault w s).2 = err (WriteString write_fault w s).1.
Proof.
  intros Hinv. unfold WriteString. destruct (write_loop _ _ _ _) as [w' s'] eqn:E.
  pose proof (write_loop_stops _ _ _ _ (proj1 Hinv) E) as Hstop.
  destruct (write_loop_inv _ _ _ _ _ _ _ Hinv E) as (s1 & -> & Hb & p & Hp & Hw).
  destruct (err w') eqn:Ee; cbn; rewrite ?Ee; (split; [|done]).
  - split; [done|]. exists p. rewrite Ee. split; [done|]. rewrite app_assoc.
    by apply prefix_app_r.
  - split; cbn. { rewrite length_app. destruct Hstop; [congruence|done]. }
    exists p. split; [done|]. by rewrite !app_assoc, Hw.
Qed.

Lemma write_entries_inv T0 T w entries w' r :
  writer_inv T0 T w → err w = None → write_entries write_fault w entries = (w', r) →
  writer_inv T0 (T ++ aof_text entries) w' ∧ (r = None ↔ err w' = None).
Proof.
  revert T w. induction entries as [|[key values] entries IH]; intros T w Hinv He E; cbn in E.
  { injection E as <- <-. cbn. by rewrite app_nil_r. }
  pose proof (WriteString_inv T0 T w (entry_line key values) Hinv) as [H1 H2].
  destruct (WriteString _ _ _) as [w1 r1]. cbn in H1, H2. subst r1.
  change (aof_text ((key, values) :: entries)) with (entry_line key values ++ aof_text entries).
  rewrite app_assoc. destruct (err w1) eqn:E1; [|by apply (IH _ _ H1 E1)].
  injection E as <- <-. rewrite E1. split; [|done].
  destruct H1 as (Hb & p & Hp & Hw). rewrite E1 in Hw. split; [done|].
  exists p. rewrite E1. split; [done|]. by apply prefix_app_r.
Qed.

(** Errors come from the file only. *)
Definition write_healthy : Prop := ∀ n p, write_fault n p = None.

Lemma Flush_healthy w :
  write_healthy → err w = None → err (Flush write_fault w).1 = None.
Proof.
  intros Hh He. unfold Flush. rewrite He. case_decide; [done|].
  unfold file_write. by rewrite Hh.
Qed.

Lemma write_loop_healthy fuel w s :
  write_healthy → err w = None → err (write_loop write_fault fuel w s).1 = None.
Proof.
  intros Hh. revert w s. induction fuel as [|fuel IH]; intros w s He; cbn; [done|].
  case_decide; [|done]. case_decide.
  - unfold file_write. rewrite Hh. by apply IH.
  - apply IH. by apply Flush_healthy.
Qed.

Lemma write_entries_healthy w entries :
  write_healthy → err w = None → (write_entries write_fault w entries).2 = None.
Proof.
  intros Hh. revert w. induction entries as [|[key values] entries IH]; intros w He; cbn; [done|].
  pose proof (write_loop_healthy 2 w (entry_line key values) Hh He) as H1.
  unfold WriteString. destruct (write_loop _ _ _ _) as [w1 s1]. cbn [fst] in H1. rewrite H1.
  by apply IH.
Qed.
End Writer_proofs.

(** C25: The append-only file can be read back.  For every iteration order of
    the map and every failure of the file system, [WriteObjectLocationsToAOF]
    only appends; when it reports success the appended text reads back as
    exactly the entries of the map, when it reports an error the text is a
    prefix of that, and it reports an error only when the file system did. *)
Theorem aof_reads_back open_fault write_fault o file m file' r :
  WriteObjectLocationsToAOF open_fault write_fault o file m = (file', r) →
  ∃ text, content file' = content file ++ text ∧
    text `prefix_of` aof_text (range o m) ∧
    (r = None → ∃ entries, read_aof text = Some entries ∧ NoDup entries.*1 ∧
                           list_to_map entries = m) ∧
    (open_fault = None → write_healthy write_fault → r = None).
Proof.
  unfold WriteObjectLocationsToAOF. destruct open_fault as [e|].
  { intros [= <- <-]. exists []. rewrite app_nil_r. split_and!; [done|apply prefix_nil|done..]. }
  destruct (write_entries _ _ _) as [w r1] eqn:E1.
  pose proof (write_entries_healthy write_fault (NewWriter file) (range o m)) as Hh1.
  rewrite E1 in Hh1.
  apply (write_entries_inv write_fault (content file) []) in E1 as [Hinv Hr]; [| |done].
  2: { split; cbn; [lia|]. exists []. by rewrite app_nil_r. }
  change ([] ++ ?l) with l in Hinv.
  destruct r1 as [e1|].
  { intros [= <- <-]. destruct Hinv as (_ & p & Hp & Hw). exists p.
    split; [done|]. split; [|split; [done|]].
    - destruct (err w); [done|]. destruct Hr as [_ Hr]. discriminate (Hr eq_refl).
    - intros _ Hh. by apply Hh1. }
  destruct Hr as [Hr _]. specialize (Hr eq_refl).
  pose proof (Flush_inv write_fault _ _ _ Hinv) as ((_ & p & Hp & Hw) & H2 & Hbuf).
  pose proof (λ Hh, Flush_healthy write_fault w Hh Hr) as Hh2.
  destruct (Flush write_fault w) as [w' r']. cbn in *. subst r'.
  destruct (err w') eqn:Ee; intros [= <- <-]; exists p; (split; [done|]).
  - split; [done|]. split; [done|]. intros _ Hh. by specialize (Hh2 Hh).
  - rewrite Hbuf, app_nil_r in Hw by done. subst p. split_and!; [done| |done].
    intros _. exists (range o m). split_and!; [apply read_aof_text|apply NoDup_range_keys|].
    rewrite (list_to_map_proper _ (map_to_list m)); [|apply NoDup_range_keys|apply range_perm].
    apply list_to_map_to_list.
Qed.

(** A disk that takes ten bytes of its first write and then fails. *)
Definition full_disk (n : nat) (p : chars) : option (nat * goerror) :=
  Some (10, PlainError "no space left on device").

Definition demo_locations : gmap N (list N) := {[ 1%N := [10; 20; 30]%N; 2%N := [] ]}.

Lemma aof_reads_back_witness :
  let run := WriteObjectLocationsToAOF None full_disk order_id
               {| content := []; writes := 0 |} demo_locations in
  run.2 ≠ None ∧
  ∃ text, content run.1 = [] ++ text ∧ text `prefix_of` aof_text (range order_id demo_locations) ∧
    (run.2 = None → ∃ entries, read_aof text = Some entries ∧ NoDup entries.*1 ∧
                               list_to_map entries = demo_locations) ∧
    (None = @None goerror → write_healthy full_disk → run.2 = None).
Proof.
  intros run. split; [by vm_compute|].
  exact (aof_reads_back None full_disk order_id {| content := []; writes := 0 |}
           demo_locations run.1 run.2 (surjective_pairing _)).
Defined.
