(* ===== verification/Util.v ===== *)
(** * Options, request metadata and logging

    [go/util/util.go]: the gRPC options every service shares and the deprecated
    [ExtractAddressFromCtx]; [go/customlog/customlog.go]: the writer that puts a
    timestamp before every log line; and the [LocalLog] each service declares,
    which differ in the prefix only.  The default message limits of gRPC, the
    format of the clock and [fmt.Sprintf] are parameters. *)
From Stdlib Require Import Ascii.
From S2P Require Import Prelude Net Config.

(** ** gRPC options *)

Inductive CallOption :=
  | MaxCallRecvMsgSize (bytes : N)
  | MaxCallSendMsgSize (bytes : N).

Inductive DialOption :=
  | WithInsecure
  | WithDefaultCallOptions (opts : list CallOption).

Inductive ServerOption :=
  | MaxRecvMsgSize (bytes : N)
  | MaxSendMsgSize (bytes : N)
  | KeepaliveParams (MaxConnectionIdle : Z).

#[export] Instance CallOption_eq_dec : EqDecision CallOption.
Proof. solve_decision. Defined.
#[export] Instance DialOption_eq_dec : EqDecision DialOption.
Proof. solve_decision. Defined.
#[export] Instance ServerOption_eq_dec : EqDecision ServerOption.
Proof. solve_decision. Defined.

(** The options the services dial with, and those of their servers. *)
Definition GetDialOptions : list DialOption :=
  [WithInsecure;
   WithDefaultCallOptions [MaxCallRecvMsgSize (1024 * 1024 * 1024);
                           MaxCallSendMsgSize (1024 * 1024 * 1024)]].

Definition GetServerOptions : list ServerOption :=
  let MAX_MSG_SIZE := (1024 * 1024 * 1024)%N in
  [MaxRecvMsgSize MAX_MSG_SIZE; MaxSendMsgSize MAX_MSG_SIZE;
   KeepaliveParams (5 * 60 * 1000000000)].

(** What a side receives and sends at most; a later option overrides an
    earlier one and the library's default. *)
Record limits := { recv_limit : N; send_limit : N }.

Definition apply_call (l : limits) (o : CallOption) : limits :=
  match o with
  | MaxCallRecvMsgSize n => {| recv_limit := n; send_limit := send_limit l |}
  | MaxCallSendMsgSize n => {| recv_limit := recv_limit l; send_limit := n |}
  end.

Definition client_limits (default : limits) (opts : list DialOption) : limits :=
  foldl (λ l o, match o with
                | WithInsecure => l
                | WithDefaultCallOptions cs => foldl apply_call l cs
                end) default opts.

Definition server_limits (default : limits) (opts : list ServerOption) : limits :=
  foldl (λ l o, match o with
                | MaxRecvMsgSize n => {| recv_limit := n; send_limit := send_limit l |}
                | MaxSendMsgSize n => {| recv_limit := recv_limit l; send_limit := n |}
                | KeepaliveParams _ => l
                end) default opts.

(** A request passes when the client sends it and the server takes it, a
    response the other way round. *)
Definition request_passes (client server : limits) (size : N) : bool :=
  bool_decide (size <= send_limit client)%N && bool_decide (size <= recv_limit server)%N.

Definition response_passes (client server : limits) (size : N) : bool :=
  bool_decide (size <= send_limit server)%N && bool_decide (size <= recv_limit client)%N.

(** ** The client address in the metadata *)

(** [metadata.FromIncomingContext(ctx)] is [None] when there is none; the keys
    of the metadata are in lower case. *)
Definition ExtractAddressFromCtx (md : option (gmap string (list string)))
    : string * option goerror :=
  match md with
  | None => ("", Some (StatusError InvalidArgument "no metadata available in context"))
  | Some md =>
      match default [] (md !! "client-address") with
      | [] => ("", Some (StatusError InvalidArgument
                          "client address not provided in metadata"))
      | address :: _ => (address, None)
      end
  end.

(** ** Logging *)

Section Log.
Context {V : Type} (Sprintf : string → list V → string).

(** What a service's [LocalLog] hands to [log.Printf]. *)
Definition LocalLog (service : string) (format : string) (v : list V) : string :=
  let logMessage := if decide (length v = 0) then format else Sprintf format v in
  "[" +:+ service +:+ "] " +:+ logMessage.
End Log.

Definition gcsobjtable_LocalLog {V} (Sprintf : string → list V → string) :=
  LocalLog Sprintf "gcsobjtable".
Definition globalscheduler_LocalLog {V} (Sprintf : string → list V → string) :=
  LocalLog Sprintf "global scheduler".
Definition localscheduler_LocalLog {V} (Sprintf : string → list V → string) :=
  LocalLog Sprintf "localscheduler".
Definition localobjstore_LocalLog {V} (Sprintf : string → list V → string) :=
  LocalLog Sprintf "lobs".
Definition worker_LocalLog {V} (Sprintf : string → list V → string) :=
  LocalLog Sprintf "worker".

Definition newline_char : ascii := "010"%char.

(** [logWriter.Write], over the write of the file it wraps; [timestamp] is the
    formatted clock. *)
Definition logWriter_Write (timestamp : string) (file_Write : chars → nat * option goerror)
    (data : chars) : nat * option goerror :=
  file_Write (to_chars (timestamp +:+ " ") ++ data).

(** The standard logger: its flags, which say what stands before a message, and
    the writer a line goes to. *)
Record logger := { log_flags : N; log_writer : chars → nat * option goerror }.

(** [customlog.Init]. *)
Definition Init (timestamp : string) (stdout_Write : chars → nat * option goerror) : logger :=
  {| log_flags := 0; log_writer := logWriter_Write timestamp stdout_Write |}.

(** A line of the standard logger: [header] is the text of the flags, and a
    newline follows unless the message ends with one. *)
Definition log_Output (header : N → chars) (l : logger) (message : chars) : nat * option goerror :=
  let line := header (log_flags l) ++ message in
  log_writer l (if decide (last message = Some newline_char) then line else line ++ [newline_char]).

(** ** Facts *)

(** With the shared options on both sides a message passes exactly when it is
    at most 1 GiB, in either direction, whatever the library's defaults; a
    client dialled with [WithInsecure] alone keeps the default limits. *)
Lemma message_limits default_client default_server size :
  let shared := client_limits default_client GetDialOptions in
  let bare := client_limits default_client [WithInsecure] in
  let server := server_limits default_server GetServerOptions in
  request_passes shared server size = bool_decide (size <= 1073741824)%N ∧
  response_passes shared server size = bool_decide (size <= 1073741824)%N ∧
  response_passes bare server size =
    bool_decide (size <= 1073741824 `min` recv_limit default_client)%N.
Proof.
  intros shared bare server. unfold request_passes, response_passes. cbn.
  rewrite andb_diag. split_and!; [done..|].
  rewrite <-bool_decide_and. apply bool_decide_ext. lia.
Qed.

(** The address is the first one given; otherwise the error says what is
    missing. *)
Lemma ExtractAddressFromCtx_ok md address :
  ExtractAddressFromCtx md = (address, None) ↔
  ∃ m rest, md = Some m ∧ m !! "client-address" = Some (address :: rest).
Proof.
  unfold ExtractAddressFromCtx. destruct md as [m|]; [|split; [done|by intros (?&?&?&?)]].
  destruct (m !! "client-address") as [[|a l]|] eqn:E; cbn; split; try done.
  - intros (? & ? & [= <-] & ?). congruence.
  - intros [= <-]. eauto.
  - intros (? & ? & [= <-] & ?). by simplify_eq.
  - intros (? & ? & [= <-] & ?). congruence.
Qed.

(** [Write] reports the bytes of the file, timestamp included: more than it was
    given, which [io.Writer] does not allow. *)
Lemma logWriter_Write_count timestamp file_Write data :
  (∀ p, file_Write p = (length p, None)) →
  logWriter_Write timestamp file_Write data =
    (length (to_chars timestamp) + S (length data), None).
Proof.
  intros Hw. unfold logWriter_Write. rewrite Hw. f_equal.
  rewrite length_app, to_chars_app, length_app. cbn. lia.
Qed.

(** After [Init] a message without a newline is one write to standard output: the
    time, the message and a newline, without the date of the default flags. *)
Lemma log_line timestamp stdout_Write header message :
  header 0%N = [] → last message ≠ Some newline_char →
  log_Output header (Init timestamp stdout_Write) message =
  stdout_Write (to_chars (timestamp +:+ " ") ++ message ++ [newline_char]).
Proof. intros Hh Hm. unfold log_Output. simpl. by rewrite Hh, decide_False. Qed.
