(* ===== verification/GcsFunc.v ===== *)
(** * The GCS function table

    [go/cmd/gcsfunctable/main.go]: registered functions by a random 64-bit
    name.  [rand.Reader] is the sequence of results of its reads, each eight
    bytes or an error. *)
From S2P Require Import Prelude Float32 Messages.

Record GCSFuncServer := { functionStore : gmap N bytes }.

Definition NewGCSFuncServer : GCSFuncServer := {| functionStore := ∅ |}.

(** [binary.Read(r, binary.BigEndian, &n)] of the eight bytes that were read:
    the first byte is the most significant. *)
Definition big_endian (b : bytes) : N :=
  foldl (λ n x, (n * 256 + Byte.to_N x)%N) 0%N b.

(** One read of the random source. *)
Definition random_read : Type := result bytes.

Definition generateUID (r : random_read) : N * option goerror :=
  match r with
  | Err err => (0%N, Some err)
  | Ok b => (big_endian b, None)
  end.

Definition RegisterFunc (r : random_read) (s : GCSFuncServer) (req : RegisterRequest)
    : GCSFuncServer * reply RegisterResponse :=
  let '(uid, err) := generateUID r in
  match err with
  | Some _ => (s, (None, Some (StatusError Internal "Internal failed to generate UID")))
  | None => ({| functionStore := <[uid := rg_SerializedFunc req]> (functionStore s) |},
             (Some {| rg_Name := uid |}, None))
  end.

Definition FetchFunc (s : GCSFuncServer) (req : FetchRequest) : reply FetchResponse :=
  match functionStore s !! fe_Name req with
  | None => (None, Some (StatusError NotFound "function not found"))
  | Some serializedFunc => (Some {| fe_SerializedFunc := serializedFunc |}, None)
  end.

(** A sequence of registrations, with the replies. *)
Fixpoint register_all (s : GCSFuncServer) (l : list (random_read * RegisterRequest))
    : GCSFuncServer * list (reply RegisterResponse) :=
  match l with
  | [] => (s, [])
  | (r, req) :: l =>
      let '(s, rep) := RegisterFunc r s req in
      let '(s, reps) := register_all s l in
      (s, rep :: reps)
  end.

(** ** Big-endian numbers *)

(** The eight bytes of a number, most significant first. *)
Fixpoint to_big_endian (k : nat) (n : N) : bytes :=
  match k with
  | O => []
  | S k => to_big_endian k (n / 256) ++ [default Byte.x00 (Byte.of_N (n mod 256))]
  end.

Lemma byte_bound x : (Byte.to_N x < 256)%N.
Proof. pose proof (Byte.to_N_bounded x). lia. Qed.

Lemma big_endian_snoc b x : big_endian (b ++ [x]) = (big_endian b * 256 + Byte.to_N x)%N.
Proof. unfold big_endian. by rewrite foldl_app. Qed.

Lemma big_endian_bound b : (big_endian b < 256 ^ N.of_nat (length b))%N.
Proof.
  induction b as [|x b IH] using rev_ind; [done|].
  rewrite big_endian_snoc, length_app, Nat2N.inj_add. simpl (N.of_nat (length [x])).
  rewrite N.add_1_r, N.pow_succ_r'. pose proof (byte_bound x). lia.
Qed.

Lemma big_endian_inj b1 b2 :
  length b1 = length b2 → big_endian b1 = big_endian b2 → b1 = b2.
Proof.
  revert b2. induction b1 as [|x b1 IH] using rev_ind; intros b2 Hl E.
  { symmetry in Hl. by apply nil_length_inv in Hl. }
  destruct b2 as [|y b2 _] using rev_ind; [by rewrite length_app in Hl; simpl in Hl; lia|].
  rewrite !length_app in Hl. simpl in Hl. rewrite !big_endian_snoc in E.
  pose proof (byte_bound x). pose proof (byte_bound y).
  assert (Hxy : Byte.to_N x = Byte.to_N y).
  { apply (f_equal (λ n, n mod 256)%N) in E.
    rewrite !(N.add_comm (_ * 256)), !N.Div0.mod_add, !N.mod_small in E by lia. done. }
  f_equal; [apply IH; lia|]. f_equal.
  apply (f_equal Byte.of_N) in Hxy. rewrite !Byte.of_to_N in Hxy. by injection Hxy.
Qed.

Lemma to_big_endian_length k n : length (to_big_endian k n) = k.
Proof.
  revert n. induction k as [|k IH]; intros n; simpl; [done|].
  rewrite length_app, IH. simpl. lia.
Qed.

Lemma big_endian_to k n : (n < 256 ^ N.of_nat k)%N → big_endian (to_big_endian k n) = n.
Proof.
  revert n. induction k as [|k IH]; intros n Hn.
  { change (n < 1)%N in Hn. replace n with 0%N by lia. done. }
  rewrite Nat2N.inj_succ, N.pow_succ_r' in Hn. simpl. rewrite big_endian_snoc, IH.
  - destruct (Byte.of_N (n mod 256)) as [x|] eqn:E.
    + apply Byte.to_of_N in E. simpl. rewrite E. pose proof (N.div_mod' n 256). lia.
    + apply Byte.of_N_None_iff in E. pose proof (N.mod_lt n 256). lia.
  - apply N.Div0.div_lt_upper_bound; lia.
Qed.

(** ** Registration *)

Lemma register_all_lookup l s u b :
  (∀ r req, (r, req) ∈ l → ∀ bs, r = Ok bs → big_endian bs ≠ u) →
  functionStore s !! u = Some b → functionStore (register_all s l).1 !! u = Some b.
Proof.
  revert s. induction l as [|[r req] l IH]; intros s Hne Hs; simpl; [done|].
  destruct (RegisterFunc r s req) as [s1 rep] eqn:E.
  specialize (IH s1). destruct (register_all s1 l) as [s2 reps]. simpl in *.
  apply IH; [intros; eapply Hne; [by right|done]|].
  unfold RegisterFunc in E. destruct r as [bs|e]; simpl in E; injection E as <- <-; simpl.
  - rewrite lookup_insert_ne; [done|]. eapply Hne; [by left|done].
  - done.
Qed.

(** ** Theorems *)

(** Eight random bytes and 64-bit names correspond one to one, so no name
    is more likely than another and none is out of reach. *)
Theorem generateUID_bijective :
  (∀ bs, length bs = 8 → ((generateUID (Ok bs)).1 < two64)%N) ∧
  (∀ b1 b2, length b1 = 8 → length b2 = 8 →
     generateUID (Ok b1) = generateUID (Ok b2) → b1 = b2) ∧
  (∀ n, (n < two64)%N → ∃ bs, length bs = 8 ∧ generateUID (Ok bs) = (n, None)).
Proof.
  split_and!.
  - intros bs Hl. simpl. pose proof (big_endian_bound bs) as Hb. by rewrite Hl in Hb.
  - intros b1 b2 H1 H2 [= E]. apply big_endian_inj; congruence.
  - intros n Hn. exists (to_big_endian 8 n). split; [apply to_big_endian_length|].
    unfold generateUID. by rewrite big_endian_to.
Qed.

(** A registered function is fetched back, byte for byte, by the name its
    registration returned, after any number of further registrations that
    drew another name. *)
Theorem registered_function_is_fetched s bs req l cb :
  (∀ r req', (r, req') ∈ l → ∀ bs', r = Ok bs' → big_endian bs' ≠ big_endian bs) →
  let '(s1, rep) := RegisterFunc (Ok bs) s req in
  ∃ name, rep = (Some {| rg_Name := name |}, None) ∧
    FetchFunc (register_all s1 l).1 {| fe_Name := name; fe_CallbackNodeId := cb |}
      = (Some {| fe_SerializedFunc := rg_SerializedFunc req |}, None).
Proof.
  intros Hne. simpl. exists (big_endian bs). split; [done|]. unfold FetchFunc. simpl.
  erewrite register_all_lookup; [done|done|]. simpl. by rewrite lookup_insert_eq.
Qed.

(** A failed draw refuses the registration and changes nothing; an unknown
    name is answered with NotFound; and a draw that repeats a name silently
    replaces the function that had it. *)
Theorem function_table_errors s e req n cb :
  RegisterFunc (Err e) s req =
    (s, (None, Some (StatusError Internal "Internal failed to generate UID"))) ∧
  (functionStore s !! n = None →
   FetchFunc s {| fe_Name := n; fe_CallbackNodeId := cb |} =
     (None, Some (StatusError NotFound "function not found"))) ∧
  (∀ bs req', let s' := (RegisterFunc (Ok bs) (RegisterFunc (Ok bs) s req).1 req').1 in
   FetchFunc s' {| fe_Name := big_endian bs; fe_CallbackNodeId := cb |} =
     (Some {| fe_SerializedFunc := rg_SerializedFunc req' |}, None)).
Proof.
  split; [done|]. split.
  - intros Hn. unfold FetchFunc. simpl. by rewrite Hn.
  - intros bs req'. unfold FetchFunc. simpl. by rewrite lookup_insert_eq.
Qed.

Lemma registered_function_is_fetched_witness :
  FetchFunc
    (register_all
      (RegisterFunc (Ok (to_big_endian 8 77)) NewGCSFuncServer
         {| rg_SerializedFunc := [Byte.x41; Byte.x42] |}).1
      [(Ok (to_big_endian 8 78), {| rg_SerializedFunc := [] |});
       (Err (PlainError "no entropy"), {| rg_SerializedFunc := [] |})]).1
    {| fe_Name := 77; fe_CallbackNodeId := 0 |}
  = (Some {| fe_SerializedFunc := [Byte.x41; Byte.x42] |}, None).
Proof.
  pose proof (registered_function_is_fetched NewGCSFuncServer (to_big_endian 8 77)
    {| rg_SerializedFunc := [Byte.x41; Byte.x42] |}
    [(Ok (to_big_endian 8 78), {| rg_SerializedFunc := [] |});
     (Err (PlainError "no entropy"), {| rg_SerializedFunc := [] |})] 0) as Hw.
  destruct Hw as (name & Hn & Hf).
  - intros r req' Hin bs' ->.
    apply elem_of_cons in Hin as [[= -> _]|[[=]|Hin%not_elem_of_nil]%elem_of_cons]; [|done].
    vm_compute. discriminate.
  - injection Hn as <-. exact Hf.
Defined.

Lemma function_table_errors_witness :
  FetchFunc NewGCSFuncServer {| fe_Name := 5; fe_CallbackNodeId := 0 |} =
    (None, Some (StatusError NotFound "function not found")).
Proof.
  apply (function_table_errors NewGCSFuncServer (PlainError "") {| rg_SerializedFunc := [] |} 5 0).
  reflexivity.
Defined.
