(* ===== verification/GlobalScheduler.v ===== *)
(** * The global scheduler

    [go/cmd/globalscheduler/main.go]: the heartbeat table, the report of live
    nodes to the object table, and the choice of the worker with the smallest
    estimated waiting time.  Times are nanoseconds; the clock is read once per
    entry, so it is a function of the entry's node.  Remote calls are fields
    of [sched_env]; the calls made are returned as a list. *)
From S2P Require Import Prelude Float32 Net Messages Config.
Open Scope go_scope.

Definition LIVE_NODE_TIMEOUT : Z := 400000000.
Definition HEARTBEAT_WAIT : Z := 100000000.
Definition MAX_CONCURRENT_TASKS : N := 10.

Record HeartbeatEntry := {
  timeReceived : Z;
  numRunningTasks : uint32;
  numQueuedTasks : uint32;
  avgRunningTime : float32;
  avgBandwidth : float32
}.

Record server := { status : gmap N HeartbeatEntry }.

Definition Heartbeat (now : Z) (s : server) (req : HeartbeatRequest)
    : server * reply StatusResponse :=
  let numQueuedTasks := hb_QueuedTasks req in
  let numQueuedTasks :=
    if decide (hb_RunningTasks req = MAX_CONCURRENT_TASKS)
    then numQueuedTasks +32 1 else numQueuedTasks in
  ({| status := <[hb_NodeId req :=
        {| timeReceived := now; numRunningTasks := hb_RunningTasks req;
           numQueuedTasks := numQueuedTasks; avgRunningTime := hb_AvgRunningTime req;
           avgBandwidth := hb_AvgBandwidth req |}]> (status s) |},
   (Some (Status true), None)).

(** [time.Since(heartbeat.timeReceived) < LIVE_NODE_TIMEOUT] *)
Definition is_live (now : Z) (heartbeat : HeartbeatEntry) : bool :=
  (now - timeReceived heartbeat <? LIVE_NODE_TIMEOUT)%Z.

(** The request that [SendLiveNodes] sends to the object table. *)
Definition SendLiveNodes (now : N → Z) (o : order) (s : server) : LiveNodesRequest :=
  {| ln_LiveNodes := foldl (λ liveNodes e, <[e.1 := is_live (now e.1) e.2]> liveNodes)
       ∅ (range o (status s)) |}.

(** ** The choice of a worker *)

(** [float32(numQueuedTasks) * avgRunningTime] *)
Definition queueingTime (hb : HeartbeatEntry) : float32 :=
  fmul (of_uint (numQueuedTasks hb)) (avgRunningTime hb).

(** [float32(total - bytes) / avgBandwidth]; the subtraction is on uint64. *)
Definition transferTime (total bytes : uint64) (hb : HeartbeatEntry) : float32 :=
  fdiv (of_uint (total -64 bytes)) (avgBandwidth hb).

(** [locationToBytes[loc] += val.Bytes; total += val.Bytes], for all locations
    of all objects. *)
Definition count_bytes (vals : list LocationByteTuple) (init : gmap N N)
    : gmap N N * N :=
  foldl (λ acc val,
    foldl (λ acc loc,
      (<[loc := default 0%N (acc.1 !! loc) +64 lb_Bytes val]> acc.1,
       acc.2 +64 lb_Bytes val)) acc (lb_Locations val)) (init, 0%N) vals.

(** One of the two search loops: [est] is the estimate of a node, [None] for a
    node the loop skips as dead. *)
Definition search (est : N → option float32) (keys : list N) : N * float32 * bool :=
  foldl (λ acc id,
    let '(minId, minTime, foundBest) := acc in
    match est id with
    | None => acc
    | Some t => if flt t minTime then (id, t, true) else acc
    end) (0%N, MaxFloat32, false) keys.

(** What the scheduler's environment answers: the clock, the orders of the map
    iterations, the shuffles, and the remote calls. *)
Record sched_env := {
  env_now : N → Z;
  env_keys : order;
  env_locs : order;
  env_init : order;
  env_shuffle : nat → picker;
  env_GetObjectLocations : ObjectLocationsRequest → reply ObjectLocationsResponse;
  env_Dial : string → option goerror;
  env_Run : string → RunRequest → reply StatusResponse
}.

(** Estimates of the two branches; [s.status[id]] is read for the keys of the
    table only. *)
Definition local_estimate (env : sched_env) (s : server) (id : N) : option float32 :=
  match status s !! id with
  | Some heartbeat =>
      if is_live (env_now env id) heartbeat then Some (queueingTime heartbeat) else None
  | None => None
  end.

Definition locality_estimate (env : sched_env) (s : server)
    (locationToBytes : gmap N N) (total : N) (loc : N) : option float32 :=
  let bytes := default 0%N (locationToBytes !! loc) in
  match status s !! loc with
  | Some heartbeat =>
      if is_live (env_now env loc) heartbeat then
        Some (fadd (queueingTime heartbeat) (transferTime total bytes heartbeat))
      else None
  | None => None
  end.

Definition shuffled_keys (env : sched_env) (s : server) : list N :=
  shuffle (env_shuffle env) (range_keys (env_keys env) (status s)).

(** Byte counts of a reply, starting from a zero for every known node. *)
Definition locality_bytes (env : sched_env) (s : server) (resp : ObjectLocationsResponse)
    : gmap N N * N :=
  let init := foldl (λ m id, <[id := 0%N]> m) ∅ (range_keys (env_init env) (status s)) in
  count_bytes ((range (env_locs env) (ol_Locations resp)).*2) init.

Definition getBestWorker (env : sched_env) (s : server) (localityFlag : bool)
    (uids : list N) : outcome N :=
  found ← (if localityFlag && negb (bool_decide (uids = [])) then
    match env_GetObjectLocations env {| ol_Args := uids |} with
    | (_, Some err) =>
        Fatal ("Failed to ask gcs for object locations: " +:+ error_text err)
    | (None, None) => Panics "nil pointer dereference"
    | (Some locationsResp, None) =>
        let '(locationToBytes, total) := locality_bytes env s locationsResp in
        Returns (search (locality_estimate env s locationToBytes total)
                   (shuffled_keys env s))
    end
  else Returns (search (local_estimate env s) (shuffled_keys env s)));
  let '(minId, minTime, foundBest) := found in
  if negb foundBest then Fatal "global scheduler failed to pick a worker"
  else Returns minId.

(** Calls to the peers, in the order in which they are made. *)
Inductive sched_call :=
  | CallRegisterGenerating (req : GeneratingRequest)
  | CallRun (address : string) (req : RunRequest).

Definition Schedule (cfg : Config) (env : sched_env) (s : server)
    (req : GlobalScheduleRequest) : list sched_call * outcome (reply StatusResponse) :=
  let localityFlag := gs_LocalityFlag req in
  match (if decide (gs_NodeId req = 0%N) then getBestWorker env s localityFlag (gs_Uids req)
         else Returns (gs_NodeId req)) with
  | Panics w => ([], Panics w)
  | Fatal w => ([], Fatal w)
  | Returns node_id =>
      let workerAddress := node_address (NodePrefix cfg) node_id
                             (port_LocalWorkerStart (cfg_Ports cfg)) in
      match env_Dial env workerAddress with
      | Some err => ([], Returns (None, Some err))
      | None =>
          let run := {| rr_Uid := gs_Uid req; rr_Name := gs_Name req;
                        rr_Args := gs_Args req; rr_Kwargs := gs_Kwargs req |} in
          let calls := [CallRegisterGenerating {| gn_Uid := gs_Uid req; gn_NodeId := node_id |};
                        CallRun workerAddress run] in
          match env_Run env workerAddress run with
          | (_, Some err) => (calls, Fatal ("global scheduler failed to contact node "
                               +:+ FormatUint node_id +:+ ". Err: " +:+ error_text err))
          | (None, None) => (calls, Panics "nil pointer dereference")
          | (Some output_result, None) =>
              if st_Success output_result then (calls, Returns (Some (Status true), None))
              else (calls, Fatal ("global scheduler failed to contact node "
                             +:+ FormatUint node_id +:+ ". Err: <nil>"))
          end
      end
  end.

(** ** Lemmas *)

Lemma search_snoc est keys id :
  search est (keys ++ [id]) =
  let '(minId, minTime, foundBest) := search est keys in
  match est id with
  | None => (minId, minTime, foundBest)
  | Some t => if flt t minTime then (id, t, true) else (minId, minTime, foundBest)
  end.
Proof.
  unfold search. rewrite foldl_app. simpl.
  destruct (foldl _ _ keys) as [[minId minTime] foundBest]. done.
Qed.

Lemma search_spec est keys minId minTime foundBest :
  search est keys = (minId, minTime, foundBest) →
  (if foundBest then minId ∈ keys ∧ est minId = Some minTime ∧ flt minTime MaxFloat32 = true
   else minTime = MaxFloat32) ∧
  ∀ id t, id ∈ keys → est id = Some t → flt t minTime = false.
Proof.
  revert minId minTime foundBest.
  induction keys as [|x keys IH] using rev_ind; intros minId minTime foundBest.
  { intros [= <- <- <-]. split; [done|]. by intros ?? ?%not_elem_of_nil. }
  rewrite search_snoc. destruct (search est keys) as [[id0 t0] f0].
  destruct (IH _ _ _ eq_refl) as [IHf IHm]. clear IH.
  assert (Hkeep : ∀ tx, est x = Some tx → flt tx t0 = false →
     (if f0 then id0 ∈ keys ++ [x] ∧ est id0 = Some t0 ∧ flt t0 MaxFloat32 = true
      else t0 = MaxFloat32) ∧
     ∀ id t, id ∈ keys ++ [x] → est id = Some t → flt t t0 = false).
  { intros tx Hx Hlt. split.
    - destruct f0; [|done]. rewrite elem_of_app. naive_solver.
    - intros id t [Hin| ->%list_elem_of_singleton]%elem_of_app Ht; [eauto|congruence]. }
  destruct (est x) as [tx|] eqn:Hx.
  - destruct (flt tx t0) eqn:Hlt; intros [= <- <- <-]; [|by eapply Hkeep].
    split.
    + split; [set_solver|]. split; [done|].
      destruct f0; [|congruence]. destruct IHf as (_ & _ & ?). by eapply flt_trans.
    + intros id t [Hin| ->%list_elem_of_singleton]%elem_of_app Ht.
      * destruct (flt t tx) eqn:E; [|done]. rewrite <-(IHm id t Hin Ht). symmetry.
        by eapply flt_trans.
      * simplify_eq. apply flt_irrefl.
  - intros [= <- <- <-]. split.
    + destruct f0; [|done]. rewrite elem_of_app. naive_solver.
    + intros id t [Hin| ->%list_elem_of_singleton]%elem_of_app Ht; [eauto|congruence].
Qed.

Lemma elem_of_shuffled_keys env s id :
  id ∈ shuffled_keys env s ↔ is_Some (status s !! id).
Proof. unfold shuffled_keys. by rewrite shuffle_perm, elem_of_range_keys. Qed.

(** The estimate that a call of [getBestWorker] uses, [None] when the call
    ends before the search. *)
Definition estimate (env : sched_env) (s : server) (localityFlag : bool) (uids : list N)
    : option (N → option float32) :=
  if localityFlag && negb (bool_decide (uids = [])) then
    match env_GetObjectLocations env {| ol_Args := uids |} with
    | (Some resp, None) =>
        let '(locationToBytes, total) := locality_bytes env s resp in
        Some (locality_estimate env s locationToBytes total)
    | _ => None
    end
  else Some (local_estimate env s).

Lemma getBestWorker_search env s flag uids est :
  estimate env s flag uids = Some est →
  getBestWorker env s flag uids =
  let '(minId, minTime, foundBest) := search est (shuffled_keys env s) in
  if foundBest then Returns minId else Fatal "global scheduler failed to pick a worker".
Proof.
  unfold estimate, getBestWorker. case_match.
  - destruct (env_GetObjectLocations _ _) as [[resp|] []]; try done.
    destruct (locality_bytes env s resp) as [ltb total]. intros [= <-]. simpl.
    by destruct (search _ _) as [[] []].
  - intros [= <-]. simpl. by destruct (search _ _) as [[] []].
Qed.

Lemma estimate_live env s flag uids est id t :
  estimate env s flag uids = Some est → est id = Some t →
  ∃ hb, status s !! id = Some hb ∧ is_live (env_now env id) hb = true.
Proof.
  unfold estimate. case_match; intros He Ht.
  - destruct (env_GetObjectLocations _ _) as [[resp|] []]; try done.
    destruct (locality_bytes env s resp) as [ltb total]. injection He as <-.
    unfold locality_estimate in Ht. destruct (status s !! id) as [hb|]; [|done].
    exists hb. by destruct (is_live _ _).
  - injection He as <-. unfold local_estimate in Ht.
    destruct (status s !! id) as [hb|]; [|done]. exists hb. by destruct (is_live _ _).
Qed.

Lemma getBestWorker_live env s flag uids id :
  getBestWorker env s flag uids = Returns id →
  ∃ hb, status s !! id = Some hb ∧ is_live (env_now env id) hb = true.
Proof.
  intros E. destruct (estimate env s flag uids) as [est|] eqn:He.
  - rewrite (getBestWorker_search _ _ _ _ _ He) in E.
    destruct (search est (shuffled_keys env s)) as [[minId minTime] found] eqn:Es.
    apply search_spec in Es as [Hf _]. destruct found; [|done]. injection E as ->.
    by eapply estimate_live; [|apply Hf].
  - unfold estimate in He. unfold getBestWorker in E. case_match; [|done].
    destruct (env_GetObjectLocations _ _) as [[resp|] []]; try done.
    by destruct (locality_bytes env s resp).
Qed.

(** The calls of an acknowledged request. *)
Lemma Schedule_acknowledged cfg env s req calls ok :
  Schedule cfg env s req = (calls, Returns (Some ok, None)) →
  ∃ node_id,
    (if decide (gs_NodeId req = 0%N)
     then getBestWorker env s (gs_LocalityFlag req) (gs_Uids req) = Returns node_id
     else node_id = gs_NodeId req) ∧
    calls = [CallRegisterGenerating {| gn_Uid := gs_Uid req; gn_NodeId := node_id |};
             CallRun (node_address (NodePrefix cfg) node_id
                        (port_LocalWorkerStart (cfg_Ports cfg)))
               {| rr_Uid := gs_Uid req; rr_Name := gs_Name req;
                  rr_Args := gs_Args req; rr_Kwargs := gs_Kwargs req |}].
Proof.
  unfold Schedule. intros E.
  destruct (if decide _ then _ else _) as [node_id| |] eqn:En; try done.
  exists node_id. split; [case_decide; [done|by injection En]|].
  destruct (env_Dial env _) as [err|]; [done|].
  destruct (env_Run env _ _) as [[ack|] [err|]]; try done.
  destruct (st_Success ack); [|done]. by injection E as <- _.
Qed.
