(* ===== verification/GlobalSchedulerThms.v ===== *)
(** * Theorems about the global scheduler

    Optimality and liveness of the chosen worker, the exactness of the byte
    counts of the locality policy, heartbeats and the report of live nodes,
    and the calls a scheduling request makes. *)
From Stdlib Require Import SpecFloat.
From S2P Require Import Prelude Float32 Net Messages Config GlobalScheduler.
Open Scope go_scope.

(** ** Byte counts *)

(** One entry per holder of each requested object. *)
Definition placements (vals : list LocationByteTuple) : list (N * N) :=
  vals ≫= λ val, (λ loc, (loc, lb_Bytes val)) <$> lb_Locations val.

Fixpoint all_bytes (pl : list (N * N)) : N :=
  match pl with [] => 0%N | p :: pl => (p.2 + all_bytes pl)%N end.

Fixpoint bytes_at (loc : N) (pl : list (N * N)) : N :=
  match pl with
  | [] => 0%N
  | p :: pl => if decide (p.1 = loc) then (p.2 + bytes_at loc pl)%N else bytes_at loc pl
  end.

#[export] Instance all_bytes_perm : Proper ((≡ₚ) ==> (=)) all_bytes.
Proof. induction 1; simpl; lia. Qed.

#[export] Instance bytes_at_perm loc : Proper ((≡ₚ) ==> (=)) (bytes_at loc).
Proof. induction 1; simpl; repeat case_decide; lia. Qed.

Lemma bytes_at_le loc pl : (bytes_at loc pl <= all_bytes pl)%N.
Proof. induction pl as [|[l b] pl IH]; simpl; [done|]. case_decide; lia. Qed.

Definition count_step (acc : gmap N N * N) (p : N * N) : gmap N N * N :=
  (<[p.1 := default 0%N (acc.1 !! p.1) +64 p.2]> acc.1, acc.2 +64 p.2).

Lemma count_bytes_placements vals init :
  count_bytes vals init = foldl count_step (init, 0%N) (placements vals).
Proof.
  unfold count_bytes. generalize (init, 0%N). induction vals as [|v vals IH]; [done|].
  intros acc. simpl. rewrite IH. unfold placements. simpl. rewrite foldl_app. f_equal.
  generalize acc. induction (lb_Locations v) as [|l ls IHl]; [done|].
  intros acc'. simpl. by rewrite IHl.
Qed.

Lemma count_step_exact pl m t :
  (t + all_bytes pl < two64)%N → (∀ loc, (default 0 (m !! loc) <= t)%N) →
  (foldl count_step (m, t) pl).2 = (t + all_bytes pl)%N ∧
  ∀ loc, default 0%N ((foldl count_step (m, t) pl).1 !! loc)
         = (default 0%N (m !! loc) + bytes_at loc pl)%N.
Proof.
  revert m t. induction pl as [|[l b] pl IH]; intros m t Ht Hm.
  { simpl. split; [lia|]. intros. by rewrite N.add_0_r. }
  assert (Hall : all_bytes ((l, b) :: pl) = (b + all_bytes pl)%N) by done.
  rewrite Hall in Ht |- *. simpl. unfold count_step at 2 4. simpl.
  pose proof (Hm l). rewrite !wrap64_small by lia.
  edestruct (IH (<[l := (default 0 (m !! l) + b)%N]> m) (t + b)%N) as [IH1 IH2].
  - lia.
  - intros loc. destruct (decide (l = loc)) as [->|].
    + rewrite lookup_insert_eq. simpl. lia.
    + rewrite lookup_insert_ne by done. specialize (Hm loc). lia.
  - split; [rewrite IH1; lia|]. intros loc. rewrite IH2. simpl.
    destruct (decide (l = loc)) as [->|].
    + rewrite lookup_insert_eq. simpl. lia.
    + by rewrite lookup_insert_ne by done.
Qed.

Lemma foldl_zero_lookup (l : list N) (m : gmap N N) loc :
  (default 0 (m !! loc) = 0)%N →
  (default 0 (foldl (λ m id, <[id := 0%N]> m) m l !! loc) = 0)%N.
Proof.
  revert m. induction l as [|x l IH]; intros m Hm; simpl; [done|]. apply IH.
  destruct (decide (x = loc)) as [->|].
  - by rewrite lookup_insert_eq.
  - by rewrite lookup_insert_ne.
Qed.

(** C35: the locality policy counts exactly: as long as the objects' bytes add
    up to less than 2^64, the total is the sum over all holders, a node's
    count is the sum over the objects it holds, and the bytes still to be
    transferred, [total - bytes], do not wrap; the iteration orders do not
    matter. *)
Theorem locality_bytes_exact env s resp :
  let pl := placements ((map_to_list (ol_Locations resp)).*2) in
  (all_bytes pl < two64)%N →
  let '(locationToBytes, total) := locality_bytes env s resp in
  total = all_bytes pl ∧
  ∀ loc, default 0%N (locationToBytes !! loc) = bytes_at loc pl ∧
         total -64 default 0%N (locationToBytes !! loc) = (all_bytes pl - bytes_at loc pl)%N.
Proof.
  intros pl Hlt. set (pl' := placements ((range (env_locs env) (ol_Locations resp)).*2)).
  assert (Hp : pl' ≡ₚ pl).
  { unfold pl', pl, placements. by rewrite range_perm. }
  assert (Hall : all_bytes pl' = all_bytes pl) by by rewrite Hp.
  assert (Hat : ∀ loc, bytes_at loc pl' = bytes_at loc pl).
  { intros. by rewrite Hp. }
  unfold locality_bytes. rewrite count_bytes_placements. fold pl'.
  match goal with |- context [foldl count_step (?m, 0%N) pl'] =>
    destruct (count_step_exact pl' m 0) as [E1 E2] end.
  { by rewrite Hall. }
  { intros. by rewrite foldl_zero_lookup by by rewrite lookup_empty. }
  destruct (foldl count_step _ pl') as [ltb total]. simpl in E1, E2.
  rewrite Hall in E1. split; [done|]. intros loc.
  rewrite E2, foldl_zero_lookup, Hat by by rewrite lookup_empty. simpl.
  split; [done|]. pose proof (bytes_at_le loc pl). subst total.
  unfold wrap64. rewrite <-N.add_sub_assoc by lia.
  rewrite N.add_comm, N.Div0.add_mod, N.Div0.mod_same, N.add_0_r, N.Div0.mod_mod.
  apply N.mod_small. lia.
Qed.

(** ** Which worker is chosen *)

(** C10: when a worker is picked, with either policy and whatever the clock,
    the iteration order and the shuffle, it is a node that sent a heartbeat
    within the timeout, its estimated waiting time is a number below the
    largest float, and no other live node has a smaller estimate. *)
Theorem best_worker_is_live_and_minimal env s flag uids est id :
  estimate env s flag uids = Some est →
  getBestWorker env s flag uids = Returns id →
  ∃ hb t, status s !! id = Some hb ∧ is_live (env_now env id) hb = true ∧
    est id = Some t ∧ is_nan t = false ∧ flt t MaxFloat32 = true ∧
    ∀ id' t', est id' = Some t' → flt t' t = false.
Proof.
  intros He. rewrite (getBestWorker_search _ _ _ _ _ He).
  destruct (search est (shuffled_keys env s)) as [[minId minTime] found] eqn:Es.
  apply search_spec in Es as [Hf Hm]. destruct found; [|done]. intros [= ->].
  destruct Hf as (_ & Ht & Hmax).
  destruct (estimate_live _ _ _ _ _ _ _ He Ht) as (hb & Hhb & Hl).
  exists hb, minTime. split_and!; try done; [by destruct minTime|].
  intros id' t' Ht'. eapply Hm; [|done]. apply elem_of_shuffled_keys.
  destruct (estimate_live _ _ _ _ _ _ _ He Ht') as (? & ? & _). eauto.
Qed.

(** The scheduler gives up, ending its process, exactly when no live node
    has an estimate below the largest float: no live node at all, or only
    estimates that are infinite or not a number. *)
Theorem no_worker_iff env s flag uids est :
  estimate env s flag uids = Some est →
  getBestWorker env s flag uids = Fatal "global scheduler failed to pick a worker" ↔
  ∀ id t, est id = Some t → flt t MaxFloat32 = false.
Proof.
  intros He. rewrite (getBestWorker_search _ _ _ _ _ He).
  destruct (search est (shuffled_keys env s)) as [[minId minTime] found] eqn:Es.
  apply search_spec in Es as [Hf Hm]. destruct found.
  - destruct Hf as (_ & Ht & Hmax). split; [done|]. intros Hall.
    rewrite (Hall _ _ Ht) in Hmax. done.
  - subst minTime. split; [|done]. intros _ id t Ht. eapply Hm; [|done].
    apply elem_of_shuffled_keys.
    destruct (estimate_live _ _ _ _ _ _ _ He Ht) as (? & ? & _). eauto.
Qed.

(** ** The search against a reference *)

(** A node whose estimate the search can take. *)
Definition candidate (est : N → option float32) (id : N) : bool :=
  match est id with Some t => flt t MaxFloat32 | None => false end.

(** Some key has a smaller estimate. *)
Definition beaten (est : N → option float32) (keys : list N) (id : N) : bool :=
  existsb (λ id', match est id', est id with
                  | Some t', Some t => flt t' t
                  | _, _ => false
                  end) keys.

(** The reference: the first of the keys that is a candidate and that no key
    beats. *)
Definition reference_worker (est : N → option float32) (keys : list N) : option N :=
  head (List.filter (λ id, candidate est id && negb (beaten est keys id)) keys).

(** Where the search stops: everything before the winner that could have been
    taken is strictly worse. *)
Lemma search_first est keys minId minTime :
  search est keys = (minId, minTime, true) →
  ∃ l1 l2, keys = l1 ++ minId :: l2 ∧
    ∀ id t, id ∈ l1 → est id = Some t → flt t MaxFloat32 = true → flt minTime t = true.
Proof.
  revert minId minTime. induction keys as [|x keys IH] using rev_ind; intros minId minTime; [done|].
  rewrite search_snoc. destruct (search est keys) as [[id0 t0] f0] eqn:Es.
  assert (Hkeep : f0 = true → id0 = minId → t0 = minTime → ∃ l1 l2, keys ++ [x] = l1 ++ minId :: l2 ∧
    ∀ id t, id ∈ l1 → est id = Some t → flt t MaxFloat32 = true → flt minTime t = true).
  { intros -> -> ->. destruct (IH _ _ eq_refl) as (l1 & l2 & -> & H).
    exists l1, (l2 ++ [x]). by rewrite <-app_assoc. }
  destruct (est x) as [tx|] eqn:Hx; [|by intros [= <- <- ->]; apply Hkeep].
  destruct (flt tx t0) eqn:Hlt; [|by intros [= <- <- ->]; apply Hkeep].
  intros [= <- <-]. exists keys, []. split; [done|]. intros id t Hin Ht Hmax.
  apply search_spec in Es as [_ Hm].
  eapply flt_cotrans; [exact Hlt|by apply at_most_max_not_nan|]. by eapply Hm.
Qed.

Lemma beaten_spec est keys id t :
  est id = Some t →
  beaten est keys id = true ↔ ∃ id' t', id' ∈ keys ∧ est id' = Some t' ∧ flt t' t = true.
Proof.
  intros Ht. unfold beaten. rewrite existsb_exists. split.
  - intros (id' & Hin%list_elem_of_In & Hb). rewrite Ht in Hb.
    destruct (est id') as [t'|] eqn:E; [|done]. eauto.
  - intros (id' & t' & Hin & E & Hb). exists id'. rewrite E, Ht. by rewrite <-list_elem_of_In.
Qed.

Lemma getBestWorker_reference env s flag uids est :
  estimate env s flag uids = Some est →
  getBestWorker env s flag uids =
  match reference_worker est (shuffled_keys env s) with
  | Some id => Returns id
  | None => Fatal "global scheduler failed to pick a worker"
  end.
Proof.
  intros He.
  rewrite (getBestWorker_search _ _ _ _ _ He). unfold reference_worker.
  generalize (shuffled_keys env s). intros keys.
  destruct (search est keys) as [[minId minTime] found] eqn:Es.
  pose proof (search_spec _ _ _ _ _ Es) as [Hf Hm]. destruct found.
  - destruct Hf as (_ & Ht & Hmax).
    destruct (search_first _ _ _ _ Es) as (l1 & l2 & Hkeys & Hl1).
    assert (Hwin : beaten est keys minId = false).
    { apply not_true_iff_false. rewrite (beaten_spec _ _ _ _ Ht). intros (id' & t' & Hin & E & Hlt).
      by rewrite (Hm id' t') in Hlt. }
    set (keep := λ id, candidate est id && negb (beaten est keys id)).
    assert (List.filter keep l1 = []) as E1.
    { assert (∀ id, id ∈ l1 → keep id = false) as Hno.
      { intros id Hin. unfold keep, candidate. destruct (est id) as [t|] eqn:E; [|done].
        destruct (flt t MaxFloat32) eqn:Hc; [|done]. cbn. apply negb_false_iff.
        apply (beaten_spec _ _ _ _ E). exists minId, minTime. split_and!; [|done|by eapply Hl1].
        rewrite Hkeys, elem_of_app. right. left. }
      clear -Hno. induction l1 as [|id l1 IH]; [done|]. cbn. rewrite Hno by left.
      apply IH. intros ??. apply Hno. by right. }
    rewrite Hkeys, List.filter_app, E1. cbn.
    unfold keep at 1, candidate. rewrite Ht, Hmax, Hwin. done.
  - subst minTime.
    assert (List.filter (λ id, candidate est id && negb (beaten est keys id)) keys = []) as ->; [|done].
    assert (∀ id, id ∈ keys → candidate est id = false) as Hno.
    { intros id Hin. unfold candidate. destruct (est id) as [t|] eqn:E; [|done]. by eapply Hm. }
    generalize (beaten est keys). clear -Hno. intros b.
    induction keys as [|id keys IH]; [done|]. cbn. rewrite Hno by left. cbn.
    apply IH. intros ??. apply Hno. by right.
Qed.

(** C12: The single pass over the shuffled nodes, with its running minimum and
    its flag, computes the reference: [getBestWorker] returns the first node in
    shuffled order whose estimate is a number below the largest float and is
    not beaten by that of any node, and ends the process exactly when there is
    no such node; when the object table does not answer, it ends as well. *)
Theorem getBestWorker_equiv env s flag uids :
  match estimate env s flag uids with
  | Some est =>
      getBestWorker env s flag uids =
      match reference_worker est (shuffled_keys env s) with
      | Some id => Returns id
      | None => Fatal "global scheduler failed to pick a worker"
      end
  | None => ∀ id, getBestWorker env s flag uids ≠ Returns id
  end.
Proof.
  destruct (estimate env s flag uids) as [est|] eqn:He; [by apply getBestWorker_reference|].
  intros id E. unfold estimate in He. unfold getBestWorker in E. case_match; [|done].
  destruct (env_GetObjectLocations _ _) as [[resp|] []]; try done.
  by destruct (locality_bytes env s resp).
Qed.

(** The environment with another shuffle. *)
Definition with_shuffle (env : sched_env) (p : nat → picker) : sched_env :=
  {| env_now := env_now env; env_keys := env_keys env; env_locs := env_locs env;
     env_init := env_init env; env_shuffle := p;
     env_GetObjectLocations := env_GetObjectLocations env; env_Dial := env_Dial env;
     env_Run := env_Run env |}.

(** C13: The shuffle makes the choice fair: among the nodes with the least
    estimate below the largest float, each can be picked, by some outcome of the
    shuffle, and no other node can; whichever order Go iterates its map in. *)
Theorem fair_choice env s flag uids est id :
  estimate env s flag uids = Some est →
  (∃ p, getBestWorker (with_shuffle env p) s flag uids = Returns id) ↔
  ∃ t, est id = Some t ∧ flt t MaxFloat32 = true ∧
       ∀ id' t', est id' = Some t' → flt t' t = false.
Proof.
  intros He.
  assert (Hes : ∀ p, estimate (with_shuffle env p) s flag uids = Some est) by (intros p; exact He).
  assert (Hkey : ∀ p id t, est id = Some t → id ∈ shuffled_keys (with_shuffle env p) s).
  { intros p id' t Ht. apply elem_of_shuffled_keys.
    destruct (estimate_live _ _ _ _ _ _ _ He Ht) as (hb & ? & _). eauto. }
  assert (Hnb : ∀ p id t, est id = Some t →
    beaten est (shuffled_keys (with_shuffle env p) s) id = false ↔
    ∀ id' t', est id' = Some t' → flt t' t = false).
  { intros p id' t Ht. rewrite <-not_true_iff_false, (beaten_spec _ _ _ _ Ht). split.
    - intros Hn id'' t'' E. apply not_true_iff_false. intros Hlt. apply Hn. eauto 6.
    - intros Hall (id'' & t'' & _ & E & Hlt). by rewrite (Hall _ _ E) in Hlt. }
  split.
  - intros [p E]. rewrite (getBestWorker_reference _ _ _ _ _ (Hes p)) in E.
    unfold reference_worker in E. destruct (head _) as [id'|] eqn:Eh; [|done]. injection E as ->.
    assert (In id (List.filter (λ id, candidate est id && negb (beaten est
      (shuffled_keys (with_shuffle env p) s) id)) (shuffled_keys (with_shuffle env p) s))) as Hin.
    { destruct (List.filter _ _); [done|]. injection Eh as ->. by left. }
    apply filter_In in Hin as [_ [Hc Hb]%andb_prop]. unfold candidate in Hc.
    destruct (est id) as [t|] eqn:Et; [|done]. exists t. split; [done|]. split; [done|].
    apply negb_true_iff in Hb. by apply (Hnb p id t Et).
  - intros (t & Ht & Hmax & Hall).
    assert (id ∈ range_keys (env_keys env) (status s)) as Hin.
    { apply elem_of_range_keys. destruct (estimate_live _ _ _ _ _ _ _ He Ht) as (hb & ? & _). eauto. }
    destruct (shuffle_first _ _ Hin) as [p Hp]. exists p.
    rewrite (getBestWorker_reference _ _ _ _ _ (Hes p)). unfold reference_worker.
    destruct (shuffled_keys (with_shuffle env p) s) as [|k keys] eqn:Ek.
    { unfold shuffled_keys in Ek. cbn [with_shuffle env_shuffle env_keys] in Ek. by rewrite Ek in Hp. }
    assert (k = id) as ->.
    { unfold shuffled_keys in Ek. cbn [with_shuffle env_shuffle env_keys] in Ek.
      rewrite Ek in Hp. by injection Hp. }
    assert (beaten est (id :: keys) id = false) as Hb by (rewrite <-Ek; by apply (Hnb p id t Ht)).
    cbn [List.filter]. unfold candidate at 1. by rewrite Ht, Hmax, Hb.
Qed.

(** With the locality policy a node that reports a bandwidth of zero is
    never picked. *)
Theorem zero_bandwidth_never_picked env s uids est id hb :
  uids ≠ [] → estimate env s true uids = Some est →
  status s !! id = Some hb → avgBandwidth hb = S754_zero false →
  getBestWorker env s true uids ≠ Returns id.
Proof.
  intros Hu He Hhb Hbw Hr. pose proof He as He'.
  rewrite (getBestWorker_search _ _ _ _ _ He) in Hr.
  destruct (search est (shuffled_keys env s)) as [[minId minTime] found] eqn:Es.
  apply search_spec in Es as [Hf _]. destruct found; [|done]. injection Hr as ->.
  destruct Hf as (_ & Ht & Hmax). unfold estimate in He'.
  rewrite bool_decide_eq_false_2 in He' by done. simpl in He'.
  destruct (env_GetObjectLocations _ _) as [[resp|] []]; try done.
  destruct (locality_bytes env s resp) as [ltb total]. injection He' as <-.
  unfold locality_estimate in Ht. rewrite Hhb in Ht.
  destruct (is_live _ _); [|done]. injection Ht as <-. revert Hmax.
  unfold transferTime. rewrite Hbw. generalize (queueingTime hb).
  unfold of_uint. intros q Hmax.
  assert (Hz : ∀ n : N, let x := binary_normalize prec32 emax32 (Z.of_N n) 0 false in
    flt (fadd q (fdiv x (S754_zero false))) MaxFloat32 = false).
  { intros n x. unfold x. clear.
    destruct n as [|p]; [by destruct q as [[]|[]| |[] ??]|].
    simpl. unfold binary_round.
    destruct (shl_align p 0 _) as [mz ez]. unfold binary_round_aux.
    destruct (shr_fexp _ _ (Z.pos mz) _ _) as [mrs e].
    destruct (shr_fexp _ _ _ e _) as [mrs' e'].
    destruct (shr_m mrs'); [by destruct q as [[]|[]| |[] ??]| |by destruct q as [[]|[]| |[] ??]].
    destruct (e' <=? _)%Z; by destruct q as [[]|[]| |[] ??]. }
  by rewrite Hz in Hmax.
Qed.

(** ** Heartbeats and the report of live nodes *)

Lemma foldl_insert_report (now : N → Z) (l : list (N * HeartbeatEntry)) (m : gmap N bool) id :
  NoDup l.*1 →
  foldl (λ liveNodes e, <[e.1 := is_live (now e.1) e.2]> liveNodes) m l !! id =
  match (list_to_map l : gmap N HeartbeatEntry) !! id with
  | Some hb => Some (is_live (now id) hb)
  | None => m !! id
  end.
Proof.
  revert m. induction l as [|[k hb] l IH]; intros m Hnd; simpl; [by rewrite lookup_empty|].
  apply NoDup_cons in Hnd as [Hk Hnd]. rewrite IH by done.
  destruct (decide (k = id)) as [->|].
  - rewrite !lookup_insert_eq, not_elem_of_list_to_map_1 by done. done.
  - by rewrite !lookup_insert_ne by done.
Qed.

Lemma SendLiveNodes_lookup now o s id :
  ln_LiveNodes (SendLiveNodes now o s) !! id = is_live (now id) <$> status s !! id.
Proof.
  unfold SendLiveNodes. simpl.
  rewrite foldl_insert_report by apply (NoDup_range_keys o).
  assert (list_to_map (range o (status s)) = status s) as ->.
  { rewrite <-(list_to_map_to_list (status s)) at 2.
    apply list_to_map_proper; [apply (NoDup_range_keys o)|apply range_perm]. }
  destruct (status s !! id); [done|]. apply lookup_empty.
Qed.

(** The report of live nodes lists exactly the nodes that ever sent a
    heartbeat, each as alive if and only if its last heartbeat is less than
    the timeout old; so right after a heartbeat a node is reported alive, and
    without a further one it is reported dead from the timeout on. *)
Theorem heartbeat_then_report now0 now o s req id :
  let s' := (Heartbeat now0 s req).1 in
  ln_LiveNodes (SendLiveNodes now o s') !! id =
    if decide (id = hb_NodeId req) then Some (now id - now0 <? LIVE_NODE_TIMEOUT)%Z
    else is_live (now id) <$> status s !! id.
Proof.
  intros s'. rewrite SendLiveNodes_lookup. unfold s'. simpl.
  destruct (decide (id = hb_NodeId req)) as [->|].
  - by rewrite lookup_insert_eq.
  - by rewrite lookup_insert_ne.
Qed.

(** A heartbeat of a node whose task slots are all taken counts one more
    queued task, in 32 bits: at the largest uint32 the count wraps to zero
    and the busiest node looks idle. *)
Theorem heartbeat_queue_count now s req :
  (hb_QueuedTasks req < two32)%N →
  ∃ hb, status (Heartbeat now s req).1 !! hb_NodeId req = Some hb ∧
    timeReceived hb = now ∧ numRunningTasks hb = hb_RunningTasks req ∧
    avgRunningTime hb = hb_AvgRunningTime req ∧ avgBandwidth hb = hb_AvgBandwidth req ∧
    numQueuedTasks hb =
      (if decide (hb_RunningTasks req = MAX_CONCURRENT_TASKS) then
         if decide (hb_QueuedTasks req = two32 - 1) then 0 else hb_QueuedTasks req + 1
       else hb_QueuedTasks req)%N.
Proof.
  intros Hq. eexists. split; [by simpl; rewrite lookup_insert_eq|]. simpl.
  split_and!; try done. case_decide; [|done]. case_decide as Hm.
  - by rewrite Hm.
  - apply wrap32_small. lia.
Qed.

(** ** Scheduling *)

(** Scheduling sends the task to one worker, the requested node if the
    request names one and the best worker otherwise; that node is registered
    as generating the object before the worker is called, the worker's
    address names exactly that node, and the answer is a success if and only
    if the worker acknowledged. *)
Theorem Schedule_calls cfg env s req calls r :
  Schedule cfg env s req = (calls, Returns r) →
  ∃ node_id,
    (if decide (gs_NodeId req = 0%N)
     then getBestWorker env s (gs_LocalityFlag req) (gs_Uids req) = Returns node_id
     else node_id = gs_NodeId req) ∧
    let address := node_address (NodePrefix cfg) node_id
                     (port_LocalWorkerStart (cfg_Ports cfg)) in
    let run := {| rr_Uid := gs_Uid req; rr_Name := gs_Name req;
                  rr_Args := gs_Args req; rr_Kwargs := gs_Kwargs req |} in
    (∀ id port, node_address (NodePrefix cfg) id port = address → id = node_id) ∧
    match env_Dial env address with
    | Some err => calls = [] ∧ r = (None, Some err)
    | None =>
        calls = [CallRegisterGenerating {| gn_Uid := gs_Uid req; gn_NodeId := node_id |};
                 CallRun address run] ∧
        r = (Some (Status true), None) ∧
        ∃ ack, env_Run env address run = (Some ack, None) ∧ st_Success ack = true
    end.
Proof.
  unfold Schedule. intros E.
  destruct (if decide _ then _ else _) as [node_id| |] eqn:En; try done.
  exists node_id. split.
  { case_decide; [done|]. by injection En. }
  split.
  { intros id port Ha. by apply node_address_same in Ha as [-> _]. }
  destruct (env_Dial env _) as [err|]; [by injection E as <- <-|].
  destruct (env_Run env _ _) as [[ack|] [err|]] eqn:Er; try done.
  destruct (st_Success ack) eqn:Es; [|done]. injection E as <- <-. eauto.
Qed.

(** ** Witnesses *)

Definition beat (node running queued : N) : HeartbeatRequest :=
  {| hb_RunningTasks := running; hb_QueuedTasks := queued;
     hb_AvgRunningTime := of_ratio 1 10; hb_AvgBandwidth := of_ratio 1 10;
     hb_NodeId := node |}.

(** Nodes 2 and 3 beat recently, node 4 long ago; 2 is busy. *)
Definition demo_sched : server :=
  (Heartbeat 100 (Heartbeat 900000000 (Heartbeat 800000000 {| status := ∅ |}
    (beat 2 10 5)).1 (beat 3 1 2)).1 (beat 4 0 0)).1.

Definition demo_env : sched_env := {|
  env_now _ := 1000000000%Z; env_keys := order_rev; env_locs := order_id;
  env_init := order_id; env_shuffle _ := pick_first;
  env_GetObjectLocations _ := (Some {| ol_Locations :=
    {[ 7%N := {| lb_Locations := [2%N; 4%N]; lb_Bytes := 1000 |} ]} |}, None);
  env_Dial _ := None; env_Run _ _ := (Some (Status true), None) |}.

Lemma locality_bytes_exact_witness :
  (locality_bytes demo_env demo_sched {| ol_Locations :=
    {[ 7%N := {| lb_Locations := [2%N; 4%N]; lb_Bytes := 1000 |} ]} |}).2 = 2000%N.
Proof.
  pose proof (locality_bytes_exact demo_env demo_sched {| ol_Locations :=
    {[ 7%N := {| lb_Locations := [2%N; 4%N]; lb_Bytes := 1000 |} ]} |}) as Hw.
  destruct (locality_bytes _ _ _) as [ltb total].
  destruct Hw as [Ht _]; [reflexivity|]. exact Ht.
Defined.

Lemma best_worker_is_live_and_minimal_witness :
  getBestWorker demo_env demo_sched false [] = Returns 3%N ∧
  ∃ hb, status demo_sched !! 3%N = Some hb ∧ is_live 1000000000 hb = true.
Proof.
  split; [vm_compute; reflexivity|].
  destruct (best_worker_is_live_and_minimal demo_env demo_sched false []
    (local_estimate demo_env demo_sched) 3) as (hb & t & H1 & H2 & _).
  - reflexivity.
  - vm_compute; reflexivity.
  - by exists hb.
Defined.

Lemma no_worker_iff_witness :
  getBestWorker demo_env {| status := ∅ |} false [] =
    Fatal "global scheduler failed to pick a worker".
Proof.
  apply (no_worker_iff demo_env {| status := ∅ |} false []
    (local_estimate demo_env {| status := ∅ |})); [reflexivity|].
  intros id t. unfold local_estimate. simpl. by rewrite lookup_empty.
Defined.

Lemma zero_bandwidth_never_picked_witness :
  let s := (Heartbeat 999999999 demo_sched
    {| hb_RunningTasks := 0; hb_QueuedTasks := 0; hb_AvgRunningTime := of_uint 0;
       hb_AvgBandwidth := of_uint 0; hb_NodeId := 9 |}).1 in
  getBestWorker demo_env s true [7%N] ≠ Returns 9%N.
Proof.
  intros s. eapply (zero_bandwidth_never_picked demo_env s [7%N]).
  - discriminate.
  - reflexivity.
  - vm_compute; reflexivity.
  - reflexivity.
Defined.

Lemma heartbeat_queue_count_witness :
  ∃ hb, status (Heartbeat 5 {| status := ∅ |} (beat 2 10 (two32 - 1))).1 !! 2%N = Some hb ∧
        numQueuedTasks hb = 0%N.
Proof.
  destruct (heartbeat_queue_count 5 {| status := ∅ |} (beat 2 10 (two32 - 1)))
    as (hb & Hs & _ & _ & _ & _ & Hq); [reflexivity|].
  exists hb. split; [exact Hs|exact Hq].
Defined.

Lemma Schedule_calls_witness :
  ∃ node_id : N, node_id = 4%N ∧
    Schedule app_config demo_env demo_sched
      {| gs_Uid := 7; gs_Name := 1; gs_Args := []; gs_Kwargs := []; gs_Uids := [];
         gs_NewObject := true; gs_NodeId := 4; gs_LocalityFlag := false |}
    = ([CallRegisterGenerating {| gn_Uid := 7; gn_NodeId := node_id |};
        CallRun "node4:50002" {| rr_Uid := 7; rr_Name := 1; rr_Args := []; rr_Kwargs := [] |}],
       Returns (Some (Status true), None)).
Proof.
  destruct (Schedule_calls app_config demo_env demo_sched
      {| gs_Uid := 7; gs_Name := 1; gs_Args := []; gs_Kwargs := []; gs_Uids := [];
         gs_NewObject := true; gs_NodeId := 4; gs_LocalityFlag := false |}
      [CallRegisterGenerating {| gn_Uid := 7; gn_NodeId := 4 |};
        CallRun "node4:50002" {| rr_Uid := 7; rr_Name := 1; rr_Args := []; rr_Kwargs := [] |}]
      (Some (Status true), None)) as (n & Hn & _).
  - vm_compute; reflexivity.
  - exists n. split; [exact Hn|]. change (n = 4%N) in Hn. subst n. vm_compute; reflexivity.
Defined.

(** Nodes 3 and 4 of another table have the same least estimate; either can be
    picked. *)
Definition tied_sched : server :=
  (Heartbeat 900000000 (Heartbeat 900000000 {| status := ∅ |} (beat 3 0 0)).1 (beat 4 0 0)).1.

Lemma fair_choice_witness :
  (∃ p, getBestWorker (with_shuffle demo_env p) tied_sched false [] = Returns 3%N) ∧
  (∃ p, getBestWorker (with_shuffle demo_env p) tied_sched false [] = Returns 4%N).
Proof.
  assert (H : ∀ id, id ∈ [3; 4]%N →
    ∃ t, local_estimate demo_env tied_sched id = Some t ∧ flt t MaxFloat32 = true ∧
      ∀ id' t', local_estimate demo_env tied_sched id' = Some t' → flt t' t = false).
  { assert (∀ id t, local_estimate demo_env tied_sched id = Some t → t = queueingTime
      {| timeReceived := 900000000; numRunningTasks := 0; numQueuedTasks := 0;
         avgRunningTime := hb_AvgRunningTime (beat 3 0 0); avgBandwidth := hb_AvgBandwidth (beat 3 0 0) |})
      as Hall.
    { intros id t. unfold local_estimate, tied_sched. simpl.
      destruct (decide (id = 4%N)) as [->|]; [by intros [= <-]|].
      rewrite lookup_insert_ne by done.
      destruct (decide (id = 3%N)) as [->|]; [by intros [= <-]|].
      by rewrite lookup_insert_ne, lookup_empty by done. }
    intros id Hin. destruct (local_estimate demo_env tied_sched id) as [t|] eqn:Et.
    - exists t. split; [done|]. rewrite (Hall _ _ Et). split; [by vm_compute|].
      intros id' t' E'. rewrite (Hall _ _ E'). by vm_compute.
    - exfalso. revert Et. apply elem_of_cons in Hin as [->| ->%list_elem_of_singleton]; by vm_compute. }
  split; apply (fair_choice demo_env tied_sched false [] (local_estimate demo_env tied_sched));
    try reflexivity; apply H; [left|right; left].
Defined.
