(* ===== verification/Liveness.v ===== *)
(** * The liveness loop of the global scheduler

    [LiveNodesHeartbeat] of [go/cmd/globalscheduler/main.go]: it reports the
    live nodes to the object table, sleeps [HEARTBEAT_WAIT] and starts again,
    while heartbeats arrive.  The loop never ends, so it is a function of the
    rounds it has made; the theorems bound, in rounds, how long a dead node goes
    unnoticed, from the two constants of the source. *)
From S2P Require Import Prelude Float32 Net Messages Config GlobalScheduler GlobalSchedulerThms.

(** One round: when the report reads the clock for each node, the order of its
    loop, and the heartbeats received until the next round, each with the time
    [Heartbeat] reads. *)
Record round := {
  rd_now : N → Z;
  rd_order : order;
  rd_beats : list (Z * HeartbeatRequest)
}.

Definition beat_all (s : server) (beats : list (Z * HeartbeatRequest)) : server :=
  foldl (λ s b, (Heartbeat b.1 s b.2).1) s beats.

(** The reports sent, in order. *)
Fixpoint LiveNodesHeartbeat (s : server) (rounds : list round) : list LiveNodesRequest :=
  match rounds with
  | [] => []
  | r :: rounds =>
      SendLiveNodes (rd_now r) (rd_order r) s :: LiveNodesHeartbeat (beat_all s (rd_beats r)) rounds
  end.

(** The time of the last heartbeat of a node. *)
Fixpoint last_beat (n : N) (beats : list (Z * HeartbeatRequest)) (before : option Z) : option Z :=
  match beats with
  | [] => before
  | (t, req) :: beats =>
      last_beat n beats (if decide (hb_NodeId req = n) then Some t else before)
  end.

Definition beats_before (i : nat) (rounds : list round) : list (Z * HeartbeatRequest) :=
  take i rounds ≫= rd_beats.

Lemma last_beat_app n l1 l2 b : last_beat n (l1 ++ l2) b = last_beat n l2 (last_beat n l1 b).
Proof. revert b. induction l1 as [|[t req] l1 IH]; intros b; cbn; [done|apply IH]. Qed.

Lemma last_beat_none n l b :
  Forall (λ tr, hb_NodeId tr.2 ≠ n) l → last_beat n l b = b.
Proof.
  induction l as [|[t req] l IH]; [done|]. intros [Hn Hl]%Forall_cons. cbn in *.
  rewrite decide_False by done. by apply IH.
Qed.

Lemma beat_all_received n s beats :
  timeReceived <$> status (beat_all s beats) !! n =
  last_beat n beats (timeReceived <$> status s !! n).
Proof.
  revert s. induction beats as [|[t req] beats IH]; intros s; [done|].
  cbn [last_beat]. unfold beat_all in *. cbn [foldl fst snd]. rewrite IH. f_equal.
  unfold Heartbeat. cbn [fst status].
  destruct (decide (hb_NodeId req = n)) as [<-|Hn]; [by rewrite lookup_insert_eq|by rewrite lookup_insert_ne].
Qed.

(** What the [i]-th report says of a node. *)
Lemma report_lookup s rounds i rep n :
  LiveNodesHeartbeat s rounds !! i = Some rep →
  ∃ r, rounds !! i = Some r ∧
    ln_LiveNodes rep !! n = (λ t0, bool_decide (rd_now r n - t0 < LIVE_NODE_TIMEOUT)%Z) <$>
      last_beat n (beats_before i rounds) (timeReceived <$> status s !! n).
Proof.
  revert s i. induction rounds as [|r rounds IH]; intros s i; [by rewrite lookup_nil|].
  destruct i as [|i]; cbn.
  - intros [= <-]. exists r. split; [done|]. rewrite SendLiveNodes_lookup.
    destruct (status s !! n) as [hb|]; cbn; [|done]. unfold is_live. f_equal.
    rewrite bool_decide_decide. destruct (Z.ltb_spec (rd_now r n - timeReceived hb) LIVE_NODE_TIMEOUT);
      case_decide; done || lia.
  - intros Hi. apply IH in Hi as (r' & Hr & ->). exists r'. split; [done|]. f_equal.
    unfold beats_before. cbn. by rewrite last_beat_app, beat_all_received.
Qed.

Lemma reports_length s rounds : length (LiveNodesHeartbeat s rounds) = length rounds.
Proof. revert s. induction rounds; intros; cbn; auto. Qed.

(** The rounds of a loop that sleeps between reports: each round has a start,
    the clock is read after it, and the next round starts no earlier than the
    sleep after it. *)
Definition paced (start : nat → Z) (rounds : list round) : Prop :=
  ∀ i r, rounds !! i = Some r →
    (∀ n, start i <= rd_now r n)%Z ∧ (start i + HEARTBEAT_WAIT <= start (S i))%Z.

Lemma paced_after start rounds i k :
  paced start rounds → i + k ≤ length rounds →
  (start i + Z.of_nat k * HEARTBEAT_WAIT <= start (i + k)%nat)%Z.
Proof.
  intros Hp. induction k as [|k IH]; intros Hk; [rewrite Nat.add_0_r; lia|].
  destruct (lookup_lt_is_Some_2 rounds (i + k)) as [r Hr]; [lia|].
  destruct (Hp _ _ Hr) as [_ Hs]. rewrite Nat.add_succ_r.
  specialize (IH ltac:(lia)). lia.
Qed.

(** A dead node is noticed within four rounds.  Let the last heartbeat of a
    node come, at time [t0], before round [i] of the liveness loop starts.  A
    report reads the clock once per node, and until 400 ms after [t0] every
    report calls the node alive; from the fourth round after round [i] on every
    report calls it dead, because each round sleeps 100 ms.  A node that never
    sent a heartbeat is in no report. *)
Theorem dead_node_detected s start rounds n i t0 :
  paced start rounds →
  last_beat n (beats_before i rounds) (timeReceived <$> status s !! n) = Some t0 →
  (t0 <= start i)%Z →
  Forall (λ r, Forall (λ tr, hb_NodeId tr.2 ≠ n) (rd_beats r)) (drop i rounds) →
  ∀ k r rep, i ≤ k → rounds !! k = Some r → LiveNodesHeartbeat s rounds !! k = Some rep →
    ((rd_now r n < t0 + LIVE_NODE_TIMEOUT)%Z → ln_LiveNodes rep !! n = Some true) ∧
    (i + 4 ≤ k → ln_LiveNodes rep !! n = Some false).
Proof.
  intros Hp Hl Ht Hq k r rep Hk Hr Hrep.
  destruct (report_lookup _ _ _ _ n Hrep) as (r' & Hr' & ->).
  rewrite Hr in Hr'. injection Hr' as <-.
  assert (last_beat n (beats_before k rounds) (timeReceived <$> status s !! n) = Some t0) as ->.
  { replace k with (i + (k - i)) by lia. unfold beats_before.
    rewrite <-take_take_drop, bind_app, last_beat_app.
    unfold beats_before in Hl. rewrite Hl. apply last_beat_none.
    apply Forall_bind. eapply Forall_take in Hq. exact Hq. }
  cbn. assert (k < length rounds) by by eapply lookup_lt_Some. split.
  - intros Hlt. f_equal. apply bool_decide_eq_true_2. lia.
  - intros H4. f_equal. apply bool_decide_eq_false_2.
    destruct (Hp _ _ Hr) as [Hnow _]. specialize (Hnow n).
    pose proof (paced_after start rounds i (k - i) Hp ltac:(lia)) as Ha.
    replace (i + (k - i)) with k in Ha by lia.
    unfold HEARTBEAT_WAIT, LIVE_NODE_TIMEOUT in *. lia.
Qed.

(** ** Witness *)

(** Node 3 sends its last heartbeat at 50 ms, in the first round; the rounds
    start every 100 ms and the fifth report after calls it dead. *)
Definition demo_rounds : list round :=
  (λ i, {| rd_now _ := (Z.of_nat i * 100000000)%Z; rd_order := order_id;
           rd_beats := if decide (i = 0) then [(50000000%Z, beat 3 1 2)] else [] |}) <$> seq 0 6.

Lemma demo_rounds_paced : paced (λ i, Z.of_nat i * 100000000)%Z demo_rounds.
Proof.
  intros i r. do 6 (destruct i as [|i]; [intros [= <-]; cbn; unfold HEARTBEAT_WAIT;
    split; intros; lia|]). done.
Qed.

Lemma dead_node_detected_witness :
  ∃ rep1 rep5, LiveNodesHeartbeat {| status := ∅ |} demo_rounds !! 1 = Some rep1 ∧
    LiveNodesHeartbeat {| status := ∅ |} demo_rounds !! 5 = Some rep5 ∧
    ln_LiveNodes rep1 !! 3%N = Some true ∧ ln_LiveNodes rep5 !! 3%N = Some false.
Proof.
  destruct (LiveNodesHeartbeat {| status := ∅ |} demo_rounds !! 1) as [rep1|] eqn:E1; [|done].
  destruct (LiveNodesHeartbeat {| status := ∅ |} demo_rounds !! 5) as [rep5|] eqn:E5; [|done].
  exists rep1, rep5.
  pose proof (dead_node_detected {| status := ∅ |} _ demo_rounds 3 1 50000000
    demo_rounds_paced eq_refl) as H.
  assert (50000000 <= Z.of_nat 1 * 100000000)%Z as Ht by lia.
  assert (Forall (λ r, Forall (λ tr, hb_NodeId tr.2 ≠ 3%N) (rd_beats r)) (drop 1 demo_rounds))
    as Hq by (repeat constructor).
  split; [done|]. split; [done|]. split.
  - eapply (H Ht Hq 1); [lia|reflexivity|exact E1|]. cbn. unfold LIVE_NODE_TIMEOUT. lia.
  - eapply (H Ht Hq 5); [lia|reflexivity|exact E5|lia].
Defined.
