(* ===== verification/Sql.v ===== *)
(** * The SQL database as an interface

    The object table persists its locations through Go's [database/sql] and
    the SQLite driver, which are not part of the repository.  [SqlDriver] is
    the set of calls the code makes; [SqlLaws] states the documented
    behaviour of SQLite for the statements the code sends, about an abstract
    set of [(object_uid, node_id)] rows; [SqlHealthy] adds that, while no
    fault occurs, a well-formed statement within the limits succeeds. *)
From Stdlib Require Import Ascii.
From S2P Require Import Prelude.

(** A prepared statement, a transaction and a database handle are opaque. *)
Class SqlDriver (DB TX STMT : Type) := {
  db_exec : DB → string → list N → DB * option goerror;
  db_prepare : DB → string → result STMT;
  stmt_exec : DB → STMT → DB * option goerror;
  db_begin : DB → result TX;
  tx_exec : TX → string → list N → TX * option goerror;
  tx_rollback : TX → DB;
  tx_commit : TX → DB * option goerror;
  (** the rows, each of which may fail to scan, and [rows.Err()] *)
  db_query : DB → string → list N → result (list (result N) * option goerror)
}.

(** [strings.Join] *)
Definition Join (elems : list string) (sep : string) : string :=
  String.concat sep elems.

(** The double quote character, which SQL uses around identifiers. *)
Definition dq : string := String (ascii_of_nat 34) "".

(** ** Statements whose meaning the laws give *)

Definition delete_stmt (n : nat) : string :=
  "DELETE FROM object_locations WHERE object_uid IN ("
    +:+ Join (replicate n "?") "," +:+ ");".

Definition insert_stmt (n : nat) : string :=
  "INSERT INTO object_locations (object_uid, node_id) VALUES "
    +:+ Join (replicate n "(?, ?)") ",".

Definition select_stmt : string :=
  "SELECT node_id FROM object_locations WHERE object_uid = ?;".

Definition table_stmt : string :=
  "CREATE TABLE IF NOT EXISTS object_locations (
        " +:+ dq +:+ "object_uid" +:+ dq +:+ " INTEGER NOT NULL,
        " +:+ dq +:+ "node_id" +:+ dq +:+ " INTEGER NOT NULL,
        PRIMARY KEY (object_uid, node_id)
    );".

Definition index_stmt : string :=
  "CREATE INDEX IF NOT EXISTS idx_object_uid_object_locations ON object_locations (object_uid);".

(** Positional arguments of a multi-row insert. *)
Definition flatten (rows : list (N * N)) : list N :=
  rows ≫= λ r, [r.1; r.2].

(** Rows a fresh [(object_uid, node_id)] primary key admits beside [T]. *)
Definition insertable (T : gset (N * N)) (rows : list (N * N)) : Prop :=
  rows ≠ [] ∧ NoDup rows ∧ (∀ r, r ∈ rows → r ∉ T).

Class SqlLaws DB TX STMT `{SqlDriver DB TX STMT} := {
  tbl : DB → gset (N * N);          (* committed rows *)
  ttbl : TX → gset (N * N);         (* rows as the transaction sees them *)
  tbase : TX → gset (N * N);        (* rows to which it rolls back *)
  begin_tbl d t : db_begin d = Ok t → ttbl t = tbl d ∧ tbase t = tbl d;
  exec_base t s args : tbase (tx_exec t s args).1 = tbase t;
  delete_tbl t t' args :
    tx_exec t (delete_stmt (length args)) args = (t', None) →
    ttbl t' = filter (λ r, r.1 ∉ args) (ttbl t);
  (* an INSERT without rows is a syntax error; a row that is already there
     violates the primary key *)
  insert_tbl t t' rows :
    tx_exec t (insert_stmt (length rows)) (flatten rows) = (t', None) →
    insertable (ttbl t) rows ∧ ttbl t' = ttbl t ∪ list_to_set rows;
  rollback_tbl t : tbl (tx_rollback t) = tbase t;
  commit_tbl t d : tx_commit t = (d, None) → tbl d = ttbl t;
  commit_err_tbl t d e : tx_commit t = (d, Some e) → tbl d = tbase t;
  query_tbl d u ns :
    db_query d select_stmt [u] = Ok (Ok <$> ns, None) →
    NoDup ns ∧ ∀ n, n ∈ ns ↔ (u, n) ∈ tbl d
}.

(** Integers go to SQLite as signed 64-bit values: [database/sql] refuses a
    [uint64] with its high bit set. *)
Definition storable (n : N) : Prop := (n < two63)%N.

Class SqlHealthy DB TX STMT `{SqlLaws DB TX STMT} := {
  online : DB → Prop;               (* the connection works *)
  healthy : DB → Prop;              (* and the table exists *)
  thealthy : TX → Prop;
  max_vars : nat;                   (* host parameters per statement *)
  healthy_begin d : healthy d → ∃ t, db_begin d = Ok t ∧ thealthy t;
  healthy_delete t args :
    thealthy t → length args ≤ max_vars → Forall storable args →
    ∃ t', tx_exec t (delete_stmt (length args)) args = (t', None) ∧ thealthy t';
  healthy_insert t rows :
    thealthy t → 2 * length rows ≤ max_vars →
    Forall (λ r, storable r.1 ∧ storable r.2) rows → insertable (ttbl t) rows →
    ∃ t', tx_exec t (insert_stmt (length rows)) (flatten rows) = (t', None)
          ∧ thealthy t';
  healthy_exec t s args : thealthy t → thealthy (tx_exec t s args).1;
  healthy_rollback t : thealthy t → healthy (tx_rollback t);
  healthy_commit t : thealthy t → ∃ d, tx_commit t = (d, None) ∧ healthy d;
  healthy_query d u :
    healthy d → storable u →
    ∃ ns, db_query d select_stmt [u] = Ok (Ok <$> ns, None);
  create_table_ok d :
    online d → ∃ s d', db_prepare d table_stmt = Ok s ∧
      stmt_exec d s = (d', None) ∧ healthy d' ∧ tbl d' = tbl d;
  create_index_ok d :
    healthy d → ∃ s d', db_prepare d index_stmt = Ok s ∧
      stmt_exec d s = (d', None) ∧ healthy d' ∧ tbl d' = tbl d
}.
