(* ===== verification/LocalScheduler.v ===== *)
(** * The local scheduler

    [go/cmd/localscheduler/main.go]: a task gets a random uid, its lineage is
    registered, and it is handed to the local worker or to the global
    scheduler; a second loop sends heartbeats, retrying its two local queries
    with exponential back-off. *)
From S2P Require Import Prelude Float32 Messages Sql.

Definition MAX_TASKS : uint32 := 10.
Definition HEARTBEAT_WAIT : Z := 100000000.

(** [u64 & (math.MaxUint64 >> 1)] *)
Definition TruncateHighBit (u64 : uint64) : uint64 :=
  let mask := N.shiftr 18446744073709551615 1 in
  N.land u64 mask.

Record server := { localNodeID : uint64; alive : bool }.

(** What the handler calls, in order; the [Go] constructors are the goroutines
    it leaves behind. *)
Inductive local_call :=
  | CallRegisterLineage (req : GlobalScheduleRequest)
  | CallWorkerStatus
  | GoScheduleGlobally (req : GlobalScheduleRequest)
  | GoRunLocally (gen : GeneratingRequest) (run : RunRequest).

(** [draw] is [rand.Uint64()], [workerStatus] the worker's answer.  Both
    errors are ignored by the code, so a failed [WorkerStatus] dereferences a
    nil response. *)
Definition Schedule (draw : uint64) (workerStatus : reply WorkerStatusResponse)
    (s : server) (req : ScheduleRequest) : list local_call * outcome (reply ScheduleResponse) :=
  let uid := TruncateHighBit draw in
  let request (newObject : bool) (nodeId : uint64) (localityFlag : bool) :=
    {| gs_Uid := uid; gs_Name := sr_Name req; gs_Args := sr_Args req;
       gs_Kwargs := sr_Kwargs req; gs_Uids := sr_Uids req; gs_NewObject := newObject;
       gs_NodeId := nodeId; gs_LocalityFlag := localityFlag |} in
  let registered := [CallRegisterLineage (request false 0%N false)] in
  let done_ := Returns (Some {| sp_Uid := uid |}, None) in
  if negb (bool_decide (sr_NodeId req = 0%N)) then
    (registered ++ [GoScheduleGlobally (request true (sr_NodeId req) false)], done_)
  else
    let asked := registered ++ [CallWorkerStatus] in
    match workerStatus.1 with
    | None => (asked, Panics "nil pointer dereference")
    | Some scheduleLocally =>
        if (ws_NumRunningTasks scheduleLocally <? MAX_TASKS)%N then
          (asked ++ [GoRunLocally {| gn_Uid := uid; gn_NodeId := localNodeID s |}
             {| rr_Uid := uid; rr_Name := sr_Name req; rr_Args := sr_Args req;
                rr_Kwargs := sr_Kwargs req |}], done_)
        else
          (asked ++ [GoScheduleGlobally (request true 0%N (sr_LocalityFlag req))], done_)
    end.

Definition KillServer (s : server) : server * reply StatusResponse :=
  ({| localNodeID := localNodeID s; alive := false |}, (Some (Status true), None)).

Definition ReviveServer (s : server) : server * reply StatusResponse :=
  ({| localNodeID := localNodeID s; alive := true |}, (Some (Status true), None)).

(** ** Heartbeats *)

(** [backoff *= 2; if backoff > 32 { backoff = 32 }] *)
Definition next_backoff (backoff : Z) : Z :=
  let backoff := (backoff * 2)%Z in
  if (32 <? backoff)%Z then 32%Z else backoff.

(** A retry loop: [answer i] is the [i]-th answer, [None] for an error.
    Returns the first success and the seconds slept before it. *)
Fixpoint retry {A} (fuel : nat) (answer : nat → option A) (i : nat) (backoff : Z)
    : option (A * list Z) :=
  match fuel with
  | O => None
  | S fuel =>
      match answer i with
      | Some a => Some (a, [])
      | None =>
          '(a, slept) ← retry fuel answer (S i) (next_backoff backoff);
          Some (a, backoff :: slept)
      end
  end.

Inductive heartbeat_event :=
  | Sleep (nanoseconds : Z)
  | SendHeartbeat (req : HeartbeatRequest).

Definition seconds (n : Z) : heartbeat_event := Sleep (n * 1000000000).

(** One round of [SendHeartbeats]; [None] while the fuel does not reach the
    first answers. *)
Definition heartbeat_round (fuel : nat) (s : server) (nodeId : uint64)
    (status : nat → option WorkerStatusResponse)
    (bandwidth : nat → option BandwidthResponse) : option (list heartbeat_event) :=
  if alive s then
    '(st, slept1) ← retry fuel status 0 1%Z;
    '(bw, slept2) ← retry fuel bandwidth 0 1%Z;
    let heartbeatRequest :=
      {| hb_RunningTasks := ws_NumRunningTasks st;
         hb_QueuedTasks := ws_NumQueuedTasks st;
         hb_AvgRunningTime := ws_AverageRunningTime st;
         hb_AvgBandwidth := bw_AvgBandwidth bw;
         hb_NodeId := nodeId |} in
    Some ((seconds <$> slept1) ++ (seconds <$> slept2)
          ++ [SendHeartbeat heartbeatRequest; Sleep HEARTBEAT_WAIT])
  else Some [Sleep HEARTBEAT_WAIT].

(** ** Lemmas *)

Lemma TruncateHighBit_mod n : TruncateHighBit n = (n mod two63)%N.
Proof.
  unfold TruncateHighBit.
  change (N.shiftr 18446744073709551615 1) with (N.ones 63).
  by rewrite N.land_ones.
Qed.

(** The [i]-th back-off. *)
Definition backoff_at (i : nat) : Z := (2 ^ Z.of_nat (i `min` 5))%Z.

Lemma next_backoff_at i : next_backoff (backoff_at i) = backoff_at (S i).
Proof.
  unfold backoff_at.
  destruct (decide (5 ≤ i)); [by rewrite !Nat.min_r by lia|].
  destruct i as [|[|[|[|[|i]]]]]; try reflexivity. lia.
Qed.

Lemma retry_first_success {A} (answer : nat → option A) k a i fuel :
  (∀ j, i ≤ j → j < i + k → answer j = None) → answer (i + k) = Some a → k < fuel →
  retry fuel answer i (backoff_at i) = Some (a, backoff_at <$> seq i k).
Proof.
  revert i fuel. induction k as [|k IH]; intros i fuel Hn Hs Hf;
    (destruct fuel as [|fuel]; [lia|]); simpl.
  - rewrite Nat.add_0_r in Hs. by rewrite Hs.
  - rewrite (Hn i), next_backoff_at by lia.
    rewrite IH; [done| | |lia].
    + intros j ??. apply Hn; lia.
    + by replace (S i + k)%nat with (i + S k)%nat by lia.
Qed.

Lemma retry_failing {A} (answer : nat → option A) i b fuel :
  (∀ j, i ≤ j → j < i + fuel → answer j = None) → retry fuel answer i b = None.
Proof.
  revert i b. induction fuel as [|fuel IH]; intros i b Hn; simpl; [done|].
  rewrite (Hn i), IH by (intros; try apply Hn; lia). done.
Qed.

(** ** Theorems *)

(** Truncation keeps the low 63 bits and clears the high one, so every uid
    that a scheduler hands out can be stored by the object table's database;
    it changes nothing on values that already fit. *)
Theorem TruncateHighBit_storable n :
  storable (TruncateHighBit n) ∧
  TruncateHighBit (TruncateHighBit n) = TruncateHighBit n ∧
  (storable n → TruncateHighBit n = n) ∧
  ∀ i, N.testbit (TruncateHighBit n) i = N.testbit n i && (i <? 63)%N.
Proof.
  unfold storable. rewrite !TruncateHighBit_mod. split_and!.
  - by apply N.mod_lt.
  - by rewrite N.Div0.mod_mod.
  - apply N.mod_small.
  - intros i. change two63 with (2 ^ 63)%N.
    destruct (N.ltb_spec i 63).
    + by rewrite N.mod_pow2_bits_low, andb_true_r.
    + by rewrite N.mod_pow2_bits_high, andb_false_r.
Qed.

(** C34: a request is registered with its lineage under a uid that the object
    table can store, and then dispatched exactly once under that uid, which
    the client gets back: to the requested node, else to the local worker
    while it runs fewer than ten tasks, else to the global scheduler.  The one
    other outcome: when the local worker has to be asked and does not answer,
    the handler dereferences a nil response and panics, with the lineage
    registered and nothing dispatched. *)
Theorem Schedule_dispatch draw ws s req :
  let uid := TruncateHighBit draw in
  storable uid ∧
  ∃ lineage mid,
    gs_Uid lineage = uid ∧ gs_Name lineage = sr_Name req ∧
    gs_Args lineage = sr_Args req ∧ gs_Kwargs lineage = sr_Kwargs req ∧
    gs_Uids lineage = sr_Uids req ∧
    (mid = if decide (sr_NodeId req = 0%N) then [CallWorkerStatus] else []) ∧
    ((sr_NodeId req = 0%N ∧ ws.1 = None ∧
      Schedule draw ws s req =
        (CallRegisterLineage lineage :: mid, Panics "nil pointer dereference")) ∨
     ∃ dispatch,
       Schedule draw ws s req =
         (CallRegisterLineage lineage :: mid ++ [dispatch],
          Returns (Some {| sp_Uid := uid |}, None)) ∧
       match dispatch with
       | GoScheduleGlobally g =>
           gs_Uid g = uid ∧ gs_Name g = sr_Name req ∧
           gs_Args g = sr_Args req ∧ gs_Kwargs g = sr_Kwargs req ∧
           gs_Uids g = sr_Uids req ∧ gs_NodeId g = sr_NodeId req ∧
           (sr_NodeId req = 0%N →
              gs_LocalityFlag g = sr_LocalityFlag req ∧
              ∃ st, ws.1 = Some st ∧ (MAX_TASKS <= ws_NumRunningTasks st)%N)
       | GoRunLocally gen run =>
           gen = {| gn_Uid := uid; gn_NodeId := localNodeID s |} ∧
           run = {| rr_Uid := uid; rr_Name := sr_Name req;
                    rr_Args := sr_Args req; rr_Kwargs := sr_Kwargs req |} ∧
           sr_NodeId req = 0%N ∧
           ∃ st, ws.1 = Some st ∧ (ws_NumRunningTasks st < MAX_TASKS)%N
       | _ => False
       end).
Proof.
  intros uid. split; [unfold uid, storable; rewrite TruncateHighBit_mod; by apply N.mod_lt|].
  exists {| gs_Uid := uid; gs_Name := sr_Name req; gs_Args := sr_Args req;
    gs_Kwargs := sr_Kwargs req; gs_Uids := sr_Uids req; gs_NewObject := false;
    gs_NodeId := 0; gs_LocalityFlag := false |}.
  unfold Schedule. destruct (decide (sr_NodeId req = 0%N)) as [H0|H0].
  - rewrite bool_decide_eq_true_2 by done. simpl.
    exists [CallWorkerStatus]. do 6 (split; [reflexivity|]).
    destruct ws.1 as [st|] eqn:Hw; [right|by left].
    destruct (N.ltb_spec (ws_NumRunningTasks st) MAX_TASKS);
      (eexists; split; [reflexivity|]); simpl; split_and!; eauto.
  - rewrite bool_decide_eq_false_2 by done. simpl.
    exists []. do 6 (split; [reflexivity|]). right.
    eexists. split; [reflexivity|]. simpl. by split_and!.
Qed.

(** Each retry loop ends with the first successful answer, whatever its
    position, given one unit of fuel per attempt; it sleeps 1, 2, 4, 8, 16
    and then always 32 seconds between the attempts; while the answers are
    errors it does not end. *)
Theorem retry_backoff {A} (answer : nat → option A) k a fuel :
  (∀ j, j < k → answer j = None) → answer k = Some a →
  (k < fuel → retry fuel answer 0 1 = Some (a, backoff_at <$> seq 0 k)) ∧
  (fuel ≤ k → retry fuel answer 0 1 = None) ∧
  ∀ i, (1 <= backoff_at i <= 32)%Z ∧ (backoff_at i <= backoff_at (S i))%Z ∧
       (5 ≤ i → backoff_at i = 32%Z).
Proof.
  intros Hn Hs. split_and!.
  - intros Hf. change 1%Z with (backoff_at 0). apply retry_first_success; auto with lia.
  - intros Hf. apply retry_failing. intros j _ Hj. apply Hn. lia.
  - intros i. unfold backoff_at.
    destruct (decide (5 ≤ i)); [rewrite !Nat.min_r by lia; lia|].
    destruct i as [|[|[|[|[|i]]]]]; simpl; lia.
Qed.

(** A killed scheduler sends no heartbeat; an alive or revived one whose
    worker and object store eventually answer sends exactly one heartbeat per
    round, with the numbers they reported and its own node id. *)
Theorem heartbeat_round_sends fuel s nodeId status bandwidth k1 k2 st bw :
  (∀ j, j < k1 → status j = None) → status k1 = Some st → k1 < fuel →
  (∀ j, j < k2 → bandwidth j = None) → bandwidth k2 = Some bw → k2 < fuel →
  heartbeat_round fuel (KillServer s).1 nodeId status bandwidth = Some [Sleep HEARTBEAT_WAIT] ∧
  heartbeat_round fuel (ReviveServer s).1 nodeId status bandwidth =
    Some ((seconds <$> (backoff_at <$> seq 0 k1)) ++ (seconds <$> (backoff_at <$> seq 0 k2))
      ++ [SendHeartbeat {| hb_RunningTasks := ws_NumRunningTasks st;
            hb_QueuedTasks := ws_NumQueuedTasks st;
            hb_AvgRunningTime := ws_AverageRunningTime st;
            hb_AvgBandwidth := bw_AvgBandwidth bw; hb_NodeId := nodeId |};
          Sleep HEARTBEAT_WAIT]).
Proof.
  intros Hn1 Hs1 Hf1 Hn2 Hs2 Hf2. split; [done|].
  unfold heartbeat_round. simpl. change 1%Z with (backoff_at 0).
  rewrite (retry_first_success status k1 st 0) by auto with lia. simpl.
  rewrite (retry_first_success bandwidth k2 bw 0) by auto with lia. done.
Qed.

(** ** Witnesses *)

Definition demo_request (nodeId : N) : ScheduleRequest :=
  {| sr_Name := 3; sr_Args := [Byte.x61]; sr_Kwargs := []; sr_Uids := [9%N];
     sr_NodeId := nodeId; sr_LocalityFlag := true |}.

Definition demo_status (running : N) : WorkerStatusResponse :=
  {| ws_NumRunningTasks := running; ws_NumQueuedTasks := 0;
     ws_AverageRunningTime := of_ratio 1 10 |}.

Lemma TruncateHighBit_storable_witness :
  storable 77 ∧ TruncateHighBit 77 = 77%N.
Proof.
  assert (Hs : storable 77) by reflexivity. split; [exact Hs|].
  exact (proj1 (proj2 (proj2 (TruncateHighBit_storable 77))) Hs).
Defined.

Lemma retry_backoff_witness :
  retry 8 (λ i, if decide (i < 7) then None else Some i) 0 1
    = Some (7, [1; 2; 4; 8; 16; 32; 32]%Z).
Proof.
  apply (retry_backoff (λ i, if decide (i < 7) then None else Some i) 7 7 8).
  - intros j Hj. by rewrite decide_True.
  - reflexivity.
  - lia.
Defined.

Lemma heartbeat_round_sends_witness :
  heartbeat_round 2 {| localNodeID := 2; alive := true |} 2
    (λ i, if decide (i < 1) then None else Some (demo_status 4))
    (λ _, Some {| bw_AvgBandwidth := of_ratio 1 10 |}) =
  Some [Sleep 1000000000; SendHeartbeat {| hb_RunningTasks := 4; hb_QueuedTasks := 0;
          hb_AvgRunningTime := of_ratio 1 10; hb_AvgBandwidth := of_ratio 1 10;
          hb_NodeId := 2 |}; Sleep 100000000].
Proof.
  apply (heartbeat_round_sends 2 {| localNodeID := 2; alive := true |} 2
    (λ i, if decide (i < 1) then None else Some (demo_status 4))
    (λ _, Some {| bw_AvgBandwidth := of_ratio 1 10 |}) 1 0 (demo_status 4)
    {| bw_AvgBandwidth := of_ratio 1 10 |}).
  - intros j Hj. by rewrite decide_True.
  - reflexivity.
  - lia.
  - lia.
  - reflexivity.
  - lia.
Defined.
