(* ===== verification/Worker.v ===== *)
(** * The worker

    [go/cmd/worker/main.go] and the script [execute.py] it runs: the base64
    protocol between the two, and [Run] as a program of atomic steps over the
    worker's shared counters and its semaphore, so that any number of calls
    of [Run] interleave with kills and revivals.  Each [mu.Lock()] ..
    [mu.Unlock()] section and each channel operation is one step. *)
From S2P Require Import Prelude Float32 Messages Base64.

(** ** The script *)

(** [input_data.split(b'\n')] *)
Fixpoint split_newline (l : bytes) : list bytes :=
  match l with
  | [] => [[]]
  | c :: l =>
      match split_newline l with
      | [] => [[c]]
      | part :: parts => if decide (c = newline) then [] :: part :: parts else (c :: part) :: parts
      end
  end.

Definition text (s : string) : bytes := String.list_byte_of_string s.

Section Script.
Context {obj : Type}.
(** [pickle.loads], the call of the function, which may print, and
    [pickle.dumps]; [inl] is the text of a Python exception. *)
Variable loads : bytes → bytes + obj.
Variable call : obj → obj → obj → bytes * (bytes + obj).
Variable dumps : obj → bytes + bytes.
(** The texts of the exceptions of [parts[i]] and [base64.b64decode]. *)
Variable index_error binascii_error : bytes.

Definition load_part (parts : list bytes) (i : nat) : bytes + obj :=
  match parts !! i with
  | None => inl index_error
  | Some part => match b64decode part with
                 | None => inl binascii_error
                 | Some data => loads data
                 end
  end.

(** What [main] printed before it ended, and its exception if it had one. *)
Definition py_main (input_data : bytes) : bytes * option bytes :=
  let parts := split_newline input_data in
  match load_part parts 0 with
  | inl e => ([], Some e)
  | inr func =>
      match load_part parts 1 with
      | inl e => ([], Some e)
      | inr args =>
          match load_part parts 2 with
          | inl e => ([], Some e)
          | inr kwargs =>
              match call func args kwargs with
              | (printed, inl e) => (printed, Some e)
              | (printed, inr result) =>
                  match dumps result with
                  | inl e => (printed, Some e)
                  | inr data => (printed ++ EncodeToString data, None)
                  end
              end
          end
      end
  end.

(** The standard output of the script: an exception is printed, and the
    script still ends with status 0. *)
Definition execute_py (input_data : bytes) : bytes :=
  match py_main input_data with
  | (printed, None) => printed
  | (printed, Some e) => printed ++ text "exception was: " ++ e ++ [newline]
  end.
End Script.

(** ** Running a function *)

(** [Output] is [cmd.Output()]: standard input to standard output, or the
    error of a command that could not run or ended with another status. *)
Definition executeFunction (Output : bytes → result bytes) (f args kwargs : bytes)
    : outcome (bytes * option goerror) :=
  let fB64 := EncodeToString f in
  let argsB64 := EncodeToString args in
  let kwargsB64 := EncodeToString kwargs in
  let inputBuffer := fB64 ++ [newline] ++ argsB64 ++ [newline] ++ kwargsB64 in
  match Output inputBuffer with
  | Err err => Fatal ("Error executing function: " +:+ error_text err)
  | Ok output =>
      match DecodeString output with
      | Err err => Fatal ("Error decoding Base64: " +:+ error_text err)
      | Ok data => Returns (data, None)
      end
  end.

(** ** The server *)

Definition MAX_CONCURRENT_TASKS : nat := 10.
Definition EMA_PARAM : float32 := of_ratio 9 10.
(** The constant [1 - EMA_PARAM]. *)
Definition EMA_REST : float32 := of_ratio 1 10.

(** The package variables and the [alive] flag of the one [workerServer];
    [semaphore] is the number of elements in the channel's buffer. *)
Record workerServer := {
  semaphore : nat;
  numRunningTasks : uint32;
  numQueuedTasks : uint32;
  averageRunningTime : float32;
  alive : bool
}.

Definition initial_worker : workerServer :=
  {| semaphore := 0; numRunningTasks := 0; numQueuedTasks := 0;
     averageRunningTime := of_ratio 1 10; alive := true |}.

(** How a call of [Run] ends: with a reply, or by [runtime.Goexit], which runs
    the deferred function and replies nothing. *)
Inductive ending := Replies (r : reply StatusResponse) | NoReply.

(** Where a call of [Run] stands. *)
Inductive pc :=
  | Entered
  | Queued                       (* counted as queued, before [semaphore <-] *)
  | Granted                     (* holds a slot, still counted as queued *)
  | Fetching                     (* counted as running from here ... *)
  | Executing (f : bytes)
  | Checking (output : bytes)
  | Storing (output : bytes)
  | Recording
  | Leaving (e : ending)         (* ... to here: before [numRunningTasks--] *)
  | Releasing (e : ending)       (* before [<-semaphore] *)
  | Finished (e : ending).

Inductive worker_call :=
  | CallFetchFunc (req : FetchRequest)
  | CallPython (f args kwargs : bytes)
  | CallStore (req : StoreRequest).

(** What the peers, the script and the clock answer. *)
Record answers := {
  ans_FetchFunc : FetchRequest → reply FetchResponse;
  ans_Output : bytes → result bytes;
  ans_Store : StoreRequest → reply StatusResponse;
  ans_runningTime : float32
}.

Definition set_counters (w : workerServer) (sem : nat) (running queued : uint32) : workerServer :=
  {| semaphore := sem; numRunningTasks := running; numQueuedTasks := queued;
     averageRunningTime := averageRunningTime w; alive := alive w |}.

Definition set_average (w : workerServer) (avg : float32) : workerServer :=
  {| semaphore := semaphore w; numRunningTasks := numRunningTasks w;
     numQueuedTasks := numQueuedTasks w; averageRunningTime := avg; alive := alive w |}.

Definition set_alive (w : workerServer) (b : bool) : workerServer :=
  {| semaphore := semaphore w; numRunningTasks := numRunningTasks w;
     numQueuedTasks := numQueuedTasks w; averageRunningTime := averageRunningTime w; alive := b |}.

Local Open Scope go_scope.

(** One step of [Run].  [None]: the goroutine blocks, on a full semaphore or
    after its end. *)
Definition Run_step (a : answers) (req : RunRequest) (w : workerServer) (p : pc)
    : option (outcome (workerServer * pc * list worker_call)) :=
  let go w p := Some (Returns (w, p, [])) in
  match p with
  | Entered =>
      go (set_counters w (semaphore w) (numRunningTasks w) (numQueuedTasks w +32 1)) Queued
  | Queued =>
      if decide (semaphore w < MAX_CONCURRENT_TASKS)%nat then
        go (set_counters w (S (semaphore w)) (numRunningTasks w) (numQueuedTasks w)) Granted
      else None
  | Granted =>
      go (set_counters w (semaphore w) (numRunningTasks w +32 1) (numQueuedTasks w -32 1)) Fetching
  | Fetching =>
      let fetch := {| fe_Name := rr_Name req; fe_CallbackNodeId := 0 |} in
      let calls := [CallFetchFunc fetch] in
      match ans_FetchFunc a fetch with
      | (_, Some err) => Some (Returns (w, Leaving (Replies (None, Some err)), calls))
      | (None, None) => Some (Panics "nil pointer dereference")
      | (Some funcResponse, None) =>
          Some (Returns (w, Executing (fe_SerializedFunc funcResponse), calls))
      end
  | Executing f =>
      let calls := [CallPython f (rr_Args req) (rr_Kwargs req)] in
      match executeFunction (ans_Output a) f (rr_Args req) (rr_Kwargs req) with
      | Returns (_, Some err) => Some (Returns (w, Leaving (Replies (None, Some err)), calls))
      | Returns (output, None) => Some (Returns (w, Checking output, calls))
      | Panics why => Some (Panics why)
      | Fatal why => Some (Fatal why)
      end
  | Checking output => go w (if alive w then Storing output else Leaving NoReply)
  | Storing output =>
      let store := {| so_Uid := rr_Uid req; so_ObjectBytes := output |} in
      match ans_Store a store with
      | (_, Some err) =>
          Some (Returns (w, Leaving (Replies (None, Some err)), [CallStore store]))
      | (_, None) => Some (Returns (w, Recording, [CallStore store]))
      end
  | Recording =>
      let average := fadd (fmul EMA_PARAM (averageRunningTime w))
                          (fmul EMA_REST (ans_runningTime a)) in
      go (set_average w average) (Leaving (Replies (Some (Status true), None)))
  | Leaving e =>
      go (set_counters w (semaphore w) (numRunningTasks w -32 1) (numQueuedTasks w)) (Releasing e)
  | Releasing e =>
      (* receiving from an empty channel would block *)
      if decide (semaphore w = 0) then None
      else go (set_counters w (pred (semaphore w)) (numRunningTasks w) (numQueuedTasks w))
              (Finished e)
  | Finished _ => None
  end.

Definition KillServer (w : workerServer) : workerServer * reply StatusResponse :=
  (set_alive w false, (Some (Status true), None)).

Definition ReviveServer (w : workerServer) : workerServer * reply StatusResponse :=
  (set_alive w true, (Some (Status true), None)).

Definition WorkerStatus (w : workerServer) : reply WorkerStatusResponse :=
  (Some {| ws_NumRunningTasks := numRunningTasks w;
           ws_NumQueuedTasks := numQueuedTasks w;
           ws_AverageRunningTime := averageRunningTime w |}, None).

(** ** Concurrent calls *)

(** The worker with every call of [Run] it received, in order of arrival. *)
Record wstate := { worker : workerServer; tasks : list (RunRequest * pc) }.

Inductive wlabel :=
  | Call (req : RunRequest)              (* a call of [Run] arrives *)
  | Step (i : nat) (a : answers)         (* call [i] takes its next step *)
  | Kill
  | Revive.

(** The next state and the remote calls made; [None] when the label is not
    enabled. *)
Definition wexec (l : wlabel) (s : wstate) : option (outcome (wstate * list worker_call)) :=
  match l with
  | Call req =>
      Some (Returns ({| worker := worker s; tasks := tasks s ++ [(req, Entered)] |}, []))
  | Step i a =>
      '(req, p) ← tasks s !! i;
      r ← Run_step a req (worker s) p;
      Some ('(w, p, calls) ← r;
            Returns ({| worker := w; tasks := <[i := (req, p)]> (tasks s) |}, calls))
  | Kill => Some (Returns ({| worker := (KillServer (worker s)).1; tasks := tasks s |}, []))
  | Revive => Some (Returns ({| worker := (ReviveServer (worker s)).1; tasks := tasks s |}, []))
  end.

Definition winit : wstate := {| worker := initial_worker; tasks := [] |}.

(** A run of the worker: the labels taken and the calls they made. *)
Inductive wrun : wstate → list wlabel → list worker_call → wstate → Prop :=
  | wrun_nil s : wrun s [] [] s
  | wrun_cons s l calls s' ls calls' s'' :
      wexec l s = Some (Returns (s', calls)) →
      wrun s' ls calls' s'' →
      wrun s (l :: ls) (calls ++ calls') s''.

(** The run that a list of labels determines; [None] when a label is not
    enabled or the process ends. *)
Fixpoint wexec_list (s : wstate) (ls : list wlabel) : option (wstate * list worker_call) :=
  match ls with
  | [] => Some (s, [])
  | l :: ls =>
      match wexec l s with
      | Some (Returns (s, calls)) =>
          '(s, calls') ← wexec_list s ls; Some (s, calls ++ calls')
      | _ => None
      end
  end.

Lemma wexec_list_run s ls s' calls :
  wexec_list s ls = Some (s', calls) → wrun s ls calls s'.
Proof.
  revert s calls. induction ls as [|l ls IH]; intros s calls; simpl.
  - intros [= <- <-]. constructor.
  - destruct (wexec l s) as [[[s1 c1]| |]|] eqn:E; try done.
    destruct (wexec_list s1 ls) as [[s2 c2]|] eqn:E2; simpl; [|done].
    intros [= <- <-]. econstructor; eauto.
Qed.
