(* ===== verification/WorkerThms.v ===== *)
(** * Properties of the worker

    The base64 protocol with the script runs the function that was asked for;
    the slots and counters of [Run] are exact under every interleaving; every
    call ends; and [Run] alone computes its sequential specification on every
    branch. *)
From Stdlib Require Import Strings.Byte.
From S2P Require Import Prelude Float32 Messages Base64 Worker.

(** ** The protocol with the script *)

Lemma split_newline_app l1 l2 :
  newline ∉ l1 → split_newline (l1 ++ newline :: l2) = l1 :: split_newline l2.
Proof.
  induction l1 as [|c l1 IH]; intros Hn; simpl.
  - destruct (split_newline l2) as [|part parts] eqn:E; [|done].
    destruct l2; simpl in E; [done|]. destruct (split_newline l2); [done|].
    by case_decide.
  - apply not_elem_of_cons in Hn as [Hc Hn]. rewrite IH by done. by rewrite decide_False.
Qed.

Lemma split_newline_last l : newline ∉ l → split_newline l = [l].
Proof.
  induction l as [|c l IH]; intros Hn; [done|]. apply not_elem_of_cons in Hn as [Hc Hn].
  simpl. rewrite IH by done. by rewrite decide_False.
Qed.

Lemma encoded_no_newline bs : newline ∉ EncodeToString bs.
Proof.
  pose proof (EncodeToString_lines bs) as H. rewrite Forall_forall in H.
  intros Hin. by destruct (H _ Hin).
Qed.

(** Bytes that Go's decoder refuses wherever they stand. *)
Definition foreign (c : Byte.byte) : Prop :=
  decodeMap c = None ∧ c ≠ padChar ∧ c ≠ newline ∧ c ≠ carriage_return.

Lemma decode_quanta_foreign c l : foreign c → c ∈ l → decode_quanta l = Err illegal.
Proof.
  intros (Hc & Hp & _). assert (Hl : ∀ n l, length l ≤ n → c ∈ l → decode_quanta l = Err illegal).
  { clear l. induction n as [|n IH]; intros l Hn Hin.
    { destruct l; [by apply not_elem_of_nil in Hin|simpl in Hn; lia]. }
    destruct l as [|c0 [|c1 [|c2 [|c3 l]]]]; try done; [by apply not_elem_of_nil in Hin|].
    simpl in Hn. rewrite !elem_of_cons in Hin. simpl.
    destruct Hin as [<-|[<-|[<-|[<-|Hin]]]]; rewrite ?Hc.
    - done.
    - by destruct (decodeMap c0).
    - destruct (decodeMap c0), (decodeMap c1); try done.
      rewrite decide_False; [done|]. by intros [-> _].
    - destruct (decodeMap c0), (decodeMap c1), (decodeMap c2); try done;
        rewrite decide_False; try done; by intros (? & ? & _) || by intros (? & _).
    - assert (Hne : l ≠ []) by (intros ->; by apply not_elem_of_nil in Hin).
      rewrite (IH l) by (lia || done).
      destruct (decodeMap c0), (decodeMap c1), (decodeMap c2), (decodeMap c3); try done;
        rewrite decide_False; try done; by intros (? & ? & ?) || by intros (? & ?). }
  by apply (Hl (length l)).
Qed.

Lemma DecodeString_foreign c s : foreign c → c ∈ s → DecodeString s = Err illegal.
Proof.
  intros Hf Hin. unfold DecodeString. apply (decode_quanta_foreign c); [done|].
  apply list_elem_of_filter. by destruct Hf as (_ & _ & ?).
Qed.

Section ScriptThms.
Context {obj : Type} (loads : bytes → bytes + obj)
  (call : obj → obj → obj → bytes * (bytes + obj)) (dumps : obj → bytes + bytes)
  (index_error binascii_error : bytes).

Let script (input : bytes) : result bytes :=
  Ok (execute_py loads call dumps index_error binascii_error input).

Lemma load_parts f args kwargs i part :
  [f; args; kwargs] !! i = Some part →
  load_part loads index_error binascii_error (split_newline
    (EncodeToString f ++ [newline] ++ EncodeToString args ++ [newline] ++ EncodeToString kwargs)) i
  = loads part.
Proof.
  intros Hi. unfold load_part. simpl.
  rewrite !split_newline_app, split_newline_last by apply encoded_no_newline.
  destruct i as [|[|[|i]]]; simplify_eq/=; by rewrite b64decode_encode.
Qed.

(** A function whose parts load, whose call prints nothing and returns,
    and whose result can be pickled, is run on exactly the arguments of the
    request, and the worker receives the pickled result byte for byte. *)
Theorem executeFunction_runs_the_call f args kwargs F A K r data :
  loads f = inr F → loads args = inr A → loads kwargs = inr K →
  call F A K = ([], inr r) → dumps r = inr data →
  executeFunction script f args kwargs = Returns (data, None).
Proof.
  intros HF HA HK Hc Hd. unfold executeFunction, script, execute_py, py_main.
  rewrite (load_parts f args kwargs 0 f), HF by done.
  rewrite (load_parts f args kwargs 1 args), HA by done.
  rewrite (load_parts f args kwargs 2 kwargs), HK by done.
  rewrite Hc, Hd. simpl. by rewrite decode_encode.
Qed.

(** C36: a Python exception of the user's function, or a single character
    outside base64 that it prints, is not reported to the caller: the script
    ends normally, its output does not decode, and the whole worker process
    is ended. *)
Theorem python_failure_ends_the_worker f args kwargs F A K printed r :
  loads f = inr F → loads args = inr A → loads kwargs = inr K →
  call F A K = (printed, r) →
  (∃ e, r = inl e) ∨ (∃ c, foreign c ∧ c ∈ printed) →
  executeFunction script f args kwargs =
    Fatal "Error decoding Base64: illegal base64 data".
Proof.
  intros HF HA HK Hc Hbad. unfold executeFunction, script, execute_py, py_main.
  rewrite (load_parts f args kwargs 0 f), HF by done.
  rewrite (load_parts f args kwargs 1 args), HA by done.
  rewrite (load_parts f args kwargs 2 kwargs), HK by done. rewrite Hc.
  destruct Hbad as [[e ->]|(c & Hf & Hin)].
  - rewrite (DecodeString_foreign Byte.x20); [done|done|].
    apply elem_of_app. right. apply elem_of_app. left. vm_compute. repeat constructor.
  - assert (Hout : ∀ l, DecodeString (printed ++ l) = Err illegal).
    { intros l. apply (DecodeString_foreign c); [done|]. apply elem_of_app. by left. }
    destruct r as [e|r]; [by rewrite Hout|]. destruct (dumps r); by rewrite Hout.
Qed.
End ScriptThms.

(** ** Slots and counters *)

(** Where a call counts as queued, as running, and holds a slot. *)
Definition is_queued (p : pc) : bool :=
  match p with Queued | Granted => true | _ => false end.
Definition is_running (p : pc) : bool :=
  match p with
  | Fetching | Executing _ | Checking _ | Storing _ | Recording | Leaving _ => true
  | _ => false
  end.
Definition holds_slot (p : pc) : bool :=
  match p with Granted | Releasing _ => true | _ => is_running p end.
Definition is_finished (p : pc) : bool :=
  match p with Finished _ => true | _ => false end.

(** How many calls are where [P] says. *)
Definition count {PC} (P : PC → bool) (ts : list (RunRequest * PC)) : nat :=
  sum_list_with (λ t, Nat.b2n (P t.2)) ts.

(** The steps a call still has to take. *)
Definition remaining (p : pc) : nat :=
  match p with
  | Entered => 10 | Queued => 9 | Granted => 8 | Fetching => 7 | Executing _ => 6
  | Checking _ => 5 | Storing _ => 4 | Recording => 3 | Leaving _ => 2 | Releasing _ => 1
  | Finished _ => 0
  end.

Lemma sum_list_with_insert {A} (f : A → nat) l i x y :
  l !! i = Some x → sum_list_with f (<[i := y]> l) + f x = sum_list_with f l + f y.
Proof.
  revert i. induction l as [|z l IH]; intros [|i] Hi; simplify_eq/=; [lia|].
  specialize (IH _ Hi). lia.
Qed.

Lemma sum_list_with_app {A} (f : A → nat) l k :
  sum_list_with f (l ++ k) = sum_list_with f l + sum_list_with f k.
Proof. induction l as [|x l IH]; simpl; [done|]. rewrite IH. lia. Qed.

Lemma count_insert {PC} (P : PC → bool) ts i req p p' :
  ts !! i = Some (req, p) →
  count P (<[i := (req, p')]> ts) + Nat.b2n (P p) = count P ts + Nat.b2n (P p').
Proof. apply (sum_list_with_insert (λ t : RunRequest * PC, Nat.b2n (P t.2))). Qed.

Lemma count_le {PC} (P Q : PC → bool) ts : (∀ p, P p = true → Q p = true) → count P ts ≤ count Q ts.
Proof.
  intros HPQ. induction ts as [|[req p] ts IH]; [done|]. unfold count in *. simpl.
  specialize (HPQ p). destruct (P p); [rewrite HPQ by done|]; simpl; lia.
Qed.

Lemma count_le_length {PC} (P : PC → bool) ts : count P ts ≤ length ts.
Proof.
  induction ts as [|[req p] ts IH]; [done|]. unfold count in *. simpl.
  destruct (P p); simpl; lia.
Qed.

Lemma count_pos {PC} (P : PC → bool) ts i req p :
  ts !! i = Some (req, p) → P p = true → 0 < count P ts.
Proof.
  intros Hi HP. apply list_elem_of_split_length in Hi as (l1 & l2 & -> & _).
  unfold count. rewrite sum_list_with_app. simpl. rewrite HP. simpl. lia.
Qed.

Lemma count_pos_inv {PC} (P : PC → bool) ts :
  count P ts ≠ 0 → ∃ i req p, ts !! i = Some (req, p) ∧ P p = true.
Proof.
  induction ts as [|[req p] ts IH]; intros H; [done|]. unfold count in *. simpl in *.
  destruct (P p) eqn:E; simpl in *; [by exists 0, req, p|].
  destruct (IH H) as (i & req' & p' & Hi & Hp). by exists (S i), req', p'.
Qed.

Lemma count_none {PC} (P : PC → bool) ts : Forall (λ t, P t.2 = false) ts → count P ts = 0.
Proof.
  unfold count. induction 1 as [|[req p] ts Hp _ IH]; [done|]. simpl in *. by rewrite Hp.
Qed.

Lemma wrap32_succ n k : n = wrap32 (N.of_nat k) → wrap32 (n + 1) = wrap32 (N.of_nat (k + 1)).
Proof. intros ->. unfold wrap32. rewrite N.Div0.add_mod_idemp_l. f_equal. lia. Qed.

Lemma wrap32_pred n k :
  1 ≤ k → n = wrap32 (N.of_nat k) → wrap32 (two32 + n - 1) = wrap32 (N.of_nat (k - 1)).
Proof.
  intros Hk ->. unfold wrap32, two32. rewrite (N.add_sub_swap 4294967296) by lia.
  rewrite N.Div0.add_mod_idemp_r.
  replace (4294967296 - 1 + N.of_nat k)%N with (N.of_nat (k - 1) + 1 * 4294967296)%N by lia.
  by rewrite N.Div0.mod_add.
Qed.

(** The counters as functions of the calls' positions. *)
Record winv (s : wstate) : Prop := {
  inv_slots : semaphore (worker s) = count holds_slot (tasks s);
  inv_capacity : semaphore (worker s) ≤ MAX_CONCURRENT_TASKS;
  inv_running : numRunningTasks (worker s) = wrap32 (N.of_nat (count is_running (tasks s)));
  inv_queued : numQueuedTasks (worker s) = wrap32 (N.of_nat (count is_queued (tasks s)))
}.

(** How one step of a call moves the counters, in terms of its position. *)
Lemma Run_step_counters a req w p w' p' calls nr nq :
  Run_step a req w p = Some (Returns (w', p', calls)) →
  Nat.b2n (is_running p) ≤ nr → Nat.b2n (is_queued p) ≤ nq →
  numRunningTasks w = wrap32 (N.of_nat nr) → numQueuedTasks w = wrap32 (N.of_nat nq) →
  semaphore w' + Nat.b2n (holds_slot p) = semaphore w + Nat.b2n (holds_slot p') ∧
  (semaphore w ≤ MAX_CONCURRENT_TASKS → semaphore w' ≤ MAX_CONCURRENT_TASKS) ∧
  numRunningTasks w' =
    wrap32 (N.of_nat (nr + Nat.b2n (is_running p') - Nat.b2n (is_running p))) ∧
  numQueuedTasks w' =
    wrap32 (N.of_nat (nq + Nat.b2n (is_queued p') - Nat.b2n (is_queued p))).
Proof.
  intros E Hnr Hnq Hr Hq.
  destruct p; simpl in *; repeat (case_decide || case_match); simplify_eq/=;
    rewrite ?Nat.add_0_r, ?Nat.sub_0_r, ?Nat.add_sub; (split_and!; [lia|lia|try done|try done]);
    auto using wrap32_succ, wrap32_pred.
Qed.

Lemma wexec_step_inv i a s s' calls :
  wexec (Step i a) s = Some (Returns (s', calls)) →
  ∃ req p w p', tasks s !! i = Some (req, p) ∧
    Run_step a req (worker s) p = Some (Returns (w, p', calls)) ∧
    s' = {| worker := w; tasks := <[i := (req, p')]> (tasks s) |}.
Proof.
  simpl. destruct (tasks s !! i) as [[req p]|] eqn:Hi; simpl; [|done].
  destruct (Run_step a req (worker s) p) as [[[[w p'] c]| |]|] eqn:E; simpl; try done.
  intros [= <- <-]. by exists req, p, w, p'.
Qed.

Lemma winv_exec l s s' calls :
  wexec l s = Some (Returns (s', calls)) → winv s → winv s'.
Proof.
  intros E [Hs Hc Hr Hq]. destruct l as [req|i a| |].
  - injection E as <- <-. constructor; simpl; [|done|..]; unfold count in *;
      rewrite sum_list_with_app; simpl; by rewrite Nat.add_0_r.
  - apply wexec_step_inv in E as (req & p & w & p' & Hi & E & ->).
    pose proof (count_insert holds_slot _ _ _ _ p' Hi) as Hh.
    pose proof (count_insert is_running _ _ _ _ p' Hi) as Hrun.
    pose proof (count_insert is_queued _ _ _ _ p' Hi) as Hque.
    assert (Hle : ∀ P, Nat.b2n (P p) ≤ count P (tasks s)).
    { intros P. destruct (P p) eqn:EP; simpl; [|lia]. eapply count_pos in Hi; [|done]. lia. }
    eapply Run_step_counters in E as (E1 & E2 & E3 & E4); [|apply Hle|apply Hle|done|done].
    constructor; simpl; [lia|auto|..]; [rewrite E3|rewrite E4]; do 2 f_equal; lia.
  - injection E as <- <-. by constructor.
  - injection E as <- <-. by constructor.
Qed.

Lemma winv_run ls s calls s' : wrun s ls calls s' → winv s → winv s'.
Proof. induction 1; eauto using winv_exec. Qed.

Lemma winv_init : winv winit.
Proof. constructor; try done. unfold MAX_CONCURRENT_TASKS. simpl. lia. Qed.

Lemma reachable_winv ls calls s : wrun winit ls calls s → winv s.
Proof. eauto using winv_run, winv_init. Qed.

Lemma running_holds p : is_running p = true → holds_slot p = true.
Proof. by destruct p. Qed.

Lemma running_exact s : winv s →
  numRunningTasks (worker s) = N.of_nat (count is_running (tasks s)) ∧
  count is_running (tasks s) ≤ MAX_CONCURRENT_TASKS.
Proof.
  intros [Hs Hc Hr _]. pose proof (count_le _ _ (tasks s) running_holds) as Hle.
  assert (count is_running (tasks s) ≤ 10) by (unfold MAX_CONCURRENT_TASKS in *; lia).
  split; [|done]. rewrite Hr. apply wrap32_small. unfold two32. lia.
Qed.

(** C17: under every interleaving of calls, steps, kills and revivals, at most
    ten calls hold a slot, and what [WorkerStatus] reports is exact: the
    number of calls that are running, at most ten, and the number that wait
    (as long as fewer than 2^32 calls arrived); no counter ever wraps below
    zero. *)
Theorem worker_status_exact ls calls s :
  wrun winit ls calls s →
  semaphore (worker s) = count holds_slot (tasks s) ∧
  count is_running (tasks s) ≤ count holds_slot (tasks s) ≤ MAX_CONCURRENT_TASKS ∧
  ∃ queued, WorkerStatus (worker s) =
    (Some {| ws_NumRunningTasks := N.of_nat (count is_running (tasks s));
             ws_NumQueuedTasks := queued;
             ws_AverageRunningTime := averageRunningTime (worker s) |}, None) ∧
    ((N.of_nat (length (tasks s)) < two32)%N →
       queued = N.of_nat (count is_queued (tasks s))).
Proof.
  intros Hrun%reachable_winv. pose proof (running_exact _ Hrun) as [Hr _].
  destruct Hrun as [Hs Hc _ Hq].
  pose proof (count_le _ _ (tasks s) running_holds) as Hle.
  split_and!; [done|lia|lia|]. exists (numQueuedTasks (worker s)).
  unfold WorkerStatus. rewrite Hr. split; [done|]. intros Hlen. rewrite Hq.
  apply wrap32_small. pose proof (count_le_length is_queued (tasks s)). lia.
Qed.

(** ** Every call ends *)

(** The peers answer every request, and the script's output decodes. *)
Definition answering (a : answers) : Prop :=
  (∀ req, ans_FetchFunc a req ≠ (None, None)) ∧
  ∀ f args kwargs, ∃ output, executeFunction (ans_Output a) f args kwargs = Returns (output, None).

Definition is_step (l : wlabel) : Prop := match l with Step _ _ => True | _ => False end.

Definition work (s : wstate) : nat := sum_list_with (λ t, remaining t.2) (tasks s).

Lemma Run_step_remaining a req w p w' p' calls :
  Run_step a req w p = Some (Returns (w', p', calls)) → remaining p' < remaining p.
Proof.
  intros E. destruct p; simpl in *; repeat (case_decide || case_match); simplify_eq/=; lia.
Qed.

Lemma step_work l s s' calls :
  is_step l → wexec l s = Some (Returns (s', calls)) → work s' < work s.
Proof.
  destruct l as [|i a| |]; try done. intros _ E.
  apply wexec_step_inv in E as (req & p & w & p' & Hi & E & ->).
  apply Run_step_remaining in E. unfold work. simpl.
  pose proof (sum_list_with_insert (λ t : RunRequest * pc, remaining t.2) _ _ _ (req, p') Hi).
  simpl in *. lia.
Qed.

Lemma steps_bounded ls s calls s' :
  wrun s ls calls s' → Forall is_step ls → length ls ≤ work s.
Proof.
  induction 1 as [s|s l c s1 ls c' s2 E _ IH]; intros Hall; simpl; [lia|].
  apply Forall_cons in Hall as [Hl Hall]. apply step_work in E; [|done].
  specialize (IH Hall). lia.
Qed.

Lemma work_bound s : work s ≤ 10 * length (tasks s).
Proof.
  unfold work. induction (tasks s) as [|[req p] ts IH]; simpl in *; [lia|].
  assert (remaining p ≤ 10) by (destruct p; simpl; lia). lia.
Qed.

(** A call that is neither finished nor waiting for a slot can go on. *)
Lemma unblocked_step a req w p :
  answering a → is_finished p = false → (p = Queued → semaphore w < MAX_CONCURRENT_TASKS) →
  (holds_slot p = true → 0 < semaphore w) →
  ∃ w' p' calls, Run_step a req w p = Some (Returns (w', p', calls)).
Proof.
  intros [Hf Ho] Hp Hq Hh. destruct p; simpl in *; try done; eauto.
  - rewrite decide_True by auto. eauto.
  - destruct (ans_FetchFunc a _) as [[r|] [e|]] eqn:E; eauto. by apply Hf in E.
  - destruct (Ho f (rr_Args req) (rr_Kwargs req)) as [output ->]. eauto.
  - destruct (ans_Store a _) as [? [e|]]; eauto.
  - rewrite decide_False by (specialize (Hh eq_refl); lia). eauto.
Qed.

Lemma unfinished_progress s a :
  winv s → answering a → Exists (λ t, is_finished t.2 = false) (tasks s) →
  ∃ i s' calls, wexec (Step i a) s = Some (Returns (s', calls)).
Proof.
  intros [Hs Hc _ _] Ha Hex.
  assert (Hgo : ∀ i req p, tasks s !! i = Some (req, p) → is_finished p = false →
    (p = Queued → semaphore (worker s) < MAX_CONCURRENT_TASKS) →
    ∃ i s' calls, wexec (Step i a) s = Some (Returns (s', calls))).
  { intros i req p Hi Hf Hq.
    destruct (unblocked_step a req (worker s) p) as (w & p' & c & E); [done..| |].
    { intros Hh. rewrite Hs. by eapply count_pos. }
    exists i. simpl. rewrite Hi. simpl. rewrite E. simpl. eauto. }
  destruct (decide (count holds_slot (tasks s) = 0)) as [Hz|Hnz].
  - apply Exists_exists in Hex as ([req p] & [i Hi]%list_elem_of_lookup & Hf).
    eapply Hgo; [done|done|]. intros _. rewrite Hs, Hz. unfold MAX_CONCURRENT_TASKS. lia.
  - apply count_pos_inv in Hnz as (i & req & p & Hi & Hh).
    eapply (Hgo i req p); [done|by destruct p|by intros ->].
Qed.

Lemma all_finished_idle s :
  winv s → Forall (λ t, is_finished t.2 = true) (tasks s) →
  semaphore (worker s) = 0 ∧
  numRunningTasks (worker s) = 0%N ∧ numQueuedTasks (worker s) = 0%N.
Proof.
  intros [Hs _ Hr Hq] Hall.
  assert (Hz : ∀ P, (∀ p, is_finished p = true → P p = false) → count P (tasks s) = 0).
  { intros P HP. eapply count_none, Forall_impl; [exact Hall|]. auto. }
  rewrite Hs, Hr, Hq, !Hz; try done; by intros [].
Qed.

(** C18: every call of [Run] ends: in a reachable state some unfinished call
    can always take its next step (there is no deadlock on the semaphore, a
    slot is given back on every path), and however the steps are scheduled at
    most ten per call can follow, so that finally all calls have ended, all
    slots are free and both counters are zero. *)
Theorem every_call_ends ls calls s a :
  wrun winit ls calls s → answering a →
  (∀ ls' calls' s', wrun s ls' calls' s' → Forall is_step ls' →
     length ls' ≤ 10 * length (tasks s)) ∧
  (Exists (λ t, is_finished t.2 = false) (tasks s) →
     ∃ i s' calls', wexec (Step i a) s = Some (Returns (s', calls'))) ∧
  (Forall (λ t, is_finished t.2 = true) (tasks s) →
     semaphore (worker s) = 0 ∧
     numRunningTasks (worker s) = 0%N ∧ numQueuedTasks (worker s) = 0%N).
Proof.
  intros Hinv%reachable_winv Ha. split_and!.
  - intros ls' calls' s' Hrun Hall. pose proof (steps_bounded _ _ _ _ Hrun Hall).
    pose proof (work_bound s). lia.
  - intros Hex. by apply unfinished_progress.
  - intros Hall. by apply all_finished_idle.
Qed.

(** ** [Run] without interference *)

Definition run_result : Type := outcome (workerServer * ending * list worker_call).

Definition with_calls (calls : list worker_call) (r : run_result) : run_result :=
  '(w, e, calls') ← r; Returns (w, e, calls ++ calls').

(** The steps of one call, one after the other, to its end. *)
Fixpoint Run_alone (fuel : nat) (a : answers) (req : RunRequest) (w : workerServer) (p : pc)
    : option run_result :=
  match p, fuel with
  | Finished e, _ => Some (Returns (w, e, []))
  | _, O => None
  | _, S fuel =>
      match Run_step a req w p with
      | None => None
      | Some (Panics why) => Some (Panics why)
      | Some (Fatal why) => Some (Fatal why)
      | Some (Returns (w, p, calls)) => with_calls calls <$> Run_alone fuel a req w p
      end
  end.

(** What [Run] promises: fetch the function, run it, and, if the worker is
    alive, store the result and update the average running time. *)
Definition Run_spec (a : answers) (req : RunRequest) (w : workerServer)
    : run_result :=
  let fetch := {| fe_Name := rr_Name req; fe_CallbackNodeId := 0 |} in
  match ans_FetchFunc a fetch with
  | (_, Some err) => Returns (w, Replies (None, Some err), [CallFetchFunc fetch])
  | (None, None) => Panics "nil pointer dereference"
  | (Some resp, None) =>
      let f := fe_SerializedFunc resp in
      let called := [CallFetchFunc fetch; CallPython f (rr_Args req) (rr_Kwargs req)] in
      '(output, _) ← executeFunction (ans_Output a) f (rr_Args req) (rr_Kwargs req);
      if alive w then
        let store := {| so_Uid := rr_Uid req; so_ObjectBytes := output |} in
        match ans_Store a store with
        | (_, Some err) =>
            Returns (w, Replies (None, Some err), called ++ [CallStore store])
        | (_, None) =>
            Returns (set_average w (fadd (fmul EMA_PARAM (averageRunningTime w))
                                         (fmul EMA_REST (ans_runningTime a))),
                     Replies (Some (Status true), None), called ++ [CallStore store])
        end
      else Returns (w, NoReply, called)
  end.

Lemma executeFunction_no_error Output f args kwargs data err :
  executeFunction Output f args kwargs = Returns (data, err) → err = None.
Proof.
  unfold executeFunction. destruct (Output _); [|done]. destruct (DecodeString _); [|done].
  by intros [= _ <-].
Qed.

Lemma set_counters_same w : set_counters w (semaphore w) (numRunningTasks w) (numQueuedTasks w) = w.
Proof. by destruct w. Qed.

Lemma plus_minus_32 n : (n < two32)%N → wrap32 (two32 + wrap32 (n + 1) - 1) = n.
Proof.
  intros Hn. rewrite <-(wrap32_small n) at 2 by done. rewrite <-(N2Nat.id n).
  rewrite (wrap32_succ _ (N.to_nat n)) by (by rewrite wrap32_small by (by rewrite N2Nat.id)).
  rewrite (wrap32_pred _ (N.to_nat n + 1)) by (lia || done). by rewrite Nat.add_sub.
Qed.

Lemma with_no_calls (r : option run_result) : with_calls [] <$> r = r.
Proof. by destruct r as [[[[w e] calls]| |]|]. Qed.

Lemma Run_alone_step fuel a req w p w' p' calls :
  Run_step a req w p = Some (Returns (w', p', calls)) →
  Run_alone (S fuel) a req w p = with_calls calls <$> Run_alone fuel a req w' p'.
Proof. intros E. destruct p; [cbn [Run_alone]; by rewrite E..|done]. Qed.

Lemma Run_alone_stop fuel a req w p o :
  Run_step a req w p = Some o → (∀ r, o ≠ Returns r) →
  Run_alone (S fuel) a req w p =
    Some (match o with Returns _ => Panics EmptyString | Panics why => Panics why | Fatal why => Fatal why end).
Proof.
  intros E Ho. destruct p; [cbn [Run_alone]; rewrite E..|done];
    (destruct o as [r| |]; [by destruct (Ho r)|done|done]).
Qed.

(** The worker while one more call runs. *)
Definition running_worker (w : workerServer) : workerServer :=
  set_counters w (S (semaphore w)) (wrap32 (numRunningTasks w + 1)) (numQueuedTasks w).

Section Alone.
Context (a : answers) (req : RunRequest) (w : workerServer).
Hypothesis Hsem : semaphore w < MAX_CONCURRENT_TASKS.
Hypothesis Hrunning : (numRunningTasks w < two32)%N.
Hypothesis Hqueued : (numQueuedTasks w < two32)%N.

Lemma Run_alone_enter fuel :
  Run_alone (S (S (S fuel))) a req w Entered =
  Run_alone fuel a req (running_worker w) Fetching.
Proof.
  erewrite Run_alone_step by reflexivity. rewrite with_no_calls.
  erewrite Run_alone_step by (unfold Run_step; by rewrite decide_True). rewrite with_no_calls.
  erewrite Run_alone_step by reflexivity. rewrite with_no_calls.
  unfold running_worker, set_counters.
  cbn [semaphore numRunningTasks numQueuedTasks averageRunningTime alive].
  by rewrite plus_minus_32.
Qed.

Lemma Run_alone_leave fuel e :
  Run_alone (S (S fuel)) a req (running_worker w) (Leaving e) = Some (Returns (w, e, [])).
Proof.
  erewrite Run_alone_step by reflexivity. rewrite with_no_calls.
  erewrite Run_alone_step by reflexivity. rewrite with_no_calls.
  unfold running_worker, set_counters.
  cbn [semaphore numRunningTasks numQueuedTasks averageRunningTime alive pred].
  rewrite plus_minus_32 by done. destruct w. by destruct fuel.
Qed.
End Alone.

Lemma Run_alone_finish fuel a req w avg :
  semaphore w < MAX_CONCURRENT_TASKS →
  (numRunningTasks w < two32)%N → (numQueuedTasks w < two32)%N →
  avg = fadd (fmul EMA_PARAM (averageRunningTime w)) (fmul EMA_REST (ans_runningTime a)) →
  Run_alone (S (S (S fuel))) a req (running_worker w) Recording =
    Some (Returns (set_average w avg, Replies (Some (Status true), None), [])).
Proof.
  intros Hs Hr Hq Havg. erewrite Run_alone_step by reflexivity. rewrite with_no_calls.
  change (averageRunningTime (running_worker w)) with (averageRunningTime w).
  rewrite <-Havg. by apply (Run_alone_leave a req (set_average w avg)).
Qed.

(** C19: a call of [Run] that nobody interferes with implements its
    sequential specification on every branch: a failed fetch, an execution
    that ends the process, a worker killed meanwhile (no reply and no store),
    a failed store, and success; on all of them eleven steps are enough, and
    the slot and both counters are given back. *)
Theorem Run_implements_spec a req w :
  semaphore w < MAX_CONCURRENT_TASKS →
  (numRunningTasks w < two32)%N → (numQueuedTasks w < two32)%N →
  Run_alone 11 a req w Entered = Some (Run_spec a req w).
Proof.
  intros Hs Hr Hq. rewrite Run_alone_enter by done. unfold Run_spec.
  destruct (ans_FetchFunc a {| fe_Name := rr_Name req; fe_CallbackNodeId := 0 |})
    as [[resp|] [err|]] eqn:Ef.
  { erewrite Run_alone_step by (unfold Run_step; by rewrite Ef).
    by rewrite Run_alone_leave. }
  2: { erewrite Run_alone_step by (unfold Run_step; by rewrite Ef).
    by rewrite Run_alone_leave. }
  2: { by erewrite Run_alone_stop by first [by unfold Run_step; rewrite Ef | done]. }
  erewrite Run_alone_step by (unfold Run_step; by rewrite Ef).
  destruct (executeFunction (ans_Output a) (fe_SerializedFunc resp) (rr_Args req) (rr_Kwargs req))
    as [[output err]|why|why] eqn:Eo; [|by erewrite Run_alone_stop by first [by unfold Run_step; rewrite Eo | done]..].
  pose proof (executeFunction_no_error _ _ _ _ _ _ Eo) as ->.
  erewrite Run_alone_step by (unfold Run_step; by rewrite Eo).
  erewrite Run_alone_step by reflexivity. rewrite with_no_calls.
  change (alive (running_worker w)) with (alive w). cbn [mbind outcome_bind].
  destruct (alive w); [|by rewrite Run_alone_leave].
  destruct (ans_Store a {| so_Uid := rr_Uid req; so_ObjectBytes := output |})
    as [[r|] [err|]] eqn:Est;
    (erewrite Run_alone_step by (unfold Run_step; by rewrite Est));
    (rewrite Run_alone_leave by done) || (erewrite Run_alone_finish by done); done.
Qed.

(** ** A killed worker *)

(** The store of a call that passed the [alive] check. *)
Definition pending_store (ts : list (RunRequest * pc)) (req : StoreRequest) : Prop :=
  ∃ i run output, ts !! i = Some (run, Storing output) ∧
    req = {| so_Uid := rr_Uid run; so_ObjectBytes := output |}.

Lemma Run_step_dead a req w p w' p' calls :
  Run_step a req w p = Some (Returns (w', p', calls)) → alive w = false →
  alive w' = false ∧ (∀ output, p' ≠ Storing output) ∧
  ∀ store, CallStore store ∈ calls →
    ∃ output, p = Storing output ∧ store = {| so_Uid := rr_Uid req; so_ObjectBytes := output |}.
Proof.
  intros E Hd. destruct p; simpl in E; try rewrite Hd in E;
    repeat (case_decide || case_match); simplify_eq/=;
    (split_and!; [done|done|]); intros store Hin;
    rewrite ?list_elem_of_singleton in Hin;
    try (by apply not_elem_of_nil in Hin); simplify_eq; eauto.
Qed.

Lemma dead_step l s s' calls :
  wexec l s = Some (Returns (s', calls)) → alive (worker s) = false → l ≠ Revive →
  alive (worker s') = false ∧
  (∀ store, pending_store (tasks s') store → pending_store (tasks s) store) ∧
  ∀ store, CallStore store ∈ calls → pending_store (tasks s) store.
Proof.
  intros E Hd Hl. destruct l as [req|i a| |]; [..|done].
  - injection E as <- <-. split_and!; [done| |by intros ? ?%not_elem_of_nil].
    intros store (i & run & output & Hi & ->). exists i, run, output. split; [|done].
    simpl in Hi. apply lookup_app_Some in Hi as [?|[_ Hi]]; [done|].
    apply list_lookup_singleton_Some in Hi as [_ Hi]. done.
  - apply wexec_step_inv in E as (req & p & w & p' & Hi & E & ->).
    apply Run_step_dead in E as (Hd' & Hp' & Hc); [|done]. split_and!; [done|..].
    + intros store (j & run & output & Hj & ->). simpl in Hj.
      apply list_lookup_insert_Some in Hj as [(_ & Hj & _)|[_ Hj]]; [|by exists j, run, output].
      simplify_eq. by destruct (Hp' output).
    + intros store Hin. destruct (Hc _ Hin) as (output & -> & ->). by exists i, req, output.
  - injection E as <- <-. split_and!; [done|done|by intros ? ?%not_elem_of_nil].
Qed.

(** Once the worker was killed, and until it is revived, the only results
    that still reach the object store are those of calls that had already
    passed the [alive] check; every other call ends without a store. *)
Theorem killed_worker_stores_nothing_new s ls calls s' store :
  wrun {| worker := (KillServer (worker s)).1; tasks := tasks s |} ls calls s' → Revive ∉ ls →
  CallStore store ∈ calls → pending_store (tasks s) store.
Proof.
  set (s0 := {| worker := _; tasks := _ |}). change (tasks s) with (tasks s0).
  intros Hrun. assert (Hd : alive (worker s0) = false) by done. revert Hd.
  generalize s0 Hrun. clear. induction 1 as [s|s l c s1 ls c' s2 E _ IH]; intros Hd Hno Hin.
  - by apply not_elem_of_nil in Hin.
  - apply not_elem_of_cons in Hno as [Hl Hno].
    apply dead_step in E as (Hd1 & Hback & Hc); [|done..].
    apply elem_of_app in Hin as [Hin|Hin]; [by apply Hc|]. by apply Hback, IH.
Qed.

(** ** Witnesses *)

(** A script whose objects are the pickled bytes themselves and whose
    functions append their arguments. *)
Definition demo_loads (b : bytes) : bytes + bytes := inr b.
Definition demo_call (f a k : bytes) : bytes * (bytes + bytes) := ([], inr (f ++ a ++ k)).
Definition demo_raise (f a k : bytes) : bytes * (bytes + bytes) := ([], inl (text "boom")).

Definition demo_answers : answers := {|
  ans_FetchFunc _ := (Some {| fe_SerializedFunc := [x01; xff] |}, None);
  ans_Output input := Ok (execute_py demo_loads demo_call inr [] [] input);
  ans_Store _ := (Some (Status true), None);
  ans_runningTime := of_ratio 1 2
|}.

Definition demo_run (uid : N) : RunRequest :=
  {| rr_Uid := uid; rr_Name := 3; rr_Args := [x02]; rr_Kwargs := [] |}.

(** Eleven calls arrive; ten are admitted, one of them runs to its store, and
    the worker is killed. *)
Definition demo_labels : list wlabel :=
  (Call ∘ demo_run ∘ N.of_nat <$> seq 0 11)
  ++ ((λ i, Step i demo_answers) <$> seq 0 11 ++ seq 0 10 ++ [0; 0; 0; 0; 1]).

Definition demo_state : wstate := (default (winit, []) (wexec_list winit demo_labels)).1.

Definition demo_calls : list worker_call := (default (winit, []) (wexec_list winit demo_labels)).2.

Lemma executeFunction_runs_the_call_witness :
  executeFunction (λ i, Ok (execute_py demo_loads demo_call inr [] [] i)) [x01] [x02; x03] []
    = Returns ([x01; x02; x03], None).
Proof.
  by apply (executeFunction_runs_the_call demo_loads demo_call inr [] [] [x01] [x02; x03] []
    [x01] [x02; x03] [] [x01; x02; x03]).
Defined.

Lemma python_failure_ends_the_worker_witness :
  executeFunction (λ i, Ok (execute_py demo_loads demo_raise inr [] [] i)) [x01] [] []
    = Fatal "Error decoding Base64: illegal base64 data".
Proof.
  apply (python_failure_ends_the_worker demo_loads demo_raise inr [] [] [x01] [] []
    [x01] [] [] [] (inl (text "boom"))); try reflexivity.
  left. by exists (text "boom").
Defined.

Lemma worker_status_exact_witness :
  semaphore (worker demo_state) = 10 ∧ count holds_slot (tasks demo_state) = 10 ∧
  count is_running (tasks demo_state) = 2 ∧ count is_queued (tasks demo_state) = 9 ∧
  semaphore (worker demo_state) = count holds_slot (tasks demo_state).
Proof.
  do 4 (split; [vm_compute; reflexivity|]).
  apply (worker_status_exact demo_labels demo_calls demo_state).
  apply wexec_list_run. vm_compute. reflexivity.
Defined.

Lemma demo_answering : answering demo_answers.
Proof.
  split; [done|]. intros f args kwargs. exists (f ++ args ++ kwargs).
  unfold executeFunction, demo_answers, ans_Output, execute_py, py_main.
  rewrite (load_parts demo_loads [] [] f args kwargs 0 f) by done. cbn [demo_loads].
  rewrite (load_parts demo_loads [] [] f args kwargs 1 args) by done. cbn [demo_loads].
  rewrite (load_parts demo_loads [] [] f args kwargs 2 kwargs) by done. cbn [demo_loads demo_call].
  cbn [app]. by rewrite decode_encode.
Qed.

Lemma every_call_ends_witness :
  ∃ i s' calls', wexec (Step i demo_answers) demo_state = Some (Returns (s', calls')).
Proof.
  apply (every_call_ends demo_labels demo_calls demo_state demo_answers).
  - apply wexec_list_run. vm_compute. reflexivity.
  - exact demo_answering.
  - apply Exists_exists. exists (demo_run 3, Granted). split; [|reflexivity].
    apply (list_elem_of_lookup_2 _ 3). vm_compute. reflexivity.
Defined.

Lemma Run_implements_spec_witness :
  Run_alone 11 demo_answers (demo_run 5) initial_worker Entered =
    Some (Run_spec demo_answers (demo_run 5) initial_worker) ∧
  ∃ w calls, Run_spec demo_answers (demo_run 5) initial_worker =
    Returns (w, Replies (Some (Status true), None), calls) ∧
    CallStore {| so_Uid := 5; so_ObjectBytes := [x01; xff; x02] |} ∈ calls.
Proof.
  split.
  - apply (Run_implements_spec demo_answers (demo_run 5) initial_worker); vm_compute; lia || done.
  - do 2 eexists. split; [vm_compute; reflexivity|]. do 2 right. left.
Defined.

(** Call 0 of [demo_state] is about to store when the worker is killed; the
    store goes through, and call 1, which is about to be checked, ends. *)
Definition demo_after_kill : list wlabel :=
  (λ i, Step i demo_answers) <$> [1; 1; 1; 1; 0].

Lemma killed_worker_stores_nothing_new_witness :
  ∃ s' calls store,
    wrun {| worker := (KillServer (worker demo_state)).1; tasks := tasks demo_state |}
      demo_after_kill calls s' ∧
    CallStore store ∈ calls ∧ pending_store (tasks demo_state) store.
Proof.
  set (s0 := {| worker := _; tasks := _ |}).
  set (r := default (winit, []) (wexec_list s0 demo_after_kill)).
  set (store := {| so_Uid := 0; so_ObjectBytes := [x01; xff; x02] |}).
  assert (Hrun : wrun s0 demo_after_kill r.2 r.1).
  { apply wexec_list_run. vm_compute. reflexivity. }
  assert (Hin : CallStore store ∈ r.2) by (vm_compute; repeat (constructor || right)).
  exists r.1, r.2, store. split_and!; [exact Hrun|exact Hin|].
  refine (killed_worker_stores_nothing_new demo_state _ _ _ store Hrun _ Hin).
  by intros (j & ? & _)%list_elem_of_fmap.
Defined.
