(* ===== verification/PyWorker.v ===== *)
(** * The Python worker

    [src/pythonserver/worker.py], the worker that the compose files start.  Its
    handlers run in the threads of a pool; [Run] is a machine of atomic steps
    over the semaphore, the counters and the [alive] flag, as in [Worker].

    [DebugSemaphore] is modelled with what it inherits: [with semaphore] calls the
    [__enter__] of [threading.Semaphore], which is the [acquire] of that class
    and not the one that [DebugSemaphore] defines, but its [__exit__] calls
    [self.release], which is the one of [DebugSemaphore].  That adds one to
    [_value] twice, so every call that ends leaves the semaphore larger than it
    found it.  A thread that waits does so in the semaphore's condition, whose
    waiting threads are notified in the order in which they came. *)
From Stdlib Require Import SpecFloat.
From S2P Require Import Prelude Float32 Messages Base64 Worker.

(** ** Floats *)

(** Python's floats are binary64. *)
Definition float64 : Type := spec_float.
Definition dadd : float64 → float64 → float64 := SFadd 53 1024.
Definition dsub : float64 → float64 → float64 := SFsub 53 1024.
Definition dmul : float64 → float64 → float64 := SFmul 53 1024.
Definition decimal (n d : Z) : float64 :=
  SFdiv 53 1024 (binary_normalize 53 1024 n 0 false) (binary_normalize 53 1024 d 0 false).

(** A float in a [float] field of a message. *)
Definition to_float32 (x : float64) : float32 :=
  match x with
  | S754_finite s m e => binary_round prec32 emax32 s m e
  | x => x
  end.

(** ** The server *)

Definition PY_MAX_CONCURRENT_TASKS : nat := 10.
(** [ThreadPoolExecutor(max_workers=...)]. *)
Definition POOL_SIZE : nat := 10 * PY_MAX_CONCURRENT_TASKS.
Definition PY_EMA_PARAM : float64 := decimal 9 10.
Definition PY_EMA_REST : float64 := dsub (decimal 1 1) PY_EMA_PARAM.

(** The globals and the [alive] attribute: [sem_value] and [sem_waiters] are the
    semaphore's [_value] and the calls that wait in its condition, [sem_locked]
    says whether [_value_lock] is held. *)
Record WorkerServer := {
  sem_value : nat;
  sem_waiters : list nat;
  sem_locked : bool;
  num_running_tasks : Z;
  num_queued_tasks : Z;
  average_running_time : float64;
  py_alive : bool
}.

Definition initial_WorkerServer : WorkerServer :=
  {| sem_value := PY_MAX_CONCURRENT_TASKS; sem_waiters := []; sem_locked := false;
     num_running_tasks := 0; num_queued_tasks := 0; average_running_time := decimal 1 10;
     py_alive := true |}.

Definition set_semaphore (value : nat) (waiters : list nat) (locked : bool) (w : WorkerServer) : WorkerServer :=
  {| sem_value := value; sem_waiters := waiters; sem_locked := locked;
     num_running_tasks := num_running_tasks w; num_queued_tasks := num_queued_tasks w;
     average_running_time := average_running_time w; py_alive := py_alive w |}.
Definition set_tasks (running queued : Z) (w : WorkerServer) : WorkerServer :=
  {| sem_value := sem_value w; sem_waiters := sem_waiters w; sem_locked := sem_locked w;
     num_running_tasks := running; num_queued_tasks := queued;
     average_running_time := average_running_time w; py_alive := py_alive w |}.
Definition set_running_time (t : float64) (w : WorkerServer) : WorkerServer :=
  {| sem_value := sem_value w; sem_waiters := sem_waiters w; sem_locked := sem_locked w;
     num_running_tasks := num_running_tasks w; num_queued_tasks := num_queued_tasks w;
     average_running_time := t; py_alive := py_alive w |}.
Definition set_py_alive (b : bool) (w : WorkerServer) : WorkerServer :=
  {| sem_value := sem_value w; sem_waiters := sem_waiters w; sem_locked := sem_locked w;
     num_running_tasks := num_running_tasks w; num_queued_tasks := num_queued_tasks w;
     average_running_time := average_running_time w; py_alive := b |}.

(** A call returns its response or raises an exception, here with its text. *)
Inductive py_ending := Answers | Raises (e : bytes).

Inductive py_call :=
  | PyFetchFunc (req : FetchRequest)
  | PyStore (req : StoreRequest).

Section Run.
Context {obj : Type}.
(** [pickle]. *)
Context (loads : bytes → bytes + obj) (dumps : obj → bytes + bytes).

(** Where a call of [Run] stands. *)
Inductive py_pc :=
  | PEntered
  | PQueueing
  | PAcquiring                   (* counted as queued from here ... *)
  | PSleeping                    (* in the semaphore's condition *)
  | PGranted                     (* ... to here *)
  | PFetching                    (* counted as running from here ... *)
  | PLoading (f : bytes)
  | PCalling (F A K : obj)
  | PChecking (output : obj)
  | PDumping (output : obj)
  | PStoring (data : bytes)
  | PRecording
  | PLeaving (e : py_ending)     (* ... to here: before [num_running_tasks -= 1] *)
  | PExiting (e : py_ending)     (* before [release] of [DebugSemaphore] *)
  | PReleasing (e : py_ending)   (* before [super().release()] *)
  | PFinished (e : py_ending)
  | PBlocked (running : bool).   (* in [block_forever]: after the call, or before it *)

(** What the peers, the function and the clock answer. *)
Record py_answers := {
  pa_FetchFunc : FetchRequest → bytes + FetchResponse;
  pa_func : obj → obj → obj → bytes + obj;
  pa_Store : StoreRequest → bytes + StatusResponse;
  pa_running_time : float64
}.

Local Open Scope Z_scope.

(** One step of the call number [i]; [None]: its thread waits, or the call is
    over. *)
Definition WorkerServer_Run_step (a : py_answers) (i : nat) (req : RunRequest) (w : WorkerServer)
    (p : py_pc) : option (WorkerServer * py_pc * list py_call) :=
  let go w p := Some (w, p, []) in
  match p with
  | PEntered => go w (if py_alive w then PQueueing else PBlocked false)
  | PQueueing => go (set_tasks (num_running_tasks w) (num_queued_tasks w + 1) w) PAcquiring
  | PAcquiring =>
      match sem_value w with
      | O => go (set_semaphore O (sem_waiters w ++ [i]) (sem_locked w) w) PSleeping
      | S value => go (set_semaphore value (sem_waiters w) (sem_locked w) w) PGranted
      end
  | PSleeping => if decide (i ∈ sem_waiters w) then None else go w PAcquiring
  | PGranted => go (set_tasks (num_running_tasks w + 1) (num_queued_tasks w - 1) w) PFetching
  | PFetching =>
      let fetch := {| fe_Name := rr_Name req; fe_CallbackNodeId := 0 |} in
      match pa_FetchFunc a fetch with
      | inl e => Some (w, PLeaving (Raises e), [PyFetchFunc fetch])
      | inr func_response => Some (w, PLoading (fe_SerializedFunc func_response), [PyFetchFunc fetch])
      end
  | PLoading f =>
      match loads f, loads (rr_Args req), loads (rr_Kwargs req) with
      | inr func_obj, inr args_obj, inr kwargs_obj => go w (PCalling func_obj args_obj kwargs_obj)
      | inl e, _, _ | inr _, inl e, _ | inr _, inr _, inl e => go w (PLeaving (Raises e))
      end
  | PCalling F A K =>
      match pa_func a F A K with
      | inl e => go w (PLeaving (Raises e))
      | inr output => go w (PChecking output)
      end
  | PChecking output => go w (if py_alive w then PDumping output else PBlocked true)
  | PDumping output =>
      match dumps output with
      | inl e => go w (PLeaving (Raises e))
      | inr output_pickled => go w (PStoring output_pickled)
      end
  | PStoring data =>
      let store := {| so_Uid := rr_Uid req; so_ObjectBytes := data |} in
      match pa_Store a store with
      | inl e => Some (w, PLeaving (Raises e), [PyStore store])
      | inr _ => Some (w, PRecording, [PyStore store])
      end
  | PRecording =>
      go (set_running_time (dadd (dmul PY_EMA_PARAM (average_running_time w))
                                 (dmul PY_EMA_REST (pa_running_time a))) w) (PLeaving Answers)
  | PLeaving e => go (set_tasks (num_running_tasks w - 1) (num_queued_tasks w) w) (PExiting e)
  | PExiting e =>
      if sem_locked w then None
      else go (set_semaphore (S (sem_value w)) (sem_waiters w) true w) (PReleasing e)
  | PReleasing e =>
      (* [notify] wakes the thread that has waited longest *)
      go (set_semaphore (S (sem_value w)) (tail (sem_waiters w)) false w) (PFinished e)
  | PFinished _ | PBlocked _ => None
  end.

Definition WorkerServer_KillServer (w : WorkerServer) : WorkerServer * StatusResponse :=
  (set_py_alive false w, Status true).
Definition WorkerServer_ReviveServer (w : WorkerServer) : WorkerServer * StatusResponse :=
  (set_py_alive true w, Status true).

(** [None]: the call never returns.  A number that does not fit its field
    raises an exception. *)
Definition WorkerServer_WorkerStatus (w : WorkerServer) : option (bytes + WorkerStatusResponse) :=
  if py_alive w then
    Some (if decide (0 <= num_running_tasks w < Z.of_N two32 ∧ 0 <= num_queued_tasks w < Z.of_N two32) then
      inr {| ws_NumRunningTasks := Z.to_N (num_running_tasks w);
             ws_NumQueuedTasks := Z.to_N (num_queued_tasks w);
             ws_AverageRunningTime := to_float32 (average_running_time w) |}
    else inl (text "Value out of range"))
  else None.

(** ** Concurrent calls *)

(** The worker with every call of [Run] a thread of the pool has taken. *)
Record pstate := { pworker : WorkerServer; ptasks : list (RunRequest * py_pc) }.

Definition is_over (p : py_pc) : bool := match p with PFinished _ => true | _ => false end.

Inductive plabel :=
  | PCall (req : RunRequest)           (* a free thread takes a call *)
  | PStep (i : nat) (a : py_answers)
  | PKill
  | PRevive.

Definition pexec (l : plabel) (s : pstate) : option (pstate * list py_call) :=
  match l with
  | PCall req =>
      if decide (length (filter (λ t, is_over t.2 = false) (ptasks s)) < POOL_SIZE)%nat then
        Some ({| pworker := pworker s; ptasks := ptasks s ++ [(req, PEntered)] |}, [])
      else None
  | PStep i a =>
      '(req, p) ← ptasks s !! i;
      '(w, p, calls) ← WorkerServer_Run_step a i req (pworker s) p;
      Some ({| pworker := w; ptasks := <[i := (req, p)]> (ptasks s) |}, calls)
  | PKill => Some ({| pworker := (WorkerServer_KillServer (pworker s)).1; ptasks := ptasks s |}, [])
  | PRevive => Some ({| pworker := (WorkerServer_ReviveServer (pworker s)).1; ptasks := ptasks s |}, [])
  end.

Definition pinit : pstate := {| pworker := initial_WorkerServer; ptasks := [] |}.

Fixpoint prun (ls : list plabel) (s : pstate) : option (pstate * list py_call) :=
  match ls with
  | [] => Some (s, [])
  | l :: ls =>
      '(s, calls) ← pexec l s;
      '(s, calls') ← prun ls s;
      Some (s, calls ++ calls')
  end.
End Run.

#[global] Arguments py_pc : clear implicits.
#[global] Arguments py_answers : clear implicits.
#[global] Arguments pstate : clear implicits.
#[global] Arguments plabel : clear implicits.
