(* ===== verification/PyWorkerThms.v ===== *)
(** * Properties of the Python worker

    Its counters are exact under every interleaving; its semaphore admits one
    more call for every call that has ended; every call ends as long as nobody
    kills the worker; the calls whose function returns while the worker is killed
    are counted for ever, and they alone; and [Run] implements its sequential specification on every
    branch. *)
From S2P Require Import Prelude Float32 Messages Base64 LocalScheduler Worker WorkerThms PyWorker.

Section Thms.
Context {obj : Type} (loads : bytes → bytes + obj) (dumps : obj → bytes + bytes).
Notation pc := (py_pc obj).
Notation answers := (py_answers obj).
Notation pexec := (pexec loads dumps).
Notation prun := (prun loads dumps).
Notation Run_step := (WorkerServer_Run_step loads dumps).
Implicit Types (p : pc) (a : answers) (w : WorkerServer) (s : pstate obj) (l : plabel obj).

(** ** Positions of a call *)

Definition p_queued p : bool := match p with PAcquiring | PSleeping | PGranted => true | _ => false end.
Definition p_running p : bool :=
  match p with
  | PFetching | PLoading _ | PCalling _ _ _ | PChecking _ | PDumping _ | PStoring _ | PRecording
  | PLeaving _ | PBlocked true => true
  | _ => false
  end.
Definition p_holds p : bool := match p with PGranted | PExiting _ => true | _ => p_running p end.
Definition p_releasing p : bool := match p with PReleasing _ => true | _ => false end.
Definition p_sleeping p : bool := match p with PSleeping => true | _ => false end.
Definition p_blocked p : bool := match p with PBlocked _ => true | _ => false end.
(** A call that has something to do before it ends or goes to sleep. *)
Definition p_busy p : bool := match p with PAcquiring | PReleasing _ => true | _ => p_holds p end.

Definition p_remaining p : nat :=
  match p with
  | PEntered => 16 | PQueueing => 15 | PSleeping => 15 | PAcquiring => 14 | PGranted => 13
  | PFetching => 12 | PLoading _ => 11 | PCalling _ _ _ => 10 | PChecking _ => 9 | PDumping _ => 8
  | PStoring _ => 7 | PRecording => 6 | PLeaving _ => 5 | PExiting _ => 4 | PReleasing _ => 3
  | PFinished _ | PBlocked _ => 0
  end.

Definition p_work (ts : list (RunRequest * pc)) : nat := sum_list_with (λ t, p_remaining t.2) ts.

(** ** Runs *)

Lemma pexec_step_inv i a s s' calls :
  pexec (PStep i a) s = Some (s', calls) →
  ∃ req p w p', ptasks s !! i = Some (req, p) ∧
    Run_step a i req (pworker s) p = Some (w, p', calls) ∧
    s' = {| pworker := w; ptasks := <[i := (req, p')]> (ptasks s) |}.
Proof.
  simpl. destruct (ptasks s !! i) as [[req p]|] eqn:Hi; simpl; [|done].
  destruct (Run_step a i req (pworker s) p) as [[[w p'] c]|] eqn:E; simpl; [|done].
  intros [= <- <-]. by exists req, p, w, p'.
Qed.

Lemma prun_cons_inv l ls s s' calls :
  prun (l :: ls) s = Some (s', calls) →
  ∃ s1 c1 c2, pexec l s = Some (s1, c1) ∧ prun ls s1 = Some (s', c2) ∧ calls = c1 ++ c2.
Proof.
  simpl. destruct (pexec l s) as [[s1 c1]|]; simpl; [|done].
  destruct (prun ls s1) as [[s2 c2]|] eqn:E2; simpl; [|done]. intros [= <- <-]. by exists s1, c1, c2.
Qed.

Lemma prun_preserves (ok : plabel obj → Prop) (P : pstate obj → Prop) :
  (∀ l s s' calls, ok l → pexec l s = Some (s', calls) → P s → P s') →
  ∀ ls s s' calls, Forall ok ls → P s → prun ls s = Some (s', calls) → P s'.
Proof.
  intros Hstep ls. induction ls as [|l ls IH]; intros s s' calls Hok Hs E; [by injection E as <- _|].
  apply Forall_cons in Hok as [Hl Hok]. apply prun_cons_inv in E as (s1 & c1 & c2 & E1 & E2 & _). eauto.
Qed.

Lemma prun_app ls1 ls2 s s1 s2 c1 c2 :
  prun ls1 s = Some (s1, c1) → prun ls2 s1 = Some (s2, c2) → prun (ls1 ++ ls2) s = Some (s2, c1 ++ c2).
Proof.
  revert s c1. induction ls1 as [|l ls1 IH]; intros s c1 E1 E2; [by injection E1 as -> <-|].
  apply prun_cons_inv in E1 as (s' & c & c' & E1 & E & ->). rewrite <-app_assoc.
  simpl. rewrite E1. simpl. by rewrite (IH _ _ E E2).
Qed.

(** ** The invariant *)

Record pinv s : Prop := {
  pi_slots : sem_value (pworker s) + count p_holds (ptasks s) =
    PY_MAX_CONCURRENT_TASKS + count is_over (ptasks s);
  pi_running : num_running_tasks (pworker s) = Z.of_nat (count p_running (ptasks s));
  pi_queued : num_queued_tasks (pworker s) = Z.of_nat (count p_queued (ptasks s));
  pi_locked : Nat.b2n (sem_locked (pworker s)) = count p_releasing (ptasks s);
  pi_nodup : NoDup (sem_waiters (pworker s));
  pi_waiters i : i ∈ sem_waiters (pworker s) → ∃ req, ptasks s !! i = Some (req, PSleeping);
  pi_wake : sem_waiters (pworker s) ≠ [] →
    length (sem_waiters (pworker s)) < count p_sleeping (ptasks s) + count p_busy (ptasks s)
}.

Lemma waiters_sleep (ws : list nat) (ts : list (RunRequest * pc)) :
  NoDup ws → (∀ i, i ∈ ws → ∃ req, ts !! i = Some (req, PSleeping)) → length ws ≤ count p_sleeping ts.
Proof.
  intros Hnd. revert ts. induction Hnd as [|i ws Hi _ IH]; intros ts Hts; simpl; [lia|].
  destruct (Hts i) as [req Hreq]; [left|].
  pose proof (count_insert p_sleeping ts i req _ PEntered Hreq) as Hc. simpl in Hc.
  assert (length ws ≤ count p_sleeping (<[i := (req, PEntered)]> ts)); [|lia].
  apply IH. intros j Hj. rewrite list_lookup_insert_ne by set_solver. apply Hts. by right.
Qed.

(** How a step of a call moves the numbers. *)
Lemma Run_step_numbers a i req w p w' p' calls :
  Run_step a i req w p = Some (w', p', calls) →
  Nat.b2n (p_releasing p) ≤ Nat.b2n (sem_locked w) →
  sem_value w' + Nat.b2n (p_holds p') + Nat.b2n (is_over p) =
    sem_value w + Nat.b2n (p_holds p) + Nat.b2n (is_over p') ∧
  (num_running_tasks w' + Z.b2z (p_running p) = num_running_tasks w + Z.b2z (p_running p'))%Z ∧
  (num_queued_tasks w' + Z.b2z (p_queued p) = num_queued_tasks w + Z.b2z (p_queued p'))%Z ∧
  Nat.b2n (sem_locked w') + Nat.b2n (p_releasing p) = Nat.b2n (sem_locked w) + Nat.b2n (p_releasing p').
Proof.
  intros E Hl. destruct p; simpl in *; repeat (case_decide || case_match); simplify_eq/=; try done;
    repeat match goal with H : _ = _ |- _ => rewrite H in * end; simpl in *; try (split_and!; lia).
  all: destruct (sem_locked w); simpl in *; split_and!; lia.
Qed.

(** What it does to the condition. *)
Lemma Run_step_waiters a i req w p w' p' calls :
  Run_step a i req w p = Some (w', p', calls) →
  (p = PAcquiring ∧ p' = PSleeping ∧ sem_value w = 0 ∧ sem_waiters w' = sem_waiters w ++ [i]) ∨
  (p = PSleeping ∧ p' = PAcquiring ∧ i ∉ sem_waiters w ∧ sem_waiters w' = sem_waiters w) ∨
  (p_releasing p = true ∧ is_over p' = true ∧ sem_waiters w' = tail (sem_waiters w)) ∨
  (p ≠ PSleeping ∧ p' ≠ PSleeping ∧ sem_waiters w' = sem_waiters w ∧
   p_releasing p = false ∧ (p_busy p = true → p_busy p' = true)).
Proof.
  intros E. destruct p; simpl in *; repeat (case_decide || case_match); simplify_eq/=; naive_solver.
Qed.

Lemma count_app {PC} (P : PC → bool) ts req (p : PC) : count P (ts ++ [(req, p)]) = count P ts + Nat.b2n (P p).
Proof. unfold count. rewrite sum_list_with_app. simpl. lia. Qed.

Lemma b2n_le_count {PC} (P : PC → bool) ts i req (p : PC) : ts !! i = Some (req, p) → Nat.b2n (P p) ≤ count P ts.
Proof. intros Hi. destruct (P p) eqn:E; simpl; [|lia]. by apply (count_pos P ts i req p). Qed.

Lemma b2z_b2n b : Z.b2z b = Z.of_nat (Nat.b2n b).
Proof. by destruct b. Qed.

(** The conditions of the sleeping threads after a step. *)
Lemma pinv_wake a i req w p w' p' calls ts :
  Run_step a i req w p = Some (w', p', calls) → ts !! i = Some (req, p) →
  pinv {| pworker := w; ptasks := ts |} →
  let ts' := <[i := (req, p')]> ts in
  NoDup (sem_waiters w') ∧
  (∀ j, j ∈ sem_waiters w' → ∃ r, ts' !! j = Some (r, PSleeping)) ∧
  (sem_waiters w' ≠ [] → length (sem_waiters w') < count p_sleeping ts' + count p_busy ts').
Proof.
  intros E Hi [Hv _ _ _ Hnd Hw Hwake] ts'. simpl in *.
  pose proof (count_insert p_sleeping _ _ _ _ p' Hi) as Hs. pose proof (count_insert p_busy _ _ _ _ p' Hi) as Hb.
  fold ts' in Hs, Hb. pose proof (lookup_lt_Some _ _ _ Hi) as Hlt.
  assert (∀ j, j ≠ i → j ∈ sem_waiters w → ∃ r, ts' !! j = Some (r, PSleeping)) as Hother
    by (intros j Hj ?; unfold ts'; rewrite list_lookup_insert_ne by done; by apply Hw).
  assert (p ≠ PSleeping → i ∉ sem_waiters w) as Hni.
  { intros Hp Hin. apply Hw in Hin as [r Hr]. rewrite Hi in Hr. by injection Hr as _ ->. }
  apply Run_step_waiters in E as [(-> & -> & Hz & ->)|[(-> & -> & Hn & ->)|[(Hp & Hp' & ->)|(Hp & Hp' & -> & Hr & Hbb)]]].
  - simpl in Hs, Hb. split_and!.
    + apply NoDup_app. split; [done|]. split; [|apply NoDup_singleton].
      intros j Hj ->%list_elem_of_singleton. by apply Hni.
    + intros j [Hj| ->%list_elem_of_singleton]%elem_of_app.
      * apply Hother; [|done]. intros ->. by apply Hni.
      * exists req. by apply list_lookup_insert_eq.
    + intros _. rewrite length_app. simpl.
      assert (count p_holds ts ≤ count p_busy ts) by (apply count_le; by intros []).
      pose proof (waiters_sleep _ _ Hnd Hw). unfold PY_MAX_CONCURRENT_TASKS in Hv. lia.
  - simpl in Hs, Hb. split_and!; [done| |intros Hne; specialize (Hwake Hne); lia].
    intros j Hj. apply Hother; [|done]. by intros ->.
  - assert (p_sleeping p = false ∧ p_busy p = true ∧ p_sleeping p' = false ∧ p_busy p' = false) as (H1 & H2 & H3 & H4)
      by (destruct p; try done; by destruct p').
    rewrite H1, H3 in Hs. rewrite H2, H4 in Hb. simpl in Hs, Hb.
    assert (p ≠ PSleeping) as Hps by (by intros ->).
    destruct (sem_waiters w) as [|j ws]; simpl in *; [by split_and!; [|intros ? ?%not_elem_of_nil|]|].
    apply NoDup_cons in Hnd as [_ Hnd]. split_and!; [done| |intros _; specialize (Hwake ltac:(done)); lia].
    intros k Hk. apply Hother; [|by right]. intros ->. apply Hni; [done|by right].
  - assert (p_sleeping p = false ∧ p_sleeping p' = false) as (H1 & H3) by (destruct p, p'; done).
    rewrite H1, H3 in Hs. simpl in Hs. split_and!; [done| |].
    + intros j Hj. apply Hother; [|done]. intros ->. by apply Hni.
    + intros Hne. specialize (Hwake Hne). destruct (p_busy p); [rewrite Hbb in Hb by done|]; simpl in Hb; lia.
Qed.

Lemma pinv_exec l s s' calls : pexec l s = Some (s', calls) → pinv s → pinv s'.
Proof.
  intros E Hinv. destruct l as [req|i a| |].
  - simpl in E. destruct (decide _); [|done]. injection E as <- _. destruct Hinv as [? ? ? ? ? Hw ?].
    constructor; simpl; rewrite ?count_app; simpl; rewrite ?Nat.add_0_r; try done.
    intros i [r Hr]%Hw. exists r. by apply lookup_app_l_Some.
  - apply pexec_step_inv in E as (req & p & w & p' & Hi & E & ->). destruct s as [w0 ts]. simpl in *.
    destruct (pinv_wake _ _ _ _ _ _ _ _ _ E Hi Hinv) as (Hnd & Hws & Hwk).
    destruct Hinv as [Hs Hr Hq Hl _ _ _]. simpl in *.
    destruct (Run_step_numbers _ _ _ _ _ _ _ _ E) as (E1 & E2 & E3 & E4).
    { rewrite Hl. by eapply b2n_le_count. }
    pose proof (count_insert p_holds _ _ _ _ p' Hi). pose proof (count_insert is_over _ _ _ _ p' Hi).
    pose proof (count_insert p_running _ _ _ _ p' Hi). pose proof (count_insert p_queued _ _ _ _ p' Hi).
    pose proof (count_insert p_releasing _ _ _ _ p' Hi).
    rewrite !b2z_b2n in E2, E3. constructor; simpl; try done; lia.
  - injection E as <- _. by destruct Hinv.
  - injection E as <- _. by destruct Hinv.
Qed.

Lemma pinv_reachable ls s calls : prun ls pinit = Some (s, calls) → pinv s.
Proof.
  apply (prun_preserves (λ _, True) pinv); [intros l s1 s2 c _; apply pinv_exec|by apply Forall_true|].
  constructor; simpl; try done; try constructor. intros i []%not_elem_of_nil.
Qed.

(** ** One call alone *)

(** The steps of one call until [stop]. *)
Fixpoint Run_until (stop : pc → bool) (fuel : nat) a (i : nat) (req : RunRequest) w p
    : option (WorkerServer * pc * list py_call) :=
  if stop p then Some (w, p, []) else
  match fuel with
  | O => None
  | S fuel =>
      '(w, p, calls) ← Run_step a i req w p;
      '(w, p, calls') ← Run_until stop fuel a i req w p;
      Some (w, p, calls ++ calls')
  end.

(** What [Run] promises of its result and of what it asks its peers. *)
Definition WorkerServer_Run_spec a (req : RunRequest) : py_ending * list py_call :=
  let fetch := {| fe_Name := rr_Name req; fe_CallbackNodeId := 0 |} in
  let raises e := (Raises e, [PyFetchFunc fetch]) in
  match pa_FetchFunc a fetch with
  | inl e => raises e
  | inr r =>
      match loads (fe_SerializedFunc r), loads (rr_Args req), loads (rr_Kwargs req) with
      | inr F, inr A, inr K =>
          match pa_func a F A K with
          | inl e => raises e
          | inr output =>
              match dumps output with
              | inl e => raises e
              | inr data =>
                  let store := {| so_Uid := rr_Uid req; so_ObjectBytes := data |} in
                  (match pa_Store a store with inl e => Raises e | inr _ => Answers end,
                   [PyFetchFunc fetch; PyStore store])
              end
          end
      | inl e, _, _ | inr _, inl e, _ | inr _, inr _, inl e => raises e
      end
  end.

(** The average after a call that ended with [e]. *)
Definition average_after a (e : py_ending) w : float64 :=
  match e with
  | Answers => dadd (dmul PY_EMA_PARAM (average_running_time w)) (dmul PY_EMA_REST (pa_running_time a))
  | Raises _ => average_running_time w
  end.

Lemma WorkerServer_eq w :
  w = {| sem_value := sem_value w; sem_waiters := sem_waiters w; sem_locked := sem_locked w;
         num_running_tasks := num_running_tasks w; num_queued_tasks := num_queued_tasks w;
         average_running_time := average_running_time w; py_alive := py_alive w |}.
Proof. by destruct w. Qed.

Lemma Run_leaves a i req w e :
  sem_locked w = false → sem_waiters w = [] →
  Run_until is_over 3 a i req w (PLeaving e) =
    Some (set_semaphore (S (S (sem_value w))) [] false
            (set_tasks (num_running_tasks w - 1) (num_queued_tasks w) w), PFinished e, []).
Proof. intros Hl Hw. simpl. rewrite Hl. simpl. unfold set_semaphore. simpl. by rewrite Hw. Qed.

(** More fuel does not hurt. *)
Lemma Run_until_more stop fuel fuel' a i req w p r :
  fuel ≤ fuel' → Run_until stop fuel a i req w p = Some r → Run_until stop fuel' a i req w p = Some r.
Proof.
  intros Hle. revert fuel' Hle w p r. induction fuel as [|fuel IH]; intros fuel' Hle w p r;
    destruct fuel' as [|fuel']; simpl; destruct (stop p); try done; [lia|].
  intros E. destruct (Run_step a i req w p) as [[[w1 p1] c1]|]; simpl in *; [|done].
  destruct (Run_until stop fuel a i req w1 p1) as [[[w2 p2] c2]|] eqn:E2; simpl in E; [|done].
  by rewrite (IH fuel' ltac:(lia) _ _ _ E2).
Qed.

(** One part of a call after another. *)
Lemma Run_until_trans stop1 stop2 n m a i req w p w1 p1 c1 w2 p2 c2 :
  (∀ p, stop2 p = true → stop1 p = true) →
  Run_until stop1 n a i req w p = Some (w1, p1, c1) →
  Run_until stop2 m a i req w1 p1 = Some (w2, p2, c2) →
  Run_until stop2 (n + m) a i req w p = Some (w2, p2, c1 ++ c2).
Proof.
  intros Hstop E1 E2. revert w p c1 E1. induction n as [|n IH]; intros w p c1 E1.
  - simpl in E1 |- *. destruct (stop1 p); [|done]. by injection E1 as -> -> <-.
  - simpl in E1. destruct (stop1 p) eqn:Hs.
    + injection E1 as -> -> <-. eapply Run_until_more; [|exact E2]. lia.
    + simpl. destruct (stop2 p) eqn:Hs2; [by rewrite Hstop in Hs|].
      destruct (Run_step a i req w p) as [[[w3 p3] c3]|]; simpl in *; [|done].
      destruct (Run_until stop1 n a i req w3 p3) as [[[w4 p4] c4]|] eqn:E4; simpl in E1; [|done].
      injection E1 as -> -> <-. rewrite (IH _ _ _ E4). simpl. by rewrite app_assoc.
Qed.

Definition p_fetching p : bool := match p with PFetching | PLeaving _ => true | _ => is_over p end.
Definition p_left p : bool := match p with PLeaving _ => true | _ => is_over p end.

(** A call that a worker with a free slot lets in. *)
Lemma Run_enters a i req w v :
  py_alive w = true → sem_value w = S v →
  Run_until p_fetching 4 a i req w PEntered =
    Some (set_semaphore v (sem_waiters w) (sem_locked w)
            (set_tasks (num_running_tasks w + 1) (num_queued_tasks w) w), PFetching, []).
Proof.
  intros Ha Hv. simpl. rewrite Ha. simpl. rewrite Hv. simpl. unfold set_semaphore, set_tasks. simpl.
  do 4 f_equal. lia.
Qed.

(** Its body. *)
Lemma Run_body a i req w :
  py_alive w = true →
  let '(e, calls) := WorkerServer_Run_spec a req in
  Run_until p_left 7 a i req w PFetching = Some (set_running_time (average_after a e w) w, PLeaving e, calls).
Proof.
  intros Ha. unfold WorkerServer_Run_spec. simpl.
  repeat (case_match; simplify_eq/=; rewrite ?Ha); by destruct w.
Qed.

Lemma Run_ends a i req w :
  let '(e, calls) := WorkerServer_Run_spec a req in
  py_alive w = true → 0 < sem_value w → sem_waiters w = [] → sem_locked w = false →
  Run_until is_over 14 a i req w PEntered =
    Some (set_semaphore (S (sem_value w)) [] false (set_running_time (average_after a e w) w),
          PFinished e, calls).
Proof.
  pose proof (Run_body a i req) as Hb. destruct (WorkerServer_Run_spec a req) as [e calls].
  intros Ha Hv Hw Hl. destruct (sem_value w) as [|v] eqn:Ev; [lia|].
  replace calls with (([] ++ calls) ++ []) by by rewrite app_nil_r.
  apply (Run_until_trans p_left is_over 11 3 a i req w PEntered
    (set_running_time (average_after a e w) (set_semaphore v [] false
      (set_tasks (num_running_tasks w + 1) (num_queued_tasks w) w))) (PLeaving e)); [by intros []| |].
  - eapply (Run_until_trans p_fetching p_left 4 7); [by intros []|exact (Run_enters a i req w v Ha Ev)|].
    rewrite Hw, Hl. exact (Hb (set_semaphore v [] false (set_tasks _ _ w)) Ha).
  - rewrite Run_leaves by done. do 3 f_equal. unfold set_semaphore, set_tasks, set_running_time. simpl.
    f_equal; lia.
Qed.

(** C16: [Run] of the Python worker implements its sequential specification.  A call
    that a living worker with a free slot runs without interference ends after
    at most fourteen steps: it fetches the function, unpickles it and its
    arguments, calls it, pickles the result and stores it, and the first of these
    that raises an exception ends the call with that exception, with nothing
    stored if it comes before the store.  On every path the counters are as
    before, and the semaphore has one slot more than before.  A worker that was
    killed blocks the call before it does anything. *)
Theorem python_Run_implements_spec a i req w :
  let '(e, calls) := WorkerServer_Run_spec a req in
  (py_alive w = true → 0 < sem_value w → sem_waiters w = [] → sem_locked w = false →
   Run_until is_over 14 a i req w PEntered =
     Some (set_semaphore (S (sem_value w)) [] false (set_running_time (average_after a e w) w),
           PFinished e, calls)) ∧
  (py_alive w = false →
   Run_until p_blocked 1 a i req w PEntered = Some (w, PBlocked false, [])).
Proof.
  pose proof (Run_ends a i req w) as H. destruct (WorkerServer_Run_spec a req) as [e calls].
  split; [exact H|]. intros Ha. simpl. by rewrite Ha.
Qed.

(** ** The semaphore grows *)

Lemma unfinished_length (ts : list (RunRequest * pc)) :
  length (filter (λ t, is_over t.2 = false) ts) + count is_over ts = length ts.
Proof.
  induction ts as [|[req p] ts IH]; [done|]. unfold count in *. simpl. rewrite filter_cons. simpl.
  destruct (is_over p); simpl in *; lia.
Qed.

Lemma until_run stop fuel a ts req w p w' p' calls :
  Run_until stop fuel a (length ts) req w p = Some (w', p', calls) →
  ∃ ls, Forall (λ l, l = PStep (length ts) a) ls ∧
    prun ls {| pworker := w; ptasks := ts ++ [(req, p)] |} =
      Some ({| pworker := w'; ptasks := ts ++ [(req, p')] |}, calls).
Proof.
  revert w p calls. induction fuel as [|fuel IH]; intros w p calls; simpl.
  { destruct (stop p); [|done]. intros [= -> -> <-]. by exists []. }
  destruct (stop p); [intros [= -> -> <-]; by exists []|].
  destruct (Run_step a (length ts) req w p) as [[[w1 p1] c1]|] eqn:E1; simpl; [|done].
  destruct (Run_until stop fuel a (length ts) req w1 p1) as [[[w2 p2] c2]|] eqn:E2; simpl; [|done].
  intros [= -> -> <-]. apply IH in E2 as (ls & Hls & E2). exists (PStep (length ts) a :: ls).
  split; [by constructor|]. simpl. rewrite list_lookup_middle by done. simpl. rewrite E1. simpl.
  rewrite insert_app_r_alt, Nat.sub_diag by done. simpl. by rewrite E2.
Qed.

(** A new call, until [stop]. *)
Lemma call_run stop fuel a s req w' p' calls :
  length (ptasks s) < POOL_SIZE + count is_over (ptasks s) →
  Run_until stop fuel a (length (ptasks s)) req (pworker s) PEntered = Some (w', p', calls) →
  ∃ ls, prun ls s = Some ({| pworker := w'; ptasks := ptasks s ++ [(req, p')] |}, calls).
Proof.
  intros Hlen (ls & _ & E)%until_run. exists (PCall req :: ls). simpl.
  pose proof (unfinished_length (ptasks s)). rewrite decide_True by lia. simpl. by rewrite E.
Qed.

(** An idle worker whose semaphore has the value [v], after [n] calls. *)
Definition idle_after (n : nat) s : Prop :=
  py_alive (pworker s) = true ∧ sem_value (pworker s) = PY_MAX_CONCURRENT_TASKS + n ∧
  sem_waiters (pworker s) = [] ∧ sem_locked (pworker s) = false ∧
  length (ptasks s) = n ∧ count is_over (ptasks s) = n.

Lemma reach_idle a (req : RunRequest) n : ∃ ls s calls, prun ls pinit = Some (s, calls) ∧ idle_after n s.
Proof.
  induction n as [|n (ls & s & calls & E & Ha & Hv & Hw & Hl & Hlen & Hover)].
  { exists [], pinit, []. by split. }
  unfold PY_MAX_CONCURRENT_TASKS in Hv. pose proof (Run_ends a (length (ptasks s)) req (pworker s)) as Hr.
  destruct (WorkerServer_Run_spec a req) as [e c].
  specialize (Hr Ha ltac:(lia) Hw Hl).
  apply call_run in Hr as [ls' E']; [|unfold POOL_SIZE, PY_MAX_CONCURRENT_TASKS; lia].
  do 3 eexists. split; [exact (prun_app _ _ _ _ _ _ _ E E')|].
  split_and!; try done; simpl; [lia|rewrite length_app; simpl; lia|rewrite count_app; simpl; lia].
Qed.

(** [k] more calls are let in. *)
Lemma reach_running a (req : RunRequest) n k :
  n + k ≤ POOL_SIZE + n → k ≤ PY_MAX_CONCURRENT_TASKS + n →
  ∃ ls s calls, prun ls pinit = Some (s, calls) ∧ py_alive (pworker s) = true ∧
    sem_value (pworker s) = PY_MAX_CONCURRENT_TASKS + n - k ∧
    length (ptasks s) = n + k ∧ count is_over (ptasks s) = n ∧ count p_running (ptasks s) = k.
Proof.
  unfold PY_MAX_CONCURRENT_TASKS.
  intros Hpool. induction k as [|k IH]; intros Hk.
  - destruct (reach_idle a req n) as (ls & s & calls & E & Ha & Hv & _ & _ & Hlen & Hover).
    exists ls, s, calls. pose proof (pinv_reachable _ _ _ E) as [Hslots _ _ _ _ _ _].
    assert (count p_running (ptasks s) ≤ count p_holds (ptasks s)) by (apply count_le; by intros []).
    unfold PY_MAX_CONCURRENT_TASKS in *. split_and!; [done..|lia|lia|done|lia].
  - destruct IH as (ls & s & calls & E & Ha & Hv & Hlen & Hover & Hrun); [lia..|].
    assert (∃ v, sem_value (pworker s) = S v) as [v Hv'] by (exists (10 + n - S k); lia).
    pose proof (Run_enters a (length (ptasks s)) req _ v Ha Hv') as He.
    apply call_run in He as [ls' E']; [|unfold POOL_SIZE, PY_MAX_CONCURRENT_TASKS in *; lia].
    do 3 eexists. split; [exact (prun_app _ _ _ _ _ _ _ E E')|].
    split_and!; [done|simpl; lia|..]; simpl; rewrite ?count_app, ?length_app; simpl; lia.
Qed.

(** C11: The Python worker counts its calls right but does not limit them.  Under
    every interleaving of calls, steps, kills and revivals the reported numbers
    of running and queued tasks are exact, and the calls that run are as many as
    the semaphore has given slots; but its slots are ten and one for every call
    that has ended.  So after [n] calls ten and [n] can run at once, and as far as
    the thread pool allows they do in some run, whatever the peers answer. *)
Theorem python_semaphore_grows :
  (∀ ls s calls, prun ls pinit = Some (s, calls) →
     let w := pworker s in
     num_running_tasks w = Z.of_nat (count p_running (ptasks s)) ∧
     num_queued_tasks w = Z.of_nat (count p_queued (ptasks s)) ∧
     sem_value w + count p_holds (ptasks s) = PY_MAX_CONCURRENT_TASKS + count is_over (ptasks s) ∧
     count p_running (ptasks s) ≤ PY_MAX_CONCURRENT_TASKS + count is_over (ptasks s)) ∧
  (∀ a (req : RunRequest) n, PY_MAX_CONCURRENT_TASKS + n ≤ POOL_SIZE →
     ∃ ls s calls, prun ls pinit = Some (s, calls) ∧ count is_over (ptasks s) = n ∧
       num_running_tasks (pworker s) = Z.of_nat (PY_MAX_CONCURRENT_TASKS + n)).
Proof.
  split.
  - intros ls s calls Hi%pinv_reachable. destruct Hi as [Hs Hr Hq _ _ _ _].
    assert (count p_running (ptasks s) ≤ count p_holds (ptasks s)) by (apply count_le; by intros []).
    split_and!; [done..|lia].
  - intros a req n Hn.
    destruct (reach_running a req n (PY_MAX_CONCURRENT_TASKS + n)) as (ls & s & calls & E & _ & _ & _ & Ho & Hr);
      [lia..|].
    exists ls, s, calls. split; [done|]. split; [done|].
    pose proof (pinv_reachable _ _ _ E) as [_ -> _ _ _ _ _]. by rewrite Hr.
Qed.

(** ** Every call ends *)

Definition p_step l : Prop := match l with PStep _ _ => True | _ => False end.
Definition not_kill l : Prop := match l with PKill => False | _ => True end.

Lemma Run_step_work a i req w p w' p' calls :
  Run_step a i req w p = Some (w', p', calls) →
  p_remaining p' + 2 * length (sem_waiters w) < p_remaining p + 2 * length (sem_waiters w').
Proof.
  intros E. destruct p; simpl in *; repeat (case_decide || case_match); simplify_eq/=; try lia.
  - rewrite length_app. simpl. lia.
  - destruct (sem_waiters w); simpl; lia.
Qed.

Lemma steps_work ls s s' calls :
  prun ls s = Some (s', calls) → Forall p_step ls →
  p_work (ptasks s') + 2 * length (sem_waiters (pworker s)) + length ls ≤
  p_work (ptasks s) + 2 * length (sem_waiters (pworker s')).
Proof.
  revert s calls. induction ls as [|l ls IH]; intros s calls E Hall; [injection E as <- _; simpl; lia|].
  apply Forall_cons in Hall as [Hl Hall]. apply prun_cons_inv in E as (s1 & c1 & c2 & E1 & E2 & _).
  specialize (IH _ _ E2 Hall). destruct l as [|i a| |]; try done.
  apply pexec_step_inv in E1 as (req & p & w & p' & Hi & E1 & ->). simpl in *.
  apply Run_step_work in E1.
  pose proof (sum_list_with_insert (λ t : RunRequest * pc, p_remaining t.2) _ _ _ (req, p') Hi) as Hsum.
  unfold p_work in *. simpl in *. lia.
Qed.

Lemma work_bounds (ts : list (RunRequest * pc)) :
  15 * count p_sleeping ts ≤ p_work ts ∧ p_work ts ≤ 16 * length ts.
Proof.
  unfold p_work, count. induction ts as [|[req p] ts IH]; simpl; [lia|]. destruct p; simpl; lia.
Qed.

(** If every sleeping call waits to be notified, they are no more than the
    waiters. *)
Lemma sleeping_waiters (ts : list (RunRequest * pc)) (ws : list nat) :
  (∀ i req, ts !! i = Some (req, PSleeping) → i ∈ ws) → count p_sleeping ts ≤ length ws.
Proof.
  intros Hts. assert (∀ k, (∀ i req, ts !! i = Some (req, PSleeping) → k + i ∈ ws) →
    ∃ js, NoDup js ∧ (∀ j, j ∈ js → j ∈ ws ∧ k ≤ j) ∧ length js = count p_sleeping ts) as H.
  { clear Hts. induction ts as [|[req p] ts IH]; intros k Hk.
    - exists []. split_and!; [constructor|by intros j ?%not_elem_of_nil|done].
    - destruct (IH (S k)) as (js & Hnd & Hl & Hlen).
      { intros i r Hi. rewrite Nat.add_succ_comm. by apply (Hk (S i) r). }
      destruct (p_sleeping p) eqn:Ep.
      + exists (k :: js). assert (p = PSleeping) as -> by (by destruct p). split_and!.
        * constructor; [|done]. intros [_ ?]%Hl. lia.
        * intros j [->|[? ?]%Hl]%elem_of_cons; [|split; [done|lia]].
          split; [|done]. rewrite <-(Nat.add_0_r k). by apply (Hk 0 req).
        * unfold count in *. simpl. by rewrite Hlen.
      + exists js. split_and!; [done| |unfold count in *; simpl; rewrite Ep; simpl; exact Hlen].
        intros j [? ?]%Hl. split; [done|lia]. }
  destruct (H 0 Hts) as (js & Hnd & Hl & <-). apply submseteq_length, NoDup_submseteq; [done|].
  intros j Hj. by apply Hl.
Qed.

(** A call that is not over, asleep or blocked goes on, unless another one is in
    [release]. *)
Lemma active_step a i req w p :
  is_over p = false → p_blocked p = false → (p = PSleeping → i ∉ sem_waiters w) →
  (∀ e, p = PExiting e → sem_locked w = false) → is_Some (Run_step a i req w p).
Proof.
  intros Ho Hb Hs Hl. destruct p; simpl; try done; eauto.
  - case_match; eauto.
  - rewrite decide_False by auto. eauto.
  - case_match; eauto.
  - repeat case_match; eauto.
  - case_match; eauto.
  - case_match; eauto.
  - case_match; eauto.
  - rewrite (Hl e) by done. eauto.
Qed.

Lemma unfinished_step a s :
  pinv s → Forall (λ t, p_blocked t.2 = false) (ptasks s) →
  Exists (λ t, is_over t.2 = false) (ptasks s) →
  ∃ i s' calls, pexec (PStep i a) s = Some (s', calls).
Proof.
  intros [_ _ _ Hl _ _ Hwake] Hb Hex.
  assert (∀ i req p, ptasks s !! i = Some (req, p) → is_over p = false →
    (p = PSleeping → i ∉ sem_waiters (pworker s)) → (∀ e, p = PExiting e → sem_locked (pworker s) = false) →
    ∃ i s' calls, pexec (PStep i a) s = Some (s', calls)) as Hgo.
  { intros i req p Hi Ho Hs Hx. destruct (active_step a i req (pworker s) p) as [[[w p'] c] E]; [done|..|done|done|].
    - exact (Forall_lookup_1 _ _ _ _ Hb Hi).
    - exists i. simpl. rewrite Hi. simpl. rewrite E. eauto. }
  destruct (decide (count p_releasing (ptasks s) = 0)) as [Hr|Hr].
  2: { apply count_pos_inv in Hr as (i & req & p & Hi & Hp). by eapply Hgo; [exact Hi|destruct p..]. }
  rewrite Hr in Hl. assert (sem_locked (pworker s) = false) as Hlock by (by destruct (sem_locked _)).
  destruct (decide (count p_busy (ptasks s) = 0)) as [Hbz|Hbz].
  2: { apply count_pos_inv in Hbz as (i & req & p & Hi & Hp).
       eapply Hgo; [exact Hi|by destruct p|by intros ->|done]. }
  destruct (sem_waiters (pworker s)) as [|j ws] eqn:Ew.
  - apply Exists_exists in Hex as ([req p] & [i Hi]%list_elem_of_lookup & Ho).
    eapply Hgo; [exact Hi|done|intros _; apply not_elem_of_nil|done].
  - specialize (Hwake ltac:(done)). rewrite Hbz in Hwake.
    destruct (decide (Exists (λ i, p_sleeping <$> (snd <$> ptasks s !! i) = Some true ∧ i ∉ j :: ws)
      (seq 0 (length (ptasks s))))) as [Hi|Hn].
    + apply Exists_exists in Hi as (i & _ & Hs & Hi). destruct (ptasks s !! i) as [[req p]|] eqn:E; [|done].
      simpl in Hs. injection Hs as Hs. eapply Hgo; [exact E|by destruct p|done|done].
    + pose proof (sleeping_waiters (ptasks s) (j :: ws)) as H. exfalso.
      assert (count p_sleeping (ptasks s) ≤ length (j :: ws)); [|lia]. apply H. intros i req Hi.
      destruct (decide (i ∈ j :: ws)) as [|Hni]; [done|]. exfalso. apply Hn, Exists_exists. exists i.
      split; [|by rewrite Hi]. apply elem_of_seq. apply lookup_lt_Some in Hi. lia.
Qed.

(** Nobody is blocked before a kill. *)
Lemma no_kill_no_block ls s calls :
  prun ls pinit = Some (s, calls) → Forall not_kill ls →
  py_alive (pworker s) = true ∧ Forall (λ t, p_blocked t.2 = false) (ptasks s).
Proof.
  intros E Hls. refine (prun_preserves not_kill (λ s, py_alive (pworker s) = true ∧
    Forall (λ t, p_blocked t.2 = false) (ptasks s)) _ ls pinit s calls Hls _ E); [|by split].
  clear. intros l s s' calls Hl E [Ha Hb]. destruct l as [req|i a| |]; [| |done|].
  - simpl in E. destruct (decide _); [|done]. injection E as <- _. simpl. split; [done|].
    apply Forall_app. split; [done|]. by constructor.
  - apply pexec_step_inv in E as (req & p & w & p' & Hi & E & ->). simpl.
    destruct p; simpl in E; rewrite ?Ha in E; repeat case_match; simplify_eq/=;
      (split; [done|by apply Forall_insert]).
  - by injection E as <- _.
Qed.

(** C15: Every call of the Python worker ends unless the worker is killed.  However
    the steps are scheduled at most sixteen per call follow, sleeping and being
    notified included; as long as a call has not ended, some call can take its
    next step: a thread that sleeps is always notified by a call that ends.  Once
    all have ended the counters are zero, nobody waits, and the semaphore has ten
    slots and one for every call. *)
Theorem python_calls_end ls s calls a :
  prun ls pinit = Some (s, calls) → Forall not_kill ls →
  (∀ ls' s' calls', prun ls' s = Some (s', calls') → Forall p_step ls' →
     length ls' ≤ 16 * length (ptasks s)) ∧
  (Exists (λ t, is_over t.2 = false) (ptasks s) → ∃ i s' calls', pexec (PStep i a) s = Some (s', calls')) ∧
  (Forall (λ t, is_over t.2 = true) (ptasks s) →
     num_running_tasks (pworker s) = 0%Z ∧ num_queued_tasks (pworker s) = 0%Z ∧
     sem_waiters (pworker s) = [] ∧
     sem_value (pworker s) = PY_MAX_CONCURRENT_TASKS + length (ptasks s)).
Proof.
  intros E Hls. pose proof (pinv_reachable _ _ _ E) as Hi.
  destruct (no_kill_no_block _ _ _ E Hls) as [_ Hb]. split_and!.
  - intros ls' s' calls' E' Hsteps. pose proof (steps_work _ _ _ _ E' Hsteps).
    pose proof (pinv_reachable _ _ _ (prun_app _ _ _ _ _ _ _ E E')) as [_ _ _ _ Hnd Hw _].
    pose proof (waiters_sleep _ _ Hnd Hw). pose proof (work_bounds (ptasks s')). pose proof (work_bounds (ptasks s)).
    lia.
  - intros Hex. by apply unfinished_step.
  - intros Hall. destruct Hi as [Hs Hr Hq _ Hnd Hw _].
    assert (∀ P, (∀ p, is_over p = true → P p = false) → count P (ptasks s) = 0) as Hz.
    { intros P HP. eapply count_none, Forall_impl; [exact Hall|]. auto. }
    rewrite (Hz p_holds) in Hs by (by intros []). rewrite (Hz p_running) in Hr by (by intros []).
    rewrite (Hz p_queued) in Hq by (by intros []). split_and!; [done|done| |].
    + destruct (sem_waiters (pworker s)) as [|i ws]; [done|]. destruct (Hw i) as [req Hreq]; [left|].
      by apply (Forall_lookup_1 _ _ _ _ Hall) in Hreq.
    + pose proof (unfinished_length (ptasks s)) as Hu.
      assert (filter (λ t, is_over t.2 = false) (ptasks s) = []) as Hf; [|rewrite Hf in Hu; simpl in Hu; lia].
      clear -Hall. induction Hall as [|[req p] ts Hp _ IH]; [done|].
      rewrite filter_cons_False; [done|]. simpl in *. by rewrite Hp.
Qed.

(** ** Killed while running *)

(** A call that found the worker killed after its function had returned. *)
Definition p_phantom p : bool := match p with PBlocked true => true | _ => false end.

Lemma phantoms_stay ls s s' calls :
  prun ls s = Some (s', calls) → count p_phantom (ptasks s) ≤ count p_phantom (ptasks s').
Proof.
  intros E. refine (prun_preserves (λ _, True) (λ s', count p_phantom (ptasks s) ≤ count p_phantom (ptasks s'))
    _ ls s s' calls _ _ E); [|by apply Forall_true|done].
  clear. intros l s1 s2 c _ E Hle. etrans; [exact Hle|]. destruct l as [req|i a| |].
  - simpl in E. destruct (decide _); [|done]. injection E as <- _. simpl. rewrite count_app. lia.
  - apply pexec_step_inv in E as (req & p & w & p' & Hi & E & ->). simpl.
    pose proof (count_insert p_phantom _ _ _ _ p' Hi) as Hc.
    assert (p_phantom p = false) as Hp by (by destruct p). rewrite Hp in Hc. simpl in Hc. lia.
  - by injection E as <- _.
  - by injection E as <- _.
Qed.

(** A call that is over or blocked counts as running only if it is one of these. *)
Lemma running_is_phantom (ts : list (RunRequest * pc)) :
  Forall (λ t, is_over t.2 = true ∨ p_blocked t.2 = true) ts → count p_running ts = count p_phantom ts.
Proof.
  induction 1 as [|[req p] ts Hp _ IH]; [done|]. unfold count in *. simpl in *. rewrite IH.
  by destruct p as [| | | | | | | | | | | | | | | |[]], Hp.
Qed.

(** C29: A call whose function returns while the Python worker is killed blocks
    for ever and stays counted as running, whatever happens later, revivals
    included.  Calls that raise an exception, that are past that point when the
    worker is killed, or that return after a revival are not: when every call is
    over or blocked, [num_running_tasks] is exactly the number of the calls that
    returned while the worker was killed, and [num_queued_tasks] is 0.  A killed
    worker does not answer [WorkerStatus] at all; a revived one reports these
    calls, and once there are ten the local scheduler never again gives its own
    worker a task, whatever that answers. *)
Theorem killed_tasks_are_counted_for_ever ls s calls ls' s' calls' :
  prun ls pinit = Some (s, calls) → prun ls' s = Some (s', calls') →
  (Z.of_nat (count p_phantom (ptasks s)) ≤ num_running_tasks (pworker s'))%Z ∧
  (Forall (λ t, is_over t.2 = true ∨ p_blocked t.2 = true) (ptasks s') →
   num_running_tasks (pworker s') = Z.of_nat (count p_phantom (ptasks s')) ∧
   num_queued_tasks (pworker s') = 0%Z) ∧
  (py_alive (pworker s') = false → WorkerServer_WorkerStatus (pworker s') = None) ∧
  (PY_MAX_CONCURRENT_TASKS ≤ count p_phantom (ptasks s) →
   ∀ status draw srv req gen run, WorkerServer_WorkerStatus (pworker s') = Some (inr status) →
     GoRunLocally gen run ∉ (Schedule draw (Some status, None) srv req).1).
Proof.
  intros E E'. pose proof (pinv_reachable _ _ _ (prun_app _ _ _ _ _ _ _ E E')) as [_ Hr Hq _ _ _ _].
  pose proof (phantoms_stay _ _ _ _ E') as Hp.
  assert (count p_phantom (ptasks s') ≤ count p_running (ptasks s')) as Hle by (apply count_le; by intros [| | | | | | | | | | | | | | | |[]]).
  split_and!; [lia| |by unfold WorkerServer_WorkerStatus; intros ->|].
  { intros Hall. rewrite Hr, Hq, running_is_phantom by done. split; [done|].
    rewrite (count_none p_queued); [done|]. eapply Forall_impl; [exact Hall|].
    intros [req p] Hover. simpl in *. by destruct p, Hover. }
  intros H10 status draw srv req gen run Hst. unfold WorkerServer_WorkerStatus in Hst.
  destruct (py_alive _); [|done]. destruct (decide _); [|done]. injection Hst as <-.
  unfold Schedule. simpl. rewrite Hr.
  assert ((Z.to_N (Z.of_nat (count p_running (ptasks s'))) <? MAX_TASKS)%N = false) as ->.
  { apply N.ltb_ge. unfold MAX_TASKS, PY_MAX_CONCURRENT_TASKS in *. lia. }
  destruct (negb _); simpl; set_solver.
Qed.
(** ** What is stored *)

Section Stores.
Context (functions : N → option bytes) (func : obj → obj → obj → bytes + obj) (submitted : RunRequest → Prop).

(** The calls were submitted, and fetching and calling a function answer right or
    fail. *)
Definition p_truthful l : Prop :=
  match l with
  | PCall req => submitted req
  | PStep _ a =>
      (∀ req r, pa_FetchFunc a req = inr r → functions (fe_Name req) = Some (fe_SerializedFunc r)) ∧
      ∀ F A K o, pa_func a F A K = inr o → func F A K = inr o
  | _ => True
  end.

Definition returns (req : RunRequest) (o : obj) : Prop :=
  ∃ f F A K, functions (rr_Name req) = Some f ∧ loads f = inr F ∧ loads (rr_Args req) = inr A ∧
    loads (rr_Kwargs req) = inr K ∧ func F A K = inr o.

Definition pc_right (req : RunRequest) p : Prop :=
  match p with
  | PLoading f => functions (rr_Name req) = Some f
  | PCalling F A K => ∃ f, functions (rr_Name req) = Some f ∧ loads f = inr F ∧
      loads (rr_Args req) = inr A ∧ loads (rr_Kwargs req) = inr K
  | PChecking o | PDumping o => returns req o
  | PStoring data => ∃ o, returns req o ∧ dumps o = inr data
  | _ => True
  end.

Lemma Run_step_right a i req w p w' p' calls :
  p_truthful (PStep i a) → Run_step a i req w p = Some (w', p', calls) → pc_right req p →
  pc_right req p' ∧ ∀ store, PyStore store ∈ calls →
    so_Uid store = rr_Uid req ∧ ∃ o, returns req o ∧ dumps o = inr (so_ObjectBytes store).
Proof.
  intros [Hf Hc] E Hp. assert (∀ store, PyStore store ∈ [] → False) as Hnil by (by intros ? ?%not_elem_of_nil).
  destruct p; simpl in E, Hp; repeat (case_decide || case_match); simplify_eq/=;
    (split; [|intros store Hin; try by apply Hnil in Hin]); try done.
  all: try (apply list_elem_of_singleton in Hin; simplify_eq/=; by eauto).
  - by apply Hf in H.
  - by eauto.
  - destruct Hp as (f & ? & ? & ? & ?). exists f, F, A, K. split_and!; try done. by apply Hc.
  - by eauto.
Qed.

Definition tasks_right s : Prop := Forall (λ t, submitted t.1 ∧ pc_right t.1 t.2) (ptasks s).

(** What the stores of a step bring. *)
Definition store_right (store : StoreRequest) : Prop :=
  ∃ req o, submitted req ∧ so_Uid store = rr_Uid req ∧ returns req o ∧ dumps o = inr (so_ObjectBytes store).

Lemma pexec_right l s s' calls :
  p_truthful l → tasks_right s → pexec l s = Some (s', calls) →
  tasks_right s' ∧ ∀ store, PyStore store ∈ calls → store_right store.
Proof.
  intros Hl Hs E. destruct l as [req|i a| |].
  - simpl in E. destruct (decide _); [|done]. injection E as <- <-. split; [|by intros ? ?%not_elem_of_nil].
    apply Forall_app. split; [done|]. by constructor.
  - apply pexec_step_inv in E as (req & p & w & p' & Hi & E & ->).
    destruct (Forall_lookup_1 _ _ _ _ Hs Hi) as [Hsub Hp]. simpl in Hsub, Hp.
    destruct (Run_step_right _ _ _ _ _ _ _ _ Hl E Hp) as [Hp' Hst]. split.
    + apply Forall_insert; [done|]. by split.
    + intros store Hin. destruct (Hst _ Hin) as (Hu & o & Ho & Hd). by exists req, o.
  - injection E as <- <-. split; [done|by intros ? ?%not_elem_of_nil].
  - injection E as <- <-. split; [done|by intros ? ?%not_elem_of_nil].
Qed.

(** Every store of a run brings the pickled result of a submitted call, under the
    call's uid. *)
Lemma prun_stores ls s calls store :
  prun ls pinit = Some (s, calls) → Forall p_truthful ls → PyStore store ∈ calls → store_right store.
Proof.
  assert (tasks_right pinit) as H0 by by apply Forall_nil.
  revert H0. generalize (@pinit obj) as s0. revert calls.
  induction ls as [|l ls IH]; intros calls s0 Hs0 E Hls Hin; [injection E as _ <-; by apply not_elem_of_nil in Hin|].
  apply Forall_cons in Hls as [Hl Hls]. apply prun_cons_inv in E as (s1 & c1 & c2 & E1 & E2 & ->).
  apply pexec_right in E1 as [Hs1 Hc1]; [|done..].
  apply elem_of_app in Hin as [?|?]; [by apply Hc1|by eapply IH].
Qed.
End Stores.
End Thms.

(** ** Witnesses *)

Definition demo_py_answers : py_answers bytes := {|
  pa_FetchFunc req := inr {| fe_SerializedFunc := [Byte.x01] |};
  pa_func F A K := inr (F ++ A ++ K);
  pa_Store req := inr (Status true);
  pa_running_time := decimal 1 2 |}.
Definition demo_py_labels (calls steps : nat) : list (plabel bytes) :=
  ((λ i, PCall (demo_run (N.of_nat i))) <$> seq 0 calls) ++
  (seq 0 calls ≫= λ i, replicate steps (PStep i demo_py_answers)).
Definition demo_py_state (ls : list (plabel bytes)) : pstate bytes :=
  (default (pinit, []) (prun demo_loads inr ls pinit)).1.
Definition demo_py_calls (ls : list (plabel bytes)) : list py_call :=
  (default (pinit, []) (prun demo_loads inr ls pinit)).2.

(** After one call, eleven run at once. *)
Lemma python_semaphore_grows_witness :
  ∃ ls s calls, prun demo_loads inr ls pinit = Some (s, calls) ∧ count is_over (ptasks s) = 1 ∧
    num_running_tasks (pworker s) = 11%Z.
Proof.
  destruct (python_semaphore_grows demo_loads inr) as [_ H].
  apply (H demo_py_answers (demo_run 7) 1). unfold POOL_SIZE, PY_MAX_CONCURRENT_TASKS. lia.
Defined.

Lemma python_Run_implements_spec_witness :
  ∃ w, Run_until demo_loads inr is_over 14 demo_py_answers 0 (demo_run 7) initial_WorkerServer PEntered =
    Some (w, PFinished Answers, [PyFetchFunc {| fe_Name := rr_Name (demo_run 7); fe_CallbackNodeId := 0 |};
      PyStore {| so_Uid := 7; so_ObjectBytes := [Byte.x01] ++ rr_Args (demo_run 7) ++ rr_Kwargs (demo_run 7) |}]).
Proof.
  destruct (python_Run_implements_spec demo_loads inr demo_py_answers 0 (demo_run 7) initial_WorkerServer) as [H _].
  eexists. apply H; [reflexivity|apply Nat.ltb_lt; reflexivity|reflexivity|reflexivity].
Defined.

(** Two calls, after three steps each. *)
Lemma python_calls_end_witness :
  ∃ i s' calls', pexec demo_loads inr (PStep i demo_py_answers) (demo_py_state (demo_py_labels 2 3)) =
    Some (s', calls').
Proof.
  destruct (python_calls_end demo_loads inr (demo_py_labels 2 3) (demo_py_state (demo_py_labels 2 3))
    (demo_py_calls (demo_py_labels 2 3)) demo_py_answers) as (_ & H & _); [vm_compute; reflexivity| |].
  - repeat constructor.
  - apply H. vm_compute. left. reflexivity.
Defined.

(** The functions of ten calls return while the worker is killed; it is revived. *)
Definition demo_killed : list (plabel bytes) :=
  demo_py_labels 10 7 ++ PKill :: ((λ i, PStep i demo_py_answers) <$> seq 0 10).

Lemma killed_tasks_are_counted_for_ever_witness :
  let s := demo_py_state (demo_killed ++ [PRevive]) in
  (10 <= num_running_tasks (pworker s))%Z ∧ num_queued_tasks (pworker s) = 0%Z ∧
  ∃ status, WorkerServer_WorkerStatus (pworker s) = Some (inr status) ∧
    ∀ draw srv req gen run, GoRunLocally gen run ∉ (Schedule draw (Some status, None) srv req).1.
Proof.
  intros s.
  destruct (killed_tasks_are_counted_for_ever demo_loads inr demo_killed (demo_py_state demo_killed)
    (demo_py_calls demo_killed) [PRevive] s []) as (H1 & H0 & _ & H2); [vm_compute; reflexivity..|].
  split; [vm_compute in H1 |- *; exact H1|].
  split; [apply H0; vm_compute; repeat (constructor; [right; reflexivity|]); constructor|].
  destruct (WorkerServer_WorkerStatus (pworker s)) as [[e|status]|] eqn:E;
    [vm_compute in E; discriminate E| |vm_compute in E; discriminate E].
  exists status. split; [reflexivity|]. intros draw srv req gen run.
  apply H2; [apply Nat.leb_le; vm_compute; reflexivity|reflexivity].
Defined.
