(* ===== verification/LocalObjStore.v ===== *)
(** * The local object store

    [go/cmd/localobjstore/main.go]: objects kept in POSIX shared memory, one
    file of [/dev/shm] per object; [Store], [Copy], [Get] and the location
    callbacks.  First the files and the handlers as functions; then the part
    of [Get] and [LocationFound] that waits on channels, as a machine of
    atomic steps. *)
From stdpp Require Import pretty.
From S2P Require Import Prelude Float32 Net Messages Config.

(** ** Shared memory *)

(** The files of a node and the number of descriptors its store holds. *)
Record shm := { files : gmap string bytes; open_fds : nat }.

(** Failures of the system calls, [None] for success. *)
Record sys := {
  sys_Open : string → option goerror;
  sys_Ftruncate : option goerror;
  sys_Mmap : option goerror;
  sys_Close : option goerror
}.

Definition EINVAL : goerror := PlainError "invalid argument".
Definition ENOENT : goerror := PlainError "no such file or directory".

Definition shm_path (name : string) : string := "/dev/shm/" +:+ name.

Definition set_file (path : string) (content : bytes) (fs : shm) : shm :=
  {| files := <[path := content]> (files fs); open_fds := open_fds fs |}.
Definition opened (fs : shm) : shm := {| files := files fs; open_fds := S (open_fds fs) |}.
Definition closed (fs : shm) : shm := {| files := files fs; open_fds := pred (open_fds fs) |}.

(** [syscall.Mmap]: a mapping of no bytes is refused. *)
Definition Mmap (e : sys) (size : N) : option goerror :=
  if decide (size = 0%N) then Some EINVAL else sys_Mmap e.

(** The mapping, named by its path, or the error; the descriptor stays open. *)
Definition createSharedMemory (e : sys) (fs : shm) (name : string) (size : N)
    : shm * result string :=
  let path := shm_path name in
  match sys_Open e path with
  | Some err => (fs, Err err)
  | None =>
      let fs := opened (set_file path (default [] (files fs !! path)) fs) in
      match sys_Ftruncate e with
      | Some err => (fs, Err err)
      | None =>
          let fs := set_file path
            (resize (N.to_nat size) Byte.x00 (default [] (files fs !! path))) fs in
          match Mmap e size with
          | Some err => (fs, Err err)
          | None => (fs, Ok path)
          end
      end
  end.

(** [copy(shmSlice, data)] into a mapping of the whole file. *)
Definition copy_into (path : string) (data : bytes) (fs : shm) : shm :=
  let old := default [] (files fs !! path) in
  set_file path (take (length old) data ++ drop (length data) old) fs.

Definition readSharedMemory (e : sys) (fs : shm) (name : string) (size : N)
    : shm * result string :=
  let path := shm_path name in
  match (match files fs !! path with None => Some ENOENT | Some _ => sys_Open e path end) with
  | Some err => (fs, Err (PlainError ("failed to open shared memory: " +:+ error_text err)))
  | None =>
      let fs := opened fs in
      match Mmap e size with
      | Some err => (fs, Err (PlainError ("failed to mmap shared memory: " +:+ error_text err)))
      | None =>
          let fs := closed fs in
          match sys_Close e with
          | Some err => (fs, Err (PlainError
              ("failed to close shared memory file descriptor: " +:+ error_text err)))
          | None => (fs, Ok path)
          end
      end
  end.

(** Called nowhere. *)
Definition deleteSharedMemory (e : sys) (Unlink : string → option goerror) (fs : shm)
    (name : string) : shm * option goerror :=
  let fs := closed fs in
  match sys_Close e with
  | Some err => (fs, Some err)
  | None =>
      match Unlink (shm_path name) with
      | Some err => (fs, Some err)
      | None => ({| files := delete (shm_path name) (files fs); open_fds := open_fds fs |}, None)
      end
  end.

(** Reading [size] bytes through a mapping: the rest of the file's last page
    reads as zeros, and touching a page beyond it faults. *)
Definition page : N := 4096.

Definition read_mapping (fs : shm) (path : string) (size : N) : outcome bytes :=
  let content := default [] (files fs !! path) in
  let pages := ((N.of_nat (length content) + page - 1) / page)%N in
  if decide (size ≤ pages * page)%N then Returns (resize (N.to_nat size) Byte.x00 content)
  else Fatal "unexpected fault address".

(** ** Handlers *)

(** [localObjectStore] is the map of the source that nothing writes; a
    channel is its identity. *)
Record server := {
  localObjectStore : gmap N bytes;
  objectSizes : gmap N N;
  localObjectChannels : gmap N nat;
  localNodeID : uint64;
  avgBandwidth : float32
}.

Definition DEFAULT_AVG_BANDWIDTH : float32 := of_ratio 1 10.

Definition new_server (nodeId : uint64) : server :=
  {| localObjectStore := ∅; objectSizes := ∅; localObjectChannels := ∅;
     localNodeID := nodeId; avgBandwidth := DEFAULT_AVG_BANDWIDTH |}.

Definition set_size (uid size : N) (s : server) : server :=
  {| localObjectStore := localObjectStore s; objectSizes := <[uid := size]> (objectSizes s);
     localObjectChannels := localObjectChannels s; localNodeID := localNodeID s;
     avgBandwidth := avgBandwidth s |}.

Definition set_channel (uid : N) (c : nat) (s : server) : server :=
  {| localObjectStore := localObjectStore s; objectSizes := objectSizes s;
     localObjectChannels := <[uid := c]> (localObjectChannels s);
     localNodeID := localNodeID s; avgBandwidth := avgBandwidth s |}.

(** Calls to the peers, whose results are ignored except for [Copy]'s. *)
Inductive lobs_call :=
  | CallNotifyOwns (req : NotifyOwnsRequest)
  | CallRequestLocation (req : RequestLocationRequest)
  | CallCopy (address : string) (req : CopyRequest).

(** The part [Store] and [Get] share: the object into shared memory and its
    size into the table. *)
Definition keep (e : sys) (fs : shm) (s : server) (uid : uint64) (data : bytes)
    : shm * server * option goerror :=
  let size := N.of_nat (length data) in
  match createSharedMemory e fs (FormatUint uid) size with
  | (fs, Err err) => (fs, s, Some err)
  | (fs, Ok shmSlice) => (copy_into shmSlice data fs, set_size uid size s, None)
  end.

Definition Store (e : sys) (fs : shm) (s : server) (req : StoreRequest)
    : shm * server * list lobs_call * reply StatusResponse :=
  match keep e fs s (so_Uid req) (so_ObjectBytes req) with
  | (fs, s, Some err) => (fs, s, [], (None, Some err))
  | (fs, s, None) =>
      (fs, s, [CallNotifyOwns {| no_Uid := so_Uid req; no_NodeId := localNodeID s;
                 no_ObjectSize := N.of_nat (length (so_ObjectBytes req)) |}],
       (Some (Status true), None))
  end.

(** The first lines of [Get]: the answer for an object of this node. *)
Definition Get_local (s : server) (req : GetRequest) : option GetResponse :=
  (λ val, {| gr_Uid := ge_Uid req; gr_ObjectBytes := []; gr_Local := true; gr_Size := val |})
    <$> objectSizes s !! ge_Uid req.

(** The rest of [Get] after it received [resp] from the channel.  [Dial] and
    [CopyFrom] are the connection to the other store and its answer. *)
Definition Get_received (cfg : Config) (Dial : string → option goerror)
    (CopyFrom : string → CopyRequest → reply CopyResponse) (e : sys) (fs : shm) (s : server)
    (req : GetRequest) (resp : LocationFoundCallback)
    : shm * server * list lobs_call * reply GetResponse :=
  let answer data size := {| gr_Uid := ge_Uid req; gr_ObjectBytes := data;
                             gr_Local := false; gr_Size := size |} in
  if negb (ge_Copy req) then (fs, s, [], (Some (answer [] 0%N), None))
  else
    let otherLocalAddress :=
      if decide (lf_Port resp = 0%N) then
        node_address (NodePrefix cfg) (lf_Location resp) (port_LocalObjectStore (cfg_Ports cfg))
      else lf_Address resp +:+ ":" +:+ FormatUint (lf_Port resp) in
    match Dial otherLocalAddress with
    | Some _ => (fs, s, [], (Some (answer [] 0%N),
        Some (PlainError ("failed to dial other LOS @:" +:+ otherLocalAddress +:+ " "))))
    | None =>
        let copy := {| cr_Uid := lf_Uid resp; cr_Requester := localNodeID s |} in
        let calls := [CallCopy otherLocalAddress copy] in
        let failed (err : string) := (fs, s, calls, (Some (answer [] 0%N), Some (PlainError
          ("failed to copy from other LOS @:" +:+ otherLocalAddress +:+ ". err was: "
             +:+ err +:+ " ")))) in
        match CopyFrom otherLocalAddress copy with
        | (_, Some err) => failed (error_text err)
        | (None, None) => failed "<nil>"
        | (Some x, None) =>
            let data := cp_ObjectBytes x in
            if ge_Cache req then
              match keep e fs s (ge_Uid req) data with
              | (fs, s, Some err) => (fs, s, calls, (None, Some err))
              | (fs, s, None) =>
                  let notify := if decide (lf_Port resp = 0%N) then
                    [CallNotifyOwns {| no_Uid := lf_Uid resp; no_NodeId := localNodeID s;
                                       no_ObjectSize := 0 |}] else [] in
                  (fs, s, calls ++ notify,
                   (Some (answer data (N.of_nat (length data))), None))
              end
            else (fs, s, calls, (Some (answer data 0%N), None))
        end
    end.

(** The bytes are read from the mapping when the reply is sent. *)
Definition Copy (e : sys) (fs : shm) (s : server) (req : CopyRequest)
    : shm * outcome (reply CopyResponse) :=
  match objectSizes s !! cr_Uid req with
  | None => (fs, Returns (Some {| cp_Uid := cr_Uid req; cp_ObjectBytes := [] |},
                          Some (PlainError "object was not in LOS")))
  | Some size =>
      match readSharedMemory e fs (FormatUint (cr_Uid req)) size with
      | (fs, Err err) => (fs, Returns (None, Some err))
      | (fs, Ok path) =>
          (fs, data ← read_mapping fs path size;
               Returns (Some {| cp_Uid := cr_Uid req; cp_ObjectBytes := data |}, None))
      end
  end.

Definition AvgBandwidth (s : server) : reply BandwidthResponse :=
  (Some {| bw_AvgBandwidth := avgBandwidth s |}, None).
