(* ===== verification/LocalObjStoreThms.v ===== *)
(** * Properties of the object store's files and handlers

    Stored objects are read back byte for byte, whatever happens to other
    objects; a cached remote [Get] makes a second, identical copy; and what
    an empty object and the descriptors that stay open do. *)
From Stdlib Require Import Strings.Byte.
From S2P Require Import Prelude Float32 Net Messages Config LocalObjStore.

(** The node stores [data] under [u]. *)
Definition holds (fs : shm) (s : server) (u : N) (data : bytes) : Prop :=
  files fs !! shm_path (FormatUint u) = Some data ∧
  objectSizes s !! u = Some (N.of_nat (length data)) ∧ data ≠ [].

Definition faultless (e : sys) : Prop :=
  (∀ path, sys_Open e path = None) ∧ sys_Ftruncate e = None ∧
  sys_Mmap e = None ∧ sys_Close e = None.

#[export] Instance shm_path_inj : Inj (=) (=) (λ u, shm_path (FormatUint u)).
Proof.
  intros u v E. unfold shm_path in E.
  apply (inj (String.app _)) in E. by apply (inj pretty) in E.
Qed.

Lemma createSharedMemory_ok e fs name size fs' path :
  createSharedMemory e fs name size = (fs', Ok path) →
  path = shm_path name ∧ size ≠ 0%N ∧ open_fds fs' = S (open_fds fs) ∧
  files fs' = <[path := resize (N.to_nat size) x00 (default [] (files fs !! path))]> (files fs).
Proof.
  unfold createSharedMemory, Mmap. destruct (sys_Open e _); [done|].
  destruct (sys_Ftruncate e); [done|]. destruct (decide (size = 0%N)); [done|].
  destruct (sys_Mmap e); [done|]. intros [= <- <-]. simpl.
  rewrite lookup_insert_eq, insert_insert_eq. done.
Qed.

(** Creation touches one file only, whether it fails or not. *)
Lemma createSharedMemory_other e fs name size path :
  path ≠ shm_path name →
  files (createSharedMemory e fs name size).1 !! path = files fs !! path.
Proof.
  intros Hne. unfold createSharedMemory. destruct (sys_Open e _); [done|].
  destruct (sys_Ftruncate e); [simpl; by rewrite lookup_insert_ne|].
  destruct (Mmap e size); simpl; by rewrite !lookup_insert_ne by done.
Qed.

Lemma keep_ok e fs s u data fs' s' :
  keep e fs s u data = (fs', s', None) →
  holds fs' s' u data ∧ s' = set_size u (N.of_nat (length data)) s.
Proof.
  unfold keep. destruct (createSharedMemory _ _ _ _) as [fs1 [path|err]] eqn:E; [|done].
  apply createSharedMemory_ok in E as (-> & Hsz & _ & Hf). intros [= <- <-].
  split; [|done]. unfold holds, copy_into. simpl. rewrite Hf, !lookup_insert_eq. simpl.
  rewrite length_resize, Nat2N.id, take_ge, drop_ge by (rewrite ?length_resize; lia).
  rewrite app_nil_r. split_and!; [done|done|]. by intros ->.
Qed.

Lemma keep_faultless e fs s u data :
  faultless e → data ≠ [] → ∃ fs' s', keep e fs s u data = (fs', s', None).
Proof.
  intros (Ho & Ht & Hm & _) Hd. unfold keep, createSharedMemory, Mmap.
  rewrite Ho, Ht, decide_False, Hm by (destruct data; simpl; [done|lia]). eauto.
Qed.

Lemma keep_other e fs s u data v d :
  u ≠ v → holds fs s v d → holds (keep e fs s u data).1.1 (keep e fs s u data).1.2 v d.
Proof.
  intros Hne (Hf & Hs & Hd).
  assert (Hp : shm_path (FormatUint v) ≠ shm_path (FormatUint u)).
  { intros E. apply (inj (λ u, shm_path (FormatUint u))) in E. by subst. }
  pose proof (createSharedMemory_other e fs (FormatUint u) (N.of_nat (length data)) _ Hp) as Ho.
  unfold keep. destruct (createSharedMemory _ _ _ _) as [fs1 [path|err]] eqn:E; simpl in *;
    unfold holds; simpl; [|by rewrite Ho].
  apply createSharedMemory_ok in E as (-> & _). by rewrite !lookup_insert_ne, Ho by done.
Qed.

Lemma read_mapping_exact fs path data :
  files fs !! path = Some data → read_mapping fs path (N.of_nat (length data)) = Returns data.
Proof.
  intros Hf. unfold read_mapping. rewrite Hf. simpl. rewrite decide_True.
  - by rewrite Nat2N.id, resize_all.
  - pose proof (N.div_mod (N.of_nat (length data) + page - 1) page) as E.
    pose proof (N.mod_lt (N.of_nat (length data) + page - 1) page) as L.
    unfold page in *. lia.
Qed.

Lemma Copy_holds e fs s u requester data :
  faultless e → holds fs s u data →
  Copy e fs s {| cr_Uid := u; cr_Requester := requester |} =
    (closed (opened fs), Returns (Some {| cp_Uid := u; cp_ObjectBytes := data |}, None)).
Proof.
  intros (Ho & _ & Hm & Hc) (Hf & Hs & Hd). unfold Copy, readSharedMemory, Mmap. simpl.
  rewrite Hs, Hf, Ho, decide_False, Hm, Hc by (destruct data; simpl; [done|lia]).
  by rewrite (read_mapping_exact (closed (opened fs)) _ data).
Qed.

Lemma Copy_files e fs s req : files (Copy e fs s req).1 = files fs.
Proof.
  unfold Copy, readSharedMemory. destruct (objectSizes s !! cr_Uid req); [|done].
  destruct (files fs !! _); [|done]. destruct (sys_Open e _); [done|].
  destruct (Mmap e _); [done|]. by destruct (sys_Close e).
Qed.

(** ** Sequences of requests *)

Inductive lobs_op :=
  | OpStore (e : sys) (req : StoreRequest)
  | OpCopy (e : sys) (req : CopyRequest)
  | OpGot (cfg : Config) (Dial : string → option goerror)
      (CopyFrom : string → CopyRequest → reply CopyResponse) (e : sys)
      (req : GetRequest) (resp : LocationFoundCallback).

(** The object an operation writes. *)
Definition writes (op : lobs_op) : option N :=
  match op with
  | OpStore _ req => Some (so_Uid req)
  | OpCopy _ _ => None
  | OpGot _ _ _ _ req _ => Some (ge_Uid req)
  end.

Definition lobs_exec (op : lobs_op) (st : shm * server) : shm * server :=
  let '(fs, s) := st in
  match op with
  | OpStore e req => (Store e fs s req).1.1
  | OpCopy e req => ((Copy e fs s req).1, s)
  | OpGot cfg Dial CopyFrom e req resp => (Get_received cfg Dial CopyFrom e fs s req resp).1.1
  end.

Definition lobs_run (ops : list lobs_op) (st : shm * server) : shm * server :=
  foldl (λ st op, lobs_exec op st) st ops.

Lemma Store_keep e fs s req : (Store e fs s req).1.1 =
  (keep e fs s (so_Uid req) (so_ObjectBytes req)).1.
Proof. unfold Store. by destruct (keep _ _ _ _ _) as [[fs1 s1] [err|]]. Qed.

Lemma Get_received_keep cfg Dial CopyFrom e fs s req resp :
  (Get_received cfg Dial CopyFrom e fs s req resp).1.1 = (fs, s) ∨
  ∃ data, (Get_received cfg Dial CopyFrom e fs s req resp).1.1 =
          (keep e fs s (ge_Uid req) data).1.
Proof.
  unfold Get_received. destruct (negb (ge_Copy req)); [by left|].
  destruct (Dial _); [by left|]. destruct (CopyFrom _ _) as [[x|] [err|]]; try by left.
  destruct (ge_Cache req); [right|by left]. exists (cp_ObjectBytes x).
  by destruct (keep _ _ _ _ _) as [[fs1 s1] [err|]].
Qed.

Lemma lobs_exec_holds op st u data :
  writes op ≠ Some u → holds st.1 st.2 u data →
  holds (lobs_exec op st).1 (lobs_exec op st).2 u data.
Proof.
  destruct st as [fs s]. destruct op as [e req|e req|cfg Dial CopyFrom e req resp];
    simpl; intros Hne Hh.
  - rewrite Store_keep. apply keep_other; [congruence|done].
  - unfold holds. by rewrite Copy_files.
  - destruct (Get_received_keep cfg Dial CopyFrom e fs s req resp) as [->|[d ->]]; [done|].
    apply keep_other; [congruence|done].
Qed.

Lemma lobs_run_holds ops st u data :
  Forall (λ op, writes op ≠ Some u) ops → holds st.1 st.2 u data →
  holds (lobs_run ops st).1 (lobs_run ops st).2 u data.
Proof.
  intros Hall. revert st. induction Hall as [|op ops Hop _ IH]; intros st Hh; [done|].
  apply IH. by apply lobs_exec_holds.
Qed.


(** A cached [Get] of an object that another node stores returns its bytes
    and size and makes a second copy with the same bytes; it asks the node of
    the callback, and it tells the object table that this node holds the
    object, but with the size 0. *)
Theorem remote_get_replicates cfg Dial CopyFrom e fs s req resp eA fsA sA data :
  holds fsA sA (ge_Uid req) data → faultless eA → faultless e →
  (∀ address copy, cr_Uid copy = ge_Uid req →
     (Copy eA fsA sA copy).2 = Returns (CopyFrom address copy)) →
  (∀ address, Dial address = None) →
  ge_Copy req = true → ge_Cache req = true → lf_Uid resp = ge_Uid req → lf_Port resp = 0%N →
  ∃ fs' s', Get_received cfg Dial CopyFrom e fs s req resp =
    (fs', s',
     [CallCopy (node_address (NodePrefix cfg) (lf_Location resp)
                  (port_LocalObjectStore (cfg_Ports cfg)))
        {| cr_Uid := ge_Uid req; cr_Requester := localNodeID s |};
      CallNotifyOwns {| no_Uid := ge_Uid req; no_NodeId := localNodeID s; no_ObjectSize := 0 |}],
     (Some {| gr_Uid := ge_Uid req; gr_ObjectBytes := data; gr_Local := false;
              gr_Size := N.of_nat (length data) |}, None)) ∧
    holds fs' s' (ge_Uid req) data.
Proof.
  intros Hh HeA He HC HD Hcopy Hcache Hu Hp.
  destruct (keep_faultless e fs s (ge_Uid req) data) as (fs' & s' & Ek); [done|apply Hh|].
  exists fs', s'. pose proof (keep_ok _ _ _ _ _ _ _ Ek) as [Hh' Hs']. split; [|done].
  unfold Get_received. rewrite Hcopy, Hp, Hcache, Hu, HD. simpl.
  set (address := node_address _ _ _). set (copy := {| cr_Uid := _ |}).
  specialize (HC address copy eq_refl). unfold copy in HC at 1.
  rewrite (Copy_holds _ _ _ _ _ _ HeA Hh) in HC. injection HC as <-. simpl.
  rewrite Ek. simpl. by rewrite Hs'.
Qed.

(** Storing an empty object fails, but only after it has emptied the
    file: an object stored under that uid before is lost while its size stays
    recorded, and the next [Copy] of it touches memory that is not there,
    which ends the process. *)
Theorem empty_store_destroys_object e fs s u data requester :
  holds fs s u data → faultless e →
  ∃ fs', Store e fs s {| so_Uid := u; so_ObjectBytes := [] |} =
           (fs', s, [], (None, Some EINVAL)) ∧
    Get_local s {| ge_Uid := u; ge_Testing := false; ge_Copy := true; ge_Cache := true |} =
      Some {| gr_Uid := u; gr_ObjectBytes := []; gr_Local := true;
              gr_Size := N.of_nat (length data) |} ∧
    (Copy e fs' s {| cr_Uid := u; cr_Requester := requester |}).2 =
      Fatal "unexpected fault address".
Proof.
  intros (Hf & Hs & Hd) (Ho & Ht & Hm & Hc).
  assert (Hn : N.of_nat (length data) ≠ 0%N) by (destruct data; simpl; [done|lia]).
  eexists. split_and!.
  - unfold Store, keep, createSharedMemory. cbn [so_Uid so_ObjectBytes length N.of_nat].
    rewrite Ho, Ht. unfold Mmap at 1. rewrite decide_True by done. reflexivity.
  - unfold Get_local. simpl. by rewrite Hs.
  - unfold Copy, readSharedMemory. simpl. rewrite Hs. rewrite !lookup_insert_eq.
    unfold Mmap. rewrite Ho, decide_False, Hm, Hc by done. unfold read_mapping. simpl.
    rewrite !lookup_insert_eq. simpl. rewrite decide_False; [done|].
    rewrite length_resize. change (_ / page * page)%N with 0%N. lia.
Qed.

(** Every [Store] and every cached [Get] that could open its file leaves
    one more descriptor open, even when it fails; a [Copy] that reads its
    object leaves none. *)
Theorem store_leaks_descriptor e fs s req u data requester :
  faultless e →
  open_fds (Store e fs s req).1.1.1 = S (open_fds fs) ∧
  open_fds (keep e fs s u data).1.1 = S (open_fds fs) ∧
  (holds fs s u data →
   open_fds (Copy e fs s {| cr_Uid := u; cr_Requester := requester |}).1 = open_fds fs).
Proof.
  intros He. assert (Hk : ∀ u data, open_fds (keep e fs s u data).1.1 = S (open_fds fs)).
  { destruct He as (Ho & Ht & _ & _). intros u' data'. unfold keep, createSharedMemory.
    rewrite Ho, Ht. by destruct (Mmap e _). }
  rewrite Store_keep. split_and!; [done|done|]. intros Hh. by rewrite (Copy_holds _ _ _ _ _ data).
Qed.

(** ** Witnesses *)

Definition no_faults : sys :=
  {| sys_Open _ := None; sys_Ftruncate := None; sys_Mmap := None; sys_Close := None |}.
Definition no_files : shm := {| files := ∅; open_fds := 0 |}.
Definition store_req (u : N) (data : bytes) : StoreRequest :=
  {| so_Uid := u; so_ObjectBytes := data |}.
Definition get_req (u : N) : GetRequest :=
  {| ge_Uid := u; ge_Testing := false; ge_Copy := true; ge_Cache := true |}.

(** Node 2 after it stored the bytes 1, 2, 3 as object 7. *)
Definition demo_node : shm * server :=
  (Store no_faults no_files (new_server 2) (store_req 7 [x01; x02; x03])).1.1.

Lemma demo_node_holds : holds demo_node.1 demo_node.2 7 [x01; x02; x03].
Proof. split_and!; [vm_compute; reflexivity..|done]. Qed.


(** Node 3 gets object 7 from node 2. *)
Definition from_node_2 (address : string) (copy : CopyRequest) : reply CopyResponse :=
  match (Copy no_faults demo_node.1 demo_node.2 copy).2 with
  | Returns r => r
  | _ => (None, Some (PlainError "unavailable"))
  end.

Lemma remote_get_replicates_witness :
  ∃ fs s calls, Get_received app_config (λ _, None) from_node_2 no_faults no_files (new_server 3)
      (get_req 7) {| lf_Uid := 7; lf_Location := 2; lf_Address := EmptyString; lf_Port := 0 |}
    = (fs, s, calls, (Some {| gr_Uid := 7; gr_ObjectBytes := [x01; x02; x03];
                              gr_Local := false; gr_Size := 3 |}, None)) ∧
    holds fs s 7 [x01; x02; x03].
Proof.
  destruct (remote_get_replicates app_config (λ _, None) from_node_2 no_faults no_files
    (new_server 3) (get_req 7)
    {| lf_Uid := 7; lf_Location := 2; lf_Address := EmptyString; lf_Port := 0 |}
    no_faults demo_node.1 demo_node.2 [x01; x02; x03]) as (fs & s & E & Hh); try done.
  - intros address [u requester]. simpl. intros ->. unfold from_node_2.
    rewrite (Copy_holds no_faults _ _ 7 requester [x01; x02; x03]); [done|done|].
    exact demo_node_holds.
  - exists fs, s. eexists. split; [exact E|exact Hh].
Defined.

Lemma empty_store_destroys_object_witness :
  ∃ fs, Store no_faults demo_node.1 demo_node.2 (store_req 7 []) =
          (fs, demo_node.2, [], (None, Some EINVAL)) ∧
    (Copy no_faults fs demo_node.2 {| cr_Uid := 7; cr_Requester := 3 |}).2 =
      Fatal "unexpected fault address".
Proof.
  destruct (empty_store_destroys_object no_faults demo_node.1 demo_node.2 7 [x01; x02; x03] 3)
    as (fs & E & _ & Hc); [exact demo_node_holds|done|].
  by exists fs.
Defined.

Lemma store_leaks_descriptor_witness :
  open_fds (Store no_faults demo_node.1 demo_node.2 (store_req 8 [])).1.1.1 = 2 ∧
  open_fds (Copy no_faults demo_node.1 demo_node.2 {| cr_Uid := 7; cr_Requester := 3 |}).1 = 1.
Proof.
  destruct (store_leaks_descriptor no_faults demo_node.1 demo_node.2 (store_req 8 []) 7
    [x01; x02; x03] 3) as (E1 & _ & E2); [done|].
  split; [exact E1|exact (E2 demo_node_holds)].
Defined.
