(* ===== verification/LobsChannels.v ===== *)
(** * Waiting for an object

    The part of [go/cmd/localobjstore/main.go] in which [Get] waits for
    [LocationFound]: every [Get] of an object the node does not have makes a
    new unbuffered channel, registers it under the uid, asks the object table
    and receives from the channel registered at that moment; every
    [LocationFound] sends on the channel registered when it arrives.  Calls
    interleave between these steps.  A send and a receive on the same channel
    happen together; on a nil channel neither ever happens. *)
From S2P Require Import Prelude Float32 Net Messages Config LocalObjStore LocalObjStoreThms.

(** Where a call of [Get] stands. *)
Inductive get_pc :=
  | GetEntry
  | GetMaking                         (* not in [objectSizes] *)
  | GetRequesting                     (* its channel is registered *)
  | GetLooking                        (* before it looks the channel up *)
  | GetReceiving (c : option nat)     (* waits on a channel, or on nil *)
  | GetReceived (resp : LocationFoundCallback)
  | GetDone (r : reply GetResponse).

(** Where a call of [LocationFound] stands. *)
Inductive found_pc :=
  | FoundLooking
  | FoundSending (c : option nat)
  | FoundDone (r : reply StatusResponse).

Record lstate := {
  l_fs : shm;
  l_server : server;
  next_chan : nat;                    (* the channels made so far *)
  gets : list (GetRequest * get_pc);
  founds : list (LocationFoundCallback * found_pc)
}.

Record get_env := {
  env_cfg : Config;
  env_Dial : string → option goerror;
  env_Copy : string → CopyRequest → reply CopyResponse;
  env_sys : sys
}.

(** One step of [Get] on its own. *)
Definition Get_step (env : get_env) (req : GetRequest) (st : lstate) (p : get_pc)
    : option (shm * server * nat * get_pc * list lobs_call) :=
  let fs := l_fs st in
  let s := l_server st in
  let n := next_chan st in
  match p with
  | GetEntry =>
      match Get_local s req with
      | Some r => Some (fs, s, n, GetDone (Some r, None), [])
      | None => Some (fs, s, n, GetMaking, [])
      end
  | GetMaking => Some (fs, set_channel (ge_Uid req) n s, S n, GetRequesting, [])
  | GetRequesting =>
      let calls := if negb (ge_Testing req) then
        [CallRequestLocation {| rl_Uid := ge_Uid req; rl_Requester := localNodeID s |}]
      else [] in
      Some (fs, s, n, GetLooking, calls)
  | GetLooking => Some (fs, s, n, GetReceiving (localObjectChannels s !! ge_Uid req), [])
  | GetReceiving _ => None
  | GetReceived resp =>
      let '(fs, s, calls, r) := Get_received (env_cfg env) (env_Dial env) (env_Copy env)
                                  (env_sys env) fs s req resp in
      Some (fs, s, n, GetDone r, calls)
  | GetDone _ => None
  end.

Definition LocationFound_step (resp : LocationFoundCallback) (s : server) (p : found_pc)
    : option found_pc :=
  match p with
  | FoundLooking => Some (FoundSending (localObjectChannels s !! lf_Uid resp))
  | FoundSending _ => None
  | FoundDone _ => None
  end.

Inductive llabel :=
  | CallGet (req : GetRequest)
  | CallLocationFound (resp : LocationFoundCallback)
  | CallStore (e : sys) (req : StoreRequest)
  | StepGet (i : nat) (env : get_env)
  | StepFound (j : nat)
  | Deliver (i j : nat).              (* [Get] i receives from [LocationFound] j *)

Definition lexec (l : llabel) (st : lstate) : option (lstate * list lobs_call) :=
  match l with
  | CallGet req => Some ({| l_fs := l_fs st; l_server := l_server st; next_chan := next_chan st;
      gets := gets st ++ [(req, GetEntry)]; founds := founds st |}, [])
  | CallLocationFound resp => Some ({| l_fs := l_fs st; l_server := l_server st;
      next_chan := next_chan st; gets := gets st;
      founds := founds st ++ [(resp, FoundLooking)] |}, [])
  | CallStore e req =>
      let '(fs, s, calls, _) := Store e (l_fs st) (l_server st) req in
      Some ({| l_fs := fs; l_server := s; next_chan := next_chan st;
               gets := gets st; founds := founds st |}, calls)
  | StepGet i env =>
      '(req, p) ← gets st !! i;
      '(fs, s, n, p, calls) ← Get_step env req st p;
      Some ({| l_fs := fs; l_server := s; next_chan := n;
               gets := <[i := (req, p)]> (gets st); founds := founds st |}, calls)
  | StepFound j =>
      '(resp, p) ← founds st !! j;
      p ← LocationFound_step resp (l_server st) p;
      Some ({| l_fs := l_fs st; l_server := l_server st; next_chan := next_chan st;
               gets := gets st; founds := <[j := (resp, p)]> (founds st) |}, [])
  | Deliver i j =>
      match gets st !! i, founds st !! j with
      | Some (req, GetReceiving (Some c)), Some (resp, FoundSending (Some c')) =>
          if decide (c = c') then
            Some ({| l_fs := l_fs st; l_server := l_server st; next_chan := next_chan st;
                     gets := <[i := (req, GetReceived resp)]> (gets st);
                     founds := <[j := (resp, FoundDone (Some (Status true), None))]> (founds st)
                  |}, [])
          else None
      | _, _ => None
      end
  end.

Fixpoint lexec_list (st : lstate) (ls : list llabel) : option (lstate * list lobs_call) :=
  match ls with
  | [] => Some (st, [])
  | l :: ls =>
      '(st, calls) ← lexec l st;
      '(st, calls') ← lexec_list st ls;
      Some (st, calls ++ calls')
  end.

Definition linit (nodeId : uint64) : lstate :=
  {| l_fs := {| files := ∅; open_fds := 0 |}; l_server := new_server nodeId;
     next_chan := 0; gets := []; founds := [] |}.

(** States that some interleaving of calls reaches. *)
Inductive reachable (nodeId : uint64) : lstate → Prop :=
  | reachable_init : reachable nodeId (linit nodeId)
  | reachable_step st l st' calls :
      reachable nodeId st → lexec l st = Some (st', calls) → reachable nodeId st'.

Lemma reachable_list nodeId st ls st' calls :
  reachable nodeId st → lexec_list st ls = Some (st', calls) → reachable nodeId st'.
Proof.
  revert st calls. induction ls as [|l ls IH]; intros st calls Hr; simpl.
  - by intros [= <- _].
  - destruct (lexec l st) as [[st1 c1]|] eqn:E; simpl; [|done].
    destruct (lexec_list st1 ls) as [[st2 c2]|] eqn:E2; simpl; [|done].
    intros [= <- _]. eapply IH; [|done]. by eapply reachable_step.
Qed.

(** ** Only a new [Get] registers a channel *)

Lemma keep_channels e fs s u data :
  localObjectChannels (keep e fs s u data).1.2 = localObjectChannels s.
Proof. unfold keep. by destruct (createSharedMemory _ _ _ _) as [? []]. Qed.

Lemma Store_channels e fs s req :
  localObjectChannels (Store e fs s req).1.1.2 = localObjectChannels s.
Proof. rewrite Store_keep. apply keep_channels. Qed.

Lemma Get_received_channels cfg Dial CopyFrom e fs s req resp :
  localObjectChannels (Get_received cfg Dial CopyFrom e fs s req resp).1.1.2 =
  localObjectChannels s.
Proof.
  destruct (Get_received_keep cfg Dial CopyFrom e fs s req resp) as [->|[d ->]]; [done|].
  apply keep_channels.
Qed.

Definition past_making (p : get_pc) : Prop :=
  match p with GetRequesting | GetLooking | GetReceiving _ => True | _ => False end.

(** What a step of the store does to the channel table and to the calls of
    [Get]. *)
Inductive chan_step (st st' : lstate) : Prop :=
  | chan_same :
      localObjectChannels (l_server st') = localObjectChannels (l_server st) →
      next_chan st' = next_chan st → gets st' = gets st → chan_step st st'
  | chan_add req :
      localObjectChannels (l_server st') = localObjectChannels (l_server st) →
      next_chan st' = next_chan st → gets st' = gets st ++ [(req, GetEntry)] →
      chan_step st st'
  | chan_move i req p p' :
      localObjectChannels (l_server st') = localObjectChannels (l_server st) →
      next_chan st' = next_chan st →
      gets st !! i = Some (req, p) → gets st' = <[i := (req, p')]> (gets st) →
      (past_making p' → past_making p) →
      (∀ co, p' = GetReceiving co → co = localObjectChannels (l_server st) !! ge_Uid req) →
      chan_step st st'
  | chan_make i req :
      localObjectChannels (l_server st') =
        <[ge_Uid req := next_chan st]> (localObjectChannels (l_server st)) →
      next_chan st' = S (next_chan st) →
      gets st !! i = Some (req, GetMaking) → gets st' = <[i := (req, GetRequesting)]> (gets st) →
      chan_step st st'.

Lemma lexec_chan_step l st st' calls : lexec l st = Some (st', calls) → chan_step st st'.
Proof.
  destruct l as [req|resp|e req|i env|j|i j]; simpl.
  - intros [= <- _]. by eapply chan_add.
  - intros [= <- _]. by apply chan_same.
  - pose proof (Store_channels e (l_fs st) (l_server st) req) as Hc.
    destruct (Store _ _ _ _) as [[[fs s] c] r]. intros [= <- _]. by apply chan_same.
  - destruct (gets st !! i) as [[req p]|] eqn:Hi; simpl; [|done].
    destruct p; simpl; try done.
    + destruct (Get_local _ _); intros [= <- _]; by eapply chan_move.
    + intros [= <- _]. by eapply chan_make.
    + intros [= <- _]. by eapply chan_move.
    + intros [= <- _]. eapply chan_move; try done. by intros co [= <-].
    + pose proof (Get_received_channels (env_cfg env) (env_Dial env) (env_Copy env)
        (env_sys env) (l_fs st) (l_server st) req resp) as Hc.
      destruct (Get_received _ _ _ _ _ _ _ _) as [[[fs s] c] r]. intros [= <- _].
      by eapply chan_move.
  - destruct (founds st !! j) as [[resp p]|]; simpl; [|done].
    destruct (LocationFound_step _ _ _); simpl; [|done]. intros [= <- _]. by apply chan_same.
  - destruct (gets st !! i) as [[req []]|] eqn:Hi; try done. destruct c as [c|]; [|done].
    destruct (founds st !! j) as [[resp [|[c'|]|]]|]; try done.
    destruct (decide (c = c')); [|done]. intros [= <- _]. by eapply chan_move.
Qed.

(** Registered channels are old and belong to one object; a call of [Get]
    waits on a channel that is registered for its object or that a later
    [Get] of the same object replaced. *)
Record chan_inv (st : lstate) : Prop := {
  inv_old u c : localObjectChannels (l_server st) !! u = Some c → c < next_chan st;
  inv_owner u u' c : localObjectChannels (l_server st) !! u = Some c →
    localObjectChannels (l_server st) !! u' = Some c → u = u';
  inv_made i req p : gets st !! i = Some (req, p) → past_making p →
    is_Some (localObjectChannels (l_server st) !! ge_Uid req);
  inv_waits i req co : gets st !! i = Some (req, GetReceiving co) →
    ∃ c, co = Some c ∧ c < next_chan st ∧
      (∀ u, localObjectChannels (l_server st) !! u = Some c → u = ge_Uid req) ∧
      (localObjectChannels (l_server st) !! ge_Uid req = Some c ∨
       ∃ j req' p', j ≠ i ∧ gets st !! j = Some (req', p') ∧ ge_Uid req' = ge_Uid req)
}.

Lemma chan_inv_init nodeId : chan_inv (linit nodeId).
Proof. constructor; simpl; intros *; try (by rewrite lookup_empty); by rewrite lookup_nil. Qed.

(** Another call of the same object is still there after a call moved. *)
Lemma other_get_kept (l : list (GetRequest * get_pc)) i k req p p' u :
  l !! k = Some (req, p) →
  (∃ j req' q, j ≠ i ∧ l !! j = Some (req', q) ∧ ge_Uid req' = u) →
  ∃ j req' q, j ≠ i ∧ <[k := (req, p')]> l !! j = Some (req', q) ∧ ge_Uid req' = u.
Proof.
  intros Hk (j & req' & q & Hne & Hj & Hu). destruct (decide (j = k)) as [->|Hjk].
  - rewrite Hk in Hj. simplify_eq. exists k, req', p'. split_and!; [done| |done].
    by apply list_lookup_insert_eq, (lookup_lt_Some _ _ _ Hk).
  - exists j, req', q. by rewrite list_lookup_insert_ne.
Qed.

Lemma chan_inv_move st st' i req p p' :
  chan_inv st →
  localObjectChannels (l_server st') = localObjectChannels (l_server st) →
  next_chan st' = next_chan st →
  gets st !! i = Some (req, p) → gets st' = <[i := (req, p')]> (gets st) →
  (past_making p' → past_making p) →
  (∀ co, p' = GetReceiving co → co = localObjectChannels (l_server st) !! ge_Uid req) →
  chan_inv st'.
Proof.
  intros [Hold Hown Hmade Hwait] Hc Hn Hi Hg Hp Hr.
  constructor; rewrite Hc, ?Hn, ?Hg; [done|done|..].
  - intros k req' q Hk Hq. apply list_lookup_insert_Some in Hk as [(-> & [= <- <-] & _)|[_ Hk]];
      eauto.
  - intros k req' co Hk. apply list_lookup_insert_Some in Hk as [(-> & [= <- ->] & _)|[Hne Hk]].
    + specialize (Hr co eq_refl). destruct (Hmade _ _ _ Hi) as [c Hcc]; [by apply Hp|].
      rewrite Hcc in Hr. exists c. split_and!; [done|by eapply Hold| |by left].
      intros u Hu. by eapply Hown.
    + destruct (Hwait _ _ _ Hk) as (c & -> & Hlt & Hu & Hor). exists c. split_and!; [done..|].
      destruct Hor as [?|Hex]; [by left|right]. by eapply other_get_kept.
Qed.

Lemma chan_inv_make st st' i req :
  chan_inv st →
  localObjectChannels (l_server st') =
    <[ge_Uid req := next_chan st]> (localObjectChannels (l_server st)) →
  next_chan st' = S (next_chan st) →
  gets st !! i = Some (req, GetMaking) → gets st' = <[i := (req, GetRequesting)]> (gets st) →
  chan_inv st'.
Proof.
  intros [Hold Hown Hmade Hwait] Hc Hn Hi Hg. constructor; rewrite Hc, ?Hn, ?Hg.
  - intros u c [[_ <-]|[_ Hu%Hold]]%lookup_insert_Some; lia.
  - intros u u' c [[<- <-]|[Hu Hcu]]%lookup_insert_Some
      [[<- E]|[Hu' Hcu']]%lookup_insert_Some; [done|..].
    + apply Hold in Hcu'. lia.
    + apply Hold in Hcu. lia.
    + by eapply Hown.
  - intros k req' q Hk Hq. destruct (decide (ge_Uid req' = ge_Uid req)) as [->|Hne].
    { by rewrite lookup_insert_eq. }
    rewrite lookup_insert_ne by done.
    apply list_lookup_insert_Some in Hk as [(-> & [= <- <-] & _)|[_ Hk]]; [done|eauto].
  - intros k req' co Hk. apply list_lookup_insert_Some in Hk as [(_ & [=] & _)|[Hne Hk]].
    destruct (Hwait _ _ _ Hk) as (c & -> & Hlt & Hu & Hor). exists c. split_and!; [done|lia|..].
    + intros u [[_ E]|[_ Hcu]]%lookup_insert_Some; [lia|by apply Hu].
    + destruct (decide (ge_Uid req' = ge_Uid req)) as [E|Hne'].
      * right. exists i, req, GetRequesting. split_and!; [done| |done].
        by apply list_lookup_insert_eq, (lookup_lt_Some _ _ _ Hi).
      * rewrite lookup_insert_ne by done. destruct Hor as [?|Hex]; [by left|right].
        by eapply other_get_kept.
Qed.

Lemma chan_inv_step st st' : chan_step st st' → chan_inv st → chan_inv st'.
Proof.
  intros Hstep Hinv. pose proof Hinv as [Hold Hown Hmade Hwait].
  destruct Hstep as [Hc Hn Hg|req Hc Hn Hg|i req p p' Hc Hn Hi Hg Hp Hr|i req Hc Hn Hi Hg].
  - constructor; rewrite Hc, ?Hn, ?Hg; done.
  - constructor; rewrite Hc, ?Hn, ?Hg; [done|done|..].
    + intros k req' q Hk Hq. apply lookup_app_Some in Hk as [Hk|[_ Hk]]; [eauto|].
      by apply list_lookup_singleton_Some in Hk as [_ [= _ <-]].
    + intros k req' co Hk. apply lookup_app_Some in Hk as [Hk|[_ Hk]];
        [|by apply list_lookup_singleton_Some in Hk as [_ [=]]].
      destruct (Hwait _ _ _ Hk) as (c & -> & Hlt & Hu & Hor).
      exists c. split_and!; [done..|]. destruct Hor as [?|(j & r & q & ? & Hj & ?)]; [by left|].
      right. exists j, r, q. split_and!; [done|by apply lookup_app_l_Some|done].
  - by eapply chan_inv_move.
  - by eapply chan_inv_make.
Qed.

Lemma reachable_inv nodeId st : reachable nodeId st → chan_inv st.
Proof.
  induction 1 as [|st l st' calls _ IH E]; [apply chan_inv_init|].
  by eapply chan_inv_step, IH; eapply lexec_chan_step.
Qed.

(** A [Get] that waits for an object of which no other [Get] was made is
    woken by the next callback for that object, whatever happened before: the
    callback finds the channel the [Get] waits on, and both go on. *)
Theorem callback_wakes_the_get nodeId st i req co resp :
  reachable nodeId st →
  gets st !! i = Some (req, GetReceiving co) →
  (∀ j req' p, gets st !! j = Some (req', p) → ge_Uid req' = ge_Uid req → j = i) →
  lf_Uid resp = ge_Uid req →
  ∃ st', lexec_list st [CallLocationFound resp; StepFound (length (founds st));
                        Deliver i (length (founds st))] = Some (st', []) ∧
    gets st' !! i = Some (req, GetReceived resp) ∧
    founds st' !! length (founds st) = Some (resp, FoundDone (Some (Status true), None)).
Proof.
  intros Hr%reachable_inv Hi Hone Hu.
  destruct (inv_waits _ Hr _ _ _ Hi) as (c & -> & _ & _ & Hor).
  assert (Hc : localObjectChannels (l_server st) !! ge_Uid req = Some c).
  { destruct Hor as [?|(j & req' & p & Hne & Hj & Hj')]; [done|]. by destruct Hne; eapply Hone. }
  eexists. split; [|split].
  - cbn [lexec_list lexec mbind option_bind l_server founds gets next_chan l_fs].
    rewrite list_lookup_middle by done. cbn [mbind option_bind LocationFound_step].
    cbn [l_server founds gets next_chan l_fs]. rewrite Hu, Hc.
    rewrite insert_app_r_alt, Nat.sub_diag by lia.
    cbn [list_insert insert]. rewrite Hi, list_lookup_middle by done.
    rewrite decide_True by done. reflexivity.
  - simpl. by apply list_lookup_insert_eq, (lookup_lt_Some _ _ _ Hi).
  - simpl. apply list_lookup_insert_eq. rewrite length_app. simpl. lia.
Qed.

(** ** A second [Get] of the same object *)

(** Call [i] waits on a channel that nobody can send on any more. *)
Definition stranded (st : lstate) (i : nat) (req : GetRequest) (c : nat) : Prop :=
  gets st !! i = Some (req, GetReceiving (Some c)) ∧ c < next_chan st ∧
  (∀ u, localObjectChannels (l_server st) !! u ≠ Some c) ∧
  (∀ j resp, founds st !! j ≠ Some (resp, FoundSending (Some c))).

Lemma stranded_chan st st' i req c :
  chan_step st st' → gets st' !! i = gets st !! i →
  stranded st i req c → founds st' = founds st → stranded st' i req c.
Proof.
  intros Hs Hg (Hi & Hlt & Hc & Hf) Ef. unfold stranded. rewrite Hg, Ef.
  destruct Hs as [E En _|r E En _|k r p p' E En _ _ _ _|k r E En _ _]; rewrite E, En;
    split_and!; try done; [lia|].
  intros u [[_ ?]|[_ Hu]]%lookup_insert_Some; [lia|by apply (Hc u)].
Qed.

Lemma stranded_step l st st' calls i req c :
  lexec l st = Some (st', calls) → stranded st i req c → stranded st' i req c.
Proof.
  intros E Hst. pose proof (lexec_chan_step _ _ _ _ E) as Hs.
  pose proof Hst as (Hi & Hlt & Hc & Hf). destruct l as [r|resp|e r|k env|j|k j]; simpl in E.
  - injection E as <- _. apply (stranded_chan st); try done. simpl.
    by rewrite lookup_app_l by (by eapply lookup_lt_Some).
  - injection E as <- _. split_and!; try done. intros j resp'. simpl.
    intros [Hj|[_ Hj]]%lookup_app_Some; [by eapply Hf|].
    by apply list_lookup_singleton_Some in Hj as [_ [=]].
  - destruct (Store _ _ _ _) as [[[fs s] cs] rep]. injection E as <- _.
    by apply (stranded_chan st).
  - destruct (gets st !! k) as [[r p]|] eqn:Hk; simpl in E; [|done].
    destruct (Get_step env r st p) as [[[[[fs s] n] p'] cs]|] eqn:Eg; simpl in E; [|done].
    injection E as <- _. apply (stranded_chan st); try done. simpl.
    destruct (decide (k = i)) as [->|Hne]; [|by rewrite list_lookup_insert_ne].
    rewrite Hi in Hk. simplify_eq.
  - destruct (founds st !! j) as [[resp p]|] eqn:Hj; simpl in E; [|done].
    destruct p; simpl in E; try done. injection E as <- _. split_and!; try done. simpl.
    intros j' resp' [(_ & [= _ Hu] & _)|[_ Hj']]%list_lookup_insert_Some; [by eapply Hc|].
    by eapply Hf.
  - destruct (gets st !! k) as [[r []]|] eqn:Hk; try done. destruct c0 as [c1|]; [|done].
    destruct (founds st !! j) as [[resp [|[c2|]|]]|] eqn:Hj; try done.
    destruct (decide (c1 = c2)) as [->|]; [|done]. injection E as <- _.
    destruct (decide (k = i)) as [->|Hne].
    { rewrite Hi in Hk. simplify_eq. by destruct (Hf j resp). }
    split_and!; try done; simpl; [by rewrite list_lookup_insert_ne|].
    intros j' resp' [(_ & [=] & _)|[_ Hj']]%list_lookup_insert_Some. by eapply Hf.
Qed.

Lemma stranded_run ls st st' calls i req c :
  lexec_list st ls = Some (st', calls) → stranded st i req c → stranded st' i req c.
Proof.
  revert st calls. induction ls as [|l ls IH]; intros st calls; simpl.
  - by intros [= <- _].
  - destruct (lexec l st) as [[st1 c1]|] eqn:E; simpl; [|done].
    destruct (lexec_list st1 ls) as [[st2 c2]|] eqn:E2; simpl; [|done].
    intros [= <- _] Hs. eapply IH; [done|]. by eapply stranded_step.
Qed.

(** C37: a second [Get] of the same object replaces the channel on which the
    first one waits, so unless a callback had already found the old channel
    the first call never returns: no later step, callback or store wakes it. *)
Theorem second_get_strands_the_first nodeId st i req c k req' env st1 calls ls st2 calls' :
  reachable nodeId st →
  gets st !! i = Some (req, GetReceiving (Some c)) →
  gets st !! k = Some (req', GetMaking) → ge_Uid req' = ge_Uid req →
  (∀ j resp, founds st !! j ≠ Some (resp, FoundSending (Some c))) →
  lexec (StepGet k env) st = Some (st1, calls) →
  lexec_list st1 ls = Some (st2, calls') →
  gets st2 !! i = Some (req, GetReceiving (Some c)).
Proof.
  intros Hr%reachable_inv Hi Hk Hu Hf E Els. eapply stranded_run; [done|].
  destruct (inv_waits _ Hr _ _ _ Hi) as (c' & [= <-] & Hlt & Hown & _).
  assert (Hki : k ≠ i) by (intros ->; rewrite Hi in Hk; discriminate).
  simpl in E. rewrite Hk in E. simpl in E. injection E as <- _. split_and!; simpl.
  - by rewrite list_lookup_insert_ne.
  - lia.
  - intros u [[_ ?]|[Hne Hc]]%lookup_insert_Some; [lia|].
    apply Hown in Hc. congruence.
  - done.
Qed.

(** ** Witnesses *)

Definition demo_get_env : get_env := {|
  env_cfg := app_config; env_Dial _ := None;
  env_Copy _ r := (Some {| cp_Uid := cr_Uid r; cp_ObjectBytes := [Byte.x05] |}, None);
  env_sys := no_faults |}.

(** Node 2 waits for object 7 in its first call of [Get]. *)
Definition one_get : list llabel := CallGet (get_req 7) :: replicate 4 (StepGet 0 demo_get_env).

Definition waiting_state : lstate := (default (linit 2, []) (lexec_list (linit 2) one_get)).1.

Definition found_at (n : N) : LocationFoundCallback :=
  {| lf_Uid := 7; lf_Location := n; lf_Address := EmptyString; lf_Port := 0 |}.

Lemma waiting_state_reachable : reachable 2 waiting_state.
Proof.
  eapply (reachable_list 2 (linit 2) one_get); [constructor|]. vm_compute. reflexivity.
Qed.

Lemma callback_wakes_the_get_witness :
  ∃ st', lexec_list waiting_state [CallLocationFound (found_at 4); StepFound 0; Deliver 0 0]
           = Some (st', []) ∧ gets st' !! 0 = Some (get_req 7, GetReceived (found_at 4)).
Proof.
  destruct (callback_wakes_the_get 2 waiting_state 0 (get_req 7) (Some 0) (found_at 4))
    as (st' & E & Hi & _).
  - exact waiting_state_reachable.
  - reflexivity.
  - intros [|j] r p Hj _; [done|]. vm_compute in Hj. discriminate.
  - reflexivity.
  - exists st'. split; [exact E|exact Hi].
Defined.

(** A second call arrives, finds the object missing and makes its channel;
    then the callback of the first request arrives and wakes the second. *)
Definition second_get : list llabel := [CallGet (get_req 7); StepGet 1 demo_get_env].
Definition later : list llabel :=
  replicate 2 (StepGet 1 demo_get_env) ++
  [CallLocationFound (found_at 4); StepFound 0; Deliver 1 0; StepGet 1 demo_get_env;
   CallLocationFound (found_at 4); StepFound 1].

Definition two_gets : lstate :=
  (default (waiting_state, []) (lexec_list waiting_state second_get)).1.

Lemma second_get_strands_the_first_witness :
  ∃ st1 calls st2 calls',
    lexec (StepGet 1 demo_get_env) two_gets = Some (st1, calls) ∧
    lexec_list st1 later = Some (st2, calls') ∧
    gets st2 !! 0 = Some (get_req 7, GetReceiving (Some 0)).
Proof.
  destruct (lexec (StepGet 1 demo_get_env) two_gets) as [[st1 calls]|] eqn:E;
    [|vm_compute in E; discriminate].
  destruct (lexec_list st1 later) as [[st2 calls']|] eqn:E2.
  - exists st1, calls, st2, calls'. split_and!; [done|exact E2|].
    refine (second_get_strands_the_first 2 two_gets 0 (get_req 7) 0 1 (get_req 7)
      demo_get_env st1 calls later st2 calls' _ _ _ _ _ E E2); try reflexivity.
    + eapply (reachable_list 2 waiting_state second_get); [exact waiting_state_reachable|].
      vm_compute. reflexivity.
    + intros j resp Hj. by destruct j.
  - vm_compute in E. injection E as <- <-. vm_compute in E2. discriminate.
Defined.
