(* ===== verification/LobsData.v ===== *)
(** * What a store's objects and answers contain

    Invariants of the machine of [LobsChannels] under any interleaving of its
    calls, for the whole system to use: when every [Store] of a uid brings the
    same bytes [D u], and every copy that arrives is right, the recorded
    objects are in their files with these bytes, and every finished [Get] either
    failed or answered with them.  A [Get] receives only callbacks for its own
    object. *)
From S2P Require Import Prelude Float32 Net Messages Config.
From S2P Require Import LocalObjStore LocalObjStoreThms LobsChannels.

(** ** Files *)

(** Recreating a file with the size it has leaves its content, whatever fails. *)
Lemma createSharedMemory_same e fs name size data :
  files fs !! shm_path name = Some data → length data = N.to_nat size →
  files (createSharedMemory e fs name size).1 !! shm_path name = Some data.
Proof.
  intros Hf Hl. unfold createSharedMemory. destruct (sys_Open e _); [done|]. simpl.
  rewrite Hf. destruct (sys_Ftruncate e); simpl; [by rewrite lookup_insert_eq|].
  destruct (Mmap e size); simpl; rewrite !lookup_insert_eq; simpl; by rewrite <-Hl, resize_all.
Qed.

Lemma keep_failed e fs s u data fs' s' err : keep e fs s u data = (fs', s', Some err) → s' = s.
Proof. unfold keep. by destruct (createSharedMemory _ _ _ _) as [? []]; intros [= <- <-]. Qed.

(** The sizes only grow. *)
Lemma keep_sizes e fs s u data v :
  is_Some (objectSizes s !! v) → is_Some (objectSizes (keep e fs s u data).1.2 !! v).
Proof.
  unfold keep. destruct (createSharedMemory _ _ _ _) as [? []]; [|done]. simpl.
  destruct (decide (u = v)) as [->|]; [by rewrite lookup_insert_eq|by rewrite lookup_insert_ne].
Qed.

Section Contents.
(** The bytes of every object. *)
Context (D : N → bytes).

(** Every recorded object has its bytes in its file. *)
Definition contents (fs : shm) (s : server) : Prop :=
  ∀ u, is_Some (objectSizes s !! u) → holds fs s u (D u).

Lemma contents_keep e fs s u :
  D u ≠ [] → contents fs s → contents (keep e fs s u (D u)).1.1 (keep e fs s u (D u)).1.2.
Proof.
  intros Hd Hc v Hv. destruct (keep e fs s u (D u)) as [[fs' s'] [err|]] eqn:E; simpl in *.
  - pose proof (keep_failed _ _ _ _ _ _ _ _ E) as ->. specialize (Hc v Hv).
    destruct (decide (u = v)) as [->|Hne].
    + destruct Hc as (Hf & Hs & _). split_and!; [|done|done].
      unfold keep in E. pose proof (createSharedMemory_same e fs (FormatUint v)
        (N.of_nat (length (D v))) (D v) Hf) as Hk. rewrite Nat2N.id in Hk.
      destruct (createSharedMemory _ _ _ _) as [fs1 [|]]; [done|]. injection E as <- _. by apply Hk.
    + pose proof (keep_other e fs s u (D u) v (D v) Hne Hc) as Hk. by rewrite E in Hk.
  - destruct (keep_ok _ _ _ _ _ _ _ E) as [Hh ->]. destruct (decide (u = v)) as [->|Hne]; [done|].
    pose proof (keep_other e fs s u (D u) v (D v) Hne) as Hk. rewrite E in Hk. apply Hk, Hc.
    revert Hv. simpl. by rewrite lookup_insert_ne.
Qed.

Lemma contents_Store e fs s req :
  so_ObjectBytes req = D (so_Uid req) → D (so_Uid req) ≠ [] → contents fs s →
  contents (Store e fs s req).1.1.1 (Store e fs s req).1.1.2.
Proof. intros Hr Hd Hc. rewrite Store_keep, Hr. by apply contents_keep. Qed.

(** The answers of [Copy] are right, even when system calls fail. *)
Lemma Copy_contents e fs s req x :
  contents fs s → (Copy e fs s req).2 = Returns (Some x, None) →
  cp_ObjectBytes x = D (cr_Uid req) ∧ D (cr_Uid req) ≠ [].
Proof.
  intros Hc. unfold Copy. destruct (objectSizes s !! cr_Uid req) as [size|] eqn:Hs; [|done].
  destruct (Hc (cr_Uid req)) as (Hf & Hs' & Hd); [by eexists|].
  rewrite Hs in Hs'. injection Hs' as ->. unfold readSharedMemory. rewrite Hf.
  destruct (sys_Open e _); [done|]. destruct (Mmap e _); [done|]. destruct (sys_Close e); [done|].
  cbn [snd]. rewrite (read_mapping_exact _ _ (D (cr_Uid req))) by done. by intros [= <-].
Qed.

(** A copy from a store that has the object recorded never answers that it is
    not there. *)
Lemma Copy_recorded e fs s req x :
  is_Some (objectSizes s !! cr_Uid req) →
  (Copy e fs s req).2 ≠ Returns (x, Some (PlainError "object was not in LOS")).
Proof.
  intros [size Hs]. unfold Copy. rewrite Hs.
  destruct (readSharedMemory _ _ _ _) as [fs1 [path|err]] eqn:E; simpl.
  - by destruct (read_mapping _ _ _).
  - intros [= _ ->]. revert E. unfold readSharedMemory.
    destruct (match files fs !! _ with Some _ => _ | None => _ end); [done|].
    destruct (Mmap e size); [done|]. by destruct (sys_Close e).
Qed.

(** ** The answers of [Get] *)

(** What a finished [Get] may answer: an object of this node by its size, an
    object of another node by its bytes, with its size when it was kept. *)
Definition answer_ok (s : server) (req : GetRequest) (r : reply GetResponse) : Prop :=
  let u := ge_Uid req in
  match r with
  | (Some x, None) =>
      if gr_Local x then gr_Size x = N.of_nat (length (D u)) ∧ is_Some (objectSizes s !! u)
      else ge_Copy req = true → gr_ObjectBytes x = D u ∧ D u ≠ [] ∧
             (ge_Cache req = true →
              gr_Size x = N.of_nat (length (D u)) ∧ is_Some (objectSizes s !! u))
  | _ => True
  end.

Definition copies_right (CopyFrom : string → CopyRequest → reply CopyResponse) : Prop :=
  ∀ address copy x, CopyFrom address copy = (Some x, None) →
    cp_ObjectBytes x = D (cr_Uid copy) ∧ D (cr_Uid copy) ≠ [].

(** The notifications a store sends are about itself and what it has recorded. *)
Definition announces (s : server) (calls : list lobs_call) : Prop :=
  ∀ nreq, CallNotifyOwns nreq ∈ calls →
    no_NodeId nreq = localNodeID s ∧ is_Some (objectSizes s !! no_Uid nreq).

Lemma announces_nil s : announces s [].
Proof. by intros ? ?%not_elem_of_nil. Qed.

(** A store keeps its identity and what it recorded. *)
Definition grows (s s' : server) : Prop :=
  localNodeID s' = localNodeID s ∧
  ∀ u, is_Some (objectSizes s !! u) → is_Some (objectSizes s' !! u).

#[export] Instance grows_preorder : PreOrder grows.
Proof.
  split; [by split|]. intros s1 s2 s3 [I1 S1] [I2 S2].
  split; [congruence|]. intros u Hu. auto.
Qed.

Lemma keep_grows e fs s u data : grows s (keep e fs s u data).1.2.
Proof.
  split; [|intros v; apply keep_sizes].
  unfold keep. by destruct (createSharedMemory _ _ _ _) as [? []].
Qed.

Lemma Store_grows e fs s req : grows s (Store e fs s req).1.1.2.
Proof. rewrite Store_keep. apply keep_grows. Qed.

Lemma Store_announces e fs s req : announces (Store e fs s req).1.1.2 (Store e fs s req).1.2.
Proof.
  unfold Store. destruct (keep _ _ _ _ _) as [[fs' s'] [err|]] eqn:E; simpl; [apply announces_nil|].
  apply keep_ok in E as [(_ & Hs & _) ->].
  intros nreq Hin%list_elem_of_singleton. injection Hin as ->. by eexists.
Qed.

Lemma answer_ok_grows s s' req r : grows s s' → answer_ok s req r → answer_ok s' req r.
Proof.
  intros [_ Hg]. unfold answer_ok. destruct r as [[x|] [err|]]; try done.
  destruct (gr_Local x); [naive_solver|]. intros H Hc. destruct (H Hc) as (? & ? & Hs).
  split_and!; [done..|]. intros Hca. destruct (Hs Hca). auto.
Qed.

Lemma Get_received_ok cfg Dial CopyFrom e fs s req resp fs' s' calls r :
  Get_received cfg Dial CopyFrom e fs s req resp = (fs', s', calls, r) →
  contents fs s → copies_right CopyFrom → lf_Uid resp = ge_Uid req →
  contents fs' s' ∧ answer_ok s' req r ∧ announces s' calls ∧ grows s s'.
Proof.
  intros E Hc Hcp Hu.
  assert (Hstop : ∀ calls r, (fs, s, calls, r) = (fs', s', calls, r) → answer_ok s req r →
    announces s calls → contents fs' s' ∧ answer_ok s' req r ∧ announces s' calls ∧ grows s s')
    by (by intros ? ? [= <- <-]).
  assert (Hcopy : ∀ a c, announces s [CallCopy a c])
    by (by intros a c nreq Hin%list_elem_of_singleton).
  unfold Get_received in E. destruct (ge_Copy req) eqn:Hcopyf; simpl in E.
  2: { injection E as <- <- <- <-. apply Hstop; [done|by cbn; rewrite Hcopyf|apply announces_nil]. }
  destruct (Dial _) as [err|]; [injection E as <- <- <- <-; by apply Hstop; [|
    |apply announces_nil]|].
  destruct (CopyFrom _ _) as [[x|] [err|]] eqn:Ecp;
    try (injection E as <- <- <- <-; by apply Hstop; [| |apply Hcopy]).
  apply Hcp in Ecp as [Hx Hd]. cbn [cr_Uid] in Hx, Hd. rewrite Hu in Hx, Hd, E.
  destruct (ge_Cache req) eqn:Hca.
  2: { injection E as <- <- <- <-. apply Hstop; [done| |apply Hcopy]. cbn. rewrite Hca. done. }
  rewrite Hx in E. pose proof (contents_keep e fs s (ge_Uid req) Hd Hc) as Hc'.
  pose proof (keep_grows e fs s (ge_Uid req) (D (ge_Uid req))) as Hg.
  destruct (keep _ _ _ _ _) as [[fsk sk] [err|]] eqn:Ek; injection E as <- <- <- <-; simpl in Hc', Hg.
  { split_and!; try done. intros nreq Hin%list_elem_of_singleton. done. }
  apply keep_ok in Ek as [(_ & Hs & _) ->]. split_and!; [done| | |done].
  - cbn. intros _. by split_and!; [..|intros _; split; [|eexists]].
  - intros nreq Hin. apply elem_of_cons in Hin as [Hin|Hin]; [done|].
    destruct (decide _); [|by apply not_elem_of_nil in Hin].
    apply list_elem_of_singleton in Hin. injection Hin as ->. cbn. by split; [|eexists].
Qed.
End Contents.

(** ** The machine *)

(** What is known where a call of [Get] or [LocationFound] stands: [own] tells
    whose object a channel was made for, [Q] holds of the callbacks. *)
Section Machine.
Context (D : N → bytes) (Q : LocationFoundCallback → Prop).

Definition get_ok (own : nat → N) (n : nat) (s : server) (req : GetRequest) (p : get_pc) : Prop :=
  match p with
  | GetReceiving (Some c) => own c = ge_Uid req ∧ c < n
  | GetReceived resp => Q resp ∧ lf_Uid resp = ge_Uid req
  | GetDone r => answer_ok D s req r
  | _ => True
  end.

Definition found_ok (own : nat → N) (n : nat) (resp : LocationFoundCallback) (p : found_pc) : Prop :=
  Q resp ∧ match p with FoundSending (Some c) => own c = lf_Uid resp ∧ c < n | _ => True end.

Record data_inv (own : nat → N) (st : lstate) : Prop := {
  di_contents : contents D (l_fs st) (l_server st);
  di_chans u c : localObjectChannels (l_server st) !! u = Some c → own c = u ∧ c < next_chan st;
  di_gets : Forall (λ x, get_ok own (next_chan st) (l_server st) x.1 x.2) (gets st);
  di_founds : Forall (λ x, found_ok own (next_chan st) x.1 x.2) (founds st)
}.

(** The labels the invariant allows. *)
Definition label_ok (l : llabel) : Prop :=
  match l with
  | CallLocationFound resp => Q resp
  | CallStore _ req => so_ObjectBytes req = D (so_Uid req) ∧ D (so_Uid req) ≠ []
  | StepGet _ env => copies_right D (env_Copy env)
  | _ => True
  end.

(** Channels made later and objects recorded later change nothing. *)
Definition agree (n : nat) (own own' : nat → N) : Prop := ∀ c, c < n → own' c = own c.

Lemma get_ok_later own own' n n' s s' req p :
  agree n own own' → n ≤ n' → grows s s' → get_ok own n s req p → get_ok own' n' s' req p.
Proof.
  intros Ha Hn Hg. destruct p as [| | | |[c|]|resp|r]; try done; simpl.
  - intros [<- Hc]. rewrite Ha by done. split; [done|lia].
  - by apply answer_ok_grows.
Qed.

Lemma found_ok_later own own' n n' resp p :
  agree n own own' → n ≤ n' → found_ok own n resp p → found_ok own' n' resp p.
Proof.
  intros Ha Hn [HQ Hp]. split; [done|]. destruct p as [|[c|]|]; try done.
  destruct Hp as [<- Hc]. rewrite Ha by done. split; [done|lia].
Qed.

(** A step that changes one call of [Get]. *)
Lemma data_inv_get own own' st st' i req p :
  data_inv own st → agree (next_chan st) own own' → next_chan st ≤ next_chan st' →
  grows (l_server st) (l_server st') → contents D (l_fs st') (l_server st') →
  (∀ u c, localObjectChannels (l_server st') !! u = Some c → own' c = u ∧ c < next_chan st') →
  gets st' = <[i := (req, p)]> (gets st) → get_ok own' (next_chan st') (l_server st') req p →
  founds st' = founds st → data_inv own' st'.
Proof.
  intros [_ _ Hgets Hfounds] Ha Hn Hg Hc Hch Hgs Hp Hfs. constructor; [done|done| |].
  - rewrite Hgs. apply Forall_insert; [|done]. eapply Forall_impl; [exact Hgets|].
    intros [req' p']. by apply get_ok_later.
  - rewrite Hfs. eapply Forall_impl; [exact Hfounds|]. intros [resp p']. by apply found_ok_later.
Qed.

(** The common case: no channel is made. *)
Lemma data_inv_get' own st st' i req p :
  data_inv own st → next_chan st' = next_chan st →
  grows (l_server st) (l_server st') → contents D (l_fs st') (l_server st') →
  localObjectChannels (l_server st') = localObjectChannels (l_server st) →
  gets st' = <[i := (req, p)]> (gets st) → get_ok own (next_chan st) (l_server st') req p →
  founds st' = founds st → data_inv own st'.
Proof.
  intros Hi Hn Hg Hc Hch Hgs Hp Hfs. eapply data_inv_get; try done; rewrite ?Hn; try done.
  rewrite Hch. apply Hi.
Qed.

Lemma StepGet_data own i env st st' calls :
  data_inv own st → copies_right D (env_Copy env) → lexec (StepGet i env) st = Some (st', calls) →
  (∃ own', data_inv own' st') ∧ announces (l_server st') calls ∧ grows (l_server st) (l_server st').
Proof.
  intros Hi Hcp. cbn. destruct (gets st !! i) as [[req p]|] eqn:Hgi; simpl; [|done].
  destruct p as [| | | | |resp|]; simpl; try done.
  - destruct (Get_local _ _) as [x|] eqn:El; intros [= <- <-]; (split; [|split; [apply announces_nil|done]]);
      exists own; (eapply data_inv_get'; try done); [apply Hi| |apply Hi].
    unfold Get_local in El. destruct (objectSizes _ !! _) as [size|] eqn:Hs; [|done].
    injection El as <-. cbn. destruct (di_contents own st Hi (ge_Uid req)) as (_ & Hs' & _); [by eexists|].
    rewrite Hs in Hs'. injection Hs' as ->. by split; [|eexists].
  - intros [= <- <-]. split; [|split; [apply announces_nil|by split]].
    exists (λ c, if decide (c = next_chan st) then ge_Uid req else own c).
    eapply (data_inv_get own); simpl; try done; [..|lia|apply Hi|].
    + intros c Hc. rewrite decide_False by lia. done.
    + intros u c. destruct (decide (u = ge_Uid req)) as [->|Hu].
      * rewrite lookup_insert_eq. intros [= <-]. rewrite decide_True by done. split; [done|lia].
      * rewrite lookup_insert_ne by done. intros Hc. apply (di_chans own st Hi) in Hc as [<- Hc].
        rewrite decide_False by lia. split; [done|lia].
  - intros [= <- <-]. split; [|split; [|done]].
    + exists own. eapply data_inv_get'; try done. apply Hi.
    + by destruct (ge_Testing req); [apply announces_nil|intros ? ?%list_elem_of_singleton].
  - intros [= <- <-]. split; [|split; [apply announces_nil|done]].
    exists own. eapply data_inv_get'; try done; [apply Hi|]. cbn.
    destruct (localObjectChannels _ !! _) as [c|] eqn:Hc; [|done]. by apply (di_chans own st Hi) in Hc.
  - pose proof (Get_received_channels (env_cfg env) (env_Dial env) (env_Copy env) (env_sys env)
      (l_fs st) (l_server st) req resp) as Hch.
    destruct (Get_received _ _ _ _ _ _ _ _) as [[[fs s] c] r] eqn:E. intros [= <- <-].
    pose proof (Forall_lookup_1 _ _ _ _ (di_gets own st Hi) Hgi) as [_ Hu].
    apply (Get_received_ok D) in E as (Hc & Ha & Han & Hg); [|apply Hi|done..].
    split; [|done]. exists own. by eapply data_inv_get'.
Qed.

(** Every step keeps the invariant. *)
Lemma lexec_data own l st st' calls :
  data_inv own st → label_ok l → lexec l st = Some (st', calls) →
  (∃ own', data_inv own' st') ∧ announces (l_server st') calls ∧ grows (l_server st) (l_server st').
Proof.
  intros Hi Hl. destruct l as [req|resp|e req|i env|j|i j].
  4: by eapply StepGet_data.
  1-3: simpl in Hl |- *.
  - intros [= <- <-]. split; [|split; [apply announces_nil|done]]. exists own.
    constructor; try apply Hi. apply Forall_app. split; [apply Hi|by repeat constructor].
  - intros [= <- <-]. split; [|split; [apply announces_nil|done]]. exists own.
    constructor; try apply Hi. apply Forall_app. split; [apply Hi|by repeat constructor].
  - pose proof (Store_channels e (l_fs st) (l_server st) req) as Hch.
    pose proof (Store_grows e (l_fs st) (l_server st) req) as Hg.
    pose proof (Store_announces e (l_fs st) (l_server st) req) as Ha.
    pose proof (contents_Store D e (l_fs st) (l_server st) req) as Hc.
    destruct (Store _ _ _ _) as [[[fs s] c] r]. intros [= <- <-]. simpl in *.
    split; [|done]. exists own. destruct Hi as [Hc' Hch' Hgs Hfs]. 
    constructor; simpl; [naive_solver|by rewrite Hch| |done].
    eapply Forall_impl; [exact Hgs|]. intros [req' p']. by apply get_ok_later.
  - simpl. destruct (founds st !! j) as [[resp p]|] eqn:Hj; simpl; [|done].
    pose proof (Forall_lookup_1 _ _ _ _ (di_founds own st Hi) Hj) as [HQ _].
    destruct p; simpl; try done. intros [= <- <-]. split; [|split; [apply announces_nil|done]].
    exists own. constructor; try apply Hi. apply Forall_insert; [apply Hi|]. split; [done|]. simpl.
    destruct (localObjectChannels _ !! _) as [c|] eqn:Hc; [|done]. by apply (di_chans own st Hi) in Hc.
  - simpl. destruct (gets st !! i) as [[req []]|] eqn:Hgi; try done. destruct c as [c|]; [|done].
    destruct (founds st !! j) as [[resp [|[c'|]|]]|] eqn:Hj; try done.
    destruct (decide (c = c')) as [<-|]; [|done]. intros [= <- <-].
    pose proof (Forall_lookup_1 _ _ _ _ (di_gets own st Hi) Hgi) as [Hu _].
    pose proof (Forall_lookup_1 _ _ _ _ (di_founds own st Hi) Hj) as [HQ [Hu' _]]. simpl in *.
    split; [|split; [apply announces_nil|done]]. exists own.
    constructor; try apply Hi; apply Forall_insert; try apply Hi; (split; [done|]); simpl; congruence.
Qed.

Lemma data_inv_init nodeId : data_inv (λ _, 0%N) (linit nodeId).
Proof.
  constructor; simpl; [|intros u c; by rewrite lookup_empty|constructor..].
  intros u [? Hu]. simpl in Hu. by rewrite lookup_empty in Hu.
Qed.
End Machine.

(** Knowing more of the callbacks. *)
Lemma data_inv_impl D (Q Q' : LocationFoundCallback → Prop) own st :
  (∀ resp, Q resp → Q' resp) → data_inv D Q own st → data_inv D Q' own st.
Proof.
  intros HQ [Hc Hch Hg Hf]. constructor; try done.
  - eapply Forall_impl; [exact Hg|]. intros [req []]; try done. intros [? ?]. split; auto.
  - eapply Forall_impl; [exact Hf|]. intros [resp p] [? ?]. split; auto.
Qed.
