(* ===== verification/MemSql.v ===== *)
(** * An in-memory database

    A concrete driver for which the laws of [Sql] hold: it recognises the
    statements by their text and keeps the rows in a finite set.  It shows
    that the laws can be met together, and the witnesses run the object
    table on it. *)
From S2P Require Import Prelude Sql.

Record memdb := MemDB { mem_rows : gset (N * N); mem_table : bool }.

Definition memtx : Type := memdb * memdb.

Definition mem_max_vars : nat := N.to_nat 32766.

Fixpoint unflatten (args : list N) : option (list (N * N)) :=
  match args with
  | [] => Some []
  | u :: n :: args' => cons (u, n) <$> unflatten args'
  | _ => None
  end.

Definition mem_storable (args : list N) : bool :=
  bool_decide (length args ≤ mem_max_vars) && forallb (λ n, n <? two63)%N args.

Definition sql_error : goerror := PlainError "SQL logic error".
Definition constraint_error : goerror :=
  PlainError "UNIQUE constraint failed: object_locations.object_uid, object_locations.node_id".
Definition highbit_error : goerror :=
  PlainError "uint64 values with high bit set are not supported".

Definition mem_insert (T : gset (N * N)) (rows : list (N * N)) : option (gset (N * N)) :=
  if decide (NoDup rows ∧ Forall (λ r, r ∉ T) rows)
  then Some (T ∪ list_to_set rows) else None.

Definition mem_tx_exec (t : memtx) (sql : string) (args : list N)
    : memtx * option goerror :=
  if negb (mem_storable args) then (t, Some highbit_error)
  else if negb (mem_table t.2) then (t, Some sql_error)
  else if decide (sql = delete_stmt (length args)) then
    ((t.1, MemDB (filter (λ r, r.1 ∉ args) (mem_rows t.2)) true), None)
  else match unflatten args with
  | Some (r :: rows) =>
      if decide (sql = insert_stmt (length (r :: rows))) then
        match mem_insert (mem_rows t.2) (r :: rows) with
        | Some T => ((t.1, MemDB T true), None)
        | None => (t, Some constraint_error)
        end
      else (t, Some sql_error)
  | _ => (t, Some sql_error)
  end.

Definition mem_query (d : memdb) (sql : string) (args : list N)
    : result (list (result N) * option goerror) :=
  match args with
  | [u] =>
      if negb (mem_storable args) then Err highbit_error
      else if decide (sql = select_stmt ∧ mem_table d = true) then
        Ok (Ok <$> (filter (λ r, r.1 = u) (elements (mem_rows d))).*2, None)
      else Err sql_error
  | _ => Err sql_error
  end.

Definition mem_ddl (d : memdb) (sql : string) : memdb * option goerror :=
  if decide (sql = table_stmt) then (MemDB (mem_rows d) true, None)
  else if decide (sql = index_stmt) then
    if mem_table d then (d, None) else (d, Some sql_error)
  else (d, Some sql_error).

#[export] Instance mem_driver : SqlDriver memdb memtx string := {
  db_exec d _ _ := (d, None);
  db_prepare _ sql := Ok sql;
  stmt_exec := mem_ddl;
  db_begin d := Ok (d, d);
  tx_exec := mem_tx_exec;
  tx_rollback t := t.1;
  tx_commit t := (t.2, None);
  db_query := mem_query
}.

Lemma unflatten_flatten rows : unflatten (flatten rows) = Some rows.
Proof.
  induction rows as [|[u n] rows IH]; [done|].
  change (cons (u, n) <$> unflatten (flatten rows) = Some ((u, n) :: rows)).
  by rewrite IH.
Qed.

Lemma length_flatten rows : length (flatten rows) = (2 * length rows)%nat.
Proof.
  induction rows as [|r rows IH]; [done|].
  change (S (S (length (flatten rows))) = 2 * S (length rows)). lia.
Qed.

Lemma insert_not_delete n k : insert_stmt n ≠ delete_stmt k.
Proof. discriminate. Qed.

Lemma mem_storable_true args :
  mem_storable args = true ↔ length args ≤ mem_max_vars ∧ Forall storable args.
Proof.
  unfold mem_storable. rewrite andb_true_iff, bool_decide_eq_true, forallb_forall.
  rewrite Forall_forall. setoid_rewrite list_elem_of_In.
  unfold storable. by setoid_rewrite N.ltb_lt.
Qed.

Lemma flatten_storable rows :
  Forall (λ r, storable r.1 ∧ storable r.2) rows → Forall storable (flatten rows).
Proof.
  induction 1 as [|r rows [] _ IH]; [by constructor|].
  by repeat (constructor; [done|]).
Qed.

Lemma mem_insert_Some T rows :
  rows ≠ [] → insertable T rows → mem_insert T rows = Some (T ∪ list_to_set rows).
Proof.
  intros _ (_ & Hnd & Hf). unfold mem_insert.
  rewrite decide_True; [done|]. by rewrite Forall_forall.
Qed.

Lemma mem_insert_inv T rows T' :
  rows ≠ [] → mem_insert T rows = Some T' →
  insertable T rows ∧ T' = T ∪ list_to_set rows.
Proof.
  unfold mem_insert. intros Hne. case_decide as Hd; [|done]. intros [= <-].
  destruct Hd as [? Hf]. rewrite Forall_forall in Hf. done.
Qed.

Lemma mem_exec_delete t args :
  mem_storable args = true → mem_table t.2 = true →
  mem_tx_exec t (delete_stmt (length args)) args =
    ((t.1, MemDB (filter (λ r, r.1 ∉ args) (mem_rows t.2)) true), None).
Proof. intros Hs Ht. unfold mem_tx_exec. by rewrite Hs, Ht, decide_True. Qed.

Lemma mem_exec_insert t rows :
  rows ≠ [] → mem_storable (flatten rows) = true → mem_table t.2 = true →
  mem_tx_exec t (insert_stmt (length rows)) (flatten rows) =
    match mem_insert (mem_rows t.2) rows with
    | Some T => ((t.1, MemDB T true), None)
    | None => (t, Some constraint_error)
    end.
Proof.
  intros Hne Hs Ht. unfold mem_tx_exec.
  rewrite Hs, Ht, decide_False by apply insert_not_delete.
  rewrite unflatten_flatten. destruct rows as [|r rows]; [done|].
  by rewrite decide_True.
Qed.

Lemma mem_exec_ok_inv t s args t' :
  mem_tx_exec t s args = (t', None) →
  mem_storable args = true ∧ mem_table t.2 = true.
Proof. unfold mem_tx_exec. by destruct (mem_storable args), (mem_table t.2). Qed.

Lemma mem_exec_base t s args : (mem_tx_exec t s args).1.1 = t.1.
Proof. unfold mem_tx_exec. by repeat case_match. Qed.

Lemma mem_exec_table t s args :
  mem_table t.2 = true → mem_table (mem_tx_exec t s args).1.2 = true.
Proof. intros Ht. unfold mem_tx_exec. rewrite Ht. by repeat (case_match; simpl). Qed.

#[export] Program Instance mem_laws : SqlLaws memdb memtx string := {|
  tbl := mem_rows; ttbl t := mem_rows t.2; tbase t := mem_rows t.1
|}.
Next Obligation. by intros d t [= <-]. Qed.
Next Obligation. intros. simpl. by rewrite mem_exec_base. Qed.
Next Obligation.
  intros t t' args H. pose proof (mem_exec_ok_inv _ _ _ _ H) as [Hs Ht].
  simpl in H. rewrite mem_exec_delete in H by done. by injection H as <-.
Qed.
Next Obligation.
  intros t t' rows H. pose proof (mem_exec_ok_inv _ _ _ _ H) as [Hs Ht].
  simpl in H. destruct (decide (rows = [])) as [->|Hne].
  { unfold mem_tx_exec in H. simpl in H. rewrite Ht in H. discriminate. }
  rewrite mem_exec_insert in H by done.
  destruct (mem_insert _ rows) as [T|] eqn:E; [|done].
  injection H as <-. by apply mem_insert_inv in E.
Qed.
Next Obligation. done. Qed.
Next Obligation. by intros t d [= <-]. Qed.
Next Obligation. done. Qed.
Next Obligation.
  intros d u ns H. simpl in H. unfold mem_query in H.
  repeat case_match; try done. injection H as H.
  apply (inj (fmap Ok)) in H as <-. split.
  - apply NoDup_fmap_2_strong; [|apply NoDup_filter, NoDup_elements].
    intros [x1 y1] [x2 y2] [Hx _]%list_elem_of_filter [Hy _]%list_elem_of_filter.
    simpl in *. by intros ->; subst.
  - intros n. rewrite list_elem_of_fmap. split.
    + intros ([x y] & -> & [Hx Hin]%list_elem_of_filter). simpl in *; subst.
      by apply elem_of_elements.
    + intros Hin. exists (u, n). split; [done|].
      apply list_elem_of_filter. by rewrite elem_of_elements.
Qed.

#[export] Program Instance mem_healthy : SqlHealthy memdb memtx string := {|
  online _ := True; healthy d := mem_table d = true;
  thealthy t := mem_table t.1 = true ∧ mem_table t.2 = true;
  max_vars := mem_max_vars
|}.
Next Obligation. intros d Hd. by exists (d, d). Qed.
Next Obligation.
  intros t args [H1 H2] Hl Hs. eexists. simpl. split.
  - apply mem_exec_delete; [by apply mem_storable_true|done].
  - done.
Qed.
Next Obligation.
  intros t rows [H1 H2] Hl Hs Hi. pose proof Hi as [Hne _]. simpl.
  rewrite mem_exec_insert; [|done| |done].
  - rewrite mem_insert_Some by done. by eexists.
  - apply mem_storable_true. rewrite length_flatten. by auto using flatten_storable.
Qed.
Next Obligation.
  intros t s args [H1 H2]. simpl. rewrite mem_exec_base. auto using mem_exec_table.
Qed.
Next Obligation. by intros t []. Qed.
Next Obligation. intros t []. by exists t.2. Qed.
Next Obligation.
  intros d u Hd Hu. simpl. unfold mem_query.
  assert (mem_storable [u] = true) as ->.
  { apply mem_storable_true. split; [simpl; unfold mem_max_vars; lia|].
    by repeat constructor. }
  rewrite decide_True by done. by eexists.
Qed.
Next Obligation. intros d _. by exists table_stmt, (MemDB (mem_rows d) true). Qed.
Next Obligation.
  intros d Hd. exists index_stmt, d. simpl. unfold mem_ddl.
  rewrite decide_False by done. rewrite decide_True by done. by rewrite Hd.
Qed.

Definition mem_empty : memdb := MemDB ∅ true.
