(* ===== verification/GcsDb.v ===== *)
(** * Persistence of the object table

    [go/cmd/gcsobjtable/db.go]: the set-up statements, the transaction that
    overwrites the stored locations of every uid in memory, and the query
    that reads them back.  The database is the interface of [Sql]. *)
From S2P Require Import Prelude Sql MemSql.

Section Db.
Context {DB TX STMT : Type} `{!SqlDriver DB TX STMT}.

Definition setCacheSizeToZero (db : DB) : DB * option goerror :=
  db_exec db "PRAGMA cache_size = 0;" [].

Definition createTableSQL : string :=
  "CREATE TABLE IF NOT EXISTS object_locations (
        " +:+ dq +:+ "object_uid" +:+ dq +:+ " INTEGER NOT NULL,
        " +:+ dq +:+ "node_id" +:+ dq +:+ " INTEGER NOT NULL,
        PRIMARY KEY (object_uid, node_id)
    );".

Definition createIndexSQL : string :=
  "CREATE INDEX IF NOT EXISTS idx_object_uid_object_locations ON object_locations (object_uid);".

(** [db.Prepare] and [statement.Exec], with the early return on an error. *)
Definition prepare_exec (db : DB) (sql : string) : DB * option goerror :=
  match db_prepare db sql with
  | Err e => (db, Some e)
  | Ok statement => stmt_exec db statement
  end.

Definition createObjectLocationsTable (db : DB) : DB * option goerror :=
  match prepare_exec db createTableSQL with
  | (db, Some e) => (db, Some e)
  | (db, None) => prepare_exec db createIndexSQL
  end.

(** The loop over [objectLocations] that collects one placeholder and one
    argument per uid. *)
Definition delete_loop (entries : list (N * list N)) : list string * list N :=
  foldl (λ acc e, (acc.1 ++ ["?"], acc.2 ++ [e.1])) ([], []) entries.

(** The nested loop that collects one ["(?, ?)"] and two arguments per
    location. *)
Definition insert_loop (entries : list (N * list N)) : list string * list N :=
  foldl (λ acc e,
    foldl (λ acc nodeID, (acc.1 ++ ["(?, ?)"], acc.2 ++ [e.1; nodeID])) acc e.2)
    ([], []) entries.

(** The map is ranged over twice; [o1] and [o2] are the two orders. *)
Definition insertOrUpdateObjectLocations (o1 o2 : order) (db : DB)
    (objectLocations : gmap N (list N)) : DB * option goerror :=
  match db_begin db with
  | Err e => (db, Some e)
  | Ok tx =>
      let '(objectUIDs, deleteArgs) := delete_loop (range o1 objectLocations) in
      let deleteSQL :=
        "DELETE FROM object_locations WHERE object_uid IN ("
          +:+ Join objectUIDs "," +:+ ");" in
      let insertSQL :=
        "INSERT INTO object_locations (object_uid, node_id) VALUES " in
      let '(valueStrings, valueArgs) := insert_loop (range o2 objectLocations) in
      let insertSQL := insertSQL +:+ Join valueStrings "," in
      match tx_exec tx deleteSQL deleteArgs with
      | (tx, Some e) => (tx_rollback tx, Some e)
      | (tx, None) =>
          match tx_exec tx insertSQL valueArgs with
          | (tx, Some e) => (tx_rollback tx, Some e)
          | (tx, None) => tx_commit tx
          end
      end
  end.

(** [for rows.Next()]: a row that does not scan ends the loop. *)
Fixpoint scan_rows (rows : list (result N)) (nodeIDs : list N) : result (list N) :=
  match rows with
  | [] => Ok nodeIDs
  | Err e :: _ => Err e
  | Ok nodeID :: rows => scan_rows rows (nodeIDs ++ [nodeID])
  end.

Definition getObjectLocations (db : DB) (objectUID : uint64) : result (list N) :=
  match db_query db "SELECT node_id FROM object_locations WHERE object_uid = ?;"
          [objectUID] with
  | Err e => Err e
  | Ok (rows, rows_err) =>
      nodeIDs ← scan_rows rows [];
      match rows_err with
      | Some e => Err e
      | None => Ok nodeIDs
      end
  end.
End Db.

(** ** The rows a map of locations stands for *)

Definition rows_of (entries : list (N * list N)) : list (N * N) :=
  entries ≫= λ e, pair e.1 <$> e.2.

Definition rows_set (m : gmap N (list N)) : gset (N * N) :=
  list_to_set (rows_of (map_to_list m)).

(** What the database should hold after [m] was flushed onto [T]: the rows of
    [m] for the uids of [m], the old rows for the others. *)
Definition overwrite (m : gmap N (list N)) (T : gset (N * N)) : gset (N * N) :=
  filter (λ r, m !! r.1 = None) T ∪ rows_set m.

(** The number of statement parameters and the integers are within what the
    database accepts. *)
Definition within_limits (limit : nat) (m : gmap N (list N)) : Prop :=
  size m ≤ limit ∧ 2 * length (rows_of (map_to_list m)) ≤ limit ∧
  (∀ u ns, m !! u = Some ns → storable u ∧ Forall storable ns).

(** ** The loops *)

Lemma delete_loop_eq entries :
  delete_loop entries = (replicate (length entries) "?", entries.*1).
Proof.
  unfold delete_loop.
  assert (H : ∀ ss as_, foldl (λ acc (e : N * list N), (acc.1 ++ ["?"], acc.2 ++ [e.1]))
            (ss, as_) entries
          = (ss ++ replicate (length entries) "?", as_ ++ entries.*1)).
  { induction entries as [|e l IH]; intros; simpl; [by rewrite !app_nil_r|].
    by rewrite IH, <-!app_assoc. }
  apply H.
Qed.

Lemma insert_loop_eq entries :
  insert_loop entries =
    (replicate (length (rows_of entries)) "(?, ?)", flatten (rows_of entries)).
Proof.
  assert (Hin : ∀ (u : N) ns ss as_,
    foldl (λ acc nodeID, (acc.1 ++ ["(?, ?)"], acc.2 ++ [u; nodeID])) (ss, as_) ns
    = (ss ++ replicate (length ns) "(?, ?)", as_ ++ flatten (pair u <$> ns))).
  { intros u ns. induction ns as [|n ns IH]; intros; simpl; [by rewrite !app_nil_r|].
    by rewrite IH, <-!app_assoc. }
  unfold insert_loop.
  assert (H : ∀ ss as_, foldl (λ acc e,
      foldl (λ acc nodeID, (acc.1 ++ ["(?, ?)"], acc.2 ++ [e.1; nodeID])) acc e.2)
      (ss, as_) entries
    = (ss ++ replicate (length (rows_of entries)) "(?, ?)",
       as_ ++ flatten (rows_of entries))).
  { induction entries as [|[u ns] l IH]; intros; simpl; [by rewrite !app_nil_r|].
    rewrite Hin, IH. unfold rows_of, flatten. simpl.
    rewrite length_app, length_fmap, replicate_add, bind_app.
    by rewrite !app_assoc. }
  apply H.
Qed.

Lemma elem_of_rows_of entries u n :
  (u, n) ∈ rows_of entries ↔ ∃ ns, (u, ns) ∈ entries ∧ n ∈ ns.
Proof.
  unfold rows_of. rewrite list_elem_of_bind. split.
  - intros ([u' ns] & (n' & [= -> ->] & Hn)%list_elem_of_fmap & He). eauto.
  - intros (ns & He & Hn). exists (u, ns). split; [|done].
    apply list_elem_of_fmap. eauto.
Qed.

Lemma elem_of_rows_set m u n :
  (u, n) ∈ rows_set m ↔ ∃ ns, m !! u = Some ns ∧ n ∈ ns.
Proof.
  unfold rows_set. rewrite elem_of_list_to_set, elem_of_rows_of.
  by setoid_rewrite elem_of_map_to_list.
Qed.

#[export] Instance rows_of_perm : Proper ((≡ₚ) ==> (≡ₚ)) rows_of.
Proof. intros l1 l2 H. unfold rows_of. by rewrite H. Qed.

Lemma rows_of_range o m : rows_of (range o m) ≡ₚ rows_of (map_to_list m).
Proof. by rewrite range_perm. Qed.

Lemma NoDup_rows_of entries :
  NoDup entries.*1 →
  NoDup (rows_of entries) ↔ (∀ u ns, (u, ns) ∈ entries → NoDup ns).
Proof.
  induction entries as [|[u ns] l IH]; simpl; intros Hnd.
  { split; [set_solver|by constructor]. }
  apply NoDup_cons in Hnd as [Hu Hnd]. specialize (IH Hnd).
  change (rows_of ((u, ns) :: l)) with ((pair u <$> ns) ++ rows_of l).
  rewrite NoDup_app, IH. split.
  - intros (H1 & _ & H2) u' ns' [[= -> ->]|Hin]%elem_of_cons; [|eauto].
    by apply NoDup_fmap_1 in H1.
  - intros H. split_and!.
    + apply NoDup_fmap; [|set_solver]. by intros ?? [=].
    + intros [u' n] (n' & [= -> ->] & _)%list_elem_of_fmap (ns' & He & _)%elem_of_rows_of.
      apply Hu, list_elem_of_fmap. by eexists (_, _).
    + set_solver.
Qed.

Lemma rows_set_empty_entry m u : m !! u = None → ∀ n, (u, n) ∉ rows_set m.
Proof. intros Hu n (ns & ? & _)%elem_of_rows_set. congruence. Qed.

(** ** The flush transaction *)

Section DbFacts.
Context {DB TX STMT : Type} `{SqlLaws DB TX STMT}.
Implicit Types (d : DB) (m : gmap N (list N)) (o : order).

(** The transaction in terms of the interface's statements. *)
Lemma insertOrUpdate_unfold o1 o2 d m :
  insertOrUpdateObjectLocations o1 o2 d m =
    match db_begin d with
    | Err e => (d, Some e)
    | Ok t =>
        match tx_exec t (delete_stmt (length (range_keys o1 m))) (range_keys o1 m) with
        | (t, Some e) => (tx_rollback t, Some e)
        | (t, None) =>
            match tx_exec t (insert_stmt (length (rows_of (range o2 m))))
                    (flatten (rows_of (range o2 m))) with
            | (t, Some e) => (tx_rollback t, Some e)
            | (t, None) => tx_commit t
            end
        end
    end.
Proof.
  unfold insertOrUpdateObjectLocations.
  destruct (db_begin d) as [t|]; [|done].
  rewrite delete_loop_eq, insert_loop_eq. unfold range_keys, delete_stmt.
  by rewrite length_fmap.
Qed.

Lemma deleted_rows o m (T : gset (N * N)) :
  filter (λ r, r.1 ∉ range_keys o m) T = filter (λ r, m !! r.1 = None) T.
Proof.
  apply set_eq. intros r. rewrite !elem_of_filter.
  by rewrite elem_of_range_keys, <-eq_None_not_Some.
Qed.

Lemma range_rows_set o m : list_to_set (rows_of (range o m)) = rows_set m.
Proof.
  apply set_eq. intros r. unfold rows_set.
  by rewrite !elem_of_list_to_set, rows_of_range.
Qed.

Lemma insertOrUpdate_commit o1 o2 d m d' :
  insertOrUpdateObjectLocations o1 o2 d m = (d', None) →
  tbl d' = overwrite m (tbl d) ∧
  insertable (filter (λ r, m !! r.1 = None) (tbl d)) (rows_of (range o2 m)).
Proof.
  rewrite insertOrUpdate_unfold.
  destruct (db_begin d) as [t|] eqn:Hb; [|done].
  apply begin_tbl in Hb as [Htbl Hbase].
  destruct (tx_exec t _ _) as [t1 [e|]] eqn:Hd; [done|].
  apply delete_tbl in Hd. rewrite deleted_rows, Htbl in Hd.
  destruct (tx_exec t1 _ _) as [t2 [e|]] eqn:Hi; [done|].
  apply insert_tbl in Hi as [Hins Hi]. intros Hc%commit_tbl.
  rewrite Hd in Hins. split; [|done].
  by rewrite Hc, Hi, Hd, range_rows_set.
Qed.

Lemma insertOrUpdate_abort o1 o2 d m d' e :
  insertOrUpdateObjectLocations o1 o2 d m = (d', Some e) → tbl d' = tbl d.
Proof.
  rewrite insertOrUpdate_unfold.
  destruct (db_begin d) as [t|] eqn:Hb; [|by intros [= <- <-]].
  apply begin_tbl in Hb as [_ Hbase].
  destruct (tx_exec t _ _) as [t1 [e1|]] eqn:Hd.
  - intros [= <- <-]. rewrite rollback_tbl. change t1 with (t1, Some e1).1.
    by rewrite <-Hd, exec_base.
  - assert (Hb1 : tbase t1 = tbl d).
    { change t1 with (t1, None (A:=goerror)).1. by rewrite <-Hd, exec_base. }
    destruct (tx_exec t1 _ _) as [t2 [e2|]] eqn:Hi.
    + intros [= <- <-]. rewrite rollback_tbl. change t2 with (t2, Some e2).1.
      by rewrite <-Hi, exec_base.
    + intros Hc%commit_err_tbl. rewrite Hc. change t2 with (t2, None (A:=goerror)).1.
      by rewrite <-Hi, exec_base.
Qed.

Lemma scan_rows_ok rows acc ns :
  scan_rows rows acc = Ok ns → ∃ ms, rows = Ok <$> ms ∧ ns = acc ++ ms.
Proof.
  revert acc. induction rows as [|[n|e] rows IH]; simpl; intros acc Hs.
  - exists []. injection Hs as ->. by rewrite app_nil_r.
  - apply IH in Hs as (ms & -> & ->). exists (n :: ms). by rewrite <-app_assoc.
  - done.
Qed.

Lemma scan_rows_fmap ms acc : scan_rows (Ok <$> ms) acc = Ok (acc ++ ms).
Proof.
  revert acc. induction ms as [|n ms IH]; intros acc; simpl.
  - by rewrite app_nil_r.
  - by rewrite IH, <-app_assoc.
Qed.

Lemma getObjectLocations_ok d u ns :
  getObjectLocations d u = Ok ns → NoDup ns ∧ ∀ n, n ∈ ns ↔ (u, n) ∈ tbl d.
Proof.
  unfold getObjectLocations. destruct (db_query d _ _) as [[rows err]|] eqn:Hq; [|done].
  simpl. destruct (scan_rows rows []) as [ms|] eqn:Hs; simpl; [|done].
  destruct err; [done|]. intros [= <-].
  apply scan_rows_ok in Hs as (ms' & -> & ->). by apply query_tbl in Hq.
Qed.

(** Reading back, with nothing stored for the uid. *)
Lemma getObjectLocations_none d u ns :
  getObjectLocations d u = Ok ns → (∀ n, (u, n) ∉ tbl d) → ns = [].
Proof.
  intros [_ Hns]%getObjectLocations_ok Hnone.
  destruct ns as [|n ns]; [done|]. exfalso. apply (Hnone n), Hns. set_solver.
Qed.

Context `{!SqlHealthy DB TX STMT}.

Lemma getObjectLocations_healthy d u :
  healthy d → storable u → ∃ ns, getObjectLocations d u = Ok ns.
Proof.
  intros Hd Hu. destruct (healthy_query d u Hd Hu) as [ns Hq].
  exists ns. unfold getObjectLocations. unfold select_stmt in Hq. rewrite Hq. simpl.
  by rewrite scan_rows_fmap.
Qed.

Lemma insertable_range o2 m (T : gset (N * N)) :
  insertable (filter (λ r, m !! r.1 = None) T) (rows_of (range o2 m)) ↔
  rows_set m ≠ ∅ ∧ ∀ u ns, m !! u = Some ns → NoDup ns.
Proof.
  unfold insertable. rewrite NoDup_rows_of by apply NoDup_range_keys.
  setoid_rewrite elem_of_range.
  assert (Hempty : rows_of (range o2 m) = [] ↔ rows_set m = ∅).
  { rewrite <-(range_rows_set o2). split; [by intros ->|].
    destruct (rows_of _); set_solver. }
  rewrite Hempty. split; [naive_solver|].
  intros (? & ?). split_and!; [done..|].
  intros [u n] (ns & Hns%elem_of_range & _)%elem_of_rows_of [Hn _]%elem_of_filter.
  simpl in Hn. congruence.
Qed.

Lemma flush_args_storable o1 o2 m :
  within_limits max_vars m →
  length (range_keys o1 m) ≤ max_vars ∧ Forall storable (range_keys o1 m) ∧
  2 * length (rows_of (range o2 m)) ≤ max_vars ∧
  Forall (λ r, storable r.1 ∧ storable r.2) (rows_of (range o2 m)).
Proof.
  intros (Hs & Hl & Hst). split_and!.
  - unfold range_keys. by rewrite length_fmap, range_perm, length_map_to_list.
  - apply Forall_forall. intros u [ns Hu]%elem_of_range_keys. by edestruct Hst.
  - by rewrite rows_of_range.
  - apply Forall_forall. intros [u n] (ns & Hns%elem_of_range & Hn)%elem_of_rows_of.
    destruct (Hst _ _ Hns) as [? Hall]. rewrite Forall_forall in Hall. simpl; auto.
Qed.

(** With a working database the flush fails exactly on the two kinds of
    maps SQLite refuses. *)
Lemma insertOrUpdate_healthy o1 o2 d m :
  healthy d → within_limits max_vars m →
  healthy (insertOrUpdateObjectLocations o1 o2 d m).1 ∧
  ((insertOrUpdateObjectLocations o1 o2 d m).2 = None ↔
   rows_set m ≠ ∅ ∧ ∀ u ns, m !! u = Some ns → NoDup ns).
Proof.
  intros Hd Hlim. rewrite <-(insertable_range o2 m (tbl d)).
  destruct (flush_args_storable o1 o2 m Hlim) as (L1 & L2 & L3 & L4).
  destruct (insertOrUpdateObjectLocations o1 o2 d m) as [d' err] eqn:E.
  assert (Hback : err = None → insertable
            (filter (λ r, m !! r.1 = None) (tbl d)) (rows_of (range o2 m))).
  { intros ->. by apply insertOrUpdate_commit in E as [_ ?]. }
  rewrite insertOrUpdate_unfold in E. simpl.
  destruct (healthy_begin d Hd) as (t & Hb & Ht). rewrite Hb in E.
  apply begin_tbl in Hb as [Htbl _].
  destruct (healthy_delete t _ Ht L1 L2) as (t1 & Hdel & Ht1). rewrite Hdel in E.
  apply delete_tbl in Hdel. rewrite deleted_rows, Htbl in Hdel.
  rewrite <-Hdel in Hback |- *.
  destruct (decide (err = None)) as [->|Hne].
  - split; [|by split; auto].
    destruct (tx_exec t1 _ _) as [t2 [e|]] eqn:Hi; [done|].
    assert (Ht2 : thealthy t2).
    { change t2 with (t2, None (A:=goerror)).1. rewrite <-Hi. by apply healthy_exec. }
    destruct (healthy_commit t2 Ht2) as (? & Hc & ?). congruence.
  - assert (Hno : ¬ insertable (ttbl t1) (rows_of (range o2 m))).
    { intros Hins. destruct (healthy_insert t1 _ Ht1 L3 L4 Hins) as (t2 & Hi & Ht2).
      rewrite Hi in E. destruct (healthy_commit t2 Ht2) as (? & Hc & ?). congruence. }
    split; [|by split].
    destruct (tx_exec t1 _ _) as [t2 [e|]] eqn:Hi.
    + injection E as <- <-. apply healthy_rollback.
      change t2 with (t2, Some e).1. rewrite <-Hi. by apply healthy_exec.
    + assert (Ht2 : thealthy t2).
      { change t2 with (t2, None (A:=goerror)).1. rewrite <-Hi. by apply healthy_exec. }
      destruct (healthy_commit t2 Ht2) as (? & Hc & ?). congruence.
Qed.
End DbFacts.

(** ** Theorems *)

Section DbTheorems.
Context {DB TX STMT : Type} `{SqlHealthy DB TX STMT}.
Implicit Types (d : DB) (m : gmap N (list N)) (o : order).

(** C23: the flush transaction is atomic, in every iteration order of the
    map: on success the rows of every uid in memory are exactly replaced and
    the rows of the other uids are kept; on any error nothing changed. *)
Theorem flush_transaction_atomic o1 o2 d m d' err :
  insertOrUpdateObjectLocations o1 o2 d m = (d', err) →
  match err with
  | None => tbl d' = overwrite m (tbl d)
  | Some _ => tbl d' = tbl d
  end.
Proof.
  intros E. destruct err; [by eapply insertOrUpdate_abort|].
  by eapply insertOrUpdate_commit.
Qed.

(** What was flushed is read back: a later query of a flushed uid
    returns its nodes, each once, and a query of another uid returns what
    the database held before. *)
Theorem flush_then_query o1 o2 d m d' u ns :
  insertOrUpdateObjectLocations o1 o2 d m = (d', None) →
  getObjectLocations d' u = Ok ns →
  NoDup ns ∧
  ∀ n, n ∈ ns ↔ match m !! u with
                | Some nodes => n ∈ nodes
                | None => (u, n) ∈ tbl d
                end.
Proof.
  intros [Ht _]%insertOrUpdate_commit [Hnd Hns]%getObjectLocations_ok.
  split; [done|]. intros n. rewrite Hns, Ht. unfold overwrite.
  rewrite elem_of_union, elem_of_filter, elem_of_rows_set. simpl.
  destruct (m !! u) eqn:E; naive_solver.
Qed.

(** On a working connection the two set-up statements succeed, create
    the table and keep the rows of an existing one. *)
Theorem createObjectLocationsTable_ok d :
  online d →
  ∃ d', createObjectLocationsTable d = (d', None) ∧ healthy d' ∧ tbl d' = tbl d.
Proof.
  intros Hd. destruct (create_table_ok d Hd) as (s1 & d1 & P1 & E1 & Hh1 & T1).
  destruct (create_index_ok d1 Hh1) as (s2 & d2 & P2 & E2 & Hh2 & T2).
  exists d2. unfold createObjectLocationsTable, prepare_exec.
  change createTableSQL with table_stmt. rewrite P1, E1.
  change createIndexSQL with index_stmt. rewrite P2, E2. by rewrite T2.
Qed.
End DbTheorems.

Lemma flush_transaction_atomic_witness :
  ∃ d', insertOrUpdateObjectLocations order_id order_rev
          (MemDB {[ (1%N, 100%N); (1%N, 101%N); (2%N, 102%N) ]} true)
          {[ 1%N := [100%N; 102%N]; 3%N := [104%N] ]} = (d', None) ∧
        tbl d' = {[ (1%N, 100%N); (1%N, 102%N); (2%N, 102%N); (3%N, 104%N) ]}.
Proof.
  eexists. split; [vm_compute; reflexivity|].
  etrans; [eapply (flush_transaction_atomic order_id order_rev
    (MemDB {[ (1%N, 100%N); (1%N, 101%N); (2%N, 102%N) ]} true)
    {[ 1%N := [100%N; 102%N]; 3%N := [104%N] ]} _ None)|].
  - vm_compute; reflexivity.
  - vm_compute; reflexivity.
Defined.

Lemma flush_then_query_witness :
  ∃ d' ns, insertOrUpdateObjectLocations order_rev order_id mem_empty
             {[ 1%N := [100%N; 102%N]; 3%N := [] ]} = (d', None) ∧
           getObjectLocations d' 1 = Ok ns ∧ NoDup ns.
Proof.
  do 2 eexists. split; [vm_compute; reflexivity|]. split; [vm_compute; reflexivity|].
  eapply (flush_then_query order_rev order_id mem_empty
    {[ 1%N := [100%N; 102%N]; 3%N := [] ]} _ 1); vm_compute; reflexivity.
Defined.

Lemma createObjectLocationsTable_ok_witness :
  ∃ d', createObjectLocationsTable (MemDB {[ (1%N, 2%N) ]} false) = (d', None) ∧
        healthy d' ∧ tbl d' = {[ (1%N, 2%N) ]}.
Proof.
  exact (createObjectLocationsTable_ok (MemDB {[ (1%N, 2%N) ]} false) I).
Defined.
