(* ===== verification/GcsObj.v ===== *)
(** * The GCS object table

    [go/cmd/gcsobjtable/main.go]: where every object lives, who waits for it,
    how large it is, which request creates it and which node is creating it.
    One definition per handler.  A handler that holds [s.mu] is one atomic
    step, and so are here the three that take no lock (see [DataRaces] for what
    overlaps with them); goroutines it spawns are the actions it returns, in spawn order.  The
    module asks for Go 1.22, so a goroutine started in a loop has the loop
    variable of its own round. *)
From S2P Require Import Prelude Float32 Net Messages Config Sql GcsDb.

Record GCSObjServer (DB : Type) := {
  objectLocations : gmap N (list N);        (* object uid -> node ids *)
  waitlist : gmap N (list string);          (* object uid -> client addresses *)
  database : DB;
  ticker : option Z;                        (* flush interval, nanoseconds *)
  objectSizes : gmap N N;
  lineage : gmap N GlobalScheduleRequest;
  liveNodes : gmap N bool;
  generating : gmap N N                     (* object uid -> generating node *)
}.
Arguments objectLocations {_} _.
Arguments waitlist {_} _.
Arguments database {_} _.
Arguments ticker {_} _.
Arguments objectSizes {_} _.
Arguments lineage {_} _.
Arguments liveNodes {_} _.
Arguments generating {_} _.
Arguments Build_GCSObjServer {_} _ _ _ _ _ _ _ _.

(** Field assignment. *)
Section Set_.
Context {DB : Type}.
Implicit Types s : GCSObjServer DB.
Definition set_objectLocations m s : GCSObjServer DB := Build_GCSObjServer m (waitlist s)
  (database s) (ticker s) (objectSizes s) (lineage s) (liveNodes s) (generating s).
Definition set_waitlist w s := Build_GCSObjServer (objectLocations s) w
  (database s) (ticker s) (objectSizes s) (lineage s) (liveNodes s) (generating s).
Definition set_database (d : DB) s := Build_GCSObjServer (objectLocations s) (waitlist s)
  d (ticker s) (objectSizes s) (lineage s) (liveNodes s) (generating s).
Definition set_objectSizes z s := Build_GCSObjServer (objectLocations s) (waitlist s)
  (database s) (ticker s) z (lineage s) (liveNodes s) (generating s).
Definition set_lineage l s := Build_GCSObjServer (objectLocations s) (waitlist s)
  (database s) (ticker s) (objectSizes s) l (liveNodes s) (generating s).
Definition set_liveNodes v s := Build_GCSObjServer (objectLocations s) (waitlist s)
  (database s) (ticker s) (objectSizes s) (lineage s) v (generating s).
Definition set_generating g s := Build_GCSObjServer (objectLocations s) (waitlist s)
  (database s) (ticker s) (objectSizes s) (lineage s) (liveNodes s) g.
End Set_.

(** The goroutines the handlers start. *)
Inductive gcs_action :=
  | GoSendCallback (clientAddress : string) (uid nodeId : uint64)
  | GoSchedule (uid : uint64).

#[export] Instance gcs_action_eq_dec : EqDecision gcs_action.
Proof. solve_decision. Defined.

Section Server.
Context {DB TX STMT : Type} `{!SqlDriver DB TX STMT}.
Implicit Types s : GCSObjServer DB.

(** [NewGCSObjServer] up to the dial of the global scheduler: the database.  The
    results of the two set-up calls are ignored, as in the code. *)
Definition setup_database (opened : result DB) : outcome DB :=
  match opened with
  | Err e => Fatal (error_text e)
  | Ok database =>
      let '(database, _) := setCacheSizeToZero database in
      let '(database, _) := createObjectLocationsTable database in
      Returns database
  end.

(** And after it: the server around the database; a non-positive ticker interval
    panics. *)
Definition setup_server (flushIntervalSec : Z) (database : DB) : outcome (GCSObjServer DB) :=
  let server := Build_GCSObjServer ∅ ∅ database None ∅ ∅ ∅ ∅ in
  if decide (flushIntervalSec = -1)%Z then Returns server
  else
    let interval := (flushIntervalSec * 1000000000)%Z in
    if decide (interval ≤ 0)%Z then Panics "non-positive interval for NewTicker"
    else Returns (Build_GCSObjServer ∅ ∅ database (Some interval) ∅ ∅ ∅ ∅).

Definition NewGCSObjServer (opened : result DB) (flushIntervalSec : Z)
    : outcome (GCSObjServer DB) :=
  database ← setup_database opened; setup_server flushIntervalSec database.

(** [flush_to_AOF] is the constant [false] of the source, which leaves the
    SQLite branch. *)
Definition flushToDisk (o1 o2 : order) s : GCSObjServer DB * option goerror :=
  match insertOrUpdateObjectLocations o1 o2 (database s) (objectLocations s) with
  | (d, Some err) => (set_database d s, Some err)
  | (d, None) => (set_objectLocations ∅ (set_database d s), None)
  end.

(** [s.liveNodes[n]]: false when absent. *)
Definition live s (n : N) : bool := default false (liveNodes s !! n).

(** The end of [getNodeId]: filter the nodes and pick one at random.
    [make([]uint64, 1, 1)] is the slice that holds one zero. *)
Definition pick_node (pk : picker) s (nodeIds : list N)
    : outcome (option N * bool * option goerror) :=
  let nodesToReturn :=
    foldl (λ acc n, if live s n then acc else acc ++ [n]) [0%N] nodeIds in
  if decide (nodesToReturn = []) then Returns (None, false, None)
  else match nodesToReturn !! intn pk (length nodesToReturn) with
       | Some nodeId => Returns (Some nodeId, true, None)
       | None => Panics "index out of range"
       end.

(** Returns the node pointer, the found flag and the error. *)
Definition getNodeId (pk : picker) s (uid : uint64)
    : outcome (GCSObjServer DB * (option N * bool * option goerror)) :=
  let nodeIds := default [] (objectLocations s !! uid) in
  if decide (nodeIds = []) then
    match getObjectLocations (database s) uid with
    | Err err => Returns (s, (None, false, Some err))
    | Ok nodeIds =>
        let s := set_objectLocations (<[uid := nodeIds]> (objectLocations s)) s in
        if decide (nodeIds = []) then Returns (s, (None, false, None))
        else r ← pick_node pk s nodeIds; Returns (s, r)
    end
  else r ← pick_node pk s nodeIds; Returns (s, r).

(** [sendCallback] as the remote call it makes once [Dial] succeeded; the
    reply and its error are dropped. *)
Definition sendCallback (Dial : string → option goerror)
    (clientAddress : string) (uid nodeId : uint64)
    : option (string * LocationFoundCallback) :=
  match Dial clientAddress with
  | Some _ => None
  | None => Some (clientAddress,
      {| lf_Uid := uid; lf_Location := nodeId; lf_Address := ""; lf_Port := 0 |})
  end.

Definition NotifyOwns s (req : NotifyOwnsRequest)
    : GCSObjServer DB * list gcs_action * reply StatusResponse :=
  let uid := no_Uid req in
  let nodeId := no_NodeId req in
  let s := set_generating (delete uid (generating s)) s in
  let s :=
    match objectLocations s !! uid with
    | None =>
        set_objectSizes (<[uid := no_ObjectSize req]> (objectSizes s))
          (set_objectLocations (<[uid := []]> (objectLocations s)) s)
    | Some _ => s
    end in
  let s := set_objectLocations
    (<[uid := default [] (objectLocations s !! uid) ++ [nodeId]]> (objectLocations s)) s in
  match waitlist s !! uid with
  | Some waitingIPs =>
      (set_waitlist (delete uid (waitlist s)) s,
       (λ clientAddress, GoSendCallback clientAddress uid nodeId) <$> waitingIPs,
       (Some (Status true), None))
  | None => (s, [], (Some (Status true), None))
  end.

(** The address the callback goes to: the peer's host with the port of the
    local object store. *)
Definition client_address (cfg : Config) (peer : string) : string :=
  let host := match SplitHostPort (to_chars peer) with
              | Ok (host, _) => host
              | Err _ => to_chars peer
              end in
  let clientPort := pretty (port_LocalObjectStore (cfg_Ports cfg)) in
  of_chars (JoinHostPort host (to_chars clientPort)).

(** [peer] is [peer.FromContext(ctx)], as the text of its address. *)
Definition RequestLocation (cfg : Config) (pk : picker) (peer : option string) s
    (req : RequestLocationRequest)
    : outcome (GCSObjServer DB * list gcs_action * reply RequestLocationResponse) :=
  match peer with
  | None => Returns (s, [], (None, Some (StatusError Internal
      "could not get peer information; hence, failed to extract client address")))
  | Some p =>
      let clientAddress := client_address cfg p in
      let uid := rl_Uid req in
      '(s, (nodeId, exists_, err)) ← getNodeId pk s uid;
      match err with
      | Some e => Returns (s, [], (None,
          Some (StatusError Internal ("could not get node id: " +:+ error_text e))))
      | None =>
          if negb exists_ then
            let s := match waitlist s !! uid with
                     | None => set_waitlist (<[uid := []]> (waitlist s)) s
                     | Some _ => s
                     end in
            let s := set_waitlist
              (<[uid := default [] (waitlist s !! uid) ++ [clientAddress]]> (waitlist s)) s in
            Returns (s, [], (Some {| rl_ImmediatelyFound := false |}, None))
          else match nodeId with
            | None => Panics "nil pointer dereference"
            | Some n =>
                Returns (s, [GoSendCallback clientAddress uid n],
                         (Some {| rl_ImmediatelyFound := true |}, None))
            end
      end
  end.

Definition GetObjectLocations s (req : ObjectLocationsRequest)
    : reply ObjectLocationsResponse :=
  let locations := foldl (λ locations u,
    match objectLocations s !! u with
    | Some l => <[u := {| lb_Locations := l;
                          lb_Bytes := default 0%N (objectSizes s !! u) |}]> locations
    | None => locations
    end) ∅ (ol_Args req) in
  (Some {| ol_Locations := locations |}, None).

(** [RegisterLineage] takes the lock twice: a check under the read lock and,
    if it passed, an assignment under the write lock. *)
Definition RegisterLineage_check s (req : GlobalScheduleRequest)
    : option (reply StatusResponse) :=
  match lineage s !! gs_Uid req with
  | Some _ => Some (Some (Status false),
      Some (StatusError Internal "tried to register duplicate lineage"))
  | None => None
  end.

Definition RegisterLineage_write s (req : GlobalScheduleRequest)
    : GCSObjServer DB * reply StatusResponse :=
  (set_lineage (<[gs_Uid req := req]> (lineage s)) s, (Some (Status false), None)).

Definition RegisterLineage s (req : GlobalScheduleRequest)
    : GCSObjServer DB * reply StatusResponse :=
  match RegisterLineage_check s req with
  | Some r => (s, r)
  | None => RegisterLineage_write s req
  end.

Definition getNodes s (uid : uint64) : list N :=
  let nodes := match generating s !! uid with Some node => [node] | None => [] end in
  match objectLocations s !! uid with
  | Some objectNodes => foldl (λ nodes node, nodes ++ [node]) nodes objectNodes
  | None => nodes
  end.

Fixpoint allDead s (nodes : list N) : bool :=
  match nodes with
  | [] => true
  | node :: nodes => if live s node then false else allDead s nodes
  end.

(** [o1], [o2] and [o3] order the three map iterations. *)
Definition RegisterLiveNodes (o1 o2 o3 : order) s (req : LiveNodesRequest)
    : GCSObjServer DB * list gcs_action * reply StatusResponse :=
  let s := set_liveNodes (ln_LiveNodes req) s in
  let allUids := foldl (λ m uid, <[uid := true]> m) (∅ : gmap N bool)
                   (range_keys o1 (generating s)) in
  let allUids := foldl (λ m uid, <[uid := true]> m) allUids
                   (range_keys o2 (objectLocations s)) in
  let regenerateList := foldl (λ l uid,
    if allDead s (getNodes s uid) then l ++ [uid] else l) [] (range_keys o3 allUids) in
  (s, GoSchedule <$> regenerateList, (Some (Status true), None)).

(** What the goroutine of [GoSchedule uid] sends: [s.lineage[uid]], nil when
    the uid has no lineage. *)
Definition schedule_request s (uid : uint64) : option GlobalScheduleRequest :=
  lineage s !! uid.

Definition RegisterGenerating s (req : GeneratingRequest)
    : GCSObjServer DB * reply StatusResponse :=
  (set_generating (<[gn_Uid req := gn_NodeId req]> (generating s)) s,
   (Some (Status true), None)).
(** A new server knows nothing but what its database holds. *)
Lemma NewGCSObjServer_empty opened f s :
  NewGCSObjServer opened f = Returns s →
  objectLocations s = ∅ ∧ waitlist s = ∅ ∧ lineage s = ∅ ∧ generating s = ∅.
Proof.
  unfold NewGCSObjServer, setup_database, setup_server. destruct opened as [d|]; [|done].
  destruct (setCacheSizeToZero d) as [d1 ?], (createObjectLocationsTable d1) as [d2 ?]. simpl.
  repeat case_decide; by intros [= <-].
Qed.
End Server.
