(* ===== verification/GcsObjSpec.v ===== *)
(** * What the object table promises

    The abstract state of the object table is, per uid, the set of nodes that
    hold the object: [locations].  The code keeps it split between a cache and
    the database; the lemmas here say how every handler acts on the abstract
    state, and the reachability invariant ties the wait lists to it. *)
From S2P Require Import Prelude Float32 Net Messages Config Sql MemSql GcsDb GcsObj.

(** ** Handlers as operations of a state machine *)

Inductive gcs_op :=
  | OpNotifyOwns (req : NotifyOwnsRequest)
  | OpRequestLocation (pk : picker) (peer : option string) (req : RequestLocationRequest)
  | OpGetObjectLocations (req : ObjectLocationsRequest)
  | OpRegisterLineage (req : GlobalScheduleRequest)
  | OpRegisterLiveNodes (o1 o2 o3 : order) (req : LiveNodesRequest)
  | OpRegisterGenerating (req : GeneratingRequest)
  | OpFlush (o1 o2 : order).

Definition is_notify (u : N) (op : gcs_op) : Prop :=
  match op with OpNotifyOwns req => no_Uid req = u | _ => False end.

Definition is_generating (u : N) (op : gcs_op) : Prop :=
  match op with OpRegisterGenerating req => gn_Uid req = u | _ => False end.

#[export] Instance is_notify_dec u op : Decision (is_notify u op).
Proof. destruct op; simpl; apply _. Defined.
#[export] Instance is_generating_dec u op : Decision (is_generating u op).
Proof. destruct op; simpl; apply _. Defined.

Section Machine.
Context {DB TX STMT : Type} `{!SqlDriver DB TX STMT} (cfg : Config).
Implicit Types s : GCSObjServer DB.

Definition gcs_exec (op : gcs_op) s : outcome (GCSObjServer DB * list gcs_action) :=
  match op with
  | OpNotifyOwns req => Returns (NotifyOwns s req).1
  | OpRequestLocation pk peer req =>
      r ← RequestLocation cfg pk peer s req; Returns r.1
  | OpGetObjectLocations _ => Returns (s, [])
  | OpRegisterLineage req => Returns ((RegisterLineage s req).1, [])
  | OpRegisterLiveNodes o1 o2 o3 req => Returns (RegisterLiveNodes o1 o2 o3 s req).1
  | OpRegisterGenerating req => Returns ((RegisterGenerating s req).1, [])
  | OpFlush o1 o2 => Returns ((flushToDisk o1 o2 s).1, [])
  end.

Fixpoint gcs_run (ops : list gcs_op) s : outcome (GCSObjServer DB * list gcs_action) :=
  match ops with
  | [] => Returns (s, [])
  | op :: ops =>
      '(s, acts) ← gcs_exec op s;
      '(s, acts') ← gcs_run ops s;
      Returns (s, acts ++ acts')
  end.

(** The goroutine of [NewGCSObjServer]: one flush per tick, whose error is only
    logged. *)
Fixpoint flush_ticks (ticks : list (order * order)) s : GCSObjServer DB :=
  match ticks with
  | [] => s
  | (o1, o2) :: ticks => flush_ticks ticks (flushToDisk o1 o2 s).1
  end.

(** Nothing that holds of all runs is lost on the ticker. *)
Lemma flush_ticks_run ticks s :
  ∃ acts, gcs_run ((λ o, OpFlush o.1 o.2) <$> ticks) s = Returns (flush_ticks ticks s, acts).
Proof.
  revert s. induction ticks as [|[o1 o2] ticks IH]; intros s; cbn; [by eexists|].
  destruct (IH (flushToDisk o1 o2 s).1) as [acts E]. exists acts. by rewrite E.
Qed.

(** Every relation between states that steps of the operations allowed by [Q]
    keep is kept by sequences of them. *)
Lemma gcs_run_preserves (Q : gcs_op → Prop) (R : GCSObjServer DB → GCSObjServer DB → Prop) :
  PreOrder R → (∀ op s s' acts, Q op → gcs_exec op s = Returns (s', acts) → R s s') →
  ∀ ops s s' acts, Forall Q ops → gcs_run ops s = Returns (s', acts) → R s s'.
Proof.
  intros HR Hstep ops. induction ops as [|op ops IH]; simpl; intros s s' acts HQ E.
  { injection E as <- <-. reflexivity. }
  apply Forall_cons in HQ as [Hop HQ]. bind_inv E as [s1 a1]. bind_inv E as [s2 a2].
  injection E as <- <-. etrans; eauto.
Qed.

(** The same for a predicate. *)
Lemma gcs_run_invariant (P : GCSObjServer DB → Prop) :
  (∀ op s s' acts, gcs_exec op s = Returns (s', acts) → P s → P s') →
  ∀ ops s s' acts, gcs_run ops s = Returns (s', acts) → P s → P s'.
Proof.
  intros Hstep ops s s' acts. apply (gcs_run_preserves (λ _, True) (λ s s', P s → P s')).
  - split; [by intros ?|]. intros s1 s2 s3 H1 H2 H. auto.
  - intros op s1 s2 a _. apply Hstep.
  - by apply Forall_true.
Qed.
End Machine.

(** ** The abstract state *)

Section Abstraction.
Context {DB TX STMT : Type} `{SqlLaws DB TX STMT}.
Implicit Types (s : GCSObjServer DB) (u n : N).

Definition stored (d : DB) u : gset N := set_map snd (filter (λ r, r.1 = u) (tbl d)).

Definition cached s u : list N := default [] (objectLocations s !! u).

Definition locations s u : gset N :=
  if decide (cached s u = []) then stored (database s) u
  else list_to_set (cached s u).

Lemma elem_of_stored d u n : n ∈ stored d u ↔ (u, n) ∈ tbl d.
Proof.
  unfold stored. rewrite elem_of_map. split.
  - intros ([u' n'] & -> & [Hu Hin]%elem_of_filter). simpl in *. by subst.
  - intros Hin. exists (u, n). split; [done|]. by apply elem_of_filter.
Qed.

Lemma locations_ext s s' u :
  cached s' u = cached s u → stored (database s') u = stored (database s) u →
  locations s' u = locations s u.
Proof. unfold locations. by intros -> ->. Qed.

Lemma locations_cached s u : cached s u ≠ [] → locations s u = list_to_set (cached s u).
Proof. intros. unfold locations. by rewrite decide_False. Qed.

Lemma locations_uncached s u : cached s u = [] → locations s u = stored (database s) u.
Proof. intros. unfold locations. by rewrite decide_True. Qed.

Lemma cached_insert m s u ns :
  objectLocations s = <[u := ns]> m → cached s u = ns.
Proof. unfold cached. intros ->. by rewrite lookup_insert_eq. Qed.

Lemma set_objectLocations_id s u ns :
  objectLocations s !! u = Some ns →
  set_objectLocations (<[u := ns]> (objectLocations s)) s = s.
Proof. intros Hu. unfold set_objectLocations. rewrite insert_id by done. by destruct s. Qed.

(** ** Looking up a location *)

Definition candidates s (ns : list N) : list N :=
  0%N :: filter (λ n, live s n = false) ns.

Lemma candidates_loop s ns :
  foldl (λ acc n, if live s n then acc else acc ++ [n]) [0%N] ns = candidates s ns.
Proof.
  unfold candidates. change (0%N :: filter (λ n, live s n = false) ns)
    with ([0%N] ++ filter (λ n, live s n = false) ns).
  generalize [0%N]. induction ns as [|n ns IH]; intros acc; simpl.
  { by rewrite app_nil_r. }
  rewrite IH, filter_cons. destruct (live s n).
  - by rewrite decide_False.
  - rewrite decide_True by done. by rewrite <-app_assoc.
Qed.

(** The nodes a lookup finds: those in the cache, else those on disk. *)
Definition known_nodes s u : list N :=
  if decide (cached s u = []) then
    match getObjectLocations (database s) u with Ok ns => ns | Err _ => [] end
  else cached s u.

(** The three ways a lookup ends. *)
Inductive lookup_result (pk : picker) s u :
    GCSObjServer DB → option N * bool * option goerror → Prop :=
  | lookup_error e :
      cached s u = [] → getObjectLocations (database s) u = Err e →
      lookup_result pk s u s (None, false, Some e)
  | lookup_miss :
      cached s u = [] → locations s u = ∅ →
      lookup_result pk s u
        (set_objectLocations (<[u := []]> (objectLocations s)) s) (None, false, None)
  | lookup_hit ns n :
      ns ≠ [] → list_to_set ns = locations s u →
      ns = known_nodes s u →
      candidates s ns !! intn pk (length (candidates s ns)) = Some n →
      lookup_result pk s u
        (set_objectLocations (<[u := ns]> (objectLocations s)) s) (Some n, true, None).

Lemma pick_node_spec pk s ns s0 :
  liveNodes s0 = liveNodes s →
  ∃ n, candidates s ns !! intn pk (length (candidates s ns)) = Some n ∧
       pick_node pk s0 ns = Returns (Some n, true, None).
Proof.
  intros Hl. unfold pick_node. rewrite candidates_loop.
  assert (candidates s0 ns = candidates s ns) as ->.
  { unfold candidates, live. by rewrite Hl. }
  destruct (picker_lookup pk (candidates s ns)) as (n & Hn & _); [done|].
  exists n. split; [done|]. by rewrite decide_False, Hn.
Qed.

Lemma getNodeId_spec pk s u :
  ∃ s' r, getNodeId pk s u = Returns (s', r) ∧ lookup_result pk s u s' r.
Proof.
  unfold getNodeId. fold (cached s u). destruct (decide (cached s u = [])) as [Hc|Hc].
  - destruct (getObjectLocations (database s) u) as [ns|e] eqn:Hg.
    2: { do 2 eexists. split; [done|]. by constructor. }
    assert (Hns : list_to_set ns = locations s u).
    { apply getObjectLocations_ok in Hg as [_ Hg]. rewrite locations_uncached by done.
      apply set_eq. intros n. by rewrite elem_of_list_to_set, elem_of_stored. }
    destruct (decide (ns = [])) as [->|Hne].
    + do 2 eexists. split; [done|]. by constructor.
    + destruct (pick_node_spec pk s ns
        (set_objectLocations (<[u := ns]> (objectLocations s)) s)) as (n & Hn & E);
        [done|].
      rewrite E. do 2 eexists. split; [done|]. apply lookup_hit; try done.
      unfold known_nodes. by rewrite decide_True, Hg.
  - destruct (pick_node_spec pk s (cached s u) s) as (n & Hn & E); [done|].
    rewrite E. do 2 eexists. split; [done|].
    assert (Hs : objectLocations s !! u = Some (cached s u)).
    { revert Hc. unfold cached. by destruct (objectLocations s !! u). }
    rewrite <-(set_objectLocations_id s u (cached s u)) at 2 by done.
    apply lookup_hit; [done|by rewrite locations_cached| |done].
    unfold known_nodes. by rewrite decide_False.
Qed.

(** A lookup moves locations between disk and cache but loses none. *)
Lemma lookup_locations pk s u s' r u' :
  lookup_result pk s u s' r → locations s' u' = locations s u'.
Proof.
  intros Hl. destruct (decide (u' = u)) as [->|Hne].
  - destruct Hl as [|Hc He|ns n Hne Hset _ _]; [done|..].
    + rewrite locations_uncached; [by rewrite (locations_uncached s u)|].
      by eapply cached_insert.
    + rewrite locations_cached; erewrite cached_insert by done; done.
  - destruct Hl; [done|..]; apply locations_ext; try done; unfold cached; simpl;
      by rewrite lookup_insert_ne.
Qed.

(** A lookup does not touch what the cache already knows. *)
Lemma lookup_cached pk s u s' r u' :
  lookup_result pk s u s' r → cached s u' ≠ [] → cached s' u' = cached s u'.
Proof.
  intros Hl Hne. destruct (decide (u' = u)) as [->|Hu].
  - destruct Hl as [|?|ns n _ _ Hns _]; [done|done|].
    unfold known_nodes in Hns. rewrite decide_False in Hns by done.
    rewrite <-Hns. by eapply cached_insert.
  - destruct Hl; [done|..]; unfold cached; simpl; by rewrite lookup_insert_ne.
Qed.

Lemma lookup_frame pk s u s' r :
  lookup_result pk s u s' r →
  waitlist s' = waitlist s ∧ database s' = database s ∧ lineage s' = lineage s ∧
  generating s' = generating s ∧ liveNodes s' = liveNodes s.
Proof. by destruct 1. Qed.

(** ** The other handlers on the abstract state *)

Lemma NotifyOwns_cached s req u :
  cached (NotifyOwns s req).1.1 u =
  if decide (u = no_Uid req) then cached s u ++ [no_NodeId req] else cached s u.
Proof.
  unfold NotifyOwns, cached. simpl.
  destruct (objectLocations s !! no_Uid req) as [l|] eqn:E; simpl;
    destruct (waitlist s !! no_Uid req); simpl; case_decide; subst;
    by simplify_map_eq.
Qed.

Lemma NotifyOwns_frame s req :
  database (NotifyOwns s req).1.1 = database s ∧
  lineage (NotifyOwns s req).1.1 = lineage s ∧
  liveNodes (NotifyOwns s req).1.1 = liveNodes s ∧
  waitlist (NotifyOwns s req).1.1 = delete (no_Uid req) (waitlist s) ∧
  generating (NotifyOwns s req).1.1 = delete (no_Uid req) (generating s).
Proof.
  unfold NotifyOwns. simpl. destruct (objectLocations s !! no_Uid req); simpl;
    destruct (waitlist s !! no_Uid req) eqn:E; simpl; split_and!; try done;
    by rewrite delete_id by done.
Qed.

Lemma NotifyOwns_locations s req u :
  locations (NotifyOwns s req).1.1 u =
  if decide (u = no_Uid req) then
    (if decide (cached s u = []) then ∅ else locations s u) ∪ {[no_NodeId req]}
  else locations s u.
Proof.
  destruct (NotifyOwns_frame s req) as (Hd & _).
  unfold locations. rewrite NotifyOwns_cached, Hd. destruct (decide (u = _)); [|done].
  rewrite decide_False by (by destruct (cached s u)).
  rewrite list_to_set_app_L. simpl. destruct (decide (cached s u = [])) as [->|].
  - set_solver.
  - set_solver.
Qed.

Lemma NotifyOwns_present s req u l :
  objectLocations (NotifyOwns s req).1.1 !! u = Some l → l = [] →
  objectLocations s !! u = Some [].
Proof.
  unfold NotifyOwns. simpl. intros Hl ->.
  destruct (objectLocations s !! no_Uid req) as [l|] eqn:E; simpl in Hl;
    destruct (waitlist s !! no_Uid req); simpl in Hl;
    destruct (decide (u = no_Uid req)) as [->|]; simplify_map_eq;
    try done; by destruct l.
Qed.

Lemma flush_ok_locations o1 o2 s s' u :
  flushToDisk o1 o2 s = (s', None) →
  (objectLocations s !! u = Some [] → stored (database s) u = ∅) →
  locations s' u = locations s u.
Proof.
  unfold flushToDisk. intros E Hinv.
  destruct (insertOrUpdateObjectLocations _ _ _ _) as [d [e|]] eqn:Hf; [done|].
  injection E as <-. apply insertOrUpdate_commit in Hf as [Ht _].
  rewrite locations_uncached by done. simpl. apply set_eq. intros n.
  rewrite elem_of_stored, Ht. unfold overwrite.
  rewrite elem_of_union, elem_of_filter, elem_of_rows_set. simpl.
  unfold locations, cached.
  destruct (objectLocations s !! u) as [ns|] eqn:Hu.
  - change (default [] (Some ns)) with ns. destruct (decide (ns = [])) as [->|Hns].
    + rewrite Hinv by done. split; [|by intros ?%not_elem_of_empty].
      intros [[? _]|(ns & [= <-] & Hn)]; [congruence|].
      by apply not_elem_of_nil in Hn.
    + rewrite elem_of_list_to_set. naive_solver.
  - rewrite decide_True, elem_of_stored by done. naive_solver.
Qed.

Lemma flush_err_locations o1 o2 s s' e u :
  flushToDisk o1 o2 s = (s', Some e) →
  cached s' u = cached s u ∧ stored (database s') u = stored (database s) u.
Proof.
  unfold flushToDisk. intros E.
  destruct (insertOrUpdateObjectLocations _ _ _ _) as [d [e'|]] eqn:Hf; [|done].
  injection E as <- <-. apply insertOrUpdate_abort in Hf. unfold stored. simpl.
  by rewrite Hf.
Qed.

Lemma flush_frame o1 o2 s :
  waitlist (flushToDisk o1 o2 s).1 = waitlist s ∧
  lineage (flushToDisk o1 o2 s).1 = lineage s ∧
  generating (flushToDisk o1 o2 s).1 = generating s.
Proof. unfold flushToDisk. by destruct (insertOrUpdateObjectLocations _ _ _ _) as [d []]. Qed.

Lemma flush_objects o1 o2 s :
  objectLocations (flushToDisk o1 o2 s).1 =
  match (flushToDisk o1 o2 s).2 with Some _ => objectLocations s | None => ∅ end.
Proof. unfold flushToDisk. by destruct (insertOrUpdateObjectLocations _ _ _ _) as [d []]. Qed.

(** [RequestLocation] by the way its lookup ends. *)
Lemma RequestLocation_spec cfg pk p s req :
  ∃ s0 r, lookup_result pk s (rl_Uid req) s0 r ∧
  RequestLocation cfg pk (Some p) s req =
    match r with
    | (_, _, Some e) => Returns (s0, [], (None,
        Some (StatusError Internal ("could not get node id: " +:+ error_text e))))
    | (Some n, true, None) =>
        Returns (s0, [GoSendCallback (client_address cfg p) (rl_Uid req) n],
                 (Some {| rl_ImmediatelyFound := true |}, None))
    | (None, true, None) => Panics "nil pointer dereference"
    | (_, false, None) =>
        Returns (set_waitlist (<[rl_Uid req := default [] (waitlist s !! rl_Uid req)
                   ++ [client_address cfg p]]> (waitlist s)) s0, [],
                 (Some {| rl_ImmediatelyFound := false |}, None))
    end.
Proof.
  destruct (getNodeId_spec pk s (rl_Uid req)) as (s0 & [[nid ex] err] & E & Hr).
  exists s0, (nid, ex, err). split; [done|]. unfold RequestLocation. rewrite E. simpl.
  destruct (lookup_frame _ _ _ _ _ Hr) as (Hw & _).
  destruct nid, ex, err; try done; simpl;
    rewrite Hw; destruct (waitlist s !! rl_Uid req) eqn:Hs; simpl;
    by rewrite ?Hw, ?Hs, ?lookup_insert_eq, ?insert_insert_eq.
Qed.
End Abstraction.
