(* ===== verification/GcsObjInv.v ===== *)
(** * The object table over time

    The reachability invariant of the object table's state machine, the
    delivery of callbacks to waiting clients, and the theorems about the
    table. *)
From S2P Require Import Prelude Float32 Net Messages Config Sql MemSql GcsDb GcsObj.
From S2P Require Import GcsObjSpec.

Section Inv.
Context {DB TX STMT : Type} `{SqlLaws DB TX STMT} (cfg : Config).
Implicit Types (s : GCSObjServer DB) (u n : N) (op : gcs_op).

(** An empty cache entry means that the database has nothing either, and a
    client waits for a uid only while no node is known to hold it. *)
Record gcs_inv s : Prop := {
  inv_cache : ∀ u, objectLocations s !! u = Some [] → stored (database s) u = ∅;
  inv_wait : ∀ u ips, waitlist s !! u = Some ips → ips ≠ [] ∧ locations s u = ∅
}.

Lemma gcs_inv_init opened f s : NewGCSObjServer opened f = Returns s → gcs_inv s.
Proof.
  intros (Ho & Hw & _)%NewGCSObjServer_empty. split; intros u; [by rewrite Ho|by rewrite Hw].
Qed.

(** A handler that changes neither the cache, nor the database, nor the
    wait lists keeps the invariant. *)
Lemma gcs_inv_frame s s' :
  objectLocations s' = objectLocations s → database s' = database s →
  waitlist s' = waitlist s → gcs_inv s → gcs_inv s'.
Proof.
  intros Ho Hd Hw [Hc Hwt]. split.
  - intros u. rewrite Ho, Hd. apply Hc.
  - intros u ips. rewrite Hw. intros Hu. rewrite (locations_ext s s').
    + by apply Hwt.
    + unfold cached. by rewrite Ho.
    + by rewrite Hd.
Qed.

Lemma gcs_inv_notify s req : gcs_inv s → gcs_inv (NotifyOwns s req).1.1.
Proof.
  intros [Hc Hw]. destruct (NotifyOwns_frame s req) as (Hd & _ & _ & Hwl & _). split.
  - intros u Hu. rewrite Hd. by eapply Hc, NotifyOwns_present.
  - intros u ips. rewrite Hwl, lookup_delete_Some. intros [Hne Hu].
    rewrite NotifyOwns_locations, decide_False by done. by apply Hw.
Qed.

Lemma lookup_inv pk s u s' r : lookup_result pk s u s' r → gcs_inv s → gcs_inv s'.
Proof.
  intros Hl [Hc Hw]. pose proof (lookup_frame _ _ _ _ _ Hl) as (Hwl & Hd & _). split.
  - intros u'. rewrite Hd. destruct Hl as [|Hce He|ns n Hne _ _ _]; simpl; [apply Hc|..].
    + rewrite lookup_insert_Some. intros [[<- _]|[_ Hu]]; [|by apply Hc].
      by rewrite <-(locations_uncached s u).
    + rewrite lookup_insert_Some. intros [[_ ?]|[_ Hu]]; [done|by apply Hc].
  - intros u' ips. rewrite Hwl. intros Hu.
    rewrite (lookup_locations _ _ _ _ _ u' Hl). by apply Hw.
Qed.

Lemma gcs_inv_wait_add s u ip :
  gcs_inv s → locations s u = ∅ →
  gcs_inv (set_waitlist (<[u := default [] (waitlist s !! u) ++ [ip]]> (waitlist s)) s).
Proof.
  intros [Hc Hw] Hu. split; [done|]. intros u' ips. simpl.
  rewrite lookup_insert_Some. intros [[<- <-]|[_ Hu']].
  - split; [by destruct (default _ _)|]. by rewrite <-Hu.
  - split; [by eapply Hw|]. by edestruct (Hw u').
Qed.

Lemma gcs_inv_flush o1 o2 s : gcs_inv s → gcs_inv (flushToDisk o1 o2 s).1.
Proof.
  intros [Hc Hw]. destruct (flush_frame o1 o2 s) as (Hwl & _).
  destruct (flushToDisk o1 o2 s) as [s' [e|]] eqn:E; simpl in *.
  - pose proof (λ u, flush_err_locations o1 o2 s s' e u E) as Hfe.
    pose proof (flush_objects o1 o2 s) as Ho. rewrite E in Ho. simpl in Ho. split.
    + intros u. rewrite Ho. destruct (Hfe u) as [_ ->]. apply Hc.
    + intros u ips. rewrite Hwl. destruct (Hfe u) as [? ?].
      rewrite (locations_ext s s') by done. apply Hw.
  - pose proof (flush_objects o1 o2 s) as Ho. rewrite E in Ho. simpl in Ho. split.
    + intros u. by rewrite Ho, lookup_empty.
    + intros u ips. rewrite Hwl. erewrite flush_ok_locations by eauto. apply Hw.
Qed.

Lemma gcs_inv_exec op s s' acts :
  gcs_exec cfg op s = Returns (s', acts) → gcs_inv s → gcs_inv s'.
Proof.
  intros E Hi. destruct op as [req|pk peer req|req|req|o1 o2 o3 req|req|o1 o2]; simpl in E.
  - injection E as E. change s' with (s', acts).1. rewrite <-E. by apply gcs_inv_notify.
  - destruct peer as [p|]; [|by injection E as <- <-].
    destruct (RequestLocation_spec cfg pk p s req) as (s0 & [[nid ex] err] & Hl & Er).
    rewrite Er in E. pose proof (lookup_inv _ _ _ _ _ Hl Hi) as Hi0.
    destruct nid, ex, err; try done; injection E as <- <-; try done; inversion Hl.
    subst. apply (gcs_inv_wait_add (set_objectLocations _ s)); [done|].
    by rewrite (lookup_locations _ _ _ _ _ _ Hl).
  - by injection E as <- <-.
  - injection E as <- <-. unfold RegisterLineage.
    destruct (RegisterLineage_check s req); [done|]. by apply (gcs_inv_frame s).
  - injection E as <- <-. by apply (gcs_inv_frame s).
  - injection E as <- <-. by apply (gcs_inv_frame s).
  - injection E as <- <-. by apply gcs_inv_flush.
Qed.

Lemma gcs_inv_run ops s s' acts :
  gcs_run cfg ops s = Returns (s', acts) → gcs_inv s → gcs_inv s'.
Proof. apply (gcs_run_invariant cfg gcs_inv gcs_inv_exec). Qed.

(** No handler panics. *)
Lemma gcs_exec_total op s : ∃ s' acts, gcs_exec cfg op s = Returns (s', acts).
Proof.
  destruct op as [req|pk peer req|req|req|o1 o2 o3 req|req|o1 o2]; simpl; eauto.
  - destruct (NotifyOwns s req) as [[s' acts] r]. eauto.
  - destruct peer as [p|]; [|by simpl; eauto].
    destruct (RequestLocation_spec cfg pk p s req) as (s0 & r & Hl & Er).
    rewrite Er. destruct Hl; simpl; eauto.
Qed.

Lemma gcs_run_total ops s : ∃ s' acts, gcs_run cfg ops s = Returns (s', acts).
Proof.
  revert s. induction ops as [|op ops IH]; simpl; intros s; [eauto|].
  destruct (gcs_exec_total op s) as (s1 & a1 & ->). simpl.
  destruct (IH s1) as (s2 & a2 & ->). simpl. eauto.
Qed.

(** ** Waiting clients *)

(** The clients of [u] that wait. *)
Definition waiting s u : list string := default [] (waitlist s !! u).

Lemma gcs_exec_waiting op s s' acts u :
  gcs_exec cfg op s = Returns (s', acts) → ¬ is_notify u op →
  waiting s u `prefix_of` waiting s' u.
Proof.
  intros E Hn. destruct op as [req|pk peer req|req|req|o1 o2 o3 req|req|o1 o2];
    simpl in E, Hn; unfold waiting.
  - injection E as E. change s' with (s', acts).1. rewrite <-E.
    destruct (NotifyOwns_frame s req) as (_ & _ & _ & -> & _).
    by rewrite lookup_delete_ne by done.
  - destruct peer as [p|]; [|by injection E as <- <-].
    destruct (RequestLocation_spec cfg pk p s req) as (s0 & [[nid ex] err] & Hl & Er).
    rewrite Er in E. destruct (lookup_frame _ _ _ _ _ Hl) as (Hw & _).
    destruct nid, ex, err; try done; injection E as <- <-; simpl; rewrite ?Hw; try done;
    (destruct (decide (u = rl_Uid req)) as [->|];
     [rewrite lookup_insert_eq; by apply prefix_app_r|by rewrite lookup_insert_ne]).
  - by injection E as <- <-.
  - injection E as <- <-. unfold RegisterLineage. by destruct (RegisterLineage_check s req).
  - by injection E as <- <-.
  - by injection E as <- <-.
  - injection E as <- <-. by destruct (flush_frame o1 o2 s) as (-> & _).
Qed.

Lemma gcs_run_waiting ops s s' acts u :
  gcs_run cfg ops s = Returns (s', acts) → Forall (λ op, ¬ is_notify u op) ops →
  waiting s u `prefix_of` waiting s' u.
Proof.
  intros E Hn. eapply (gcs_run_preserves cfg (λ op, ¬ is_notify u op)
    (λ s s', waiting s u `prefix_of` waiting s' u)); [|..|done].
  - split; [by intros ?|]. intros s1 s2 s3 H1 H2. by etrans.
  - intros op s1 s2 a Hop E1. by eapply gcs_exec_waiting.
  - done.
Qed.

Lemma NotifyOwns_actions s req :
  (NotifyOwns s req).1.2 =
  (λ a, GoSendCallback a (no_Uid req) (no_NodeId req)) <$> waiting s (no_Uid req).
Proof.
  unfold NotifyOwns, waiting. simpl.
  destruct (objectLocations s !! no_Uid req); simpl;
    by destruct (waitlist s !! no_Uid req).
Qed.

(** ** The abstract state under interleavings *)

Lemma gcs_exec_locations op s s' acts u :
  gcs_exec cfg op s = Returns (s', acts) → gcs_inv s → ¬ is_notify u op →
  locations s' u = locations s u.
Proof.
  intros E Hi Hn. destruct op as [req|pk peer req|req|req|o1 o2 o3 req|req|o1 o2];
    simpl in E, Hn.
  - injection E as E. change s' with (s', acts).1. rewrite <-E.
    rewrite NotifyOwns_locations, decide_False by done. done.
  - destruct peer as [p|]; [|by injection E as <- <-].
    destruct (RequestLocation_spec cfg pk p s req) as (s0 & [[nid ex] err] & Hl & Er).
    rewrite Er in E. rewrite <-(lookup_locations _ _ _ _ _ u Hl).
    destruct nid, ex, err; try done; injection E as <- <-; done.
  - by injection E as <- <-.
  - injection E as <- <-. unfold RegisterLineage. by destruct (RegisterLineage_check s req).
  - by injection E as <- <-.
  - by injection E as <- <-.
  - destruct (flushToDisk o1 o2 s) as [s1 [e|]] eqn:Ef; injection E as <- <-.
    + destruct (flush_err_locations _ _ _ _ _ u Ef). by apply locations_ext.
    + eapply flush_ok_locations; [done|]. apply Hi.
Qed.

Lemma gcs_run_locations ops s s' acts u :
  gcs_run cfg ops s = Returns (s', acts) → gcs_inv s →
  Forall (λ op, ¬ is_notify u op) ops → locations s' u = locations s u.
Proof.
  intros E Hi Hn. eapply (gcs_run_preserves cfg (λ op, ¬ is_notify u op)
    (λ s s', gcs_inv s → gcs_inv s' ∧ locations s' u = locations s u)); [|..|done|done].
  - split; [by intros ?|]. intros s1 s2 s3 H1 H2 Hs1. destruct (H1 Hs1) as [Hi1 E1].
    destruct (H2 Hi1) as [Hi2 E2]. split; [done|congruence].
  - intros op s1 s2 a Hop E1 H1.
    split; [by eapply gcs_inv_exec|by eapply gcs_exec_locations].
  - done.
Qed.

(** Only notifications and registrations touch who generates an object. *)
Lemma gcs_exec_generating op s s' acts u :
  gcs_exec cfg op s = Returns (s', acts) → ¬ is_notify u op →
  ¬ is_generating u op → generating s' !! u = generating s !! u.
Proof.
  intros E Hn Hg. destruct op as [req|pk pr req|req|req|o1 o2 o3 req|req|o1 o2]; simpl in E, Hn, Hg.
  - injection E as E. change s' with (s', acts).1. rewrite <-E.
    destruct (NotifyOwns_frame s req) as (_ & _ & _ & _ & ->). by rewrite lookup_delete_ne.
  - destruct pr as [p|]; [|by injection E as <- _].
    destruct (RequestLocation_spec cfg pk p s req) as (s0 & [[nid ex] err] & Hl & Er).
    rewrite Er in E. destruct (lookup_frame _ _ _ _ _ Hl) as (_ & _ & _ & <- & _).
    destruct nid, ex, err; try done; by injection E as <- _.
  - by injection E as <- _.
  - injection E as <- _. unfold RegisterLineage. by destruct (RegisterLineage_check s req).
  - by injection E as <- _.
  - injection E as <- _. simpl. by rewrite lookup_insert_ne.
  - injection E as <- _. by destruct (flush_frame o1 o2 s) as (_ & _ & ->).
Qed.

(** ** Duplicate cache entries never leave the cache *)

Definition has_dup s u : Prop := ¬ NoDup (cached s u).

Lemma has_dup_flush o1 o2 s u :
  has_dup s u → ∃ e, (flushToDisk o1 o2 s).2 = Some e.
Proof.
  intros Hd. unfold flushToDisk.
  destruct (insertOrUpdateObjectLocations _ _ _ _) as [d [e|]] eqn:Ef; simpl; [eauto|].
  exfalso. apply Hd. apply insertOrUpdate_commit in Ef as [_ (_ & Hnd & _)].
  rewrite NoDup_rows_of in Hnd by apply NoDup_range_keys.
  unfold cached. destruct (objectLocations s !! u) as [ns|] eqn:Hu; [|by constructor].
  apply (Hnd u). by apply elem_of_range.
Qed.

Lemma has_dup_exec op s s' acts u :
  gcs_exec cfg op s = Returns (s', acts) → has_dup s u → has_dup s' u.
Proof.
  intros E Hd. unfold has_dup in *.
  destruct op as [req|pk peer req|req|req|o1 o2 o3 req|req|o1 o2]; simpl in E.
  - injection E as E. change s' with (s', acts).1. rewrite <-E, NotifyOwns_cached.
    case_decide; [|done]. intros (? & _)%NoDup_app. done.
  - destruct peer as [p|]; [|by injection E as <- <-].
    destruct (RequestLocation_spec cfg pk p s req) as (s0 & [[nid ex] err] & Hl & Er).
    rewrite Er in E. assert (Hc : cached s0 u = cached s u).
    { eapply lookup_cached; [done|]. intros Hn. apply Hd. rewrite Hn. constructor. }
    rewrite <-Hc in Hd.
    destruct nid, ex, err; try done; injection E as <- <-; done.
  - by injection E as <- <-.
  - injection E as <- <-. unfold RegisterLineage. by destruct (RegisterLineage_check s req).
  - by injection E as <- <-.
  - by injection E as <- <-.
  - injection E as <- <-. unfold cached. rewrite flush_objects.
    by destruct (has_dup_flush o1 o2 s u Hd) as [e ->].
Qed.

Lemma has_dup_run ops s s' acts u :
  gcs_run cfg ops s = Returns (s', acts) → has_dup s u → has_dup s' u.
Proof. apply (gcs_run_invariant cfg (λ s, has_dup s u)). intros *. apply has_dup_exec. Qed.

(** ** Node failures *)

Lemma getNodes_eq s u : getNodes s u = option_list (generating s !! u) ++ cached s u.
Proof.
  assert (Hl : ∀ (acc l : list N), foldl (λ nodes node, nodes ++ [node]) acc l = acc ++ l).
  { intros acc l. revert acc. induction l as [|x l IH]; intros acc; simpl.
    - by rewrite app_nil_r.
    - by rewrite IH, <-app_assoc. }
  unfold getNodes, cached. destruct (generating s !! u), (objectLocations s !! u);
    simpl; by rewrite ?Hl.
Qed.

Lemma allDead_true s nodes : allDead s nodes = true ↔ ∀ n, n ∈ nodes → live s n = false.
Proof.
  induction nodes as [|n nodes IH]; simpl; [set_solver|].
  destruct (live s n) eqn:E.
  - split; [done|]. intros Hl. rewrite (Hl n) in E by left. done.
  - rewrite IH. split; [intros ?? [->|]%elem_of_cons; auto|set_solver].
Qed.

Lemma foldl_insert_dom (l : list N) (m : gmap N bool) u :
  is_Some (foldl (λ m uid, <[uid := true]> m) m l !! u) ↔ is_Some (m !! u) ∨ u ∈ l.
Proof.
  revert m. induction l as [|x l IH]; simpl; intros m; [set_solver|].
  rewrite IH, lookup_insert_is_Some', elem_of_cons. naive_solver.
Qed.

Lemma foldl_keep {A} (f : A → bool) (l acc : list A) :
  foldl (λ acc x, if f x then acc ++ [x] else acc) acc l
  = acc ++ filter (λ x, f x = true) l.
Proof.
  revert acc. induction l as [|x l IH]; intros acc; simpl; [by rewrite app_nil_r|].
  rewrite IH, filter_cons. destruct (f x).
  - by rewrite decide_True, <-app_assoc.
  - by rewrite decide_False.
Qed.

Lemma RegisterLiveNodes_actions o1 o2 o3 s req :
  ∃ uids, (RegisterLiveNodes o1 o2 o3 s req).1.2 = GoSchedule <$> uids ∧ NoDup uids ∧
    ∀ u, u ∈ uids ↔
      (is_Some (generating s !! u) ∨ is_Some (objectLocations s !! u)) ∧
      ∀ n, n ∈ getNodes s u → default false (ln_LiveNodes req !! n) = false.
Proof.
  unfold RegisterLiveNodes. simpl. rewrite foldl_keep. simpl. eexists. split; [done|].
  split; [apply NoDup_filter, NoDup_range_keys|]. intros u.
  rewrite list_elem_of_filter, elem_of_range_keys, !foldl_insert_dom, !elem_of_range_keys.
  simpl. rewrite lookup_empty, allDead_true. unfold live. simpl.
  assert (¬ is_Some (None : option bool)) by apply is_Some_None. tauto.
Qed.

(** ** Lineage *)

(** Whether an operation registers a lineage. *)
#[export] Instance is_register_dec op : Decision (∃ req, op = OpRegisterLineage req).
Proof. destruct op; (left; by eexists) || (right; by intros [? ?]). Defined.

(** No other operation touches the lineage. *)
Lemma gcs_exec_lineage_frame op s s1 a1 :
  gcs_exec cfg op s = Returns (s1, a1) → (∀ req, op ≠ OpRegisterLineage req) →
  lineage s1 = lineage s.
Proof.
  intros E1 Hop.
  destruct op as [req|pk peer req|req|req|o1 o2 o3 req|req|o1 o2]; simpl in E1.
  - injection E1 as E1. change s1 with (s1, a1).1. rewrite <-E1.
    by destruct (NotifyOwns_frame s req) as (_ & -> & _).
  - destruct peer as [p|]; [|by injection E1 as <- <-].
    destruct (RequestLocation_spec cfg pk p s req) as (s0 & [[nid ex] err] & Hr & Er).
    rewrite Er in E1. destruct (lookup_frame _ _ _ _ _ Hr) as (_ & _ & Hli & _).
    rewrite <-Hli. destruct nid, ex, err; try done; by injection E1 as <- <-.
  - by injection E1 as <- <-.
  - by destruct (Hop req).
  - by injection E1 as <- <-.
  - by injection E1 as <- <-.
  - injection E1 as <- <-. by destruct (flush_frame o1 o2 s) as (_ & -> & _).
Qed.

Lemma gcs_exec_lineage op s s1 a1 u r :
  gcs_exec cfg op s = Returns (s1, a1) → lineage s !! u = Some r → lineage s1 !! u = Some r.
Proof.
  intros E1 Hl. destruct (decide (∃ req, op = OpRegisterLineage req)) as [[req ->]|Hop].
  - injection E1 as <- <-. unfold RegisterLineage, RegisterLineage_check.
    destruct (lineage s !! gs_Uid req) eqn:Eq; [done|]. simpl.
    rewrite lookup_insert_ne; [done|congruence].
  - rewrite (gcs_exec_lineage_frame op s s1 a1); naive_solver.
Qed.

Lemma gcs_run_lineage ops s s' acts u r :
  lineage s !! u = Some r → gcs_run cfg ops s = Returns (s', acts) → lineage s' !! u = Some r.
Proof.
  intros Hl E. revert E Hl. apply (gcs_run_invariant cfg (λ s, lineage s !! u = Some r)).
  intros *. apply gcs_exec_lineage.
Qed.
End Inv.
