(* ===== verification/GcsObjThms.v ===== *)
(** * Theorems about the object table

    Safety of the wait lists, delivery of callbacks, transparency of the
    write-back cache, the behaviour of the flush, of lookups, of lineage
    registration and of the recovery after a node failure.  The witnesses run
    the handlers on the in-memory database. *)
From S2P Require Import Prelude Float32 Net Messages Config Sql MemSql GcsDb GcsObj.
From S2P Require Import GcsObjSpec GcsObjInv.

(** A server on an empty in-memory database, and requests for the witnesses. *)
Definition demo_server : GCSObjServer memdb :=
  Build_GCSObjServer ∅ ∅ mem_empty (Some 1000000000%Z) ∅ ∅ ∅ ∅.

Definition notify (u n z : N) : NotifyOwnsRequest :=
  {| no_Uid := u; no_NodeId := n; no_ObjectSize := z |}.

Definition ask (u : N) : RequestLocationRequest := {| rl_Uid := u; rl_Requester := 2 |}.

Definition lineage_of (u name : N) : GlobalScheduleRequest :=
  {| gs_Uid := u; gs_Name := name; gs_Args := []; gs_Kwargs := []; gs_Uids := [];
     gs_NewObject := false; gs_NodeId := 0; gs_LocalityFlag := false |}.

Definition demo_ops : list gcs_op :=
  [ OpRequestLocation pick_last (Some "10.0.0.5:33012") (ask 7);
    OpNotifyOwns (notify 8 3 64); OpFlush order_id order_rev;
    OpRequestLocation pick_last (Some "10.0.0.6:33013") (ask 8) ].

Section Theorems.
Context {DB TX STMT : Type} `{SqlLaws DB TX STMT}.
Implicit Types (s : GCSObjServer DB) (u n : N).

(** In every state the server reaches from its start, whatever
    requests, flushes (failing ones included) and failures interleave, a
    client waits for an object only while no node is known to hold it,
    neither in memory nor in the database. *)
Theorem waiters_only_without_holder cfg opened f s0 ops s acts u :
  NewGCSObjServer opened f = Returns s0 →
  gcs_run cfg ops s0 = Returns (s, acts) →
  waiting s u ≠ [] → locations s u = ∅.
Proof.
  intros Hnew Hrun Hne. apply gcs_inv_init in Hnew.
  apply (gcs_inv_run cfg) in Hrun as [_ Hw]; [|done].
  unfold waiting in Hne. destruct (waitlist s !! u) as [ips|] eqn:E; [|done].
  by apply (Hw u ips).
Qed.

(** C8: a client that was told to wait gets its callback: whatever happens
    in between, the first notification that a node holds the object sends
    that client the location and empties the wait list. *)
Theorem waiting_client_gets_callback cfg pk p s req s1 acts1 ops s2 acts2 nreq :
  RequestLocation cfg pk (Some p) s req =
    Returns (s1, acts1, (Some {| rl_ImmediatelyFound := false |}, None)) →
  gcs_run cfg ops s1 = Returns (s2, acts2) →
  Forall (λ op, ¬ is_notify (rl_Uid req) op) ops →
  no_Uid nreq = rl_Uid req →
  GoSendCallback (client_address cfg p) (rl_Uid req) (no_NodeId nreq)
    ∈ (NotifyOwns s2 nreq).1.2 ∧
  waiting (NotifyOwns s2 nreq).1.1 (rl_Uid req) = [].
Proof.
  intros Hr Hrun Hn Hu. split.
  - rewrite NotifyOwns_actions, Hu. apply list_elem_of_fmap.
    eexists. split; [done|].
    pose proof (gcs_run_waiting cfg _ _ _ _ _ Hrun Hn) as [k ->].
    apply elem_of_app. left.
    destruct (RequestLocation_spec cfg pk p s req) as (s0 & [[nid ex] err] & _ & Er).
    rewrite Er in Hr. destruct nid, ex, err; try done; injection Hr as <- _;
      unfold waiting; simpl; rewrite lookup_insert_eq; simpl; set_solver.
  - unfold waiting. destruct (NotifyOwns_frame s2 nreq) as (_ & _ & _ & -> & _).
    by rewrite Hu, lookup_delete_eq.
Qed.

(** The cache over the database is transparent: no sequence of lookups,
    flushes (succeeding or rolled back) and registrations changes the set
    of nodes known to hold an object; only a notification for that very
    object does. *)
Theorem cache_is_transparent cfg ops s s' acts u :
  gcs_inv s → gcs_run cfg ops s = Returns (s', acts) →
  Forall (λ op, ¬ is_notify u op) ops →
  locations s' u = locations s u.
Proof. intros. by eapply gcs_run_locations. Qed.

(** No handler of the object table panics, so every sequence of
    requests runs to its end. *)
Theorem gcs_never_panics cfg ops s :
  ∃ s' acts, gcs_run cfg ops s = Returns (s', acts).
Proof. apply gcs_run_total. Qed.

(** [NotifyOwns] acknowledges, appends the node to the cached list,
    records the size only if the uid was not in memory, clears the
    generating entry, sends one callback per waiting client in the order in
    which they asked, and forgets them. *)
Theorem NotifyOwns_effect s req :
  let '(s', acts, r) := NotifyOwns s req in
  let u := no_Uid req in
  r = (Some (Status true), None) ∧
  acts = (λ a, GoSendCallback a u (no_NodeId req)) <$> waiting s u ∧
  waitlist s' = delete u (waitlist s) ∧
  generating s' = delete u (generating s) ∧
  (∀ u', cached s' u' = if decide (u' = u) then cached s u ++ [no_NodeId req]
                        else cached s u') ∧
  objectSizes s' = match objectLocations s !! u with
                   | None => <[u := no_ObjectSize req]> (objectSizes s)
                   | Some _ => objectSizes s
                   end ∧
  database s' = database s ∧ lineage s' = lineage s ∧ liveNodes s' = liveNodes s.
Proof.
  pose proof (NotifyOwns_frame s req) as Hf.
  pose proof (NotifyOwns_actions s req) as Ha.
  pose proof (NotifyOwns_cached s req) as Hc.
  assert (Hz : objectSizes (NotifyOwns s req).1.1 =
    match objectLocations s !! no_Uid req with
    | None => <[no_Uid req := no_ObjectSize req]> (objectSizes s)
    | Some _ => objectSizes s end ∧ (NotifyOwns s req).2 = (Some (Status true), None)).
  { unfold NotifyOwns. simpl. destruct (objectLocations s !! no_Uid req); simpl;
      by destruct (waitlist s !! no_Uid req). }
  destruct (NotifyOwns s req) as [[s' acts] r]; simpl in *.
  destruct_and!. split_and!; try done. intros u'. rewrite Hc. by case_decide; subst.
Qed.

(** C39: a notification that is the next operation after a flush forgets the
    nodes that were flushed: only the new node is known, and the next
    successful flush deletes the others from the database too.  (A lookup of the
    object in between would read them back.) *)
Theorem notification_after_flush_forgets_holders o1 o2 s s1 req o3 o4 s2 u :
  flushToDisk o1 o2 s = (s1, None) →
  flushToDisk o3 o4 (NotifyOwns s1 req).1.1 = (s2, None) →
  u = no_Uid req →
  locations (NotifyOwns s1 req).1.1 u = {[no_NodeId req]} ∧
  stored (database s2) u = {[no_NodeId req]}.
Proof.
  intros E1 E2 ->. pose proof (flush_objects o1 o2 s) as Ho. rewrite E1 in Ho.
  assert (Hl : locations (NotifyOwns s1 req).1.1 (no_Uid req) = {[no_NodeId req]}).
  { rewrite NotifyOwns_locations, decide_True by done.
    unfold cached. simpl in Ho. rewrite Ho, lookup_empty.
    by rewrite decide_True, (left_id_L ∅ (∪)). }
  split; [done|].
  pose proof (flush_objects o3 o4 (NotifyOwns s1 req).1.1) as Ho2. rewrite E2 in Ho2.
  rewrite <-(locations_uncached s2) by (unfold cached; simpl in Ho2; by rewrite Ho2).
  erewrite flush_ok_locations; [done..|].
  intros Hu. eapply NotifyOwns_present in Hu; [|done].
  simpl in Ho. by rewrite Ho, lookup_empty in Hu.
Qed.
End Theorems.

Lemma waiters_only_without_holder_witness :
  ∃ s acts, gcs_run app_config demo_ops demo_server = Returns (s, acts) ∧
            waiting s 7 = ["10.0.0.5:50000"] ∧ locations s 7 = ∅.
Proof.
  do 2 eexists. split; [vm_compute; reflexivity|]. split; [vm_compute; reflexivity|].
  eapply (waiters_only_without_holder app_config (Ok mem_empty) 1 demo_server demo_ops).
  - reflexivity.
  - vm_compute; reflexivity.
  - vm_compute; discriminate.
Defined.

Definition waiting_server : GCSObjServer memdb :=
  set_waitlist {[ 7%N := ["10.0.0.5:50000"] ]}
    (set_objectLocations {[ 7%N := [] ]} demo_server).

Lemma waiting_client_gets_callback_witness :
  GoSendCallback (client_address app_config "10.0.0.5:33012") 7 4
    ∈ (NotifyOwns waiting_server (notify 7 4 16)).1.2 ∧
  waiting (NotifyOwns waiting_server (notify 7 4 16)).1.1 7 = [].
Proof.
  eapply (waiting_client_gets_callback app_config pick_first "10.0.0.5:33012"
    demo_server (ask 7) _ _ [OpFlush order_id order_id] waiting_server _ (notify 7 4 16)).
  - vm_compute; reflexivity.
  - vm_compute; reflexivity.
  - repeat constructor; by intros [].
  - reflexivity.
Defined.

Lemma cache_is_transparent_witness :
  ∃ s' acts,
    gcs_run app_config [OpFlush order_id order_id;
                        OpRequestLocation pick_first (Some "h:1") (ask 8)]
      (NotifyOwns demo_server (notify 8 3 64)).1.1 = Returns (s', acts) ∧
    objectLocations s' = {[ 8%N := [3%N] ]} ∧ locations s' 8 = {[ 3%N ]}.
Proof.
  do 2 eexists. split; [vm_compute; reflexivity|]. split; [vm_compute; reflexivity|].
  etrans; [eapply (cache_is_transparent app_config
    [OpFlush order_id order_id; OpRequestLocation pick_first (Some "h:1") (ask 8)]
    (NotifyOwns demo_server (notify 8 3 64)).1.1)|].
  - apply gcs_inv_notify. by split.
  - vm_compute; reflexivity.
  - repeat constructor; by intros [].
  - vm_compute; reflexivity.
Defined.

Lemma notification_after_flush_forgets_holders_witness :
  ∃ s1 s2, flushToDisk order_id order_id (NotifyOwns demo_server (notify 8 3 64)).1.1
             = (s1, None) ∧
    stored (database s1) 8 = {[ 3%N ]} ∧
    flushToDisk order_id order_id (NotifyOwns s1 (notify 8 5 64)).1.1 = (s2, None) ∧
    stored (database s2) 8 = {[ 5%N ]}.
Proof.
  do 2 eexists. split; [vm_compute; reflexivity|]. split; [vm_compute; reflexivity|].
  split; [vm_compute; reflexivity|].
  eapply (notification_after_flush_forgets_holders order_id order_id
    (NotifyOwns demo_server (notify 8 3 64)).1.1 _ (notify 8 5 64) order_id order_id).
  - vm_compute; reflexivity.
  - vm_compute; reflexivity.
  - reflexivity.
Defined.
