(* ===== verification/GcsObjRaces.v ===== *)
(** * Overlapping registrations

    [RegisterLineage] of [go/cmd/gcsobjtable/main.go] looks the uid up under the
    read lock and assigns under the write lock: two critical sections, between
    which other calls run.  The machine here interleaves any number of calls at
    that grain, together with all other handlers of the table; the theorems say
    what survives the gap between the two sections and what does not. *)
From S2P Require Import Prelude Float32 Net Messages Config Sql MemSql GcsDb GcsObj.
From S2P Require Import GcsObjSpec GcsObjInv GcsObjThms.

(** Where a call of [RegisterLineage] stands. *)
Inductive reg_pc :=
  | RegChecking
  | RegWriting                                  (* passed the check *)
  | RegDone (r : reply StatusResponse).

Inductive rlabel :=
  | CallRegister (req : GlobalScheduleRequest)
  | StepRegister (i : nat)
  | OtherOp (op : gcs_op).

Section Races.
Context {DB TX STMT : Type} `{SqlLaws DB TX STMT} (cfg : Config).

Record rstate := {
  r_server : GCSObjServer DB;
  registers : list (GlobalScheduleRequest * reg_pc)
}.

(** One critical section of a call. *)
Definition RegisterLineage_step (s : GCSObjServer DB) (req : GlobalScheduleRequest) (p : reg_pc)
    : option (GCSObjServer DB * reg_pc) :=
  match p with
  | RegChecking =>
      match RegisterLineage_check s req with
      | Some r => Some (s, RegDone r)
      | None => Some (s, RegWriting)
      end
  | RegWriting => let '(s, r) := RegisterLineage_write s req in Some (s, RegDone r)
  | RegDone _ => None
  end.

Definition rexec (l : rlabel) (st : rstate) : option rstate :=
  match l with
  | CallRegister req =>
      Some {| r_server := r_server st; registers := registers st ++ [(req, RegChecking)] |}
  | StepRegister i =>
      '(req, p) ← registers st !! i;
      '(s, p) ← RegisterLineage_step (r_server st) req p;
      Some {| r_server := s; registers := <[i := (req, p)]> (registers st) |}
  | OtherOp op =>
      if decide (∃ req, op = OpRegisterLineage req) then None
      else match gcs_exec cfg op (r_server st) with
           | Returns (s, _) => Some {| r_server := s; registers := registers st |}
           | _ => None
           end
  end.

Fixpoint rexec_list (ls : list rlabel) (st : rstate) : option rstate :=
  match ls with
  | [] => Some st
  | l :: ls => st ← rexec l st; rexec_list ls st
  end.

(** A call that is over and answered without an error. *)
Definition registered (p : reg_pc) : Prop :=
  match p with RegDone (_, None) => True | _ => False end.
Definition refused (p : reg_pc) : Prop :=
  match p with RegDone (_, Some _) => True | _ => False end.

(** What holds whatever interleaves: the lineage of a uid was submitted for
    that uid by a call that is over and was not refused; every such call's uid
    has a lineage; a refused call's uid has one too. *)
Record races_inv (s0 : GCSObjServer DB) (st : rstate) : Prop := {
  inv_submitted : ∀ u r, lineage (r_server st) !! u = Some r →
    lineage s0 !! u = Some r ∨
    gs_Uid r = u ∧ ∃ i p, registers st !! i = Some (r, p) ∧ registered p;
  inv_recorded : ∀ i r p, registers st !! i = Some (r, p) → registered p ∨ refused p →
    is_Some (lineage (r_server st) !! gs_Uid r);
  inv_kept : ∀ u, is_Some (lineage s0 !! u) → is_Some (lineage (r_server st) !! u)
}.

Lemma races_inv_init s0 : races_inv s0 {| r_server := s0; registers := [] |}.
Proof. split; cbn; [by left| |done]. intros i r p Hi. by rewrite lookup_nil in Hi. Qed.

(** The server after one step, by the kind of step. *)
Lemma rexec_cases l st st' :
  rexec l st = Some st' →
  (∃ req, st' = {| r_server := r_server st; registers := registers st ++ [(req, RegChecking)] |}) ∨
  (∃ i req p s' p', registers st !! i = Some (req, p) ∧
     RegisterLineage_step (r_server st) req p = Some (s', p') ∧
     st' = {| r_server := s'; registers := <[i := (req, p')]> (registers st) |}) ∨
  (registers st' = registers st ∧ lineage (r_server st') = lineage (r_server st)).
Proof.
  destruct l as [req|i|op]; cbn.
  - intros [= <-]. left. by exists req.
  - intros E. right. left. destruct (registers st !! i) as [[req p]|] eqn:Hi; [|done]. cbn in E.
    destruct (RegisterLineage_step _ _ _) as [[s' p']|] eqn:Es; [|done]. injection E as <-.
    by exists i, req, p, s', p'.
  - intros E. right. right. case_decide as Hop; [done|].
    destruct (gcs_exec cfg op (r_server st)) as [[s a]| |] eqn:Ex; [|done..]. injection E as <-.
    split; [done|]. eapply gcs_exec_lineage_frame; [done|]. intros req ->. apply Hop. by exists req.
Qed.

(** The three ways a call moves. *)
Lemma RegisterLineage_step_cases s req p s' p' :
  RegisterLineage_step s req p = Some (s', p') →
  (p = RegChecking ∧ s' = s ∧ is_Some (lineage s !! gs_Uid req) ∧ refused p' ∧ ¬ registered p' ∧
     p' ≠ RegWriting) ∨
  (p = RegChecking ∧ s' = s ∧ lineage s !! gs_Uid req = None ∧ p' = RegWriting) ∨
  (p = RegWriting ∧ lineage s' = <[gs_Uid req := req]> (lineage s) ∧ registered p' ∧ ¬ refused p').
Proof.
  destruct p as [| |r]; cbn [RegisterLineage_step]; [| |done].
  - unfold RegisterLineage_check. destruct (lineage s !! gs_Uid req) eqn:E; intros [= <- <-].
    + left. split_and!; try done; cbn; auto.
    + right. left. done.
  - intros [= <- <-]. right. right. split_and!; cbn; auto.
Qed.

Lemma races_inv_step s0 l st st' : rexec l st = Some st' → races_inv s0 st → races_inv s0 st'.
Proof.
  intros E [Hs Hr Hk].
  apply rexec_cases in E as [(req & ->)|[(i & req & p & s' & p' & Hi & Est & ->)|[Hreg Hl]]].
  - split; cbn; [| |done].
    + intros u r Hu. destruct (Hs u r Hu) as [?|(? & j & q & Hj & ?)]; [by left|right].
      split; [done|]. exists j, q. split; [|done]. by apply lookup_app_l_Some.
    + intros j r q [Hj|[_ Hj]]%lookup_app_Some; [by eapply Hr|].
      apply list_lookup_singleton_Some in Hj as [_ [= <- <-]]. by intros [[]|[]].
  - assert (Hlt : i < length (registers st)) by by eapply lookup_lt_Some.
    (* a call that was over is not the one that moves *)
    assert (Hover : ∀ j r q, registers st !! j = Some (r, q) → registered q →
              <[i := (req, p')]> (registers st) !! j = Some (r, q)).
    { intros j r q Hj Hq. rewrite list_lookup_insert_ne; [done|]. intros ->. rewrite Hi in Hj.
      injection Hj as -> ->. by destruct q. }
    assert (Hmono : ∀ u, is_Some (lineage (r_server st) !! u) → is_Some (lineage s' !! u)).
    { intros u Hu. apply RegisterLineage_step_cases in Est as [(_ & -> & _)|[(_ & -> & _)|(_ & -> & _)]];
        [done..|]. destruct (decide (gs_Uid req = u)) as [<-|]; [rewrite lookup_insert_eq; eauto|].
      by rewrite lookup_insert_ne. }
    apply RegisterLineage_step_cases in Est.
    split; cbn.
    + intros u r Hu.
      assert (lineage (r_server st) !! u = Some r ∨
              gs_Uid req = u ∧ req = r ∧ registered p') as [Hu'|(Hu' & -> & Hp')].
      { destruct Est as [(_ & -> & _)|[(_ & -> & _)|(_ & Hl & Hp' & _)]]; [by left..|].
        rewrite Hl in Hu. apply lookup_insert_Some in Hu as [[<- <-]|[_ ?]]; [by right|by left]. }
      * destruct (Hs u r Hu') as [?|(? & j & q & Hj & Hq)]; [by left|right].
        split; [done|]. exists j, q. auto.
      * right. split; [done|]. exists i, p'. by rewrite list_lookup_insert_eq.
    + intros j r q Hj Hq. destruct (decide (i = j)) as [<-|].
      * rewrite list_lookup_insert_eq in Hj by done. injection Hj as <- <-.
        destruct Est as [(_ & -> & ? & _)|[(_ & _ & _ & ->)|(_ & -> & _)]].
        -- done.
        -- by destruct Hq as [[]|[]].
        -- rewrite lookup_insert_eq. eauto.
      * rewrite list_lookup_insert_ne in Hj by done. apply Hmono. by eapply Hr.
    + intros u Hu. by apply Hmono, Hk.
  - split.
    + intros u r. rewrite Hl, Hreg. apply Hs.
    + intros i r p. rewrite Hreg, Hl. apply Hr.
    + intros u. rewrite Hl. apply Hk.
Qed.

Lemma races_inv_list s0 ls st st' :
  rexec_list ls st = Some st' → races_inv s0 st → races_inv s0 st'.
Proof.
  revert st. induction ls as [|l ls IH]; cbn; intros st E Hi; [by injection E as <-|].
  destruct (rexec l st) as [st1|] eqn:E1; [|done]. eapply IH; [done|]. by eapply races_inv_step.
Qed.

(** No call is about to assign the lineage of [u]. *)
Definition settled (u : N) (st : rstate) : Prop :=
  ∀ i req, registers st !! i = Some (req, RegWriting) → gs_Uid req ≠ u.

Lemma settled_step u r l st st' :
  rexec l st = Some st' → lineage (r_server st) !! u = Some r → settled u st →
  lineage (r_server st') !! u = Some r ∧ settled u st'.
Proof.
  intros E Hu Hset.
  apply rexec_cases in E as [(req & ->)|[(i & req & p & s' & p' & Hi & Est & ->)|[Hreg Hl]]].
  - split; [done|]. intros j q. cbn. intros [Hj|[_ Hj]]%lookup_app_Some; [by eapply Hset|].
    by apply list_lookup_singleton_Some in Hj as [_ [= <-]].
  - assert (i < length (registers st)) by by eapply lookup_lt_Some.
    assert (settled u {| r_server := s'; registers := <[i := (req, p')]> (registers st) |} ∨
            p' = RegWriting ∧ gs_Uid req = u) as Hcase.
    { destruct (decide (gs_Uid req = u)) as [Hq|Hq]; [destruct p'; [left|by right|left]|left];
        intros j q; cbn; (destruct (decide (i = j)) as [<-|];
          [rewrite list_lookup_insert_eq by done; intros Hp; injection Hp as <-; done
          |rewrite list_lookup_insert_ne by done; apply Hset]). }
    cbn. apply RegisterLineage_step_cases in Est
      as [(_ & -> & _ & _ & _ & Hp)|[(_ & -> & Hn & Hp)|(-> & -> & Hp & _)]].
    + split; [done|]. by destruct Hcase as [?|[? _]].
    + split; [done|]. destruct Hcase as [?|[_ <-]]; [done|congruence].
    + assert (gs_Uid req ≠ u) by by eapply Hset.
      rewrite lookup_insert_ne by done. split; [done|]. by destruct Hcase as [?|[_ ?]].
  - split; [by rewrite Hl|]. intros j q. rewrite Hreg. apply Hset.
Qed.

Lemma settled_list u r ls st st' :
  rexec_list ls st = Some st' → lineage (r_server st) !! u = Some r → settled u st →
  lineage (r_server st') !! u = Some r.
Proof.
  revert st. induction ls as [|l ls IH]; cbn; intros st E Hu Hset; [by injection E as <-|].
  destruct (rexec l st) as [st1|] eqn:E1; [|done].
  destruct (settled_step _ _ _ _ _ E1 Hu Hset). by eapply IH.
Qed.

(** C20: What overlapping registrations guarantee.  Under every interleaving of
    any number of [RegisterLineage] calls with each other and with the other
    handlers: a lineage in the table was there at the start or was submitted
    for that uid by a call that is over; a call that is alone with its uid is
    never refused, and once it is over its request is the recorded one; and a
    lineage stays as it is for good as soon as no call stands between its check
    and its assignment. *)
Theorem registrations_interleave s0 ls st :
  rexec_list ls {| r_server := s0; registers := [] |} = Some st →
  (∀ u r, lineage (r_server st) !! u = Some r → lineage s0 !! u = Some r ∨
     gs_Uid r = u ∧ ∃ i p, registers st !! i = Some (r, p) ∧ registered p) ∧
  (∀ i req p, registers st !! i = Some (req, p) → lineage s0 !! gs_Uid req = None →
     (∀ j req' p', registers st !! j = Some (req', p') → gs_Uid req' = gs_Uid req → j = i) →
     ¬ refused p ∧ (registered p → lineage (r_server st) !! gs_Uid req = Some req)) ∧
  (∀ u r, lineage (r_server st) !! u = Some r → settled u st →
     ∀ ls' st', rexec_list ls' st = Some st' → lineage (r_server st') !! u = Some r).
Proof.
  intros E. pose proof (races_inv_list s0 _ _ _ E (races_inv_init s0)) as [Hs Hr _].
  split; [done|]. split; [|intros u r Hu Hset ls' st' E'; by eapply settled_list].
  intros i req p Hi Hnone Halone.
  assert (Hown : ∀ r, lineage (r_server st) !! gs_Uid req = Some r → r = req ∧ registered p).
  { intros r Hl. destruct (Hs _ _ Hl) as [?|(Hu & j & q & Hj & Hq)]; [congruence|].
    rewrite (Halone j r q Hj Hu), Hi in Hj. by injection Hj as -> ->. }
  split.
  - intros Hp. destruct (Hr i req p Hi (or_intror Hp)) as [r Hl].
    apply Hown in Hl as [_ Hq]. by destruct p as [| |[? []]].
  - intros Hp. destruct (Hr i req p Hi (or_introl Hp)) as [r Hl].
    by destruct (Hown r Hl) as [-> _].
Qed.
End Races.

(** ** Witnesses *)

(** Two requests under uid 5, the second arriving between the two sections of
    the first: both are acknowledged and the later assignment wins. *)
Definition race_labels : list rlabel :=
  [CallRegister (lineage_of 5 10); StepRegister 0; CallRegister (lineage_of 5 11);
   StepRegister 1; StepRegister 0; StepRegister 1].

Example race_overwrites :
  (λ st, (registers st, lineage (r_server st) !! 5%N)) <$>
    rexec_list app_config race_labels {| r_server := demo_server; registers := [] |} =
  Some ([(lineage_of 5 10, RegDone (Some (Status false), None));
         (lineage_of 5 11, RegDone (Some (Status false), None))], Some (lineage_of 5 11)).
Proof. vm_compute. reflexivity. Qed.

(** Distinct uids, overlapping in the same way. *)
Definition distinct_labels : list rlabel :=
  [CallRegister (lineage_of 5 10); StepRegister 0; CallRegister (lineage_of 6 11);
   StepRegister 1; OtherOp (OpNotifyOwns (notify 8 3 64)); StepRegister 1; StepRegister 0].

Lemma registrations_interleave_witness :
  ∃ st, rexec_list app_config distinct_labels {| r_server := demo_server; registers := [] |} = Some st ∧
    lineage (r_server st) !! 5%N = Some (lineage_of 5 10) ∧
    lineage (r_server st) !! 6%N = Some (lineage_of 6 11).
Proof.
  destruct (rexec_list app_config distinct_labels {| r_server := demo_server; registers := [] |})
    as [st|] eqn:E; [|vm_compute in E; discriminate E].
  exists st. split; [done|].
  destruct (registrations_interleave app_config demo_server distinct_labels st E) as (_ & Ha & _).
  assert (registers st = [(lineage_of 5 10, RegDone (Some (Status false), None));
                          (lineage_of 6 11, RegDone (Some (Status false), None))]) as Er.
  { vm_compute in E. injection E as <-. reflexivity. }
  split.
  - destruct (Ha 0 (lineage_of 5 10) (RegDone (Some (Status false), None))) as [_ H];
      [by rewrite Er|done| |by apply H].
    intros [|[|j]] req' p'; rewrite Er; [done|by intros [= <- _]|done].
  - destruct (Ha 1 (lineage_of 6 11) (RegDone (Some (Status false), None))) as [_ H];
      [by rewrite Er|done| |by apply H].
    intros [|[|j]] req' p'; rewrite Er; [by intros [= <- _]|done|done].
Defined.
