(* ===== verification/GcsObjDirectory.v ===== *)
(** * The object table as a directory

    The abstract specification of [go/cmd/gcsobjtable/main.go]: a directory that
    knows where every object is and who waits for it, with no cache, no database
    and no locks.  The table refines it: every run of the table is a run of the
    directory, callback for callback.  The one liberty the directory takes is to
    forget, at a notification, the holders it knew; the table needs it after a
    flush, and only then. *)
From S2P Require Import Prelude Float32 Net Messages Config Sql MemSql GcsDb GcsObj.
From S2P Require Import GcsObjSpec GcsObjInv GcsObjThms.

Record directory := { d_where : N → gset N; d_wait : N → list string }.

Definition same (d d' : directory) : Prop :=
  (∀ u, d_where d' u = d_where d u) ∧ (∀ u, d_wait d' u = d_wait d u).

(** One step of the directory on an operation, with the goroutines it starts;
    [exact]: it may not forget. *)
Inductive dir_step (cfg : Config) (exact : bool) (d : directory)
    : gcs_op → list gcs_action → directory → Prop :=
  | dir_notify req keep d' :
      (exact = true → keep = true) →
      (∀ u, d_where d' u = if decide (u = no_Uid req)
        then (if keep : bool then d_where d u else ∅) ∪ {[no_NodeId req]} else d_where d u) →
      (∀ u, d_wait d' u = if decide (u = no_Uid req) then [] else d_wait d u) →
      dir_step cfg exact d (OpNotifyOwns req)
        ((λ c, GoSendCallback c (no_Uid req) (no_NodeId req)) <$> d_wait d (no_Uid req)) d'
  | dir_found pk p req n d' :
      same d d' → d_where d (rl_Uid req) ≠ ∅ → n = 0%N ∨ n ∈ d_where d (rl_Uid req) →
      dir_step cfg exact d (OpRequestLocation pk (Some p) req)
        [GoSendCallback (client_address cfg p) (rl_Uid req) n] d'
  | dir_waits pk p req d' :
      d_where d (rl_Uid req) = ∅ → (∀ u, d_where d' u = d_where d u) →
      (∀ u, d_wait d' u = if decide (u = rl_Uid req)
                          then d_wait d u ++ [client_address cfg p] else d_wait d u) →
      dir_step cfg exact d (OpRequestLocation pk (Some p) req) [] d'
  | dir_failed pk peer req d' : same d d' → dir_step cfg exact d (OpRequestLocation pk peer req) [] d'
  | dir_query req d' : same d d' → dir_step cfg exact d (OpGetObjectLocations req) [] d'
  | dir_lineage req d' : same d d' → dir_step cfg exact d (OpRegisterLineage req) [] d'
  | dir_live o1 o2 o3 req uids d' :
      same d d' → dir_step cfg exact d (OpRegisterLiveNodes o1 o2 o3 req) (GoSchedule <$> uids) d'
  | dir_generating req d' : same d d' → dir_step cfg exact d (OpRegisterGenerating req) [] d'
  | dir_flush o1 o2 d' : same d d' → dir_step cfg exact d (OpFlush o1 o2) [] d'.

Inductive dir_run (cfg : Config) (exact : bool)
    : directory → list gcs_op → list gcs_action → directory → Prop :=
  | dir_run_nil d : dir_run cfg exact d [] [] d
  | dir_run_cons d op acts d1 ops acts' d2 :
      dir_step cfg exact d op acts d1 → dir_run cfg exact d1 ops acts' d2 →
      dir_run cfg exact d (op :: ops) (acts ++ acts') d2.

(** ** What the directory promises *)

(** Nobody waits for an object that is somewhere. *)
Definition dir_ok (d : directory) : Prop := ∀ u, d_wait d u ≠ [] → d_where d u = ∅.

Lemma dir_ok_step cfg exact d op acts d' : dir_step cfg exact d op acts d' → dir_ok d → dir_ok d'.
Proof.
  intros Hs Hok u. destruct Hs as [req keep d' _ Hwh Hwt|? ? ? ? ? [Hwh Hwt]|pk p req d' He Hwh Hwt
    |? ? ? ? [Hwh Hwt]|? ? [Hwh Hwt]|? ? [Hwh Hwt]|? ? ? ? ? ? [Hwh Hwt]|? ? [Hwh Hwt]|? ? ? [Hwh Hwt]];
    rewrite Hwh, Hwt; try apply Hok.
  - case_decide; [done|apply Hok].
  - case_decide; [by subst|apply Hok].
Qed.

Lemma dir_ok_run cfg exact d ops acts d' : dir_run cfg exact d ops acts d' → dir_ok d → dir_ok d'.
Proof. induction 1 as [|? ? ? ? ? ? ? Hs _ IH]; [done|]. intros Hd. by eapply IH, dir_ok_step. Qed.

(** A client that waits is called back with the node of the next notification. *)
Lemma dir_notify_calls cfg exact d req acts d' c :
  dir_step cfg exact d (OpNotifyOwns req) acts d' → c ∈ d_wait d (no_Uid req) →
  GoSendCallback c (no_Uid req) (no_NodeId req) ∈ acts ∧ d_wait d' (no_Uid req) = [] ∧
  no_NodeId req ∈ d_where d' (no_Uid req).
Proof.
  intros Hs Hc. inversion Hs as [? keep ? _ Hwh Hwt| | | | | | | |]; subst.
  rewrite Hwh, Hwt, !decide_True by done. split; [|set_solver].
  apply list_elem_of_fmap. by exists c.
Qed.

(** ** The table implements it *)

Section Refinement.
Context {DB TX STMT : Type} `{SqlLaws DB TX STMT} (cfg : Config).
Implicit Types (s : GCSObjServer DB).

Definition abs s : directory := {| d_where := locations s; d_wait := waiting s |}.

Lemma same_refl d : same d d.
Proof. by split. Qed.

Lemma abs_same s s' :
  (∀ u, locations s' u = locations s u) → waitlist s' = waitlist s → same (abs s) (abs s').
Proof. intros Hl Hw. split; [exact Hl|]. intros u. cbn. unfold waiting. by rewrite Hw. Qed.

(** What the table keeps of the holders it knows at a notification. *)
Lemma keep_exists (exact : bool) s u :
  (exact = true → tbl (database s) = ∅) →
  ∃ keep : bool, (exact = true → keep = true) ∧
    (if decide (cached s u = []) then ∅ else locations s u) = if keep then locations s u else ∅.
Proof.
  intros Hex. destruct (decide (cached s u = [])) as [Hc|]; [|by exists true].
  exists exact. split; [done|]. destruct exact; [|done].
  rewrite locations_uncached by done. apply set_eq. intros n.
  rewrite elem_of_stored, Hex by done. set_solver.
Qed.

Lemma gcs_exec_dir exact op s s' acts :
  gcs_inv s → gcs_exec cfg op s = Returns (s', acts) →
  (exact = true → tbl (database s) = ∅) →
  dir_step cfg exact (abs s) op acts (abs s').
Proof.
  intros Hi E Hex.
  destruct op as [req|pk peer req|req|req|o1 o2 o3 req|req|o1 o2].
  - cbn in E. injection E as E. pose proof (NotifyOwns_actions s req) as Ha.
    pose proof (NotifyOwns_frame s req) as (_ & _ & _ & Hw & _).
    pose proof (NotifyOwns_locations s req) as Hl.
    rewrite E in Ha, Hw, Hl. cbn [fst snd] in *. subst acts.
    destruct (keep_exists exact s (no_Uid req) Hex) as (keep & Hk & Hkl).
    apply (dir_notify cfg exact (abs s) req keep); [exact Hk| |].
    + intros u. cbn. rewrite Hl. destruct (decide (u = no_Uid req)) as [->|]; [by rewrite Hkl|done].
    + intros u. cbn. unfold waiting. rewrite Hw. destruct (decide (u = no_Uid req)) as [->|].
      * by rewrite lookup_delete_eq.
      * by rewrite lookup_delete_ne.
  - pose proof (λ u, gcs_exec_locations cfg _ s s' acts u E Hi (λ H, H)) as Hloc. cbn in E.
    destruct peer as [p|]; [|injection E as <- <-; apply dir_failed, same_refl].
    destruct (RequestLocation_spec cfg pk p s req) as (s0 & r & Hl & Er). rewrite Er in E.
    destruct (lookup_frame _ _ _ _ _ Hl) as (Hw & _).
    destruct Hl as [e _ _|Hc He|ns n Hne Hset _ Hn].
    + injection E as <- <-. apply dir_failed, same_refl.
    + injection E as <- <-. apply dir_waits; [exact He|exact Hloc|]. intros u. cbn.
      unfold waiting. cbn. case_decide as Hu; [subst; by rewrite lookup_insert_eq|].
      by rewrite lookup_insert_ne.
    + injection E as <- <-. apply dir_found; [by apply abs_same| |].
      * cbn. rewrite <-Hset. destruct ns; [done|set_solver].
      * cbn. apply list_elem_of_lookup_2 in Hn. unfold candidates in Hn.
        apply elem_of_cons in Hn as [->|Hn]; [by left|right].
        apply list_elem_of_filter in Hn as [_ Hn]. rewrite <-Hset. by apply elem_of_list_to_set.
  - injection E as <- <-. apply dir_query, same_refl.
  - pose proof (λ u, gcs_exec_locations cfg _ s s' acts u E Hi (λ H, H)) as Hloc.
    injection E as <- <-. apply dir_lineage, abs_same; [exact Hloc|].
    unfold RegisterLineage. by destruct (RegisterLineage_check s req).
  - destruct (RegisterLiveNodes_actions o1 o2 o3 s req) as (uids & Ha & _).
    injection E as <- <-. change (dir_step cfg exact (abs s) (OpRegisterLiveNodes o1 o2 o3 req)
      (RegisterLiveNodes o1 o2 o3 s req).1.2 (abs (RegisterLiveNodes o1 o2 o3 s req).1.1)).
    rewrite Ha. by apply dir_live.
  - injection E as <- <-. by apply dir_generating.
  - pose proof (λ u, gcs_exec_locations cfg _ s s' acts u E Hi (λ H, H)) as Hloc.
    injection E as <- <-. apply dir_flush, abs_same; [exact Hloc|].
    by destruct (flush_frame o1 o2 s) as (-> & _).
Qed.

Lemma NewGCSObjServer_waitlist (opened : result DB) f s :
  NewGCSObjServer opened f = Returns s → waitlist s = ∅.
Proof. by intros (_ & ? & _)%NewGCSObjServer_empty. Qed.

(** Only a flush writes to the database. *)
Definition is_flush (op : gcs_op) : Prop := match op with OpFlush _ _ => True | _ => False end.

Lemma gcs_exec_database op s s' acts :
  gcs_exec cfg op s = Returns (s', acts) → ¬ is_flush op → database s' = database s.
Proof.
  intros E Hf. destruct op as [req|pk peer req|req|req|o1 o2 o3 req|req|o1 o2]; simpl in E.
  - injection E as E. change s' with (s', acts).1. rewrite <-E.
    by destruct (NotifyOwns_frame s req) as (-> & _).
  - destruct peer as [p|]; [|by injection E as <- <-].
    destruct (RequestLocation_spec cfg pk p s req) as (s0 & [[nid ex] err] & Hl & Er).
    rewrite Er in E. destruct (lookup_frame _ _ _ _ _ Hl) as (_ & Hd & _).
    rewrite <-Hd. destruct nid, ex, err; try done; by injection E as <- <-.
  - by injection E as <- <-.
  - injection E as <- <-. unfold RegisterLineage. by destruct (RegisterLineage_check s req).
  - by injection E as <- <-.
  - by injection E as <- <-.
  - by destruct Hf.
Qed.

Lemma gcs_run_dir exact ops s s' acts :
  gcs_inv s → gcs_run cfg ops s = Returns (s', acts) →
  (exact = true → tbl (database s) = ∅ ∧ Forall (λ op, ¬ is_flush op) ops) →
  dir_run cfg exact (abs s) ops acts (abs s').
Proof.
  revert s acts. induction ops as [|op ops IH]; simpl; intros s acts Hi E Hex.
  { injection E as <- <-. constructor. }
  bind_inv E as [s1 a1]. bind_inv E as [s2 a2]. injection E as <- <-.
  econstructor; [apply gcs_exec_dir; [exact Hi|exact E0|by intros [? _]%Hex]|].
  apply IH; [by eapply gcs_inv_exec|done|]. intros [Ht [Hop Hops]%Forall_cons]%Hex.
  by rewrite (gcs_exec_database _ _ _ _ E0 Hop).
Qed.
End Refinement.

(** C4: The object table refines the directory.  From its start, every run of the
    table, with all its lookups in cache and database, its flushes, successful
    or not, and every failure of the database, is a run of the directory with
    the same operations and the same callbacks and reschedulings in the same
    order; so nobody waits for an object that is somewhere.  As long as nothing
    was stored before and no flush happens, the directory forgets nothing. *)
Theorem table_refines_directory
    {DB TX STMT : Type} `{SqlLaws DB TX STMT} cfg opened f (s0 : GCSObjServer DB) ops s acts :
  NewGCSObjServer opened f = Returns s0 → gcs_run cfg ops s0 = Returns (s, acts) →
  dir_run cfg false (abs s0) ops acts (abs s) ∧ dir_ok (abs s) ∧
  (tbl (database s0) = ∅ → Forall (λ op, ¬ is_flush op) ops →
   dir_run cfg true (abs s0) ops acts (abs s)).
Proof.
  intros Hnew Hrun.
  assert (dir_ok (abs s0)) as Hok.
  { intros u Hu. destruct Hu. cbn. unfold waiting. by rewrite (NewGCSObjServer_waitlist _ _ _ Hnew). }
  apply gcs_inv_init in Hnew.
  assert (dir_run cfg false (abs s0) ops acts (abs s)) as Hdir by by apply gcs_run_dir.
  split; [exact Hdir|]. split; [by eapply dir_ok_run|].
  intros Ht Hf. by apply gcs_run_dir.
Qed.

(** ** Witness *)

(** A client waits for object 7, which nodes 2 and 3 announce one after the
    other, without a flush. *)
Definition unflushed_ops : list gcs_op :=
  [OpRequestLocation pick_first (Some "10.0.0.5:33012") (ask 7); OpNotifyOwns (notify 7 2 3);
   OpNotifyOwns (notify 7 3 3)].

Lemma table_refines_directory_witness :
  ∃ s0 s acts, NewGCSObjServer (Ok mem_empty) 1 = Returns s0 ∧
    gcs_run app_config unflushed_ops s0 = Returns (s, acts) ∧
    dir_run app_config true (abs s0) unflushed_ops acts (abs s) ∧ acts = [GoSendCallback "10.0.0.5:50000" 7 2].
Proof.
  destruct (NewGCSObjServer (Ok mem_empty) 1) as [s0| |] eqn:E0; [|vm_compute in E0; discriminate E0..].
  destruct (gcs_run app_config unflushed_ops s0) as [[s acts]| |] eqn:E.
  2, 3: vm_compute in E0; injection E0 as <-; vm_compute in E; discriminate E.
  exists s0, s, acts. split; [done|]. split; [done|]. split.
  - apply (table_refines_directory app_config (Ok mem_empty) 1 s0 unflushed_ops s acts E0 E).
    + vm_compute in E0. by injection E0 as <-.
    + by repeat constructor; intros [].
  - vm_compute in E0. injection E0 as <-. vm_compute in E. by injection E as _ <-.
Defined.
