(* ===== verification/Types.v ===== *)
(** * Which words are uids and which are nodes

    Uids and node ids are both 64-bit words and nothing in the Go types keeps
    them apart.  The typing here does: [U] is a set of words that are uids,
    [V] a set of words that are nodes, and [words U V] says of a message, a
    state or a call that every uid in it is in [U] and every node in [V].  The
    theorems say that the services keep to it, for every [U] and [V]: they
    confuse the two nowhere and make no uid or node up, the node 0 apart, which
    stands for "no node".  Taking [u64] for both gives the machine types; taking
    [storable] gives what the database accepts. *)
From S2P Require Import Prelude Float32 Net Messages Config Sql MemSql GcsDb GcsObj.
From S2P Require Import GcsObjSpec GcsObjInv GcsObjThms GlobalScheduler GlobalSchedulerThms.
From S2P Require Import LocalScheduler.

Class Words (A : Type) := words : (N → Prop) → (N → Prop) → A → Prop.

(** ** Messages *)

#[export] Instance GlobalScheduleRequest_words : Words GlobalScheduleRequest :=
  λ U V r, U (gs_Uid r) ∧ Forall U (gs_Uids r) ∧ V (gs_NodeId r).
#[export] Instance ScheduleRequest_words : Words ScheduleRequest :=
  λ U V r, Forall U (sr_Uids r) ∧ V (sr_NodeId r).
#[export] Instance NotifyOwnsRequest_words : Words NotifyOwnsRequest :=
  λ U V r, U (no_Uid r) ∧ V (no_NodeId r).
#[export] Instance RequestLocationRequest_words : Words RequestLocationRequest :=
  λ U V r, U (rl_Uid r).
#[export] Instance ObjectLocationsRequest_words : Words ObjectLocationsRequest :=
  λ U V r, Forall U (ol_Args r).
#[export] Instance LiveNodesRequest_words : Words LiveNodesRequest :=
  λ U V r, ∀ n, is_Some (ln_LiveNodes r !! n) → V n.
#[export] Instance GeneratingRequest_words : Words GeneratingRequest :=
  λ U V r, U (gn_Uid r) ∧ V (gn_NodeId r).
#[export] Instance RunRequest_words : Words RunRequest := λ U V r, U (rr_Uid r).
#[export] Instance HeartbeatRequest_words : Words HeartbeatRequest :=
  λ U V r, V (hb_NodeId r).

(** ** States and calls *)

#[export] Instance gcs_action_words : Words gcs_action :=
  λ U V a, match a with
           | GoSendCallback _ uid nodeId => U uid ∧ V nodeId
           | GoSchedule uid => U uid
           end.

#[export] Instance gcs_op_words : Words gcs_op :=
  λ U V op, match op with
            | OpNotifyOwns req => words U V req
            | OpRequestLocation _ _ req => words U V req
            | OpGetObjectLocations req => words U V req
            | OpRegisterLineage req => words U V req
            | OpRegisterLiveNodes _ _ _ req => words U V req
            | OpRegisterGenerating req => words U V req
            | OpFlush _ _ => True
            end.

#[export] Instance local_call_words : Words local_call :=
  λ U V c, match c with
           | CallRegisterLineage req | GoScheduleGlobally req => words U V req
           | CallWorkerStatus => True
           | GoRunLocally gen run => words U V gen ∧ words U V run
           end.

#[export] Instance sched_call_words : Words sched_call :=
  λ U V c, match c with
           | CallRegisterGenerating req => words U V req
           | CallRun _ req => words U V req
           end.

#[export] Instance global_state_words : Words GlobalScheduler.server :=
  λ U V s, ∀ n, is_Some (status s !! n) → V n.

Definition locations_words (U V : N → Prop) (m : gmap N (list N)) : Prop :=
  map_Forall (λ u ns, U u ∧ Forall V ns) m.

Record table_words {DB TX STMT} `{SqlLaws DB TX STMT} (U V : N → Prop)
    (s : GCSObjServer DB) : Prop := {
  w_locations : locations_words U V (objectLocations s);
  w_waitlist : ∀ u, is_Some (waitlist s !! u) → U u;
  w_rows : ∀ u n, (u, n) ∈ tbl (database s) → U u ∧ V n;
  w_lineage : map_Forall (λ u req, u = gs_Uid req ∧ words U V req) (lineage s);
  w_live : ∀ n, is_Some (liveNodes s !! n) → V n;
  w_generating : map_Forall (λ u n, U u ∧ V n) (generating s)
}.

Definition u64 (n : N) : Prop := (n < two64)%N.

(** ** The object table *)

Section Table.
Context {DB TX STMT : Type} `{SqlLaws DB TX STMT} (cfg : Config) (U V : N → Prop).
Context (no_node : V 0%N).
Implicit Types (s : GCSObjServer DB) (u n : N).

Lemma cached_words s u : table_words U V s → Forall V (cached s u).
Proof.
  intros Hs. unfold cached. destruct (objectLocations s !! u) as [ns|] eqn:E; cbn; [|constructor].
  by apply (w_locations _ _ _ Hs) in E as [_ ?].
Qed.

Lemma locations_words_insert m u ns :
  locations_words U V m → U u → Forall V ns → locations_words U V (<[u := ns]> m).
Proof. intros Hm Hu Hns. by apply map_Forall_insert_2. Qed.

Lemma NotifyOwns_other s req u :
  u ≠ no_Uid req → objectLocations (NotifyOwns s req).1.1 !! u = objectLocations s !! u.
Proof.
  intros Hu. unfold NotifyOwns. simpl.
  destruct (objectLocations s !! no_Uid req); simpl;
    destruct (waitlist s !! no_Uid req); simpl; by rewrite ?lookup_insert_ne by done.
Qed.

Lemma NotifyOwns_words s req :
  table_words U V s → words U V req →
  table_words U V (NotifyOwns s req).1.1 ∧ Forall (words U V) (NotifyOwns s req).1.2.
Proof.
  intros Hs [Hu Hn]. pose proof (cached_words s (no_Uid req) Hs) as Hc.
  pose proof (NotifyOwns_frame s req) as (Hd & Hl & Hv & Hw & Hg).
  split.
  - split; [| | | | |].
    + intros u ns Hns.
      assert (cached (NotifyOwns s req).1.1 u = ns) as Hcu by (unfold cached; by rewrite Hns).
      rewrite NotifyOwns_cached in Hcu. case_decide; subst.
      * split; [done|]. apply Forall_app. split; [done|by apply Forall_singleton].
      * split; [|by apply cached_words].
        rewrite NotifyOwns_other in Hns by done. by apply (w_locations _ _ _ Hs) in Hns as [? _].
    + intros u. rewrite Hw. intros [? [_ ?]%lookup_delete_Some]. apply (w_waitlist _ _ _ Hs). eauto.
    + rewrite Hd. apply Hs.
    + rewrite Hl. apply Hs.
    + rewrite Hv. apply Hs.
    + rewrite Hg. apply map_Forall_delete, Hs.
  - unfold NotifyOwns. cbn.
    destruct (objectLocations s !! no_Uid req); destruct (waitlist _ !! no_Uid req); cbn;
      try constructor; apply Forall_fmap, Forall_true; intros ?; split; done.
Qed.

Lemma flush_words o1 o2 s : table_words U V s → table_words U V (flushToDisk o1 o2 s).1.
Proof.
  intros Hs. unfold flushToDisk.
  destruct (insertOrUpdateObjectLocations _ _ _ _) as [d [e|]] eqn:E; cbn.
  - apply insertOrUpdate_abort in E. split; try apply Hs. cbn. rewrite E. apply Hs.
  - apply insertOrUpdate_commit in E as [E _]. split; try apply Hs; cbn.
    + apply map_Forall_empty.
    + intros u n. rewrite E. unfold overwrite. rewrite elem_of_union, elem_of_filter, elem_of_rows_set.
      intros [[_ Hin]|(ns & Hns & Hin)]; [by apply Hs|].
      apply (w_locations _ _ _ Hs) in Hns as [? Hns]. rewrite Forall_forall in Hns. auto.
Qed.

Lemma lookup_words pk s u s' r :
  table_words U V s → U u → lookup_result pk s u s' r →
  table_words U V s' ∧ (∀ n, r.1.1 = Some n → V n).
Proof.
  intros Hs Hu Hl. destruct Hl as [e Hc Hg|Hc Hl|ns n Hne Hset Hk Hn]; cbn.
  - done.
  - split; [|done]. split; try apply Hs. cbn. by apply locations_words_insert; [apply Hs|..].
  - assert (Forall V ns) as Hns.
    { subst ns. unfold known_nodes. case_decide; [|by apply cached_words].
      destruct (getObjectLocations (database s) u) as [ms|] eqn:Eg; [|constructor].
      apply getObjectLocations_ok in Eg as [_ Eg]. apply Forall_forall. intros m Hm%Eg.
      by apply (w_rows _ _ _ Hs u m). }
    split.
    + split; try apply Hs. cbn. by apply locations_words_insert; [apply Hs|..].
    + intros ? [= <-]. apply list_elem_of_lookup_2 in Hn. unfold candidates in Hn.
      apply elem_of_cons in Hn as [->|Hn]; [done|]. apply list_elem_of_filter in Hn as [_ Hn].
      rewrite Forall_forall in Hns. auto.
Qed.

Lemma gcs_exec_words op s s' acts :
  gcs_exec cfg op s = Returns (s', acts) → words U V op → table_words U V s →
  table_words U V s' ∧ Forall (words U V) acts.
Proof.
  intros E Hop Hs. destruct op as [req|pk peer req|req|req|o1 o2 o3 req|req|o1 o2]; simpl in E.
  - injection E as E. pose proof (NotifyOwns_words s req Hs Hop) as Hn. by rewrite E in Hn.
  - destruct peer as [p|]; [|injection E as <- <-; by split; [|constructor]].
    destruct (RequestLocation_spec cfg pk p s req) as (s0 & [[nid ex] err] & Hl & Er).
    rewrite Er in E. destruct (lookup_words _ _ _ _ _ Hs Hop Hl) as [Hs0 Hn].
    destruct nid, ex, err; try done; injection E as <- <-; (split; [|by repeat constructor; auto]);
      try done.
    all: split; try apply Hs0; cbn; intros u [? [[<- _]|[_ ?]]%lookup_insert_Some]; [done|];
      apply (w_waitlist _ _ _ Hs); eauto.
  - injection E as <- <-. by split; [|constructor].
  - injection E as <- <-. split; [|constructor]. unfold RegisterLineage, RegisterLineage_check.
    destruct (lineage s !! gs_Uid req); [done|]. split; try apply Hs. cbn.
    apply map_Forall_insert_2; [done|apply Hs].
  - injection E as <- <-. split.
    + split; try apply Hs. apply Hop.
    + change (Forall (words U V) (RegisterLiveNodes o1 o2 o3 s req).1.2). destruct (RegisterLiveNodes_actions o1 o2 o3 s req) as (uids & -> & _ & Hiff).
      apply Forall_fmap, Forall_forall. intros u [[[n Hu]|[ns Hu]] _]%Hiff.
      * by apply (w_generating _ _ _ Hs) in Hu as [? _].
      * by apply (w_locations _ _ _ Hs) in Hu as [? _].
  - injection E as <- <-. split; [|constructor]. split; try apply Hs. cbn.
    apply map_Forall_insert_2; [apply Hop|apply Hs].
  - injection E as <- <-. split; [|constructor]. by apply flush_words.
Qed.

Lemma gcs_run_words ops s s' acts :
  gcs_run cfg ops s = Returns (s', acts) → Forall (words U V) ops → table_words U V s →
  table_words U V s' ∧ Forall (words U V) acts.
Proof.
  revert s acts. induction ops as [|op ops IH]; simpl; intros s acts E Hops Hs.
  { injection E as <- <-. by split; [|constructor]. }
  apply Forall_cons in Hops as [Hop Hops]. bind_inv E as [s1 a1]. bind_inv E as [s2 a2].
  injection E as <- <-. destruct (gcs_exec_words _ _ _ _ E0 Hop Hs) as [Hs1 Ha1].
  destruct (IH _ _ E1 Hops Hs1) as [Hs2 Ha2]. split; [done|]. by apply Forall_app.
Qed.
End Table.

(** C9: The object table keeps uids and nodes apart and makes none up.  For any
    set [U] of uids and [V] of nodes with 0 in it: as long as the requests keep
    to them, so does everything the table ever stores, in memory, in the
    database and in its lineage, every callback and every rescheduling it
    starts, and every request it sends to the global scheduler, whose uid is
    the one to be rescheduled.  In particular machine words stay machine words,
    and if the uids and nodes of the requests are storable, a flush is never
    refused for the size of a number. *)
Theorem table_keeps_words
    {DB TX STMT : Type} `{SqlLaws DB TX STMT} cfg (U V : N → Prop) ops
    (s s' : GCSObjServer DB) acts :
  V 0%N → gcs_run cfg ops s = Returns (s', acts) → Forall (words U V) ops → table_words U V s →
  table_words U V s' ∧ Forall (words U V) acts ∧
  (∀ u sent, schedule_request s' u = Some sent → gs_Uid sent = u ∧ words U V sent) ∧
  ((∀ u, U u → storable u) → (∀ n, V n → storable n) →
   ∀ u ns, objectLocations s' !! u = Some ns → storable u ∧ Forall storable ns).
Proof.
  intros Hz E Hops Hs. destruct (gcs_run_words cfg U V Hz _ _ _ _ E Hops Hs) as [Hs' Ha].
  split_and!; [done|done| |].
  - intros u sent Hu. by apply (w_lineage _ _ _ Hs') in Hu as [-> ?].
  - intros HU HV u ns Hu. apply (w_locations _ _ _ Hs') in Hu as [Hu Hns].
    split; [auto|]. eapply Forall_impl; eauto.
Qed.

(** ** The schedulers *)

Lemma lookup_foldl_insert {A B} (f : N * A → B) (l : list (N * A)) (m : gmap N B) n :
  is_Some (foldl (λ m e, <[e.1 := f e]> m) m l !! n) → is_Some (m !! n) ∨ n ∈ l.*1.
Proof.
  revert m. induction l as [|e l IH]; intros m; cbn; [by left|]. intros Hn.
  apply IH in Hn as [Hn|Hn]; [|by right; right].
  destruct (decide (e.1 = n)) as [<-|]; [right; left|]. rewrite lookup_insert_ne in Hn by done. by left.
Qed.

(** The schedulers keep uids and nodes apart and make none up, save the uid
    a local scheduler draws.  A request and the table of heartbeats being
    typed, everything the local scheduler calls is typed when its own id is a
    node and the drawn word, cut to 63 bits, is a uid; so are the report of
    live nodes and the calls of the global scheduler, which registers the very
    node it picked, a node of its table unless the request names one.  The
    heartbeat table stays typed, and a queue count stays a 32-bit word. *)
Theorem schedulers_keep_words (U V : N → Prop) cfg :
  (∀ draw ws ls req, words U V req → V (LocalScheduler.localNodeID ls) → V 0%N →
     U (TruncateHighBit draw) →
     Forall (words U V) (LocalScheduler.Schedule draw ws ls req).1) ∧
  (∀ now gs req, words U V req → words U V gs → words U V (Heartbeat now gs req).1) ∧
  (∀ now gs req n hb, (hb_QueuedTasks req < two32)%N →
     status (Heartbeat now gs req).1 !! n = Some hb →
     n = hb_NodeId req ∧ (numQueuedTasks hb < two32)%N ∨ status gs !! n = Some hb) ∧
  (∀ now o gs, words U V gs → words U V (SendLiveNodes now o gs)) ∧
  (∀ env gs req, words U V gs → words U V req →
     Forall (words U V) (GlobalScheduler.Schedule cfg env gs req).1).
Proof.
  split_and!.
  - intros draw ws ls req [Huids Hnode] Hid H0 Hu. unfold LocalScheduler.Schedule.
    destruct (negb _); [by repeat constructor|]. destruct ws.1; [|by repeat constructor].
    destruct (_ <? _)%N; by repeat constructor.
  - intros now gs req Hreq Hgs n. cbn. intros [? [[<- _]|[_ ?]]%lookup_insert_Some]; [done|].
    apply Hgs. eauto.
  - intros now gs req n hb Hq. cbn. intros [[<- <-]|[_ ?]]%lookup_insert_Some; [left|by right].
    split; [done|]. cbn. case_decide; auto using wrap32_lt.
  - intros now o gs Hgs n Hn. apply (lookup_foldl_insert (λ e, is_live (now e.1) e.2)) in Hn as [Hn|Hn].
    + rewrite lookup_empty in Hn. by apply is_Some_None in Hn.
    + by apply Hgs, (elem_of_range_keys o).
  - intros env gs req Hgs [Hu [_ Hn]]. unfold GlobalScheduler.Schedule.
    destruct (if decide _ then _ else _) as [node_id| |] eqn:En; [|constructor..].
    assert (V node_id) as Hnode.
    { case_decide; [|by injection En as <-]. apply getBestWorker_live in En as (hb & Hhb & _).
      apply Hgs. eauto. }
    destruct (env_Dial env _); [constructor|].
    destruct (env_Run env _ _) as [[ok|] [err|]]; try destruct (st_Success ok);
      by repeat constructor.
Qed.

(** ** Witnesses *)

(** The uids and nodes of the demonstration. *)
Definition demo_uid (u : N) : Prop := u ∈ [5; 7; 8; 9]%N.
Definition demo_node_id (n : N) : Prop := n ∈ [0; 2; 3; 4]%N.

Lemma table_keeps_words_witness :
  ∃ s' acts, gcs_run app_config demo_ops demo_server = Returns (s', acts) ∧
    table_words demo_uid demo_node_id s' ∧ Forall (words demo_uid demo_node_id) acts ∧
    (∀ u ns, objectLocations s' !! u = Some ns → storable u ∧ Forall storable ns).
Proof.
  destruct (gcs_run app_config demo_ops demo_server) as [[s' acts]| |] eqn:E;
    [|vm_compute in E; discriminate E..].
  exists s', acts. split; [done|].
  destruct (table_keeps_words app_config demo_uid demo_node_id demo_ops demo_server s' acts)
    as (H1 & H2 & _ & H3).
  - apply (bool_decide_unpack _). vm_compute. exact I.
  - exact E.
  - repeat constructor; try (apply (bool_decide_unpack _); vm_compute; exact I).
  - split; cbn; try apply map_Forall_empty; intros ?; rewrite ?lookup_empty; try intros [? [=]].
    intros n Hin. apply elem_of_empty in Hin as [].
  - split; [exact H1|]. split; [exact H2|]. apply H3.
    + intros u Hu. unfold demo_uid in Hu. unfold storable, two63. set_unfold. lia.
    + intros n Hn. unfold demo_node_id in Hn. unfold storable, two63. set_unfold. lia.
Defined.

(** The local scheduler of node 3 draws uid 5 for a request that reads object 9. *)
Lemma schedulers_keep_words_witness :
  words demo_uid demo_node_id (demo_request 0) ∧
  Forall (words demo_uid demo_node_id)
    (LocalScheduler.Schedule 5 (Some (demo_status 0), None)
       (LocalScheduler.Build_server 3 true) (demo_request 0)).1.
Proof.
  assert (words demo_uid demo_node_id (demo_request 0)) as Hr.
  { split; cbn; [constructor; [|constructor]|]; apply (bool_decide_unpack _); vm_compute; exact I. }
  split; [exact Hr|].
  destruct (schedulers_keep_words demo_uid demo_node_id app_config) as (Hl & _).
  apply Hl; [exact Hr|..]; apply (bool_decide_unpack _); vm_compute; exact I.
Defined.
