(* ===== verification/GcsObjRecovery.v ===== *)
(** * Theorems about lookups, flushes and recovery of the object table

    Which node a lookup may answer, what its errors leave behind, when the
    flush succeeds and what stops it for good, and which objects a change of
    the live nodes reschedules. *)
From S2P Require Import Prelude Float32 Net Messages Config Sql MemSql GcsDb GcsObj.
From S2P Require Import GcsObjSpec GcsObjInv GcsObjThms.

(** The picker that returns a given index whenever it is in range. *)
Program Definition pick_index (i : nat) : picker :=
  {| intn n := if decide (i < n) then i else 0 |}.
Next Obligation. intros i n Hn; simpl. by case_decide. Qed.

Section Lookup.
Context {DB TX STMT : Type} `{SqlLaws DB TX STMT}.
Implicit Types (s : GCSObjServer DB) (u n : N).

Lemma elem_of_candidates s ns n :
  n ∈ candidates s ns ↔ n = 0%N ∨ n ∈ ns ∧ live s n = false.
Proof. unfold candidates. rewrite elem_of_cons, list_elem_of_filter. naive_solver. Qed.

Lemma known_nodes_set s u :
  (cached s u = [] → ∃ ns, getObjectLocations (database s) u = Ok ns) →
  list_to_set (known_nodes s u) = locations s u.
Proof.
  intros Hq. unfold known_nodes. destruct (decide (cached s u = [])) as [Hc|Hc].
  - destruct (Hq Hc) as [ns Hns]. rewrite Hns.
    apply getObjectLocations_ok in Hns as [_ Hns]. rewrite locations_uncached by done.
    apply set_eq. intros n. by rewrite elem_of_list_to_set, elem_of_stored.
  - by rewrite locations_cached.
Qed.

(** A successful lookup answers one of the candidates. *)
Lemma RequestLocation_found cfg pk p s req s' acts :
  RequestLocation cfg pk (Some p) s req =
    Returns (s', acts, (Some {| rl_ImmediatelyFound := true |}, None)) →
  ∃ n, acts = [GoSendCallback (client_address cfg p) (rl_Uid req) n] ∧
       locations s (rl_Uid req) ≠ ∅ ∧
       (n = 0%N ∨ n ∈ locations s (rl_Uid req) ∧ live s n = false).
Proof.
  destruct (RequestLocation_spec cfg pk p s req) as (s0 & r & Hl & ->).
  destruct Hl as [e|Hc Hn|ns n Hne Hset Hk Hn]; try done. intros [= <- <-].
  exists n. split; [done|]. rewrite <-Hset.
  apply list_elem_of_lookup_2, elem_of_candidates in Hn. split.
  - destruct ns; [done|]. set_solver.
  - by rewrite elem_of_list_to_set.
Qed.

Lemma RequestLocation_reaches cfg p s req n :
  (cached s (rl_Uid req) = [] →
    ∃ ns, getObjectLocations (database s) (rl_Uid req) = Ok ns) →
  locations s (rl_Uid req) ≠ ∅ →
  n = 0%N ∨ n ∈ locations s (rl_Uid req) ∧ live s n = false →
  ∃ pk s', RequestLocation cfg pk (Some p) s req =
    Returns (s', [GoSendCallback (client_address cfg p) (rl_Uid req) n],
             (Some {| rl_ImmediatelyFound := true |}, None)).
Proof.
  intros Hq Hne Hn. set (ns := known_nodes s (rl_Uid req)).
  assert (Hset : list_to_set ns = locations s (rl_Uid req)) by by apply known_nodes_set.
  assert (Hin : n ∈ candidates s ns).
  { apply elem_of_candidates. by rewrite <-Hset, elem_of_list_to_set in Hn. }
  apply list_elem_of_lookup_1 in Hin as [i Hi].
  assert (Hlt : i < length (candidates s ns)) by by eapply lookup_lt_Some.
  destruct (RequestLocation_spec cfg (pick_index i) p s req) as (s0 & r & Hl & Er).
  exists (pick_index i). destruct Hl as [e Hc Hg|Hc Hn0|ns' n' Hne' Hset' Hk Hn'].
  - destruct (Hq Hc). congruence.
  - congruence.
  - subst ns'. fold ns in Hn', Er. simpl in Hn'. rewrite decide_True in Hn' by done.
    rewrite Hi in Hn'. injection Hn' as <-. by eexists.
Qed.

(** The locations a client can be sent on an immediate answer, over all
    random draws, are exactly node 0 and the holders that are not known to
    be alive. *)
Theorem immediate_answer_nodes cfg p s req n :
  (cached s (rl_Uid req) = [] →
    ∃ ns, getObjectLocations (database s) (rl_Uid req) = Ok ns) →
  (∃ pk s', RequestLocation cfg pk (Some p) s req =
    Returns (s', [GoSendCallback (client_address cfg p) (rl_Uid req) n],
             (Some {| rl_ImmediatelyFound := true |}, None))) ↔
  locations s (rl_Uid req) ≠ ∅ ∧
  (n = 0%N ∨ n ∈ locations s (rl_Uid req) ∧ live s n = false).
Proof.
  intros Hq. split.
  - intros (pk & s' & E). apply RequestLocation_found in E as (n' & [= <-] & ?). done.
  - intros []. by apply RequestLocation_reaches.
Qed.

(** A lookup that cannot read the database, or whose caller is unknown,
    answers an Internal error and leaves the table as it was: nothing is
    cached and nobody is put on a wait list. *)
Theorem RequestLocation_errors cfg pk s req :
  RequestLocation cfg pk None s req = Returns (s, [], (None, Some (StatusError Internal
    "could not get peer information; hence, failed to extract client address"))) ∧
  ∀ p e, cached s (rl_Uid req) = [] → getObjectLocations (database s) (rl_Uid req) = Err e →
    RequestLocation cfg pk (Some p) s req = Returns (s, [], (None,
      Some (StatusError Internal ("could not get node id: " +:+ error_text e)))).
Proof.
  split; [done|]. intros p e Hc Hg.
  unfold RequestLocation, getNodeId. fold (cached s (rl_Uid req)).
  by rewrite decide_True, Hg.
Qed.
End Lookup.

(** The callback goes to the client's own host: whatever port its request
    came from, IPv4 or IPv6, the host is kept and the port becomes that of the
    object stores; an address that does not split is taken as the host. *)
Theorem callback_goes_to_client_host cfg host port :
  plain_host host → plain_port port →
  let store_port := to_chars (pretty (port_LocalObjectStore (cfg_Ports cfg))) in
  client_address cfg (of_chars (JoinHostPort host port)) =
    of_chars (JoinHostPort host store_port) ∧
  ∀ peer err, SplitHostPort (to_chars peer) = Err err →
    client_address cfg peer = of_chars (JoinHostPort (to_chars peer) store_port).
Proof.
  intros Hh Hp store_port. unfold client_address. split.
  - unfold to_chars at 1, of_chars at 2. rewrite String.list_ascii_of_string_of_list_ascii.
    by rewrite split_join.
  - intros peer err E. by rewrite E.
Qed.

Section Flush.
Context {DB TX STMT : Type} `{SqlHealthy DB TX STMT}.
Implicit Types (s : GCSObjServer DB) (u n : N).

(** C24: on a working database a flush succeeds if and only if there is at
    least one location in memory and no object lists a node twice; a
    successful flush leaves the memory empty, a failed one leaves memory
    and stored rows unchanged. *)
Theorem flush_succeeds_iff o1 o2 s :
  healthy (database s) → within_limits max_vars (objectLocations s) →
  ((flushToDisk o1 o2 s).2 = None ↔
     (∃ u, cached s u ≠ []) ∧ ∀ u, NoDup (cached s u)) ∧
  match (flushToDisk o1 o2 s).2 with
  | None => objectLocations (flushToDisk o1 o2 s).1 = ∅
  | Some _ => objectLocations (flushToDisk o1 o2 s).1 = objectLocations s ∧
              tbl (database (flushToDisk o1 o2 s).1) = tbl (database s)
  end ∧ healthy (database (flushToDisk o1 o2 s).1).
Proof.
  intros Hd Hlim. destruct (insertOrUpdate_healthy o1 o2 _ _ Hd Hlim) as [Hh Hiff].
  assert (Hne : rows_set (objectLocations s) ≠ ∅ ↔ ∃ u, cached s u ≠ []).
  { split.
    - intros [[u n] (ns & Hu & Hn)%elem_of_rows_set]%set_choose_L.
      exists u. unfold cached. rewrite Hu. simpl. intros ->. by apply not_elem_of_nil in Hn.
    - unfold cached. intros [u Hu] Hemp. destruct (objectLocations s !! u) as [[|n ns]|] eqn:E;
        try done. cut ((u, n) ∈ rows_set (objectLocations s)); [rewrite Hemp; set_solver|].
      apply elem_of_rows_set. eexists. split; [done|by left]. }
  assert (Hnd : (∀ u ns, objectLocations s !! u = Some ns → NoDup ns) ↔
                ∀ u, NoDup (cached s u)).
  { unfold cached. split.
    - intros Hall u. destruct (objectLocations s !! u) eqn:E; [by eapply Hall|by constructor].
    - intros Hall u ns E. specialize (Hall u). by rewrite E in Hall. }
  rewrite <-Hne, <-Hnd, <-Hiff. unfold flushToDisk.
  destruct (insertOrUpdateObjectLocations _ _ _ _) as [d [e|]] eqn:Ef; simpl in *; [|done].
  split; [done|]. split; [|done]. split; [done|]. by eapply insertOrUpdate_abort.
Qed.
End Flush.

Section Recovery.
Context {DB TX STMT : Type} `{SqlLaws DB TX STMT}.
Implicit Types (s : GCSObjServer DB) (u n : N).

(** Once a node notified twice for an object that stayed in memory, no
    flush succeeds any more, whatever the server does afterwards: every
    flush returns an error and the memory keeps growing. *)
Theorem repeated_owner_blocks_flush_for_good cfg s req ops s' acts o1 o2 :
  no_NodeId req ∈ cached s (no_Uid req) →
  gcs_run cfg ops (NotifyOwns s req).1.1 = Returns (s', acts) →
  ∃ e, (flushToDisk o1 o2 s').2 = Some e ∧
       objectLocations (flushToDisk o1 o2 s').1 = objectLocations s'.
Proof.
  intros Hin Hrun.
  assert (Hd : has_dup (NotifyOwns s req).1.1 (no_Uid req)).
  { unfold has_dup. rewrite NotifyOwns_cached, decide_True by done.
    intros (_ & Hno & _)%NoDup_app. by apply (Hno _ Hin); left. }
  apply (has_dup_run cfg _ _ _ _ _ Hrun) in Hd.
  destruct (has_dup_flush o1 o2 _ _ Hd) as [e He]. exists e. split; [done|].
  by rewrite flush_objects, He.
Qed.

(** A report of live nodes reschedules, each once, exactly the objects
    in memory or being generated of which every holder and generator is
    dead. *)
Theorem live_nodes_reschedules_lost_objects o1 o2 o3 s req :
  let '(s', acts, r) := RegisterLiveNodes o1 o2 o3 s req in
  r = (Some (Status true), None) ∧ liveNodes s' = ln_LiveNodes req ∧ NoDup acts ∧
  ∀ u, GoSchedule u ∈ acts ↔
    (is_Some (generating s !! u) ∨ is_Some (objectLocations s !! u)) ∧
    (∀ n, generating s !! u = Some n → live s' n = false) ∧
    (∀ n, n ∈ cached s u → live s' n = false).
Proof.
  destruct (RegisterLiveNodes_actions o1 o2 o3 s req) as (uids & Ha & Hnd & Hiff).
  assert (Hs : liveNodes (RegisterLiveNodes o1 o2 o3 s req).1.1 = ln_LiveNodes req) by done.
  assert (Hr : (RegisterLiveNodes o1 o2 o3 s req).2 = (Some (Status true), None)) by done.
  destruct (RegisterLiveNodes o1 o2 o3 s req) as [[s' acts] r]. simpl in *. subst.
  split; [done|]. split; [done|]. split.
  { apply NoDup_fmap; [by intros ?? [=]|done]. }
  intros u. rewrite list_elem_of_fmap. unfold live. rewrite Hs.
  setoid_rewrite getNodes_eq in Hiff. setoid_rewrite elem_of_app in Hiff.
  setoid_rewrite elem_of_option_list in Hiff. split.
  - intros (u' & [= <-] & Hu). apply Hiff in Hu. naive_solver.
  - intros ?. exists u. split; [done|]. apply Hiff. naive_solver.
Qed.

(** What a flush wrote to disk is invisible to locality queries and to
    recovery: right after a successful flush no query reports a location,
    and a report of live nodes reschedules only objects being generated,
    even if every holder of a flushed object died. *)
Theorem flushed_objects_are_not_recovered o1 o2 s s' o3 o4 o5 lreq qreq u :
  flushToDisk o1 o2 s = (s', None) →
  GetObjectLocations s' qreq = (Some {| ol_Locations := ∅ |}, None) ∧
  (GoSchedule u ∈ (RegisterLiveNodes o3 o4 o5 s' lreq).1.2 → is_Some (generating s !! u)).
Proof.
  intros E. pose proof (flush_objects o1 o2 s) as Ho.
  pose proof (flush_frame o1 o2 s) as (_ & _ & Hg). rewrite E in Ho, Hg.
  simpl in Ho, Hg. split.
  - unfold GetObjectLocations. do 2 f_equal. f_equal. rewrite Ho.
    generalize (∅ : gmap N LocationByteTuple). induction (ol_Args qreq) as [|x l IH];
      intros m; simpl; [done|]. by rewrite lookup_empty.
  - destruct (RegisterLiveNodes_actions o3 o4 o5 s' lreq) as (uids & -> & _ & Hiff).
    intros (u' & [= <-] & Hu)%list_elem_of_fmap. apply Hiff in Hu as [Hu _].
    rewrite Ho, Hg, lookup_empty in Hu. destruct Hu as [?|[? ?]]; done.
Qed.

(** [GetObjectLocations] reports, for each requested uid that is in
    memory, its cached nodes and its recorded size, and nothing else. *)
Theorem GetObjectLocations_reply s req :
  ∃ m, GetObjectLocations s req = (Some {| ol_Locations := m |}, None) ∧
  ∀ u, m !! u =
    if decide (u ∈ ol_Args req) then
      (λ l, {| lb_Locations := l; lb_Bytes := default 0%N (objectSizes s !! u) |})
        <$> objectLocations s !! u
    else None.
Proof.
  unfold GetObjectLocations. eexists. split; [done|]. intros u.
  assert (Hg : ∀ (l : list N) (m : gmap N LocationByteTuple),
    foldl (λ locations u, match objectLocations s !! u with
      | Some l => <[u := {| lb_Locations := l; lb_Bytes := default 0%N (objectSizes s !! u) |}]> locations
      | None => locations end) m l !! u =
    if decide (u ∈ l) then
      match objectLocations s !! u with
      | Some l => Some {| lb_Locations := l; lb_Bytes := default 0%N (objectSizes s !! u) |}
      | None => m !! u end
    else m !! u).
  { induction l as [|x l IH]; intros m; simpl; [done|]. rewrite IH.
    destruct (decide (x = u)) as [->|Hne].
    - rewrite (decide_True (P := u ∈ u :: l)) by by left.
      by destruct (objectLocations s !! u); simplify_map_eq; case_decide.
    - rewrite (decide_ext (u ∈ l) (u ∈ x :: l)) by (rewrite elem_of_cons; naive_solver).
      destruct (objectLocations s !! x); [|done].
      by rewrite lookup_insert_ne by done. }
  rewrite Hg, lookup_empty. by case_decide; destruct (objectLocations s !! u).
Qed.

(** Lineage is write-once while registrations do not overlap: a second
    registration of a uid is refused with an error and changes nothing, and
    no sequence of operations changes a recorded lineage. *)
Theorem lineage_is_write_once cfg s u r ops s' acts req :
  lineage s !! u = Some r →
  gcs_run cfg ops s = Returns (s', acts) → gs_Uid req = u →
  lineage s' !! u = Some r ∧
  RegisterLineage s' req = (s', (Some (Status false),
    Some (StatusError Internal "tried to register duplicate lineage"))).
Proof.
  intros Hl Hrun Hu. assert (Hl' : lineage s' !! u = Some r) by by eapply gcs_run_lineage.
  split; [done|]. unfold RegisterLineage, RegisterLineage_check. by rewrite Hu, Hl'.
Qed.
End Recovery.

(** ** Witnesses on the in-memory database *)

(** Object 8 at node 3, held in memory; node 3 reported alive. *)
Definition holding_server : GCSObjServer memdb :=
  set_liveNodes {[ 3%N := true ]} (NotifyOwns demo_server (notify 8 3 64)).1.1.

Lemma immediate_answer_nodes_witness :
  ∃ pk s', RequestLocation app_config pk (Some "h:1") holding_server (ask 8) =
    Returns (s', [GoSendCallback "h:50000" 8 0],
             (Some {| rl_ImmediatelyFound := true |}, None)).
Proof.
  apply (immediate_answer_nodes app_config "h:1" holding_server (ask 8) 0).
  - vm_compute. discriminate.
  - split; [vm_compute; discriminate|by left].
Defined.

(** The uid has its high bit set, which the database refuses. *)
Lemma RequestLocation_errors_witness :
  RequestLocation app_config pick_first (Some "h:1") demo_server (ask two63) =
    Returns (demo_server, [], (None, Some (StatusError Internal
      "could not get node id: uint64 values with high bit set are not supported"))).
Proof.
  apply (RequestLocation_errors app_config pick_first demo_server (ask two63))
    with (e := highbit_error); reflexivity.
Defined.

Lemma flush_succeeds_iff_witness :
  healthy (database holding_server) ∧
  (flushToDisk order_id order_rev holding_server).2 = None.
Proof.
  split; [reflexivity|].
  apply (flush_succeeds_iff order_id order_rev holding_server).
  - reflexivity.
  - split; [change (1 ≤ N.to_nat 32766); lia|].
    split; [change (2 ≤ N.to_nat 32766); lia|].
    intros u ns. change (objectLocations holding_server) with ({[ 8%N := [3%N] ]} : gmap N (list N)).
    rewrite lookup_singleton_Some. intros [<- <-]. by repeat constructor.
  - split; [by exists 8%N|]. intros u. unfold cached.
    change (objectLocations holding_server) with ({[ 8%N := [3%N] ]} : gmap N (list N)).
    destruct (decide (u = 8%N)) as [->|]; [|by rewrite lookup_singleton_ne; [constructor|]].
    rewrite lookup_singleton_eq. apply NoDup_singleton.
Defined.

Lemma repeated_owner_blocks_flush_for_good_witness :
  ∃ s' acts,
    gcs_run app_config [OpFlush order_id order_id; OpNotifyOwns (notify 9 4 1)]
      (NotifyOwns holding_server (notify 8 3 64)).1.1 = Returns (s', acts) ∧
    ∃ e, (flushToDisk order_id order_rev s').2 = Some e ∧
         objectLocations (flushToDisk order_id order_rev s').1 = objectLocations s'.
Proof.
  do 2 eexists. split; [vm_compute; reflexivity|].
  eapply (repeated_owner_blocks_flush_for_good app_config holding_server (notify 8 3 64)
    [OpFlush order_id order_id; OpNotifyOwns (notify 9 4 1)]).
  - by left.
  - vm_compute; reflexivity.
Defined.

Lemma flushed_objects_are_not_recovered_witness :
  ∃ s', flushToDisk order_id order_id holding_server = (s', None) ∧
    stored (database s') 8 = {[ 3%N ]} ∧
    GetObjectLocations s' {| ol_Args := [8%N] |} = (Some {| ol_Locations := ∅ |}, None).
Proof.
  eexists. split; [vm_compute; reflexivity|]. split; [vm_compute; reflexivity|].
  eapply (flushed_objects_are_not_recovered order_id order_id holding_server _ order_id
    order_id order_id {| ln_LiveNodes := ∅ |} {| ol_Args := [8%N] |} 8).
  vm_compute; reflexivity.
Defined.

Lemma lineage_is_write_once_witness :
  ∃ s' acts,
    gcs_run app_config [OpRegisterLineage (lineage_of 5 11)]
      (RegisterLineage demo_server (lineage_of 5 10)).1 = Returns (s', acts) ∧
    lineage s' !! 5%N = Some (lineage_of 5 10).
Proof.
  do 2 eexists. split; [vm_compute; reflexivity|].
  eapply (lineage_is_write_once app_config
    (RegisterLineage demo_server (lineage_of 5 10)).1 5 (lineage_of 5 10)
    [OpRegisterLineage (lineage_of 5 11)] _ _ (lineage_of 5 12)).
  - reflexivity.
  - vm_compute; reflexivity.
  - reflexivity.
Defined.

(** An IPv6 client on port 40123. *)
Lemma callback_goes_to_client_host_witness :
  client_address app_config "[fe80::1]:40123" = "[fe80::1]:50000".
Proof.
  refine (proj1 (callback_goes_to_client_host app_config (to_chars "fe80::1")
    (to_chars "40123") _ _)).
  - split; apply (bool_decide_unpack _); vm_compute; exact I.
  - split_and!; apply (bool_decide_unpack _); vm_compute; exact I.
Defined.
