(* ===== verification/Startup.v ===== *)
(** * Starting the services

    The [main] functions: the address each process listens on, the peers it
    dials and with which options, what it registers, which goroutines it leaves
    behind and the server state it starts with.  A start is a computation over
    what the machine answers ([proc_env]) that records what the process did
    ([event]); the handlers of the other files run once it is [Serving]. *)
From Stdlib Require Import Ascii.
From S2P Require Import Prelude Float32 Net Messages Config Strconv Util Sql MemSql.
From S2P Require Import GcsFunc GlobalScheduler LocalScheduler Worker LocalObjStore GcsDb GcsObj.

(** The gRPC services of [proto/rayclient.proto]. *)
Inductive service :=
  | GCSObjService | GCSFuncService | GlobalSchedulerService | LocalSchedulerService
  | LocalObjStoreService | WorkerService.

Inductive goroutine :=
  | FlushTicker | MemoryLog | LiveNodesLoop | HeartbeatLoop (nodeId : uint64) | ServeLoop.

Inductive event :=
  | Listened (address : string)
  | Dialled (client : service) (address : string) (opts : list DialOption)
  | Registered (svc : service) (opts : list ServerOption)
  | Spawned (g : goroutine)
  | Serving.

#[export] Instance service_eq_dec : EqDecision service.
Proof. solve_decision. Defined.
#[export] Instance goroutine_eq_dec : EqDecision goroutine.
Proof. solve_decision. Defined.
#[export] Instance event_eq_dec : EqDecision event.
Proof. solve_decision. Defined.

(** What the machine answers a starting process. *)
Record proc_env := {
  Listen : string → option goerror;
  Dial : string → list DialOption → option goerror;
  Getenv : string → string;
  Serve : option goerror
}.

(** ** A start as a computation *)

Definition startup (A : Type) : Type := proc_env → list event * outcome A.

#[export] Instance startup_ret : MRet startup := λ A a env, ([], Returns a).
#[export] Instance startup_bind : MBind startup := λ A B k m env,
  match m env with
  | (evs, Returns a) => let '(evs', o) := k a env in (evs ++ evs', o)
  | (evs, Panics w) => (evs, Panics w)
  | (evs, Fatal w) => (evs, Fatal w)
  end.

Definition emit (e : event) : startup unit := λ _, ([e], Returns tt).
Definition lift {A} (o : outcome A) : startup A := λ _, ([], o).
Definition getenv (key : string) : startup string := λ env, ([], Returns (Getenv env key)).

(** [lis, err := net.Listen("tcp", address)] and its [log.Fatalf]. *)
Definition listen (address : string) : startup unit := λ env,
  match Listen env address with
  | Some e => ([], Fatal ("failed to listen: " +:+ error_text e))
  | None => ([Listened address], Returns tt)
  end.

(** [conn, _ := grpc.Dial(address, opts...)]: the error is dropped. *)
Definition dial_dropping (client : service) (address : string) (opts : list DialOption)
    : startup unit := emit (Dialled client address opts).

(** [createGRPCClient], and the [Dial]s of [SendHeartbeats]: an error is fatal. *)
Definition createGRPCClient (client : service) (address : string) : startup unit := λ env,
  match Dial env address GetDialOptions with
  | Some e => ([], Fatal ("failed to connect to " +:+ address +:+ ": " +:+ error_text e))
  | None => ([Dialled client address GetDialOptions], Returns tt)
  end.

(** [s.Serve(lis)] and its [log.Fatalf]. *)
Definition serve : startup unit := λ env,
  match Serve env with
  | Some e => ([Serving], Fatal ("failed to serve: " +:+ error_text e))
  | None => ([Serving], Returns tt)
  end.

(** The addresses of [fmt.Sprintf("%s%d:%d", ..)] and
    [fmt.Sprintf("localhost:%d", ..)] with [int] arguments. *)
Definition peer_address (cfg : Config) (id port : Z) : string :=
  NodePrefix cfg +:+ pretty id +:+ ":" +:+ pretty port.

Definition localhost (port : Z) : string := "localhost:" +:+ pretty port.

(** [":" + strconv.Itoa(port)] *)
Definition listen_address (port : Z) : string := ":" +:+ pretty port.

Section Mains.
Context (cfg : Config).

Definition object_table_address : string :=
  peer_address cfg (id_GCS (cfg_NodeIDs cfg)) (port_GCSObjectTable (cfg_Ports cfg)).
Definition global_scheduler_address : string :=
  peer_address cfg (id_GlobalScheduler (cfg_NodeIDs cfg)) (port_GlobalScheduler (cfg_Ports cfg)).

(** [gcsobjtable]: [sql.Open] has answered [opened]. *)
Definition gcsobjtable_main {DB TX STMT} `{!SqlDriver DB TX STMT} (opened : result DB)
    : startup (GCSObjServer DB) :=
  listen (listen_address (port_GCSObjectTable (cfg_Ports cfg)));;
  (* [NewGCSObjServer] *)
  database ← lift (setup_database opened);
  dial_dropping GlobalSchedulerService global_scheduler_address [WithInsecure];;
  s ← lift (setup_server (FlushIntervalSec cfg) database);
  (match ticker s with Some _ => emit (Spawned FlushTicker) | None => mret tt end);;
  emit (Spawned MemoryLog);;
  emit (Registered GCSObjService GetServerOptions);;
  serve;;
  mret s.

Definition gcsfunctable_main : startup GCSFuncServer :=
  listen (listen_address (port_GCSFunctionTable (cfg_Ports cfg)));;
  emit (Registered GCSFuncService GetServerOptions);;
  serve;;
  mret NewGCSFuncServer.

Definition globalscheduler_main : startup GlobalScheduler.server :=
  listen (listen_address (port_GlobalScheduler (cfg_Ports cfg)));;
  dial_dropping GCSObjService object_table_address GetDialOptions;;
  emit (Registered GlobalSchedulerService GetServerOptions);;
  emit (Spawned LiveNodesLoop);;
  serve;;
  mret {| status := ∅ |}.

Definition localscheduler_main : startup LocalScheduler.server :=
  listen (listen_address (port_LocalScheduler (cfg_Ports cfg)));;
  dial_dropping WorkerService (localhost (port_LocalWorkerStart (cfg_Ports cfg))) GetDialOptions;;
  dial_dropping GlobalSchedulerService global_scheduler_address GetDialOptions;;
  id ← getenv "NODE_ID";
  let nodeId := to_uint64 (Atoi id).1 in
  dial_dropping GCSObjService object_table_address [WithInsecure];;
  emit (Registered LocalSchedulerService GetServerOptions);;
  emit (Spawned (HeartbeatLoop nodeId));;
  serve;;
  mret {| LocalScheduler.localNodeID := nodeId; LocalScheduler.alive := true |}.

(** What [SendHeartbeats] does before its loop, in its own goroutine. *)
Definition SendHeartbeats_setup : startup unit :=
  createGRPCClient WorkerService (localhost (port_LocalWorkerStart (cfg_Ports cfg)));;
  createGRPCClient LocalObjStoreService (localhost (port_LocalObjectStore (cfg_Ports cfg))).

(** [startServer] serves in a goroutine and returns; [main] then blocks. *)
Definition startServer (port : string) : startup LocalObjStore.server :=
  listen port;;
  dial_dropping GCSObjService object_table_address GetDialOptions;;
  id ← getenv "NODE_ID";
  let nodeId := to_uint64 (Atoi id).1 in
  emit (Registered LocalObjStoreService GetServerOptions);;
  emit (Spawned ServeLoop);;
  serve;;
  mret (LocalObjStore.new_server nodeId).

Definition localobjstore_main : startup LocalObjStore.server :=
  startServer (listen_address (port_LocalObjectStore (cfg_Ports cfg))).

(** The address of the object store is a constant of the source. *)
Definition worker_main : startup workerServer :=
  listen (listen_address (port_LocalWorkerStart (cfg_Ports cfg)));;
  createGRPCClient GCSFuncService
    (peer_address cfg (id_GCS (cfg_NodeIDs cfg)) (port_GCSFunctionTable (cfg_Ports cfg)));;
  createGRPCClient LocalObjStoreService "localhost:50000";;
  emit (Registered WorkerService GetServerOptions);;
  serve;;
  mret initial_worker.

(** [gcschainconductor] *)
Definition gcschainconductor_main : startup unit :=
  if EnableChainReplication cfg then
    listen (listen_address (port_GCSFunctionTable (cfg_Ports cfg)));;
    emit (Registered GCSFuncService GetServerOptions);;
    serve
  else mret tt.
End Mains.

(** ** What a start can do *)

(** Every event of the computation satisfies [P]. *)
Definition only {A} (P : event → Prop) (m : startup A) : Prop := ∀ env, Forall P (m env).1.

Section Only.
Context (P : event → Prop).

Lemma only_ret {A} (a : A) : only P (mret a).
Proof. intros env. constructor. Qed.
Lemma only_emit e : P e → only P (emit e).
Proof. intros He env. by constructor. Qed.
Lemma only_lift {A} (o : outcome A) : only P (lift o).
Proof. intros env. constructor. Qed.
Lemma only_getenv key : only P (getenv key).
Proof. intros env. constructor. Qed.
Lemma only_listen address : P (Listened address) → only P (listen address).
Proof. intros H env. unfold listen. destruct (Listen env address); by repeat constructor. Qed.
Lemma only_dial client address opts :
  P (Dialled client address opts) → only P (dial_dropping client address opts).
Proof. apply only_emit. Qed.
Lemma only_createGRPCClient client address :
  P (Dialled client address GetDialOptions) → only P (createGRPCClient client address).
Proof. intros H env. unfold createGRPCClient. destruct (Dial env _ _); by repeat constructor. Qed.
Lemma only_serve : P Serving → only P serve.
Proof. intros H env. unfold serve. destruct (Serve env); by repeat constructor. Qed.
Lemma only_bind {A B} (m : startup A) (k : A → startup B) :
  only P m → (∀ a, only P (k a)) → only P (m ≫= k).
Proof.
  intros Hm Hk env. specialize (Hm env). unfold mbind, startup_bind.
  destruct (m env) as [evs [a|w|w]]; [|done..].
  specialize (Hk a env). destruct (k a env). by apply Forall_app.
Qed.
End Only.

Create HintDb startup.
#[export] Hint Resolve only_ret only_lift only_getenv only_emit only_listen only_dial
  only_createGRPCClient only_serve : startup.

(** ** Processes and nodes *)

Inductive process :=
  | ObjectTable | FunctionTable | GlobalSched | LocalSched | ObjectStore | WorkerProcess
  | ChainConductor.

#[export] Instance process_eq_dec : EqDecision process.
Proof. solve_decision. Defined.

Definition service_of (p : process) : service :=
  match p with
  | ObjectTable => GCSObjService
  | FunctionTable | ChainConductor => GCSFuncService
  | GlobalSched => GlobalSchedulerService
  | LocalSched => LocalSchedulerService
  | ObjectStore => LocalObjStoreService
  | WorkerProcess => WorkerService
  end.

Definition port_of (cfg : Config) (p : process) : Z :=
  let ports := cfg_Ports cfg in
  match p with
  | ObjectTable => port_GCSObjectTable ports
  | FunctionTable | ChainConductor => port_GCSFunctionTable ports
  | GlobalSched => port_GlobalScheduler ports
  | LocalSched => port_LocalScheduler ports
  | ObjectStore => port_LocalObjectStore ports
  | WorkerProcess => port_LocalWorkerStart ports
  end.

Section Processes.
Context {DB TX STMT : Type} `{!SqlDriver DB TX STMT} (cfg : Config) (opened : result DB).
Implicit Types (env : proc_env) (p q : process).

Definition start (p : process) : startup unit :=
  match p with
  | ObjectTable => gcsobjtable_main cfg opened;; mret tt
  | FunctionTable => gcsfunctable_main cfg;; mret tt
  | GlobalSched => globalscheduler_main cfg;; mret tt
  | LocalSched => localscheduler_main cfg;; mret tt
  | ObjectStore => localobjstore_main cfg;; mret tt
  | WorkerProcess => worker_main cfg;; mret tt
  | ChainConductor => gcschainconductor_main cfg
  end.

(** Everything a process does while it starts, [SendHeartbeats] included. *)
Definition start_events (p : process) env : list event :=
  (start p env).1 ++
  (if decide (p = LocalSched) then (SendHeartbeats_setup cfg env).1 else []).

(** The database opens and the ticker's interval is valid. *)
Definition can_flush : Prop :=
  (∃ d, opened = Ok d) ∧ (FlushIntervalSec cfg = -1 ∨ 0 < FlushIntervalSec cfg)%Z.

Definition dials_succeed env : Prop := ∀ address opts, Dial env address opts = None.

(** [NewGCSObjServer] on a database that opened: the ticker is set exactly when
    flushing is enabled. *)
Lemma NewGCSObjServer_starts d :
  (FlushIntervalSec cfg = -1 ∨ 0 < FlushIntervalSec cfg)%Z →
  ∃ d' s, setup_database (Ok d) = Returns d' ∧ setup_server (FlushIntervalSec cfg) d' = Returns s.
Proof.
  intros Hfl. unfold setup_database, setup_server.
  destruct (setCacheSizeToZero d) as [d1 ?], (createObjectLocationsTable d1) as [d2 ?].
  exists d2. case_decide; [by eexists|]. rewrite decide_False by lia. by eexists.
Qed.

(** A start that may listen listens on the port of its kind and registers its
    service; one that may not ends there. *)
Definition starts_well p env : Prop :=
  match Listen env (listen_address (port_of cfg p)) with
  | Some e => start p env = ([], Fatal ("failed to listen: " +:+ error_text e))
  | None => ∃ evs opts, start p env = (Listened (listen_address (port_of cfg p)) :: evs, Returns tt) ∧
                        Registered (service_of p) opts ∈ evs ∧ ∀ a, Listened a ∉ evs
  end.

Ltac event_list :=
  do 2 eexists; split; [reflexivity|]; split;
  [repeat first [apply list_elem_of_here | apply list_elem_of_further]
  |let a := fresh in let H := fresh in intros a H;
   repeat (apply elem_of_cons in H as [H|H]; [discriminate H|]); by apply not_elem_of_nil in H].

Lemma start_listens p env :
  can_flush → dials_succeed env → Serve env = None →
  (p = ChainConductor → EnableChainReplication cfg = true) →
  starts_well p env.
Proof.
  intros [[d Hop] Hfl] HD HS HC. unfold starts_well.
  destruct p; cbn [port_of start service_of];
    unfold gcsobjtable_main, gcsfunctable_main, globalscheduler_main, localscheduler_main,
      localobjstore_main, startServer, worker_main, gcschainconductor_main,
      createGRPCClient, serve, mbind, startup_bind, listen;
    rewrite ?HC by done;
    destruct (Listen env _) eqn:EL; try reflexivity; rewrite ?HD, ?HS; cbn.
  1: destruct (NewGCSObjServer_starts d Hfl) as (d' & s & Hd' & Hs); rewrite Hop;
     unfold lift; rewrite Hd'; cbn; rewrite Hs; destruct (ticker s); cbn; rewrite ?HS; cbn.
  all: event_list.
Qed.

(** ** Finding one another *)

(** Which processes run on which node: the tables and the global scheduler on
    the configured nodes, and worker, object store and local scheduler
    together. *)
Record deployment (runs : Z → process → Prop) : Prop := {
  tables_run : runs (id_GCS (cfg_NodeIDs cfg)) ObjectTable ∧
               runs (id_GCS (cfg_NodeIDs cfg)) FunctionTable;
  scheduler_runs : runs (id_GlobalScheduler (cfg_NodeIDs cfg)) GlobalSched;
  workers_run : ∀ n, runs n LocalSched ∨ runs n WorkerProcess ∨ runs n ObjectStore →
    runs n LocalSched ∧ runs n WorkerProcess ∧ runs n ObjectStore
}.

(** [address], dialled on node [n], is the port of process [q] of node [m]. *)
Definition reaches (n : Z) (address : string) (m : Z) (q : process) : Prop :=
  address = peer_address cfg m (port_of cfg q) ∨ (m = n ∧ address = localhost (port_of cfg q)).

(** The peers a kind of process dials: their node and kind. *)
Definition peers (n : Z) (p : process) : list (Z * process) :=
  let gcs := id_GCS (cfg_NodeIDs cfg) in
  let sched := id_GlobalScheduler (cfg_NodeIDs cfg) in
  match p with
  | ObjectTable => [(sched, GlobalSched)]
  | GlobalSched | ObjectStore => [(gcs, ObjectTable)]
  | LocalSched => [(n, WorkerProcess); (sched, GlobalSched); (gcs, ObjectTable); (n, ObjectStore)]
  | WorkerProcess => [(gcs, FunctionTable); (n, ObjectStore)]
  | FunctionTable | ChainConductor => []
  end.

(** A dialled event names a peer; other events say nothing. *)
Definition dials_peer (n : Z) (p : process) (e : event) : Prop :=
  match e with
  | Dialled svc address _ =>
      Exists (λ mq, service_of mq.2 = svc ∧ reaches n address mq.1 mq.2) (peers n p)
  | _ => True
  end.

Ltac which_peer :=
  cbn; match goal with
  | |- True => exact I
  | |- Exists _ _ =>
      repeat first [apply Exists_cons_hd; split; [reflexivity|];
                    first [left; reflexivity | right; split; reflexivity]
                   |apply Exists_cons_tl]
  end.

(** Walk through a start, one primitive at a time. *)
Ltac walk :=
  repeat match goal with
  | |- only _ (_ ≫= _) => apply only_bind; [|intros ?]
  | |- only _ (match ?x with _ => _ end) => destruct x
  | |- only _ (dial_dropping _ _ _) => apply only_dial
  | |- only _ (createGRPCClient _ _) => apply only_createGRPCClient
  | |- only _ (emit _) => apply only_emit
  | |- only _ (listen _) => apply only_listen
  | |- only _ serve => apply only_serve
  | |- only _ _ => solve [auto with startup]
  end.

Lemma dialled_peers n p env :
  port_LocalObjectStore (cfg_Ports cfg) = 50000%Z →
  Forall (dials_peer n p) (start_events p env).
Proof.
  intros Hport. unfold start_events. apply Forall_app. split.
  - assert (Hstore : "localhost:50000" = localhost (port_of cfg ObjectStore))
      by (unfold localhost, port_of; by rewrite Hport).
    apply (λ H : only _ _, H env). destruct p; cbn [start];
      unfold gcsobjtable_main, gcsfunctable_main, globalscheduler_main, localscheduler_main,
        localobjstore_main, startServer, worker_main, gcschainconductor_main;
      rewrite ?Hstore; walk; which_peer.
  - case_decide as Hp; [subst|constructor]. apply (λ H : only _ _, H env).
    unfold SendHeartbeats_setup. walk; which_peer.
Qed.

(** Every peer of a process of a deployment runs. *)
Lemma peers_run runs n p m q :
  deployment runs → runs n p → (m, q) ∈ peers n p → runs m q.
Proof.
  intros [[Ho Hf] Hs Hw] Hr Hin.
  assert (Hn := Hw n).
  destruct p; cbn in Hin;
    repeat (apply elem_of_cons in Hin as [Hin|Hin]; [injection Hin as -> ->; tauto|]);
    by apply not_elem_of_nil in Hin.
Qed.
End Processes.

(** C27: Every service finds its peers.  In every deployment that runs the two
    tables and the global scheduler on the configured nodes and puts worker,
    object store and local scheduler together, whatever a process dials while
    it starts is the address of a process that runs, on that port and of the
    kind the client expects: started on a machine that lets it listen and dial,
    it listens there and registers that service.  The object stores have to
    listen on port 50000, which is a constant of the worker. *)
Theorem dialled_peers_listen
    {DB TX STMT : Type} `{!SqlDriver DB TX STMT} (cfg : Config) (opened : result DB)
    runs n p env svc address opts :
  deployment cfg runs → can_flush cfg opened → runs n p →
  port_LocalObjectStore (cfg_Ports cfg) = 50000%Z →
  Dialled svc address opts ∈ start_events cfg opened p env →
  ∃ m q, runs m q ∧ service_of q = svc ∧
    (address = peer_address cfg m (port_of cfg q) ∨
     m = n ∧ address = localhost (port_of cfg q)) ∧
    ∀ env', dials_succeed env' → Serve env' = None →
      Listen env' (listen_address (port_of cfg q)) = None →
      ∃ opts', Listened (listen_address (port_of cfg q)) ∈ (start cfg opened q env').1 ∧
               Registered svc opts' ∈ (start cfg opened q env').1.
Proof.
  intros Hd Hc Hr Hport Hin.
  pose proof (dialled_peers cfg opened n p env Hport) as Hall.
  rewrite Forall_forall in Hall. apply Hall in Hin as ([m q] & Hin & Hsvc & Hreach)%Exists_exists.
  cbn [fst snd] in *. exists m, q. split; [by eapply peers_run|]. split; [done|].
  split; [exact Hreach|]. intros env' HD HS HL.
  assert (Hq : q ≠ ChainConductor).
  { intros ->. destruct p; cbn in Hin; set_solver. }
  pose proof (start_listens cfg opened q env' Hc HD HS (λ H, False_ind _ (Hq H))) as Hst.
  unfold starts_well in Hst. rewrite HL in Hst. destruct Hst as (evs & opts' & -> & Hreg & _).
  exists opts'. cbn. rewrite <-Hsvc. split; [left|by right].
Qed.

(** ** Sharing a node *)

Definition listened (evs : list event) : list string :=
  omap (λ e, match e with Listened a => Some a | _ => None end) evs.

(** The processes of one node, started one after the other: an address that an
    earlier one listens on is taken. *)
Definition sharing (bound : list string) (env : proc_env) : proc_env :=
  {| Listen := λ address,
       if decide (address ∈ bound) then Some (PlainError "bind: address already in use")
       else Listen env address;
     Dial := Dial env; Getenv := Getenv env; Serve := Serve env |}.

Section Node.
Context {DB TX STMT : Type} `{!SqlDriver DB TX STMT} (cfg : Config) (opened : result DB)
        (env : proc_env).

Fixpoint start_node (bound : list string) (ps : list process) : list (process * outcome unit) :=
  match ps with
  | [] => []
  | p :: ps =>
      let '(evs, o) := start cfg opened p (sharing bound env) in
      (p, o) :: start_node (bound ++ listened evs) ps
  end.

Lemma listen_address_inj : Inj (=) (=) listen_address.
Proof. intros p q E. unfold listen_address in E. by repeat apply (inj _) in E. Qed.

Lemma listened_nothing evs : (∀ a, Listened a ∉ evs) → listened evs = [].
Proof.
  intros H. unfold listened. induction evs as [|e evs IH]; [done|].
  assert (∀ a, Listened a ∉ evs) as He by (intros a Ha; apply (H a); by right).
  destruct e; cbn; rewrite ?(IH He); try done. exfalso. eapply H. left.
Qed.

Lemma start_node_iff bound ps :
  can_flush cfg opened → dials_succeed env → Serve env = None →
  (∀ a, Listen env a = None) →
  (ChainConductor ∈ ps → EnableChainReplication cfg = true) →
  Forall (λ po, po.2 = Returns tt) (start_node (listen_address <$> bound) ps) ↔
  NoDup (port_of cfg <$> ps) ∧ ∀ port, port ∈ bound → port ∉ port_of cfg <$> ps.
Proof.
  intros Hc HD HS HL. revert bound. induction ps as [|p ps IH]; intros bound HC;
    cbn [start_node fmap list_fmap].
  { split; [|constructor]. intros _. split; [constructor|]. intros port _. apply not_elem_of_nil. }
  pose proof (start_listens cfg opened p (sharing (listen_address <$> bound) env) Hc HD HS
    (λ E, HC (eq_rect _ (λ x, x ∈ p :: ps) (list_elem_of_here p ps) _ E))) as Hst.
  unfold starts_well in Hst. cbn [sharing Listen] in Hst.
  rewrite NoDup_cons. case_decide as Hb.
  - rewrite Hst. rewrite Forall_cons. cbn. split; [by intros [? _]|].
    intros [_ Hn]. apply list_elem_of_fmap in Hb as (port & E & Hb).
    apply listen_address_inj in E. subst port. destruct (Hn _ Hb). left.
  - rewrite HL in Hst. destruct Hst as (evs & opts & -> & _ & Hevs).
    rewrite Forall_cons.
    rewrite (eq_refl : listened (Listened _ :: evs) = listen_address (port_of cfg p) :: listened evs).
    rewrite listened_nothing by done.
    assert ((listen_address <$> bound) ++ [listen_address (port_of cfg p)]
            = listen_address <$> (bound ++ [port_of cfg p])) as -> by (by rewrite fmap_app).
    rewrite IH by (intros ?; apply HC; by right).
    assert (port_of cfg p ∉ bound) as Hb'.
    { intros H. apply Hb. apply list_elem_of_fmap. by exists (port_of cfg p). }
    setoid_rewrite elem_of_app. setoid_rewrite list_elem_of_singleton.
    setoid_rewrite elem_of_cons. naive_solver.
Qed.
End Node.

(** The processes of a node can share it exactly when their ports differ.
    Started in any order on a machine that has no other obstacle, all of them
    come up if and only if no two are configured with the same port; the first
    process to find its port taken ends with [log.Fatalf]. *)
Theorem node_starts_iff
    {DB TX STMT : Type} `{!SqlDriver DB TX STMT} (cfg : Config) (opened : result DB) env ps :
  can_flush cfg opened → dials_succeed env → Serve env = None →
  (∀ a, Listen env a = None) →
  (ChainConductor ∈ ps → EnableChainReplication cfg = true) →
  Forall (λ po, po.2 = Returns tt) (start_node cfg opened env [] ps) ↔
  NoDup (port_of cfg <$> ps).
Proof.
  intros Hc HD HS HL HC. rewrite (start_node_iff cfg opened env [] ps Hc HD HS HL HC).
  split; [by intros [? _]|]. intros H. split; [done|]. intros port Hp. by apply not_elem_of_nil in Hp.
Qed.

(** Object store and local scheduler of a node start with the same id, the one
    in [NODE_ID]; without one they take id 0. *)
Lemma started_with_node_id cfg env evs1 evs2 ls lo :
  localscheduler_main cfg env = (evs1, Returns ls) →
  localobjstore_main cfg env = (evs2, Returns lo) →
  LocalScheduler.alive ls = true ∧
  LocalScheduler.localNodeID ls = LocalObjStore.localNodeID lo ∧
  (∀ n, (n < two63)%N → Getenv env "NODE_ID" = FormatUint n → LocalScheduler.localNodeID ls = n) ∧
  (Getenv env "NODE_ID" = "" → LocalScheduler.localNodeID ls = 0%N).
Proof.
  unfold localscheduler_main, localobjstore_main, startServer, serve, listen, mbind, startup_bind.
  destruct (Listen env _); [done|]. destruct (Serve env); [done|]. cbn.
  intros [= _ <-]. destruct (Listen env _); [done|]. cbn. intros [= _ <-]. cbn.
  split_and!; [done|done| |by intros ->].
  intros n Hn ->. rewrite Atoi_FormatUint by done. apply to_uint64_of_N.
  unfold two63, two64 in *. lia.
Qed.

(** ** Witnesses *)

(** The deployment of the shipped compose file, with this worker in the place of
    the Python one it starts. *)
Definition compose (n : Z) (p : process) : Prop :=
  match p with
  | ObjectTable | FunctionTable => n = 0%Z
  | GlobalSched => n = 1%Z
  | LocalSched | WorkerProcess | ObjectStore => (2 <= n <= 4)%Z
  | ChainConductor => False
  end.

Lemma compose_deployment : deployment app_config compose.
Proof. split; cbn; [done..|]. intros n [H|[H|H]]; tauto. Qed.

(** A machine on which every call succeeds, for node 3. *)
Definition node_3 : proc_env :=
  {| Listen _ := None; Dial _ _ := None; Getenv _ := "3"; Serve := None |}.

Lemma app_config_can_flush : can_flush app_config (Ok mem_empty).
Proof. split; [by eexists|]. right. reflexivity. Qed.

Lemma dialled_peers_listen_witness :
  Dialled LocalObjStoreService "localhost:50000" GetDialOptions
    ∈ start_events app_config (Ok mem_empty) WorkerProcess node_3 ∧
  ∃ m q, compose m q ∧ service_of q = LocalObjStoreService ∧
    ("localhost:50000" = peer_address app_config m (port_of app_config q) ∨
     m = 3%Z ∧ "localhost:50000" = localhost (port_of app_config q)) ∧
    ∀ env', dials_succeed env' → Serve env' = None →
      Listen env' (listen_address (port_of app_config q)) = None →
      ∃ opts', Listened (listen_address (port_of app_config q))
                 ∈ (start app_config (Ok mem_empty) q env').1 ∧
               Registered LocalObjStoreService opts' ∈ (start app_config (Ok mem_empty) q env').1.
Proof.
  assert (Dialled LocalObjStoreService "localhost:50000" GetDialOptions
    ∈ start_events app_config (Ok mem_empty) WorkerProcess node_3) as Hin
    by (apply (bool_decide_unpack _); vm_compute; exact I).
  split; [exact Hin|].
  refine (dialled_peers_listen app_config (Ok mem_empty) compose 3 WorkerProcess node_3 _ _ _
    compose_deployment app_config_can_flush _ eq_refl Hin). cbn. lia.
Defined.

(** The processes of a worker node come up; the conductor and the function
    table do not, on one node. *)
Lemma node_starts_iff_witness :
  Forall (λ po, po.2 = Returns tt)
    (start_node app_config (Ok mem_empty) node_3 [] [WorkerProcess; ObjectStore; LocalSched]) ∧
  ¬ Forall (λ po, po.2 = Returns tt)
    (start_node app_config (Ok mem_empty) node_3 [] [FunctionTable; ObjectTable; ChainConductor]).
Proof.
  pose proof (λ ps, node_starts_iff app_config (Ok mem_empty) node_3 ps app_config_can_flush
    (λ _ _, eq_refl) eq_refl (λ _, eq_refl) (λ _, eq_refl)) as H.
  split.
  - apply H. apply (bool_decide_unpack _). vm_compute. exact I.
  - rewrite H. apply (bool_decide_unpack _). vm_compute. exact I.
Defined.
