(* ===== verification/Cluster.v ===== *)
(** * The services together

    Three paths that cross the services: a lost object is recomputed from its
    lineage by the call that first created it; a client that waited for an
    object receives the bytes the worker's node stored; and a client that
    asks for an object whose holders are all alive is sent to the node of the
    tables.  The messages between the services are the ones the component
    models emit; only the transport is left out. *)
From S2P Require Import Prelude Float32 Net Messages Config Sql MemSql GcsDb.
From S2P Require Import GlobalScheduler GlobalSchedulerThms LocalScheduler.
From S2P Require Import GcsObj GcsObjSpec GcsObjInv GcsObjThms GcsObjRecovery.
From S2P Require Import LocalObjStore LocalObjStoreThms.

(** The call a worker receives for a client's request. *)
Definition run_of (uid : N) (req : ScheduleRequest) : RunRequest :=
  {| rr_Uid := uid; rr_Name := sr_Name req; rr_Args := sr_Args req; rr_Kwargs := sr_Kwargs req |}.

Section Cluster.
Context {DB TX STMT : Type} `{!SqlDriver DB TX STMT, !SqlLaws DB TX STMT} (cfg : Config).
Implicit Types g : GCSObjServer DB.

(** Recovery re-runs the lost task.  Let a local scheduler accept a
    request and the object table record the lineage it sent.  Whatever the
    table does afterwards, once a report says that the object's generator and
    all its holders in memory are dead, the table sends the global scheduler
    a request; acknowledged, that request registers one node as the generator
    and runs, on that very node, the same function on the same arguments under
    the same uid, and the node sent a heartbeat within the timeout. *)
Theorem lost_object_is_recomputed draw ws ls req lin rest r g ops g1 acts o1 o2 o3 lreq :
  let uid := TruncateHighBit draw in
  LocalScheduler.Schedule draw ws ls req = (CallRegisterLineage lin :: rest, Returns r) →
  lineage g !! uid = None →
  gcs_run cfg ops (RegisterLineage g lin).1 = Returns (g1, acts) →
  is_Some (generating g1 !! uid) ∨ is_Some (objectLocations g1 !! uid) →
  (∀ n, n ∈ getNodes g1 uid → default false (ln_LiveNodes lreq !! n) = false) →
  GoSchedule uid ∈ (RegisterLiveNodes o1 o2 o3 g1 lreq).1.2 ∧
  ∃ sent, schedule_request (RegisterLiveNodes o1 o2 o3 g1 lreq).1.1 uid = Some sent ∧
    ∀ env gs calls ok,
      GlobalScheduler.Schedule cfg env gs sent = (calls, Returns (Some ok, None)) →
      ∃ node hb, status gs !! node = Some hb ∧ is_live (env_now env node) hb = true ∧
        calls = [CallRegisterGenerating {| gn_Uid := uid; gn_NodeId := node |};
                 CallRun (node_address (NodePrefix cfg) node
                            (port_LocalWorkerStart (cfg_Ports cfg))) (run_of uid req)].
Proof.
  intros uid Hs Hfresh Hrun Hknown Hdead. split.
  { destruct (RegisterLiveNodes_actions o1 o2 o3 g1 lreq) as (uids & -> & _ & Hiff).
    apply list_elem_of_fmap_2. by apply Hiff. }
  assert (Hlin : lin = {| gs_Uid := uid; gs_Name := sr_Name req;
    gs_Args := sr_Args req; gs_Kwargs := sr_Kwargs req; gs_Uids := sr_Uids req;
    gs_NewObject := false; gs_NodeId := 0; gs_LocalityFlag := false |}).
  { unfold LocalScheduler.Schedule in Hs. destruct (negb _); [by injection Hs|].
    destruct ws.1; [|done]. by destruct (_ <? _)%N; injection Hs. }
  exists lin. split.
  - change (schedule_request (RegisterLiveNodes o1 o2 o3 g1 lreq).1.1 uid) with (lineage g1 !! uid).
    eapply (gcs_run_lineage cfg); [|done]. unfold RegisterLineage, RegisterLineage_check.
    rewrite Hlin. simpl. rewrite Hfresh. simpl. by rewrite lookup_insert_eq.
  - intros env gs calls ok (node & Hn & ->)%Schedule_acknowledged. rewrite Hlin in *.
    rewrite decide_True in Hn by done. apply getBestWorker_live in Hn as (hb & Hhb & Hl).
    by exists node, hb.
Qed.

(** What an acknowledged [Store] leaves behind and announces. *)
Lemma Store_acknowledged e fs s req fs' s' nreq ok :
  Store e fs s req = (fs', s', [CallNotifyOwns nreq], (Some ok, None)) →
  holds fs' s' (so_Uid req) (so_ObjectBytes req) ∧ localNodeID s' = localNodeID s ∧
  nreq = {| no_Uid := so_Uid req; no_NodeId := localNodeID s;
            no_ObjectSize := N.of_nat (length (so_ObjectBytes req)) |}.
Proof.
  unfold Store. destruct (keep _ _ _ _ _) as [[fsk sk] [err|]] eqn:Ek; [done|].
  apply keep_ok in Ek as [Hh Hsk]. intros [= <- <- <- _].
  assert (Hid : localNodeID sk = localNodeID s) by by rewrite Hsk. by rewrite Hid.
Qed.

(** A [Get] that copies and caches, once it was called back and the node named
    by the callback sends the bytes. *)
Lemma Get_received_copies CopyFrom e fs s req u node data :
  faultless e → data ≠ [] → ge_Copy req = true → ge_Cache req = true →
  CopyFrom (node_address (NodePrefix cfg) node (port_LocalObjectStore (cfg_Ports cfg)))
    {| cr_Uid := u; cr_Requester := localNodeID s |} =
    (Some {| cp_Uid := u; cp_ObjectBytes := data |}, None) →
  ∃ fs' s' calls,
    Get_received cfg (λ _, None) CopyFrom e fs s req
      {| lf_Uid := u; lf_Location := node; lf_Address := ""; lf_Port := 0 |} =
      (fs', s', calls, (Some {| gr_Uid := ge_Uid req; gr_ObjectBytes := data; gr_Local := false;
                                gr_Size := N.of_nat (length data) |}, None)).
Proof.
  intros He Hd Hcp Hca HC.
  destruct (keep_faultless e fs s (ge_Uid req) data) as (fs' & s' & EB); [done|done|].
  do 3 eexists. unfold Get_received. cbn [lf_Port lf_Uid lf_Location lf_Address].
  rewrite Hcp, Hca. simpl. rewrite HC. simpl. rewrite EB. reflexivity.
Qed.

(** A client that waits for an object receives the worker's result.  When
    the node that computed it acknowledges the [Store], its notification makes
    the object table call back every waiting client; the callback names that
    node, and the client's [Get], copying from the address the callback
    yields, returns exactly the stored bytes. *)
Theorem result_reaches_waiting_client e fsA sA sreq fsA' sA' nreq ok g client
    eB fsB sB greq CopyFrom :
  Store e fsA sA sreq = (fsA', sA', [CallNotifyOwns nreq], (Some ok, None)) →
  client ∈ waiting g (so_Uid sreq) →
  faultless e → faultless eB →
  ge_Uid greq = so_Uid sreq → ge_Copy greq = true → ge_Cache greq = true →
  (∀ copy, cr_Uid copy = so_Uid sreq → (Copy e fsA' sA' copy).2 =
     Returns (CopyFrom (node_address (NodePrefix cfg) (localNodeID sA)
                          (port_LocalObjectStore (cfg_Ports cfg))) copy)) →
  GoSendCallback client (so_Uid sreq) (localNodeID sA) ∈ (NotifyOwns g nreq).1.2 ∧
  ∃ callback fsB' sB' calls,
    sendCallback (λ _, None) client (so_Uid sreq) (localNodeID sA) = Some (client, callback) ∧
    Get_received cfg (λ _, None) CopyFrom eB fsB sB greq callback =
      (fsB', sB', calls,
       (Some {| gr_Uid := so_Uid sreq; gr_ObjectBytes := so_ObjectBytes sreq;
                gr_Local := false;
                gr_Size := N.of_nat (length (so_ObjectBytes sreq)) |}, None)).
Proof.
  intros Hs Hw He HeB Hu Hcp Hca HC.
  destruct (Store_acknowledged _ _ _ _ _ _ _ _ Hs) as (Hh & Hid & ->). split.
  { rewrite NotifyOwns_actions. apply list_elem_of_fmap. by exists client. }
  specialize (HC {| cr_Uid := so_Uid sreq; cr_Requester := localNodeID sB |} eq_refl).
  rewrite (Copy_holds _ _ _ _ _ _ He Hh) in HC. injection HC as HC.
  destruct (Get_received_copies CopyFrom eB fsB sB greq (so_Uid sreq) (localNodeID sA)
    (so_ObjectBytes sreq)) as (fsB' & sB' & calls & E); try done; [by destruct Hh as (_ & _ & ?)|].
  do 4 eexists. split; [reflexivity|]. by rewrite E, Hu.
Qed.
End Cluster.

(** ** A known object whose holders are all alive *)

(** The address of the function table, by the shipped configuration. *)
Definition function_table_address : string :=
  node_address (NodePrefix app_config) (Z.to_N (id_GCS (cfg_NodeIDs app_config)))
    (port_GCSFunctionTable (cfg_Ports app_config)).

(** C38: with the shipped configuration an object whose known holders are all
    alive cannot be fetched: the object table answers that it was found, the
    callback names node 0, and the client's [Get] asks the function table,
    which has no [Copy], and fails; it contacts none of the holders. *)
Theorem live_object_cannot_be_fetched
    {DB TX STMT : Type} `{!SqlDriver DB TX STMT, !SqlLaws DB TX STMT}
    pk p (s : GCSObjServer DB) req s' acts :
  (∀ n, n ∈ locations s (rl_Uid req) → live s n = true) →
  RequestLocation app_config pk (Some p) s req =
    Returns (s', acts, (Some {| rl_ImmediatelyFound := true |}, None)) →
  let client := client_address app_config p in
  acts = [GoSendCallback client (rl_Uid req) 0] ∧
  ∃ callback, sendCallback (λ _, None) client (rl_Uid req) 0 = Some (client, callback) ∧
  ∀ CopyFrom err e fs sB greq,
    (∀ copy, CopyFrom function_table_address copy = (None, Some err)) → ge_Copy greq = true →
    ∃ msg, Get_received app_config (λ _, None) CopyFrom e fs sB greq callback =
      (fs, sB, [CallCopy function_table_address
                  {| cr_Uid := rl_Uid req; cr_Requester := localNodeID sB |}],
       (Some {| gr_Uid := ge_Uid greq; gr_ObjectBytes := []; gr_Local := false; gr_Size := 0 |},
        Some (PlainError msg))).
Proof.
  intros Hl E client. apply RequestLocation_found in E as (n & -> & _ & Hn).
  assert (n = 0%N) as -> by (destruct Hn as [->|[Hin Hd]]; [done|apply Hl in Hin; congruence]).
  split; [done|]. eexists. split; [reflexivity|]. intros CopyFrom err e fs sB greq HC Hcp.
  unfold Get_received. cbn [lf_Port lf_Uid lf_Location lf_Address]. rewrite Hcp.
  rewrite decide_True by done. cbn [negb]. change (node_address _ _ _) with function_table_address.
  rewrite HC. eexists. reflexivity.
Qed.

(** ** Witnesses *)

(** The lineage of the task that the demonstration request of the local
    scheduler creates under uid 5, and the table after node 3 stored its
    result. *)
Definition demo_lineage : GlobalScheduleRequest :=
  {| gs_Uid := 5; gs_Name := 3; gs_Args := [Byte.x61]; gs_Kwargs := []; gs_Uids := [9%N];
     gs_NewObject := false; gs_NodeId := 0; gs_LocalityFlag := false |}.

Definition demo_stored : GCSObjServer memdb :=
  (NotifyOwns (RegisterLineage demo_server demo_lineage).1 (notify 5 3 64)).1.1.

Definition node_3_dead : LiveNodesRequest := {| ln_LiveNodes := {[ 3%N := false ]} |}.

Lemma lost_object_is_recomputed_witness :
  GoSchedule 5 ∈ (RegisterLiveNodes order_id order_id order_id demo_stored node_3_dead).1.2 ∧
  ∃ sent calls node, schedule_request
      (RegisterLiveNodes order_id order_id order_id demo_stored node_3_dead).1.1 5 = Some sent ∧
    GlobalScheduler.Schedule app_config demo_env demo_sched sent =
      (calls, Returns (Some (Status true), None)) ∧
    calls = [CallRegisterGenerating {| gn_Uid := 5; gn_NodeId := node |};
             CallRun (node_address "node" node 50002) (run_of 5 (demo_request 0))].
Proof.
  destruct (lost_object_is_recomputed app_config 5
    (Some (demo_status 0), None) (LocalScheduler.Build_server 3 true) (demo_request 0)
    demo_lineage _ _ demo_server [OpNotifyOwns (notify 5 3 64)] demo_stored []
    order_id order_id order_id node_3_dead eq_refl eq_refl eq_refl) as (Hin & sent & Hsent & Hrun).
  - right. vm_compute. by eexists.
  - intros n Hn. vm_compute in Hn. apply list_elem_of_singleton in Hn as ->. reflexivity.
  - split; [exact Hin|].
    assert (sent = demo_lineage) as -> by (vm_compute in Hsent; by injection Hsent as <-).
    destruct (GlobalScheduler.Schedule app_config demo_env demo_sched demo_lineage)
      as [calls o] eqn:E.
    assert (Ho : o = Returns (Some (Status true), None)) by (vm_compute in E; by injection E as _ <-).
    rewrite Ho in E. destruct (Hrun _ _ _ _ E) as (node & hb & _ & _ & Hc).
    exists demo_lineage, calls, node. split; [exact Hsent|]. split; [exact E|exact Hc].
Defined.

(** Client 10.0.0.5 waits for object 7, which node 2 stores; node 3 gets it. *)
Definition demo_waiting : GCSObjServer memdb :=
  set_waitlist {[ 7%N := ["10.0.0.5:50000"] ]} demo_server.

Lemma result_reaches_waiting_client_witness :
  GoSendCallback "10.0.0.5:50000" 7 2 ∈ (NotifyOwns demo_waiting (notify 7 2 3)).1.2 ∧
  ∃ callback fs s calls,
    sendCallback (λ _, None) "10.0.0.5:50000" 7 2 = Some ("10.0.0.5:50000", callback) ∧
    Get_received app_config (λ _, None) from_node_2 no_faults no_files (new_server 3)
      (get_req 7) callback =
      (fs, s, calls, (Some {| gr_Uid := 7; gr_ObjectBytes := [Byte.x01; Byte.x02; Byte.x03];
                              gr_Local := false; gr_Size := 3 |}, None)).
Proof.
  refine (result_reaches_waiting_client app_config no_faults no_files (new_server 2)
    (store_req 7 [Byte.x01; Byte.x02; Byte.x03]) demo_node.1 demo_node.2 (notify 7 2 3)
    (Status true) demo_waiting "10.0.0.5:50000" no_faults no_files (new_server 3) (get_req 7)
    from_node_2 _ _ _ _ _ _ _ _); try reflexivity; try done.
  - vm_compute. left.
  - intros [u requester]. simpl. intros ->. unfold from_node_2.
    rewrite (Copy_holds no_faults _ _ 7 requester [Byte.x01; Byte.x02; Byte.x03]);
      [done|done|exact demo_node_holds].
Defined.

(** Object 8 is held by node 3 alone, which is alive; a client asks for it. *)
Definition no_copy : string → CopyRequest → reply CopyResponse :=
  λ _ _, (None, Some (StatusError Unimplemented "unknown service ray.LocalObjStore")).

Lemma live_object_cannot_be_fetched_witness :
  ∃ s' callback msg,
    RequestLocation app_config pick_last (Some "10.0.0.5:33012") holding_server (ask 8) =
      Returns (s', [GoSendCallback "10.0.0.5:50000" 8 0],
               (Some {| rl_ImmediatelyFound := true |}, None)) ∧
    (Get_received app_config (λ _, None) no_copy no_faults no_files (new_server 2) (get_req 8)
       callback).2 =
      (Some {| gr_Uid := 8; gr_ObjectBytes := []; gr_Local := false; gr_Size := 0 |},
       Some (PlainError msg)).
Proof.
  destruct (live_object_cannot_be_fetched pick_last "10.0.0.5:33012" holding_server (ask 8)
    holding_server [GoSendCallback "10.0.0.5:50000" 8 0]) as (_ & callback & _ & Hget).
  - intros n Hn. assert (locations holding_server (rl_Uid (ask 8)) = {[ 3%N ]}) as E
      by (vm_compute; reflexivity).
    rewrite E, elem_of_singleton in Hn. by subst.
  - vm_compute. reflexivity.
  - destruct (Hget no_copy _ no_faults no_files (new_server 2) (get_req 8)
      (λ _, eq_refl) eq_refl) as (msg & E).
    exists holding_server, callback, msg. split; [vm_compute; reflexivity|by rewrite E].
Defined.
