(* ===== verification/Recovery.v ===== *)
(** * Recovery across the services

    What happens after a node dies, end to end: the liveness loop of the global
    scheduler notices it, the object table sends the lineage of every lost
    object, the global scheduler places the task again, the worker runs it and
    stores the result, and the table serves those who wait.  The last theorem is
    the same path taken for an object that was never created, which ends the
    global scheduler. *)
From S2P Require Import Prelude Float32 Net Messages Config Sql MemSql GcsDb GcsFunc.
From S2P Require Import GlobalScheduler GlobalSchedulerThms Liveness LocalScheduler.
From S2P Require Import GcsObj GcsObjSpec GcsObjInv GcsObjThms GcsObjRecovery.
From S2P Require Import LocalObjStore LocalObjStoreThms Worker WorkerThms Cluster.

(** The call a worker receives for a recorded lineage. *)
Definition run_of_lineage (lin : GlobalScheduleRequest) : RunRequest :=
  {| rr_Uid := gs_Uid lin; rr_Name := gs_Name lin; rr_Args := gs_Args lin;
     rr_Kwargs := gs_Kwargs lin |}.

(** What an acknowledged call of [Run] did. *)
Lemma Run_spec_acknowledged a run w w' ok calls :
  Run_spec a run w = Returns (w', Replies (Some ok, None), calls) →
  ∃ resp output,
    ans_FetchFunc a {| fe_Name := rr_Name run; fe_CallbackNodeId := 0 |} = (Some resp, None) ∧
    executeFunction (ans_Output a) (fe_SerializedFunc resp) (rr_Args run) (rr_Kwargs run)
      = Returns (output, None) ∧
    calls = [CallFetchFunc {| fe_Name := rr_Name run; fe_CallbackNodeId := 0 |};
             CallPython (fe_SerializedFunc resp) (rr_Args run) (rr_Kwargs run);
             CallStore {| so_Uid := rr_Uid run; so_ObjectBytes := output |}].
Proof.
  unfold Run_spec. destruct (ans_FetchFunc a _) as [[resp|] [err|]] eqn:Ef; try done.
  destruct (executeFunction _ _ _ _) as [[output err]|why|why] eqn:Eo; try done. cbn.
  pose proof (executeFunction_no_error _ _ _ _ _ _ Eo) as ->.
  destruct (Worker.alive w); [|done].
  destruct (ans_Store a _) as [? [err|]]; [done|]. intros [= _ _ <-]. eauto.
Qed.

(** Two runs of one request with the same function table and the same script
    store the same bytes. *)
Lemma Run_spec_deterministic a1 a2 run w1 w2 w1' w2' ok1 ok2 calls1 calls2 :
  ans_FetchFunc a1 = ans_FetchFunc a2 → ans_Output a1 = ans_Output a2 →
  Run_spec a1 run w1 = Returns (w1', Replies (Some ok1, None), calls1) →
  Run_spec a2 run w2 = Returns (w2', Replies (Some ok2, None), calls2) →
  calls1 = calls2.
Proof.
  intros Hf Ho E1 E2.
  apply Run_spec_acknowledged in E1 as (r1 & o1 & F1 & X1 & ->).
  apply Run_spec_acknowledged in E2 as (r2 & o2 & F2 & X2 & ->).
  rewrite Hf, F2 in F1. injection F1 as <-. rewrite Ho, X2 in X1. by injection X1 as <-.
Qed.

Section Recovery.
Context {DB TX STMT : Type} `{!SqlDriver DB TX STMT, !SqlLaws DB TX STMT} (cfg : Config).
Implicit Types g : GCSObjServer DB.

(** C6: Recovery restores the lost object.  Let a task run once and store its
    result.  A report by which the generator and all holders in memory are dead
    makes the table send the recorded lineage.  When the global scheduler
    acknowledges the lineage it is sent, one node, live in its table, was
    registered as the generator and given the very same call; when
    the worker there acknowledges it, with the same function table and script,
    it has stored the very same bytes; and when the object store of that node
    acknowledges them, the table knows that node as a holder, nobody is
    generating the object any more, every client that waited is called back
    with that node, and a copy from it yields the lost bytes. *)
Theorem recovery_restores_object g u lin o1 o2 o3 lreq a1 w1 w1' ok1 calls1 bytes1
    env gs sched_calls ok :
  lineage g !! u = Some lin → gs_Uid lin = u → gs_NodeId lin = 0%N →
  is_Some (generating g !! u) ∨ is_Some (objectLocations g !! u) →
  (∀ n, n ∈ getNodes g u → default false (ln_LiveNodes lreq !! n) = false) →
  Run_spec a1 (run_of_lineage lin) w1 = Returns (w1', Replies (Some ok1, None), calls1) →
  CallStore {| so_Uid := u; so_ObjectBytes := bytes1 |} ∈ calls1 →
  GlobalScheduler.Schedule cfg env gs lin = (sched_calls, Returns (Some ok, None)) →
  GoSchedule u ∈ (RegisterLiveNodes o1 o2 o3 g lreq).1.2 ∧
  schedule_request (RegisterLiveNodes o1 o2 o3 g lreq).1.1 u = Some lin ∧
  ∃ node hb, status gs !! node = Some hb ∧ is_live (env_now env node) hb = true ∧
    sched_calls = [CallRegisterGenerating {| gn_Uid := u; gn_NodeId := node |};
                   CallRun (node_address (NodePrefix cfg) node
                              (port_LocalWorkerStart (cfg_Ports cfg))) (run_of_lineage lin)] ∧
  ∀ a2 w2 w2' ok2 calls2,
    ans_FetchFunc a2 = ans_FetchFunc a1 → ans_Output a2 = ans_Output a1 →
    Run_spec a2 (run_of_lineage lin) w2 = Returns (w2', Replies (Some ok2, None), calls2) →
    CallStore {| so_Uid := u; so_ObjectBytes := bytes1 |} ∈ calls2 ∧
  ∀ e fs sv fs' sv' nreq ack requester,
    faultless e → LocalObjStore.localNodeID sv = node →
    Store e fs sv {| so_Uid := u; so_ObjectBytes := bytes1 |} =
      (fs', sv', [CallNotifyOwns nreq], (Some ack, None)) →
    let g1 := (RegisterGenerating (RegisterLiveNodes o1 o2 o3 g lreq).1.1
                 {| gn_Uid := u; gn_NodeId := node |}).1 in
    let '(g2, acts, _) := NotifyOwns g1 nreq in
    node ∈ locations g2 u ∧ generating g2 !! u = None ∧ waiting g2 u = [] ∧
    (∀ client, client ∈ waiting g u → GoSendCallback client u node ∈ acts) ∧
    (Copy e fs' sv' {| cr_Uid := u; cr_Requester := requester |}).2 =
      Returns (Some {| cp_Uid := u; cp_ObjectBytes := bytes1 |}, None).
Proof.
  intros Hlin Hu H0 Hknown Hdead Hrun1 Hst1 Hsched. split.
  { destruct (RegisterLiveNodes_actions o1 o2 o3 g lreq) as (uids & -> & _ & Hiff).
    apply list_elem_of_fmap_2. by apply Hiff. }
  split; [exact Hlin|].
  apply Schedule_acknowledged in Hsched as (node & Hn & Hcalls).
  rewrite decide_True in Hn by done. apply getBestWorker_live in Hn as (hb & Hhb & Hl).
  exists node, hb. split; [done|]. split; [done|].
  split; [rewrite Hcalls; unfold run_of_lineage; by rewrite Hu|].
  intros a2 w2 w2' ok2 calls2 Hf Ho Hrun2. split.
  { by rewrite (Run_spec_deterministic a2 a1 _ _ _ _ _ _ _ _ _ Hf Ho Hrun2 Hrun1). }
  intros e fs sv fs' sv' nreq ack requester He Hid Hstore g1.
  destruct (Store_acknowledged _ _ _ _ _ _ _ _ Hstore) as (Hh & _ & Hnreq).
  cbn [so_Uid so_ObjectBytes] in Hh, Hnreq. rewrite Hid in Hnreq.
  pose proof (NotifyOwns_actions g1 nreq) as Ha.
  pose proof (NotifyOwns_frame g1 nreq) as (_ & _ & _ & Hw & Hg).
  pose proof (NotifyOwns_locations g1 nreq u) as Hloc.
  destruct (NotifyOwns g1 nreq) as [[g2 acts] r]. cbn [fst snd] in *. subst nreq.
  cbn [no_Uid no_NodeId] in *. split_and!.
  - rewrite Hloc, decide_True by done. set_solver.
  - rewrite Hg. apply lookup_delete_eq.
  - unfold waiting. by rewrite Hw, lookup_delete_eq.
  - intros client Hc. rewrite Ha. apply list_elem_of_fmap. exists client. split; [done|exact Hc].
  - by rewrite (Copy_holds _ _ _ _ _ _ He Hh).
Qed.

(** C14: Lost objects are rescheduled within four rounds of the liveness loop.
    If every node that holds or generates an object sent its last heartbeat
    before round [i] of the loop starts, then from the fourth round after it on
    every report makes the table reschedule the object, if its holders are still
    in memory; and as long as one of them is within 400 ms of its last
    heartbeat, no report does. *)
Theorem dead_holders_rescheduled s start rounds i (t0 : N → Z) g u :
  paced start rounds →
  is_Some (generating g !! u) ∨ is_Some (objectLocations g !! u) →
  (∀ n, n ∈ getNodes g u →
     last_beat n (beats_before i rounds) (timeReceived <$> status s !! n) = Some (t0 n) ∧
     (t0 n <= start i)%Z ∧
     Forall (λ r, Forall (λ tr, hb_NodeId tr.2 ≠ n) (rd_beats r)) (drop i rounds)) →
  ∀ k r rep o1 o2 o3, i ≤ k → rounds !! k = Some r → LiveNodesHeartbeat s rounds !! k = Some rep →
    (i + 4 ≤ k → GoSchedule u ∈ (RegisterLiveNodes o1 o2 o3 g rep).1.2) ∧
    (∀ n, n ∈ getNodes g u → (rd_now r n < t0 n + LIVE_NODE_TIMEOUT)%Z →
       GoSchedule u ∉ (RegisterLiveNodes o1 o2 o3 g rep).1.2).
Proof.
  intros Hp Hknown Hquiet k r rep o1 o2 o3 Hk Hr Hrep.
  assert (Hdet : ∀ n, n ∈ getNodes g u →
    ((rd_now r n < t0 n + LIVE_NODE_TIMEOUT)%Z → ln_LiveNodes rep !! n = Some true) ∧
    (i + 4 ≤ k → ln_LiveNodes rep !! n = Some false)).
  { intros n (Hl & Ht & Hq)%Hquiet. by eapply dead_node_detected. }
  destruct (RegisterLiveNodes_actions o1 o2 o3 g rep) as (uids & -> & _ & Hiff). split.
  - intros H4. apply list_elem_of_fmap_2, Hiff. split; [done|].
    intros n Hn. by rewrite (proj2 (Hdet n Hn) H4).
  - intros n Hn Hlt (u' & [= <-] & Hin)%list_elem_of_fmap. apply Hiff in Hin as [_ Hall].
    specialize (Hall n Hn). by rewrite (proj1 (Hdet n Hn) Hlt) in Hall.
Qed.

(** ** Objects that were never created *)

Context (wire : option GlobalScheduleRequest → GlobalScheduleRequest).

(** The request without fields. *)
Definition zero_request : GlobalScheduleRequest :=
  {| gs_Uid := 0; gs_Name := 0; gs_Args := []; gs_Kwargs := []; gs_Uids := [];
     gs_NewObject := false; gs_NodeId := 0; gs_LocalityFlag := false |}.

(** C33: Asking for an object that nobody has, generates or can recompute ends
    the global scheduler.  The lookup leaves an empty entry in the cache; the
    next report, whatever nodes are alive, takes an object without holders for
    a lost one and reschedules it; it has no lineage, and a nil request arrives
    as one whose fields are all zero.  Once the worker is dialled, the global
    scheduler ends its process: no node is live, or the worker that is picked
    asks for function 0, which is not registered, and its error is fatal. *)
Theorem unknown_object_ends_global_scheduler pk p g req ft o1 o2 o3 lreq env gs :
  wire None = zero_request →
  let u := rl_Uid req in
  cached g u = [] → getObjectLocations (database g) u = Ok [] →
  generating g !! u = None → lineage g !! u = None →
  functionStore ft !! 0%N = None →
  (∀ address, env_Dial env address = None) →
  (∀ address run, ∃ a w w' calls, ans_FetchFunc a = FetchFunc ft ∧
     Run_spec a run w = Returns (w', Replies (env_Run env address run), calls)) →
  ∃ g1, RequestLocation cfg pk (Some p) g req =
          Returns (g1, [], (Some {| rl_ImmediatelyFound := false |}, None)) ∧
    GoSchedule u ∈ (RegisterLiveNodes o1 o2 o3 g1 lreq).1.2 ∧
    schedule_request (RegisterLiveNodes o1 o2 o3 g1 lreq).1.1 u = None ∧
    ∃ why, (GlobalScheduler.Schedule cfg env gs
              (wire (schedule_request (RegisterLiveNodes o1 o2 o3 g1 lreq).1.1 u))).2 = Fatal why.
Proof.
  intros Hwire u Hc Hdb Hg Hl Hft Hdial Hworkers.
  destruct (RequestLocation_spec cfg pk p g req) as (g0 & r & Hlk & ->).
  assert (g0 = set_objectLocations (<[u := []]> (objectLocations g)) g ∧
                r = (None, false, None)) as [-> ->].
  { destruct Hlk as [e _ He|_ _|ns n Hne _ Hk _]; [unfold u in Hdb; congruence|done|].
    unfold known_nodes in Hk. unfold u in *. rewrite (decide_True _ _ Hc), Hdb in Hk. done. }
  eexists. split; [reflexivity|]. set (g1 := set_waitlist _ _).
  assert (Hs : schedule_request (RegisterLiveNodes o1 o2 o3 g1 lreq).1.1 u = None) by exact Hl.
  split.
  { destruct (RegisterLiveNodes_actions o1 o2 o3 g1 lreq) as (uids & -> & _ & Hiff).
    apply list_elem_of_fmap_2, Hiff. split.
    - right. exists []. unfold g1, u. cbn. apply lookup_insert_eq.
    - intros n. rewrite getNodes_eq. unfold g1, cached, u in *. cbn. rewrite Hg, lookup_insert_eq.
      cbn. by intros ?%not_elem_of_nil. }
  split; [exact Hs|]. rewrite Hs, Hwire. unfold GlobalScheduler.Schedule, zero_request.
  cbn [gs_NodeId gs_LocalityFlag gs_Uids gs_Uid gs_Name gs_Args gs_Kwargs].
  rewrite decide_True by done.
  destruct (getBestWorker env gs false []) as [node|w|w] eqn:Eb.
  - cbv beta iota zeta. rewrite Hdial.
    match goal with |- context [env_Run env ?ad ?rn] =>
      destruct (Hworkers ad rn) as (a & w & w' & calls & Ha & Hr) end.
    unfold Run_spec in Hr. rewrite Ha in Hr. unfold FetchFunc in Hr.
    cbn [fe_Name rr_Name] in Hr. rewrite Hft in Hr. injection Hr as _ Hr _.
    rewrite <-Hr. eexists. reflexivity.
  - exfalso. pose proof (getBestWorker_search env gs false [] _ eq_refl) as E. rewrite Eb in E.
    destruct (search _ _) as [[? ?] []]; discriminate E.
  - eexists. reflexivity.
Qed.
End Recovery.

(** ** Witnesses *)

(** Node 3 ran the task of uid 5 and died with its result; a live node runs it
    again. *)
Lemma recovery_restores_object_witness :
  ∃ node fs sv, node ∈ locations (NotifyOwns (RegisterGenerating
      (RegisterLiveNodes order_id order_id order_id demo_stored node_3_dead).1.1
      {| gn_Uid := 5; gn_NodeId := node |}).1 (notify 5 node 3)).1.1 5 ∧
    (Copy no_faults fs sv {| cr_Uid := 5; cr_Requester := 2 |}).2 =
      Returns (Some {| cp_Uid := 5; cp_ObjectBytes := [Byte.x01; Byte.xff; Byte.x61] |}, None).
Proof.
  destruct (Run_spec demo_answers (run_of_lineage demo_lineage) initial_worker)
    as [[[w1' [[[ok1|] [|]]|]] calls1]| |] eqn:Hrun; vm_compute in Hrun; try discriminate Hrun.
  destruct (recovery_restores_object app_config demo_stored 5 demo_lineage order_id order_id order_id
    node_3_dead demo_answers initial_worker w1' ok1 calls1 [Byte.x01; Byte.xff; Byte.x61]
    demo_env demo_sched
    (GlobalScheduler.Schedule app_config demo_env demo_sched demo_lineage).1 (Status true))
    as (_ & _ & node & hb & _ & _ & _ & Hrest).
  - reflexivity.
  - reflexivity.
  - reflexivity.
  - right. vm_compute. by eexists.
  - intros n Hn. vm_compute in Hn. apply list_elem_of_singleton in Hn as ->. reflexivity.
  - vm_compute. exact Hrun.
  - injection Hrun as _ _ <-. right. right. left.
  - vm_compute. reflexivity.
  - assert (Run_spec demo_answers (run_of_lineage demo_lineage) initial_worker
      = Returns (w1', Replies (Some ok1, None), calls1)) as Hrun2 by (vm_compute; exact Hrun).
    destruct (Hrest demo_answers initial_worker w1' ok1 calls1 eq_refl eq_refl Hrun2) as [_ Hst].
    specialize (Hst no_faults no_files (new_server node)
      (Store no_faults no_files (new_server node)
         {| so_Uid := 5; so_ObjectBytes := [Byte.x01; Byte.xff; Byte.x61] |}).1.1.1
      (Store no_faults no_files (new_server node)
         {| so_Uid := 5; so_ObjectBytes := [Byte.x01; Byte.xff; Byte.x61] |}).1.1.2
      (notify 5 node 3) (Status true) 2%N ltac:(by split_and!) eq_refl eq_refl).
    cbv zeta in Hst. destruct (NotifyOwns _ (notify 5 node 3)) as [[g2 acts] r] eqn:En.
    destruct Hst as (Hloc & _ & _ & _ & Hcopy). do 3 eexists. split; [|exact Hcopy].
    rewrite En. exact Hloc.
Defined.

(** Node 3 alone holds object 8, sends its last heartbeat in the first round of
    the demonstration loop, and object 8 is rescheduled by the fifth report. *)
Definition held_by_3 : GCSObjServer memdb := (NotifyOwns demo_server (notify 8 3 64)).1.1.

Lemma dead_holders_rescheduled_witness :
  ∃ rep1 rep5, LiveNodesHeartbeat {| status := ∅ |} demo_rounds !! 1 = Some rep1 ∧
    LiveNodesHeartbeat {| status := ∅ |} demo_rounds !! 5 = Some rep5 ∧
    GoSchedule 8 ∉ (RegisterLiveNodes order_id order_id order_id held_by_3 rep1).1.2 ∧
    GoSchedule 8 ∈ (RegisterLiveNodes order_id order_id order_id held_by_3 rep5).1.2.
Proof.
  destruct (LiveNodesHeartbeat {| status := ∅ |} demo_rounds !! 1) as [rep1|] eqn:E1; [|done].
  destruct (LiveNodesHeartbeat {| status := ∅ |} demo_rounds !! 5) as [rep5|] eqn:E5; [|done].
  exists rep1, rep5. split; [done|]. split; [done|].
  assert (getNodes held_by_3 8 = [3%N]) as En by (vm_compute; reflexivity).
  assert (H := dead_holders_rescheduled {| status := ∅ |} (λ i, Z.of_nat i * 100000000)%Z
    demo_rounds 1 (λ _, 50000000%Z) held_by_3 8 demo_rounds_paced).
  assert (∀ n, n ∈ getNodes held_by_3 8 →
     last_beat n (beats_before 1 demo_rounds) (timeReceived <$> (∅ : gmap N HeartbeatEntry) !! n)
       = Some 50000000%Z ∧ (50000000 <= Z.of_nat 1 * 100000000)%Z ∧
     Forall (λ r, Forall (λ tr, hb_NodeId tr.2 ≠ n) (rd_beats r)) (drop 1 demo_rounds)) as Hq.
  { intros n. rewrite En. intros ->%list_elem_of_singleton.
    split; [reflexivity|]. split; [lia|repeat constructor]. }
  assert (is_Some (generating held_by_3 !! 8%N) ∨ is_Some (objectLocations held_by_3 !! 8%N))
    as Hk by (right; vm_compute; by eexists).
  split.
  - eapply (H Hk Hq 1); [lia|reflexivity|exact E1|rewrite En; left|]. cbn.
    unfold LIVE_NODE_TIMEOUT. lia.
  - eapply (H Hk Hq 5); [lia|reflexivity|exact E5|lia].
Defined.

(** Nobody ever created object 77. *)
Definition no_function (address : string) (run : RunRequest) : reply StatusResponse :=
  (None, Some (StatusError NotFound "function not found")).

Definition contacted_env : sched_env := {|
  env_now := env_now demo_env; env_keys := env_keys demo_env; env_locs := env_locs demo_env;
  env_init := env_init demo_env; env_shuffle := env_shuffle demo_env;
  env_GetObjectLocations := env_GetObjectLocations demo_env; env_Dial := env_Dial demo_env;
  env_Run := no_function |}.

Lemma unknown_object_ends_global_scheduler_witness :
  ∃ g1, RequestLocation app_config pick_first (Some "10.0.0.5:33012") demo_server (ask 77) =
          Returns (g1, [], (Some {| rl_ImmediatelyFound := false |}, None)) ∧
    GoSchedule 77 ∈ (RegisterLiveNodes order_id order_id order_id g1 node_3_dead).1.2 ∧
    ∃ why, (GlobalScheduler.Schedule app_config contacted_env demo_sched
      (default zero_request (schedule_request
         (RegisterLiveNodes order_id order_id order_id g1 node_3_dead).1.1 77))).2 = Fatal why.
Proof.
  destruct (unknown_object_ends_global_scheduler app_config (default zero_request) pick_first
    "10.0.0.5:33012" demo_server (ask 77) NewGCSFuncServer order_id order_id order_id node_3_dead
    contacted_env demo_sched) as (g1 & H1 & H2 & _ & H3); try reflexivity.
  - intros address run.
    exists {| ans_FetchFunc := FetchFunc NewGCSFuncServer; ans_Output := ans_Output demo_answers;
              ans_Store := ans_Store demo_answers; ans_runningTime := ans_runningTime demo_answers |},
      initial_worker, initial_worker,
      [CallFetchFunc {| fe_Name := rr_Name run; fe_CallbackNodeId := 0 |}].
    split; [reflexivity|]. unfold Run_spec. cbn [ans_FetchFunc].
    replace (FetchFunc NewGCSFuncServer _) with
      (@None FetchResponse, Some (StatusError NotFound "function not found"))
      by (unfold FetchFunc; cbn; by rewrite lookup_empty).
    reflexivity.
  - exists g1. split; [exact H1|]. split; [exact H2|exact H3].
Defined.
