(* ===== verification/Submission.v ===== *)
(** * From a submission to its result

    The path of an ordinary call: a client registers a function, submits a call
    of it to the local scheduler of some node, which runs it there or hands it to
    the global scheduler; the worker fetches the function, runs the script and
    stores the result; the object table calls back the clients that wait for the
    uid, and their [Get] copies the result. *)
From S2P Require Import Prelude Float32 Net Messages Config Sql MemSql GcsDb GcsFunc.
From S2P Require Import GlobalScheduler GlobalSchedulerThms LocalScheduler.
From S2P Require Import GcsObj GcsObjSpec GcsObjInv GcsObjThms.
From S2P Require Import LocalObjStore LocalObjStoreThms Worker WorkerThms Cluster.

Section Dispatch.
Context (cfg : Config).

(** The call [run] that the calls of a local scheduler lead to on [node]:
    locally, or by way of the global scheduler's acknowledged placement.  The
    node is registered as the generator either way. *)
Inductive dispatched (calls : list local_call) (run : RunRequest) (node : N) : Prop :=
  | dispatched_locally :
      GoRunLocally {| gn_Uid := rr_Uid run; gn_NodeId := node |} run ∈ calls →
      dispatched calls run node
  | dispatched_globally g env gs sched_calls ok :
      GoScheduleGlobally g ∈ calls →
      GlobalScheduler.Schedule cfg env gs g = (sched_calls, Returns (Some ok, None)) →
      CallRegisterGenerating {| gn_Uid := rr_Uid run; gn_NodeId := node |} ∈ sched_calls →
      CallRun (node_address (NodePrefix cfg) node (port_LocalWorkerStart (cfg_Ports cfg))) run
        ∈ sched_calls →
      dispatched calls run node.

(** Whichever way it goes, the worker is given the submitted call under the uid
    the client was told; and some way it goes when the schedulers answer. *)
Lemma dispatched_run draw ws ls req calls resp run node :
  LocalScheduler.Schedule draw ws ls req = (calls, Returns (Some resp, None)) →
  dispatched calls run node → run = run_of (sp_Uid resp) req.
Proof.
  intros Hs Hd. unfold LocalScheduler.Schedule in Hs.
  assert (Hg : ∀ g, GoScheduleGlobally g ∈ calls →
    gs_Uid g = sp_Uid resp ∧ gs_Name g = sr_Name req ∧ gs_Args g = sr_Args req ∧
    gs_Kwargs g = sr_Kwargs req).
  { intros g Hin. destruct (negb _); [|destruct ws.1 as [st|]; [destruct (_ <? _)%N|done]];
      injection Hs as <- <-;
      repeat (apply elem_of_cons in Hin as [Hin|Hin]; [try discriminate Hin; by injection Hin as ->|]);
      by apply not_elem_of_nil in Hin. }
  destruct Hd as [Hin|g env gs sched_calls ok Hin Hsched _ Hrun].
  - destruct (negb _); [|destruct ws.1 as [st|]; [destruct (_ <? _)%N|done]];
      injection Hs as <- <-;
      repeat (apply elem_of_cons in Hin as [Hin|Hin]; [try discriminate Hin; by injection Hin as _ _ ->|]);
      by apply not_elem_of_nil in Hin.
  - apply Schedule_acknowledged in Hsched as (node' & _ & ->).
    apply elem_of_cons in Hrun as [Hrun|Hrun]; [discriminate Hrun|].
    apply list_elem_of_singleton in Hrun. injection Hrun as _ ->.
    destruct (Hg g Hin) as (-> & -> & -> & ->). done.
Qed.
End Dispatch.

(** ** The whole path *)

Section Path.
Context {DB TX STMT : Type} `{!SqlDriver DB TX STMT, !SqlLaws DB TX STMT} (cfg : Config).
(** Python: [pickle] and the user's functions. *)
Context {obj : Type} (loads : bytes → bytes + obj) (dumps : obj → bytes + bytes).
Context (call : obj → obj → obj → bytes * (bytes + obj)) (index_error binascii_error : bytes).

(** A worker whose peers are the function table [ft] and the script. *)
Definition served_by (ft : GCSFuncServer) (a : answers) : Prop :=
  ans_FetchFunc a = FetchFunc ft ∧
  ∀ input, ans_Output a input =
    Ok (execute_py loads call dumps index_error binascii_error input).

(** A run of a registered function that returns stores its pickled result. *)
Lemma Run_spec_stores ft a run w f F A K r data ack :
  served_by ft a → Worker.alive w = true → functionStore ft !! rr_Name run = Some f →
  loads f = inr F → loads (rr_Args run) = inr A → loads (rr_Kwargs run) = inr K →
  call F A K = ([], inr r) → dumps r = inr data →
  ans_Store a {| so_Uid := rr_Uid run; so_ObjectBytes := data |} = (Some ack, None) →
  ∃ w', Run_spec a run w = Returns (w', Replies (Some (Status true), None),
    [CallFetchFunc {| fe_Name := rr_Name run; fe_CallbackNodeId := 0 |};
     CallPython f (rr_Args run) (rr_Kwargs run);
     CallStore {| so_Uid := rr_Uid run; so_ObjectBytes := data |}]).
Proof.
  intros [Hf Ho] Hw Hft HF HA HK Hc Hd Hst. unfold Run_spec. rewrite Hf. unfold FetchFunc.
  cbn [fe_Name]. rewrite Hft. cbn [fe_SerializedFunc].
  assert (executeFunction (ans_Output a) f (rr_Args run) (rr_Kwargs run) = Returns (data, None)) as ->.
  { rewrite <-(executeFunction_runs_the_call loads call dumps index_error binascii_error
      f (rr_Args run) (rr_Kwargs run) F A K r data) by done.
    unfold executeFunction. by rewrite Ho. }
  cbn. rewrite Hw, Hst. by eexists.
Qed.

(** C7: A submitted call reaches the client that waits for it.  A client
    registers a function, more functions are registered under other names, and
    the client submits a call of its function to a local scheduler; the call is
    dispatched to some node, locally or by the global scheduler, and the
    function, run on the submitted arguments, returns.  Then the worker there,
    if it is alive, asks the object store of its node to store exactly the
    pickled result under the uid the client was told; once that store has
    acknowledged it, the object table calls back every client that waits for the
    uid with that node, nobody is generating the object any more, and the
    client's [Get], copying from the node the callback names, returns the pickled
    result. *)
Theorem submitted_call_reaches_client
    ft bs f others name draw ws ls req calls resp run node
    F A K r data a w ack e fs sv fs' sv' nreq ok (g : GCSObjServer DB) eB fsB sB greq CopyFrom :
  (RegisterFunc (Ok bs) ft f).2 = (Some {| rg_Name := name |}, None) →
  (∀ rd req', (rd, req') ∈ others → ∀ bs', rd = Ok bs' → big_endian bs' ≠ big_endian bs) →
  let ft' := (register_all (RegisterFunc (Ok bs) ft f).1 others).1 in
  sr_Name req = name →
  LocalScheduler.Schedule draw ws ls req = (calls, Returns (Some resp, None)) →
  dispatched cfg calls run node →
  loads (rg_SerializedFunc f) = inr F → loads (sr_Args req) = inr A →
  loads (sr_Kwargs req) = inr K → call F A K = ([], inr r) → dumps r = inr data →
  served_by ft' a → Worker.alive w = true →
  let store := {| so_Uid := sp_Uid resp; so_ObjectBytes := data |} in
  ans_Store a store = (Some ack, None) →
  Store e fs sv store = (fs', sv', [CallNotifyOwns nreq], (Some ok, None)) →
  LocalObjStore.localNodeID sv = node →
  faultless e → faultless eB →
  ge_Uid greq = sp_Uid resp → ge_Copy greq = true → ge_Cache greq = true →
  (∀ copy, cr_Uid copy = sp_Uid resp → (Copy e fs' sv' copy).2 = Returns (CopyFrom
     (node_address (NodePrefix cfg) node (port_LocalObjectStore (cfg_Ports cfg))) copy)) →
  (∃ w', Run_spec a run w = Returns (w', Replies (Some (Status true), None),
    [CallFetchFunc {| fe_Name := name; fe_CallbackNodeId := 0 |};
     CallPython (rg_SerializedFunc f) (sr_Args req) (sr_Kwargs req); CallStore store])) ∧
  generating (NotifyOwns g nreq).1.1 !! sp_Uid resp = None ∧
  ∀ client, client ∈ waiting g (sp_Uid resp) →
    GoSendCallback client (sp_Uid resp) node ∈ (NotifyOwns g nreq).1.2 ∧
    ∃ callback fsB' sB' lcalls,
      sendCallback (λ _, None) client (sp_Uid resp) node = Some (client, callback) ∧
      Get_received cfg (λ _, None) CopyFrom eB fsB sB greq callback =
        (fsB', sB', lcalls,
         (Some {| gr_Uid := sp_Uid resp; gr_ObjectBytes := data; gr_Local := false;
                  gr_Size := N.of_nat (length data) |}, None)).
Proof.
  intros Hreg Hothers ft' Hname Hs Hd HF HA HK Hc Hdump Hserved Hw store Hack Hstore Hnode
    He HeB Hu Hcp Hca HC.
  pose proof (dispatched_run cfg _ _ _ _ _ _ _ _ Hs Hd) as ->.
  injection Hreg as Hreg. rewrite <-Hreg in Hname.
  destruct (Store_acknowledged _ _ _ _ _ _ _ _ Hstore) as (Hh & _ & ->).
  cbn [so_Uid so_ObjectBytes store] in Hh |- *. split.
  { rewrite <-Hreg, <-Hname.
    apply (Run_spec_stores ft' a (run_of (sp_Uid resp) req) w (rg_SerializedFunc f) F A K r data ack);
      try done. cbn [rr_Name run_of]. rewrite Hname.
    apply register_all_lookup; [exact Hothers|]. apply lookup_insert_eq. }
  match goal with |- context [NotifyOwns g ?n] => pose proof (NotifyOwns_frame g n) as (_ & _ & _ & _ & ->) end.
  cbn [no_Uid]. split; [apply lookup_delete_eq|]. intros client Hw'. split.
  { rewrite NotifyOwns_actions. cbn [no_Uid no_NodeId]. rewrite Hnode. apply list_elem_of_fmap.
    by exists client. }
  specialize (HC {| cr_Uid := sp_Uid resp; cr_Requester := LocalObjStore.localNodeID sB |} eq_refl).
  rewrite (Copy_holds _ _ _ _ _ _ He Hh) in HC. injection HC as HC.
  destruct (Get_received_copies cfg CopyFrom eB fsB sB greq (sp_Uid resp) node data)
    as (fsB' & sB' & lcalls & E); try done; [by destruct Hh as (_ & _ & ?)|].
  do 4 eexists. split; [reflexivity|]. by rewrite E, Hu.
Qed.
End Path.

(** ** Witness *)

(** The function [x01] is registered under name 3; a call of it with the
    argument [x61] is submitted on node 3, which is idle, under uid 5; client
    10.0.0.5 waits for it. *)
Definition name_3 : bytes := replicate 7 Byte.x00 ++ [Byte.x03].
Definition function_1 : RegisterRequest := {| rg_SerializedFunc := [Byte.x01] |}.
Definition table_1 : GCSFuncServer := (RegisterFunc (Ok name_3) NewGCSFuncServer function_1).1.
Definition answers_1 : answers := {|
  ans_FetchFunc := FetchFunc table_1;
  ans_Output input := Ok (execute_py demo_loads demo_call inr [] [] input);
  ans_Store _ := (Some (Status true), None);
  ans_runningTime := of_ratio 1 2 |}.
Definition result_1 : StoreRequest := {| so_Uid := 5; so_ObjectBytes := [Byte.x01; Byte.x61] |}.
Definition store_1 : shm * LocalObjStore.server := (Store no_faults no_files (new_server 3) result_1).1.1.
Definition from_node_3 (address : string) (copy : CopyRequest) : reply CopyResponse :=
  match (Copy no_faults store_1.1 store_1.2 copy).2 with Returns r => r | _ => (None, None) end.
Definition waiting_for_5 : GCSObjServer memdb :=
  set_waitlist {[ 5%N := ["10.0.0.5:50000"] ]} demo_server.

Lemma submitted_call_reaches_client_witness :
  GoSendCallback "10.0.0.5:50000" 5 3 ∈ (NotifyOwns waiting_for_5 (notify 5 3 2)).1.2 ∧
  ∃ callback fs s calls,
    Get_received app_config (λ _, None) from_node_3 no_faults no_files (new_server 2) (get_req 5)
      callback = (fs, s, calls, (Some {| gr_Uid := 5; gr_ObjectBytes := [Byte.x01; Byte.x61];
                                         gr_Local := false; gr_Size := 2 |}, None)).
Proof.
  assert (holds store_1.1 store_1.2 5 [Byte.x01; Byte.x61]) as Hh
    by (split_and!; [vm_compute; reflexivity|vm_compute; reflexivity|done]).
  destruct (submitted_call_reaches_client app_config demo_loads inr demo_call [] []
    NewGCSFuncServer name_3 function_1 [] 3 5 (Some (demo_status 0), None)
    (LocalScheduler.Build_server 3 true) (demo_request 0)
    (LocalScheduler.Schedule 5 (Some (demo_status 0), None) (LocalScheduler.Build_server 3 true)
       (demo_request 0)).1 {| sp_Uid := 5 |} (run_of 5 (demo_request 0)) 3
    [Byte.x01] [Byte.x61] [] [Byte.x01; Byte.x61] [Byte.x01; Byte.x61] answers_1 initial_worker
    (Status true) no_faults no_files (new_server 3) store_1.1 store_1.2 (notify 5 3 2) (Status true)
    waiting_for_5 no_faults no_files (new_server 2) (get_req 5) from_node_3) as (_ & _ & H);
    try reflexivity; try done.
  - by intros ?? ?%not_elem_of_nil.
  - apply dispatched_locally. right. right. left.
  - intros [u requester] Hu. cbn in Hu. subst u. unfold from_node_3.
    by rewrite (Copy_holds no_faults store_1.1 store_1.2 5 requester [Byte.x01; Byte.x61]).
  - destruct (H "10.0.0.5:50000") as (Hin & callback & fs & s & lcalls & _ & E); [vm_compute; left|].
    split; [exact Hin|]. exists callback, fs, s, lcalls. exact E.
Defined.
