(* ===== verification/Interfaces.v ===== *)
(** * The interfaces between the services

    The servers reach their peers through Go interfaces: [ObjClient] of the
    global scheduler, [FuncClient] and [StoreClient] of the worker,
    [SchedulerClient] of the object table.  Here each is a class of operations
    on the peer's state, with a class of laws for what its client relies on; the
    services' models are the instances, and what a client guarantees is proved
    against the laws. *)
From S2P Require Import Prelude Float32 Net Messages Config Sql MemSql GcsDb GcsFunc.
From S2P Require Import LocalScheduler GlobalScheduler GlobalSchedulerThms.
From S2P Require Import GcsObj GcsObjSpec GcsObjInv GcsObjThms.
From S2P Require Import LocalObjStore LocalObjStoreThms Worker WorkerThms Cluster Recovery Submission.

(** ** The object table, for the global scheduler *)

(** [ND]: what a call leaves open; [OP]: the operations of the table's other
    clients and of its own goroutines.  The second component of a report's result
    are the objects it has rescheduled. *)
Class ObjClient (O ND OP : Type) := {
  client_RegisterLiveNodes : ND → O → LiveNodesRequest → O * list N * reply StatusResponse;
  client_RequestLocation : ND → O → RequestLocationRequest → O * reply RequestLocationResponse;
  client_RegisterGenerating : O → GeneratingRequest → O * reply StatusResponse;
  client_GetObjectLocations : O → ObjectLocationsRequest → reply ObjectLocationsResponse;
  others_do : OP → O → O
}.

Class ObjClientLaws (O ND OP : Type) `{ObjClient O ND OP} := {
  (** The states a table gets into. *)
  sound : O → Prop;
  (** [o] knows a node of [A] that generates the object [u] or holds it. *)
  covered : O → N → gset N → Prop;
  (** As far as it is about [u], the operation names nodes of [A]. *)
  names_only : N → gset N → OP → Prop;
  register_covered o o' req r A :
    sound o → client_RegisterGenerating o req = (o', (Some r, None)) → gn_NodeId req ∈ A →
    covered o' (gn_Uid req) A;
  register_other o req u A :
    u ≠ gn_Uid req → covered o u A → covered (client_RegisterGenerating o req).1 u A;
  report_keeps nd o req u A :
    covered o u A → covered (client_RegisterLiveNodes nd o req).1.1 u A;
  others_keep op o u A : names_only u A op → covered o u A → covered (others_do op o) u A;
  report_spares nd o req u A :
    covered o u A → (∀ a, a ∈ A → ln_LiveNodes req !! a = Some true) →
    u ∉ (client_RegisterLiveNodes nd o req).1.2
}.

(** The global scheduler with the object table behind its [gcsClient], and with
    everyone else who calls the table. *)
Section Scheduler.
Context {O ND OP : Type} `{!ObjClient O ND OP} (cfg : Config).

Inductive sched_event :=
  | EvHeartbeat (now : Z) (req : HeartbeatRequest)
  | EvReport (nd : ND) (now : N → Z) (ord : order)
  | EvSchedule (env : sched_env) (req : GlobalScheduleRequest)
  | EvOthers (op : OP).

Definition asking (o : O) (env : sched_env) : sched_env := {|
  env_now := env_now env; env_keys := env_keys env; env_locs := env_locs env; env_init := env_init env;
  env_shuffle := env_shuffle env; env_GetObjectLocations := client_GetObjectLocations o;
  env_Dial := env_Dial env; env_Run := env_Run env |}.

Definition apply_calls (o : O) (calls : list sched_call) : O :=
  foldl (λ o c, match c with
    | CallRegisterGenerating req => (client_RegisterGenerating o req).1
    | CallRun _ _ => o
    end) o calls.

(** The next state and the objects the table rescheduled.  What happens to the
    table while [Schedule] waits for the worker's answer are events that follow:
    it makes its only call to the table before. *)
Definition sched_on (ev : sched_event) (st : GlobalScheduler.server * O)
    : GlobalScheduler.server * O * list N :=
  let '(s, o) := st in
  match ev with
  | EvHeartbeat now req => ((Heartbeat now s req).1, o, [])
  | EvReport nd now ord =>
      let '(o, uids, _) := client_RegisterLiveNodes nd o (SendLiveNodes now ord s) in (s, o, uids)
  | EvSchedule env req => (s, apply_calls o (Schedule cfg (asking o env) s req).1, [])
  | EvOthers op => (s, others_do op o, [])
  end.

Definition sched_run (evs : list sched_event) (st : GlobalScheduler.server * O)
    : GlobalScheduler.server * O :=
  foldl (λ st ev, (sched_on ev st).1) st evs.

(** The object [u] is not placed again, and of what the others do [ok] holds. *)
Definition leaves_placed (u : N) (ok : OP → Prop) (ev : sched_event) : Prop :=
  match ev with EvSchedule _ req => gs_Uid req ≠ u | EvOthers op => ok op | _ => True end.

(** By the clock [now], every node of [A] has sent a heartbeat in time. *)
Definition all_live (now : N → Z) (s : GlobalScheduler.server) (A : gset N) : Prop :=
  ∀ a, a ∈ A → ∃ hb, status s !! a = Some hb ∧ is_live (now a) hb = true.

Lemma all_live_report now ord s A a :
  all_live now s A → a ∈ A → ln_LiveNodes (SendLiveNodes now ord s) !! a = Some true.
Proof. intros Hl (hb & Hhb & Hlive)%Hl. rewrite SendLiveNodes_lookup, Hhb. simpl. by rewrite Hlive. Qed.

Lemma all_live_list now s (l : list N) :
  forallb (λ a, match status s !! a with Some hb => is_live (now a) hb | None => false end) l = true →
  all_live now s (list_to_set l).
Proof.
  intros Hl a Ha%elem_of_list_to_set. apply list_elem_of_In in Ha. pose proof (proj1 (List.forallb_forall _ _) Hl a Ha) as H. simpl in H.
  destruct (status s !! a) as [hb|]; [by exists hb|done].
Qed.

Context `{!ObjClientLaws O ND OP}.

Lemma apply_calls_covered env s req o u A :
  gs_Uid req ≠ u → covered o u A → covered (apply_calls o (Schedule cfg env s req).1) u A.
Proof.
  intros Hu Ho. unfold Schedule. destruct (if decide _ then _ else _) as [node| |]; [|done..].
  destruct (env_Dial env _); [done|].
  destruct (env_Run env _ _) as [[[[] ? ? ?]|] [|]]; simpl; by apply register_other.
Qed.

Lemma sched_run_covered evs st u A :
  Forall (leaves_placed u (names_only u A)) evs → covered st.2 u A → covered (sched_run evs st).2 u A.
Proof.
  intros Hevs. revert st. induction Hevs as [|ev evs Hev _ IH]; intros [s o] Ho; [done|].
  apply IH. destruct ev as [now req|nd now ord|env req|op]; simpl.
  - done.
  - pose proof (report_keeps nd o (SendLiveNodes now ord s) u A Ho) as Hk.
    by destruct (client_RegisterLiveNodes nd o (SendLiveNodes now ord s)) as [[o' uids] r].
  - by apply apply_calls_covered.
  - by apply others_keep.
Qed.

(** Against any table that keeps the laws and acknowledges registrations. *)
Lemma placed_is_spared env req s o calls ok :
  sound o → Schedule cfg (asking o env) s req = (calls, Returns (Some ok, None)) →
  (∀ gen, (client_RegisterGenerating o gen).2 = (Some (Status true), None)) →
  ∃ node,
    CallRegisterGenerating {| gn_Uid := gs_Uid req; gn_NodeId := node |} ∈ calls ∧
    CallRun (node_address (NodePrefix cfg) node (port_LocalWorkerStart (cfg_Ports cfg)))
      {| rr_Uid := gs_Uid req; rr_Name := gs_Name req; rr_Args := gs_Args req;
         rr_Kwargs := gs_Kwargs req |} ∈ calls ∧
    ∀ A evs nd now ord, node ∈ A → Forall (leaves_placed (gs_Uid req) (names_only (gs_Uid req) A)) evs →
      let st := sched_run evs (sched_on (EvSchedule env req) (s, o)).1 in
      all_live now st.1 A → gs_Uid req ∉ (sched_on (EvReport nd now ord) st).2.
Proof.
  intros Ho E Hack. pose proof (Schedule_acknowledged _ _ _ _ _ _ E) as (node & _ & ->). exists node.
  split; [left|]. split; [right; left|]. intros A evs nd now ord HA Hevs st Hlive.
  assert (covered st.2 (gs_Uid req) A) as Hg.
  { apply sched_run_covered; [done|]. simpl. rewrite E. simpl.
    specialize (Hack {| gn_Uid := gs_Uid req; gn_NodeId := node |}).
    destruct (client_RegisterGenerating o _) as [o' r] eqn:Er. simpl in Hack. subst r.
    by apply register_covered with (A := A) in Er. }
  destruct st as [s1 o1]. cbn [fst snd] in Hlive, Hg.
  pose proof (report_spares nd o1 _ (gs_Uid req) A Hg (λ a, all_live_report now ord s1 A a Hlive)) as Hs.
  unfold sched_on. by destruct (client_RegisterLiveNodes nd o1 (SendLiveNodes now ord s1)) as [[o2 uids] r].
Qed.
End Scheduler.
Arguments sched_event : clear implicits.

(** The object table is such a peer.  [ND] are a picker and three orders; a
    request for a location comes from the scheduler's own address.  The others
    are the object stores, the local schedulers and the flush ticker. *)
Section TableClient.
Context {DB TX STMT : Type} `{!SqlDriver DB TX STMT, !SqlLaws DB TX STMT} (cfg : Config) (peer : string).
Implicit Types (g : GCSObjServer DB) (u n : N) (A : gset N).

Definition table_choices : Type := picker * (order * order * order).

#[local] Instance table_client : ObjClient (GCSObjServer DB) table_choices gcs_op := {
  client_RegisterLiveNodes nd g req :=
    let '(g, acts, r) := RegisterLiveNodes nd.2.1.1 nd.2.1.2 nd.2.2 g req in
    (g, omap (λ a, match a with GoSchedule u => Some u | _ => None end) acts, r);
  client_RequestLocation nd g req :=
    match RequestLocation cfg nd.1 (Some peer) g req with
    | Returns (g, _, r) => (g, r)
    | _ => (g, (None, Some (PlainError "connection error")))
    end;
  client_RegisterGenerating := RegisterGenerating;
  client_GetObjectLocations := GetObjectLocations;
  others_do op g := match gcs_exec cfg op g with Returns (g, _) => g | _ => g end
}.

(** An operation by which only nodes of [A] generate [u] or own it. *)
Definition only_nodes u A (op : gcs_op) : Prop :=
  match op with
  | OpNotifyOwns req => no_Uid req = u → no_NodeId req ∈ A
  | OpRegisterGenerating req => gn_Uid req = u → gn_NodeId req ∈ A
  | _ => True
  end.

(** A node of [A] is registered as the generator, or none is and one of [A] is
    known as a holder, in memory or on disk. *)
Definition table_covered g u A : Prop :=
  gcs_inv g ∧
  match generating g !! u with
  | Some n => n ∈ A
  | None => ∃ a, a ∈ A ∧ a ∈ locations g u
  end.

Lemma table_covered_exec op g g' acts u A :
  gcs_exec cfg op g = Returns (g', acts) → only_nodes u A op → table_covered g u A → table_covered g' u A.
Proof.
  intros E Hop [Hi Hc]. split; [by eapply gcs_inv_exec|].
  destruct (decide (is_notify u op)) as [Hn|Hn].
  - destruct op as [req| | | | | |]; try done. simpl in Hn, Hop. subst u. simpl in E. injection E as E.
    change g' with (g', acts).1. rewrite <-E.
    destruct (NotifyOwns_frame g req) as (_ & _ & _ & _ & ->). rewrite lookup_delete_eq.
    exists (no_NodeId req). split; [by apply Hop|]. rewrite NotifyOwns_locations, decide_True by done. set_solver.
  - rewrite (gcs_exec_locations cfg op g g' acts u E Hi Hn).
    destruct (decide (is_generating u op)) as [Hg|Hg].
    + destruct op as [| | | | |req|]; try done. simpl in Hg, Hop. injection E as <- _. simpl. subst u.
      rewrite lookup_insert_eq. by apply Hop.
    + by rewrite (gcs_exec_generating cfg op g g' acts u E Hn Hg).
Qed.

Lemma table_covered_spared o1 o2 o3 g req u A :
  table_covered g u A → (∀ a, a ∈ A → ln_LiveNodes req !! a = Some true) →
  GoSchedule u ∉ (RegisterLiveNodes o1 o2 o3 g req).1.2.
Proof.
  intros [Hi Hc] Hl. destruct (RegisterLiveNodes_actions o1 o2 o3 g req) as (uids & -> & _ & Hiff).
  intros (v & [= <-] & Hin)%list_elem_of_fmap. apply Hiff in Hin as [Hknown Hdead].
  rewrite getNodes_eq in Hdead.
  assert (∃ a, a ∈ A ∧ a ∈ option_list (generating g !! u) ++ cached g u) as (a & Ha & Hin).
  { destruct (generating g !! u) as [n|] eqn:Eg; [exists n; split; [done|left]|].
    destruct Hc as (a & Ha & Hin). exists a. split; [done|]. simpl.
    destruct Hknown as [[? ?]|[ns Hns]]; [done|]. unfold locations in Hin.
    destruct (decide (cached g u = [])) as [Hnil|]; [|by apply elem_of_list_to_set in Hin].
    unfold cached in Hnil. rewrite Hns in Hnil. simpl in Hnil. subst ns.
    by rewrite (inv_cache _ Hi u Hns) in Hin. }
  specialize (Hdead a Hin). by rewrite (Hl a Ha) in Hdead.
Qed.

#[local] Instance table_client_laws : ObjClientLaws (GCSObjServer DB) table_choices gcs_op.
Proof.
  refine {| sound := gcs_inv; covered := table_covered; names_only := only_nodes |}.
  - intros g g' req r A Hi [= <- <-] HA. split.
    + by apply (gcs_inv_exec cfg (OpRegisterGenerating req) g _ []).
    + simpl. by rewrite lookup_insert_eq.
  - intros g req u A Hu. apply (table_covered_exec (OpRegisterGenerating req) g _ []); [done|]. by intros <-.
  - intros [pk [[o1 o2] o3]] g req u A. simpl.
    by apply (table_covered_exec (OpRegisterLiveNodes o1 o2 o3 req) g _ (RegisterLiveNodes o1 o2 o3 g req).1.2).
  - intros op g u A Hop Hc. unfold others_do, table_client.
    destruct (gcs_exec cfg op g) as [[g' acts]| |] eqn:E; [|done..]. by eapply table_covered_exec.
  - intros [pk [[o1 o2] o3]] g req u A Hc Hl. unfold client_RegisterLiveNodes, table_client. cbn [fst snd].
    pose proof (table_covered_spared o1 o2 o3 g req u A Hc Hl) as Hs.
    destruct (RegisterLiveNodes o1 o2 o3 g req) as [[g' acts] r]. cbn [fst snd] in Hs |- *.
    intros (a & Hin & Ha)%list_elem_of_omap. destruct a as [|v]; [done|]. by injection Ha as ->.
Defined.

(** C22: A placed object is not placed again while the nodes that have to do with
    it are alive.  Start from any state the object table can get into.  Once the
    global scheduler has acknowledged a request, a node has been registered as the
    generator of its object and given the call; let [A] be any set of nodes with this one.  Whatever follows at the table and
    at the scheduler, the notification of the run's own store, which ends the
    registration of the generator, the flushes, lookups and notifications of all
    others included: as long as only nodes of [A] announce the object or are
    registered to generate it and no other request places it, no report of the
    scheduler by which the nodes of [A] are alive makes the table reschedule it.
    ([forgotten_holder_is_rescheduled]: it does not suffice that the placed node
    is alive when others announce the object.) *)
Theorem placed_object_is_left_alone opened flush g0 ops g acts env req s calls ok :
  NewGCSObjServer opened flush = Returns g0 → gcs_run cfg ops g0 = Returns (g, acts) →
  Schedule cfg (asking g env) s req = (calls, Returns (Some ok, None)) →
  ∃ node,
    CallRegisterGenerating {| gn_Uid := gs_Uid req; gn_NodeId := node |} ∈ calls ∧
    CallRun (node_address (NodePrefix cfg) node (port_LocalWorkerStart (cfg_Ports cfg)))
      {| rr_Uid := gs_Uid req; rr_Name := gs_Name req; rr_Args := gs_Args req;
         rr_Kwargs := gs_Kwargs req |} ∈ calls ∧
    ∀ A evs nd now ord, node ∈ A → Forall (leaves_placed (gs_Uid req) (only_nodes (gs_Uid req) A)) evs →
      let st := sched_run cfg evs (sched_on cfg (EvSchedule env req) (s, g)).1 in
      all_live now st.1 A → gs_Uid req ∉ (sched_on cfg (EvReport nd now ord) st).2.
Proof.
  intros Hnew Hrun E. apply (placed_is_spared (ObjClientLaws0 := table_client_laws) cfg env req s g calls ok); [|exact E|done].
  apply (gcs_inv_run cfg ops g0 g acts Hrun). by eapply gcs_inv_init.
Qed.

(** A holder that is alive and on disk does not keep an object from being
    rescheduled, when another node has announced it after a flush and died. *)
Lemma forgotten_holder_is_rescheduled o1 o2 g g1 u n nreq o3 o4 o5 lreq :
  gcs_inv g → n ∈ locations g u → flushToDisk o1 o2 g = (g1, None) → no_Uid nreq = u →
  default false (ln_LiveNodes lreq !! no_NodeId nreq) = false →
  let g2 := (NotifyOwns g1 nreq).1.1 in
  n ∈ stored (database g2) u ∧ GoSchedule u ∈ (RegisterLiveNodes o3 o4 o5 g2 lreq).1.2.
Proof.
  intros Hi Hn Hf Hu Hdead g2.
  assert (objectLocations g1 = ∅) as Ho by (pose proof (flush_objects o1 o2 g) as H; by rewrite Hf in H).
  assert (cached g1 u = []) as Hc by (unfold cached; by rewrite Ho).
  assert (cached g2 u = [no_NodeId nreq]) as Hc2
    by (unfold g2; by rewrite NotifyOwns_cached, decide_True, Hc).
  destruct (NotifyOwns_frame g1 nreq) as (Hd & _ & _ & _ & Hgen). split.
  - unfold g2. rewrite Hd, <-locations_uncached by done.
    rewrite (flush_ok_locations o1 o2 g g1 u Hf); [done|]. apply Hi.
  - destruct (RegisterLiveNodes_actions o3 o4 o5 g2 lreq) as (uids & -> & _ & Hiff).
    apply list_elem_of_fmap_2, Hiff. split.
    + right. unfold cached in Hc2. destruct (objectLocations g2 !! u); [by eexists|done].
    + intros a. rewrite getNodes_eq, Hc2. unfold g2. rewrite Hgen, Hu, lookup_delete_eq. simpl.
      by intros ->%list_elem_of_singleton.
Qed.
End TableClient.

(** ** The function table and the object store, for the worker *)

Class FuncClient (F : Type) := client_FetchFunc : F → FetchRequest → reply FetchResponse.

Class StoreClient (S : Type) := client_Store : S → StoreRequest → S * reply StatusResponse.

Class StoreClientLaws (S : Type) `{StoreClient S} := {
  has_object : S → N → bytes → Prop;
  store_acknowledged s s' req r :
    client_Store s req = (s', (r, None)) → has_object s' (so_Uid req) (so_ObjectBytes req);
  store_keeps s req u data :
    u ≠ so_Uid req → has_object s u data → has_object (client_Store s req).1 u data
}.

Section WorkerClients.
Context {F S : Type} `{!FuncClient F, !StoreClient S}.

(** A call of [Run] with its peers: the script answers [Output]. *)
Definition Run_on (f : F) (s : S) (Output : bytes → result bytes) (runningTime : float32)
    (run : RunRequest) (w : workerServer) : outcome (workerServer * ending * S) :=
  let a := {| ans_FetchFunc := client_FetchFunc f; ans_Output := Output;
              ans_Store req := (client_Store s req).2; ans_runningTime := runningTime |} in
  '(w, e, calls) ← Run_spec a run w;
  Returns (w, e, foldl (λ s c, match c with CallStore req => (client_Store s req).1 | _ => s end) s calls).

Context `{!StoreClientLaws S}.

(** An acknowledged run has left its result with the store.  For any function
    table and any object store that keeps the laws of [StoreClient]: when a
    worker acknowledges a call, the function it fetched, run on the call's
    arguments, returned some bytes, and the store has exactly these bytes under
    the call's uid, and every object it had under another uid. *)
Theorem acknowledged_run_is_stored f s Output runningTime run w w' ok s' :
  Run_on f s Output runningTime run w = Returns (w', Replies (Some ok, None), s') →
  ∃ resp output,
    client_FetchFunc f {| fe_Name := rr_Name run; fe_CallbackNodeId := 0 |} = (Some resp, None) ∧
    executeFunction Output (fe_SerializedFunc resp) (rr_Args run) (rr_Kwargs run) = Returns (output, None) ∧
    has_object s' (rr_Uid run) output ∧
    ∀ u data, u ≠ rr_Uid run → has_object s u data → has_object s' u data.
Proof.
  unfold Run_on. set (a := Build_answers _ _ _ _).
  destruct (Run_spec a run w) as [[[w1 e] calls]| |] eqn:E; simpl; [|done..]. intros [= -> -> <-].
  destruct (Run_spec_acknowledged _ _ _ _ _ _ E) as (resp & output & Hf & Hx & ->).
  exists resp, output. split; [exact Hf|]. split; [exact Hx|]. simpl.
  set (req := {| so_Uid := _ |}).
  unfold Run_spec in E. rewrite Hf, Hx in E. cbn in E. fold req in E.
  destruct (Worker.alive w); [|discriminate E]. pose proof (store_keeps s req) as Hk.
  destruct (client_Store s req) as [s1 [r [err|]]] eqn:Es; [discriminate E|]. simpl.
  split; [by eapply (store_acknowledged s s1 req r)|]. intros u data Hu. by apply Hk.
Qed.
End WorkerClients.

#[export] Instance function_table_client : FuncClient GCSFuncServer := FetchFunc.

(** The local object store with its shared memory; [e]: which system calls
    fail. *)
Section LocalStore.
Context (e : sys).

#[local] Instance local_store_client : StoreClient (shm * LocalObjStore.server) :=
  λ st req, let '(fs, s, _, r) := Store e st.1 st.2 req in ((fs, s), r).

#[local] Instance local_store_laws : StoreClientLaws (shm * LocalObjStore.server).
Proof.
  refine {| has_object st u data := holds st.1 st.2 u data |}.
  - intros [fs s] [fs' s'] req r. unfold client_Store, local_store_client, Store. cbn [fst snd].
    destruct (keep e fs s (so_Uid req) (so_ObjectBytes req)) as [[fs1 s1] [err|]] eqn:Ek; [done|].
    intros [= <- <- _]. by apply keep_ok in Ek as [Hh _].
  - intros [fs s] req u data Hu Hh. unfold client_Store, local_store_client. cbn [fst snd].
    pose proof (Store_keep e fs s req) as Hk. destruct (Store e fs s req) as [[[fs' s'] c] r]. simpl in Hk |- *.
    pose proof (keep_other e fs s (so_Uid req) (so_ObjectBytes req) u data (not_eq_sym Hu) Hh) as Ho.
    by rewrite <-Hk in Ho.
Defined.
End LocalStore.

(** ** Witnesses *)

(** The object table of the demonstration behind the global scheduler that places
    object 5 on node 3.  That node announces it, the table flushes, node 2
    fetches a copy and announces it, and the scheduler reports. *)
Definition no_choice : table_choices := (pick_first, (order_id, order_id, order_id)).
#[local] Instance demo_client : ObjClient (GCSObjServer memdb) table_choices gcs_op :=
  table_client app_config "10.0.0.1:41000".

Definition demo_others : list (sched_event table_choices gcs_op) :=
  [EvOthers (OpNotifyOwns (notify 5 3 64)); EvOthers (OpFlush order_id order_id);
   EvReport no_choice (λ _, 0%Z) order_id;
   EvOthers (OpRequestLocation pick_last (Some "10.0.0.6:33013") (ask 5));
   EvOthers (OpFlush order_id order_id); EvOthers (OpNotifyOwns (notify 5 2 64))].

Lemma placed_object_is_left_alone_witness :
  let st := sched_run app_config demo_others
              (sched_on app_config (EvSchedule demo_env demo_lineage) (demo_sched, demo_server)).1 in
  5%N ∉ (sched_on app_config (EvReport no_choice (λ _, 1000000000%Z) order_id) st).2.
Proof.
  destruct (placed_object_is_left_alone app_config "10.0.0.1:41000" (Ok mem_empty) 1 demo_server [] demo_server []
    demo_env demo_lineage demo_sched
    (GlobalScheduler.Schedule app_config (asking demo_server demo_env) demo_sched demo_lineage).1 (Status true))
    as (node & Hgen & _ & H); [vm_compute; reflexivity..|].
  assert (node = 3%N) as ->.
  { vm_compute in Hgen. apply elem_of_cons in Hgen as [[= ->]|Hgen]; [reflexivity|].
    apply list_elem_of_singleton in Hgen. discriminate Hgen. }
  apply (H (list_to_set [3%N; 2%N]) demo_others no_choice (λ _, 1000000000%Z) order_id).
  - apply elem_of_list_to_set. left.
  - repeat (constructor; [first [exact I|intros _; apply elem_of_list_to_set; vm_compute; repeat constructor]|]).
    constructor.
  - apply all_live_list. vm_compute. reflexivity.
Defined.

(** Node 3 announces object 8, the table flushes, node 2 announces it and dies. *)
Example holder_3_is_forgotten :
  ∃ g1, flushToDisk order_id order_id (NotifyOwns demo_server (notify 8 3 64)).1.1 = (g1, None) ∧
    GoSchedule 8 ∈ (RegisterLiveNodes order_id order_id order_id (NotifyOwns g1 (notify 8 2 64)).1.1
      {| ln_LiveNodes := {[ 3%N := true; 2%N := false ]} |}).1.2.
Proof. eexists. split; [vm_compute; reflexivity|]. vm_compute. left. Qed.

(** A worker runs function 3 and stores the result on its node. *)
#[local] Instance demo_store : StoreClient (shm * LocalObjStore.server) := local_store_client no_faults.
#[local] Instance demo_store_laws : StoreClientLaws (shm * LocalObjStore.server) := local_store_laws no_faults.

Definition ran_on_node_3 : outcome (workerServer * ending * (shm * LocalObjStore.server)) :=
  Run_on table_1 (no_files, new_server 3) (λ input, Ok (execute_py demo_loads demo_call inr [] [] input))
    (of_ratio 1 2) (run_of 5 (LocalScheduler.demo_request 0)) initial_worker.

Lemma acknowledged_run_is_stored_witness :
  ∃ w' ok st', ran_on_node_3 = Returns (w', Replies (Some ok, None), st') ∧
    ∃ output, holds st'.1 st'.2 5 output.
Proof.
  destruct ran_on_node_3 as [[[w' [[[ok|] [|]]|]] st']| |] eqn:E; try (vm_compute in E; discriminate E).
  exists w', ok, st'. split; [reflexivity|].
  destruct (acknowledged_run_is_stored table_1 (no_files, new_server 3)
    (λ input, Ok (execute_py demo_loads demo_call inr [] [] input)) (of_ratio 1 2)
    (run_of 5 (LocalScheduler.demo_request 0)) initial_worker w' ok st' E) as (_ & output & _ & _ & Hh & _).
  exists output. exact Hh.
Defined.
