(* ===== verification/Reruns.v ===== *)
(** * Tasks that run twice

    The goroutine by which a local scheduler runs a task on its own node
    registers the node as the generator with the context of the request, and
    gRPC cancels that context when the handler returns: the two race.  When the
    registration is lost, the object table does not know that anybody computes
    the object, and one client that asks for it is enough to have it computed a
    second time. *)
From S2P Require Import Prelude Float32 Net Messages Config Sql MemSql GcsDb.
From S2P Require Import GlobalScheduler GlobalSchedulerThms LocalScheduler.
From S2P Require Import GcsObj GcsObjSpec GcsObjInv GcsObjThms GcsObjRecovery Cluster.

(** What the goroutine sends: a call with a cancelled context fails at once and
    its error is dropped; [Run] has a context of its own. *)
Inductive goroutine_call :=
  | SendRegisterGenerating (req : GeneratingRequest)
  | SendRun (req : RunRequest).

Definition local_goroutine (cancelled : bool) (gen : GeneratingRequest) (run : RunRequest)
    : list goroutine_call :=
  (if cancelled then [] else [SendRegisterGenerating gen]) ++ [SendRun run].

(** The operations that say something of the object [u]. *)
Definition mentions (u : N) (op : gcs_op) : Prop :=
  match op with
  | OpNotifyOwns req => no_Uid req = u
  | OpRegisterGenerating req => gn_Uid req = u
  | _ => False
  end.

Section Reruns.
Context {DB TX STMT : Type} `{!SqlDriver DB TX STMT, !SqlLaws DB TX STMT} (cfg : Config).
Implicit Types g : GCSObjServer DB.

Lemma gcs_run_generating ops g g' acts u :
  gcs_run cfg ops g = Returns (g', acts) → Forall (λ op, ¬ mentions u op) ops →
  generating g' !! u = generating g !! u.
Proof.
  intros E Hm. eapply (gcs_run_preserves cfg (λ op, ¬ mentions u op)
    (λ g g', generating g' !! u = generating g !! u)); [| |exact Hm|exact E].
  - split; [done|]. intros g1 g2 g3 H1 H2. congruence.
  - intros op g1 g2 a Hop E1. apply (gcs_exec_generating cfg op g1 g2 a u E1); intros H; apply Hop; by destruct op.
Qed.

(** A lookup that finds nothing leaves an empty entry. *)
Lemma RequestLocation_leaves_entry pk p g req g' resp :
  RequestLocation cfg pk (Some p) g req = Returns (g', [], (Some resp, None)) →
  objectLocations g' !! rl_Uid req = Some [] ∧ generating g' = generating g ∧ lineage g' = lineage g.
Proof.
  destruct (RequestLocation_spec cfg pk p g req) as (g0 & r & Hl & ->).
  destruct (lookup_frame _ _ _ _ _ Hl) as (_ & _ & Hli & Hge & _).
  destruct Hl as [e _ _|Hc He|ns n _ _ _ _]; [done| |done]. intros [= <- _].
  split; [apply lookup_insert_eq|by split].
Qed.

(** C31: A lost registration makes a task run twice.  A client submits a task that
    its node runs itself, and the registration of the generating node is lost
    because the request's context was already cancelled.  Until the result is
    announced, one client that asks for it is enough: every report, even one by
    which all nodes are alive, makes the table send the recorded lineage to the
    global scheduler, and when that acknowledges, it has given some worker the
    very call that the local worker is running.  With the registration, a report
    by which that node is alive reschedules nothing. *)
Theorem lost_registration_runs_twice draw ws ls req calls r lin gen run g ops g1 acts pk p requester g2 resp :
  let uid := TruncateHighBit draw in
  LocalScheduler.Schedule draw ws ls req = (calls, Returns r) →
  CallRegisterLineage lin ∈ calls → GoRunLocally gen run ∈ calls →
  lineage g !! uid = None → generating g !! uid = None →
  gcs_run cfg ops (RegisterLineage g lin).1 = Returns (g1, acts) →
  Forall (λ op, ¬ mentions uid op) ops →
  RequestLocation cfg pk (Some p) g1 {| rl_Uid := uid; rl_Requester := requester |} =
    Returns (g2, [], (Some resp, None)) →
  local_goroutine true gen run = [SendRun run] ∧
  ∀ o1 o2 o3 lreq,
    (GoSchedule uid ∈ (RegisterLiveNodes o1 o2 o3 g2 lreq).1.2 ∧
     schedule_request (RegisterLiveNodes o1 o2 o3 g2 lreq).1.1 uid = Some lin ∧
     ∀ env gs sched_calls ok,
       GlobalScheduler.Schedule cfg env gs lin = (sched_calls, Returns (Some ok, None)) →
       ∃ node, CallRun (node_address (NodePrefix cfg) node
                          (port_LocalWorkerStart (cfg_Ports cfg))) run ∈ sched_calls) ∧
    (local_goroutine false gen run = [SendRegisterGenerating gen; SendRun run] ∧
     (ln_LiveNodes lreq !! LocalScheduler.localNodeID ls = Some true →
      GoSchedule uid ∉ (RegisterLiveNodes o1 o2 o3 (RegisterGenerating g2 gen).1 lreq).1.2)).
Proof.
  intros uid Hs Hlin Hgo Hfresh Hgen Hrun Hops Hreq. split; [done|].
  assert (lin = {| gs_Uid := uid; gs_Name := rr_Name run; gs_Args := rr_Args run;
      gs_Kwargs := rr_Kwargs run; gs_Uids := sr_Uids req; gs_NewObject := false; gs_NodeId := 0;
      gs_LocalityFlag := false |} ∧ gn_Uid gen = uid ∧ gn_NodeId gen = LocalScheduler.localNodeID ls ∧
      rr_Uid run = uid) as (Hl & Hgu & Hgn & Hru).
  { unfold LocalScheduler.Schedule in Hs. fold uid in Hs.
    destruct (negb _); [|destruct ws.1 as [st|]; [destruct (_ <? _)%N|done]]; injection Hs as <- _;
      repeat (apply elem_of_cons in Hlin as [Hlin|Hlin]; [try discriminate Hlin|]);
      try (by apply not_elem_of_nil in Hlin);
      repeat (apply elem_of_cons in Hgo as [Hgo|Hgo]; [try discriminate Hgo|]);
      try (by apply not_elem_of_nil in Hgo). injection Hgo as -> ->. by injection Hlin as ->. }
  assert (RegisterLineage g lin = (set_lineage (<[uid := lin]> (lineage g)) g, (Some (Status false), None)))
    as Hreg by (unfold RegisterLineage, RegisterLineage_check; rewrite Hl; cbn [gs_Uid]; by rewrite Hfresh).
  rewrite Hreg in Hrun.
  pose proof (gcs_run_generating _ _ _ _ _ Hrun Hops) as Hg1.
  destruct (RequestLocation_leaves_entry _ _ _ _ _ _ Hreq) as (Hc & Hg2 & Hl2). simpl in Hc, Hg1.
  assert (lineage g2 !! uid = Some lin) as Hlin2.
  { rewrite Hl2. eapply (gcs_run_lineage cfg); [|exact Hrun]. apply lookup_insert_eq. }
  assert (getNodes g2 uid = []) as Hnodes
    by (unfold getNodes; by rewrite Hg2, Hg1, Hgen, Hc).
  intros o1 o2 o3 lreq. split; [split_and!|split; [done|]].
  - destruct (RegisterLiveNodes_actions o1 o2 o3 g2 lreq) as (uids & -> & _ & Hiff).
    apply list_elem_of_fmap_2, Hiff. split; [right; by eexists|]. rewrite Hnodes. by intros n ?%not_elem_of_nil.
  - exact Hlin2.
  - intros env gs sched_calls ok (node & _ & ->)%Schedule_acknowledged. exists node.
    apply elem_of_cons. right. apply list_elem_of_singleton. rewrite Hl. simpl. rewrite <-Hru. by destruct run.
  - intros Hlive. destruct (RegisterLiveNodes_actions o1 o2 o3 (RegisterGenerating g2 gen).1 lreq)
      as (uids & -> & _ & Hiff). intros (? & [= <-] & Hin)%list_elem_of_fmap.
    apply Hiff in Hin as [_ Hdead]. specialize (Hdead (gn_NodeId gen)). rewrite Hgn, Hlive in Hdead.
    discriminate Hdead. rewrite getNodes_eq. simpl. rewrite Hgu, lookup_insert_eq, Hgn. left.
Qed.
End Reruns.

(** ** Witness *)

(** Node 3 runs the task of uid 5 itself; a client asks for it; all nodes are
    alive. *)
Definition submitted : list local_call * outcome (reply ScheduleResponse) :=
  LocalScheduler.Schedule 5 (Some (demo_status 0), None) (LocalScheduler.Build_server 3 true) (demo_request 0).
Definition submitted_lineage : GlobalScheduleRequest :=
  {| gs_Uid := 5; gs_Name := 3; gs_Args := [Byte.x61]; gs_Kwargs := []; gs_Uids := [9%N];
     gs_NewObject := false; gs_NodeId := 0; gs_LocalityFlag := false |}.
Definition unregistered : GCSObjServer memdb := (RegisterLineage demo_server submitted_lineage).1.
Definition asked_for : GCSObjServer memdb :=
  match RequestLocation app_config pick_first (Some "10.0.0.5:33012") unregistered (ask 5) with
  | Returns (g, _, _) => g
  | _ => demo_server
  end.
Definition all_alive : LiveNodesRequest := {| ln_LiveNodes := {[ 2%N := true; 3%N := true ]} |}.

Lemma lost_registration_runs_twice_witness :
  GoSchedule 5 ∈ (RegisterLiveNodes order_id order_id order_id asked_for all_alive).1.2 ∧
  (∃ node, CallRun (node_address "node" node 50002) (run_of 5 (demo_request 0)) ∈
     (GlobalScheduler.Schedule app_config demo_env demo_sched submitted_lineage).1) ∧
  GoSchedule 5 ∉ (RegisterLiveNodes order_id order_id order_id
    (RegisterGenerating asked_for {| gn_Uid := 5; gn_NodeId := 3 |}).1 all_alive).1.2.
Proof.
  destruct (lost_registration_runs_twice app_config 5 (Some (demo_status 0), None)
    (LocalScheduler.Build_server 3 true) (demo_request 0) submitted.1 (Some {| sp_Uid := 5 |}, None)
    submitted_lineage {| gn_Uid := 5; gn_NodeId := 3 |} (run_of 5 (demo_request 0)) demo_server []
    unregistered [] pick_first "10.0.0.5:33012" 0 asked_for {| rl_ImmediatelyFound := false |})
    as (_ & H); [reflexivity|left|right; right; left|reflexivity|reflexivity|reflexivity|constructor
    |vm_compute; reflexivity|].
  destruct (H order_id order_id order_id all_alive) as ((Hin & _ & Hs) & _ & Ha).
  split; [exact Hin|]. split; [|exact (Ha eq_refl)].
  apply (Hs demo_env demo_sched _ (Status true)). vm_compute. reflexivity.
Defined.
