(* ===== verification/System.v ===== *)
(** * The cluster: the object table, the stores and the network

    The object table of [GcsObj], the store of every node as the machine of
    [LobsChannels], and the messages between them, in one state machine.  The
    stores' notifications and requests and the table's callbacks wait in the
    network, where they overtake one another and may be lost; clients and
    workers call the stores at any time; the calls of a store interleave; a
    system call or a connection may fail at any step; and a store's process may
    restart with its tables empty. *)
From S2P Require Import Prelude Float32 Net Messages Config Sql MemSql GcsDb.
From S2P Require Import GcsObj GcsObjSpec GcsObjInv GcsObjThms GcsObjDirectory.
From S2P Require Import LocalObjStore LocalObjStoreThms LobsChannels LobsData.

(** ** The machine *)

Inductive message :=
  | MNotify (req : NotifyOwnsRequest)
  | MRequest (from : N) (req : RequestLocationRequest)
  | MCallback (to : string) (resp : LocationFoundCallback).

Record cluster (DB : Type) := {
  c_table : GCSObjServer DB;
  c_nodes : gmap N lstate;
  c_net : list message
}.
Arguments c_table {_} _.
Arguments c_nodes {_} _.
Arguments c_net {_} _.
Arguments Build_cluster {_} _ _ _.

(** The messages a store's calls and a handler's goroutines put on the network.
    A copy is answered within the call that asks for it; what [GoSchedule]
    leads to are calls of [Store], which come from the workers. *)
Definition sent_by (n : N) (calls : list lobs_call) : list message :=
  omap (λ c, match c with
    | CallNotifyOwns req => Some (MNotify req)
    | CallRequestLocation req => Some (MRequest n req)
    | CallCopy _ _ => None
    end) calls.

Definition callbacks (acts : list gcs_action) : list message :=
  omap (λ a, match a with
    | GoSendCallback client uid node =>
        (λ x, MCallback x.1 x.2) <$> sendCallback (λ _, None) client uid node
    | GoSchedule _ => None
    end) acts.

(** A store's process after it restarted: its files remain. *)
Definition restarted (n : N) (st : lstate) : lstate :=
  {| l_fs := {| files := files (l_fs st); open_fds := 0 |}; l_server := new_server n;
     next_chan := 0; gets := []; founds := [] |}.

(** What a [Copy] leaves at the node that answers it. *)
Definition served (e : sys) (req : CopyRequest) (st : lstate) : lstate :=
  {| l_fs := (Copy e (l_fs st) (l_server st) req).1; l_server := l_server st;
     next_chan := next_chan st; gets := gets st; founds := founds st |}.

Inductive slabel :=
  | AtNode (n : N) (l : llabel)       (* a client's or a worker's call, or a step of one *)
  | GetStep (n : N) (i : nat) (Dial : string → option goerror) (fault : option goerror)
      (e_remote e : sys)
  | TableHandles (k : nat) (pk : picker)    (* the table handles message [k] *)
  | NodeHandles (k : nat) (n : N)           (* node [n] handles the callback [k] *)
  | Lose (k : nat)
  | TableOp (op : gcs_op)             (* a call of the other services, or a flush *)
  | Crash (n : N).

Section System.
Context {DB TX STMT : Type} `{!SqlDriver DB TX STMT} (cfg : Config).
(** The address of every node as its peers see it. *)
Context (peer_of : N → string).
Implicit Types c : cluster DB.

(** The node whose store listens at an address. *)
Definition node_at (nodes : gmap N lstate) (address : string) : option N :=
  head (filter (λ n, node_address (NodePrefix cfg) n (port_LocalObjectStore (cfg_Ports cfg)) = address)
    (map_to_list nodes).*1).

(** The answer to a [Copy]; a process that ends answers nothing. *)
Definition remote_copy (nodes : gmap N lstate) (fault : option goerror) (e : sys)
    (address : string) (req : CopyRequest) : reply CopyResponse :=
  let unavailable := (None, Some (PlainError "connection error")) in
  match fault with
  | Some err => (None, Some err)
  | None =>
      match node_at nodes address ≫= (nodes !!.) with
      | None => unavailable
      | Some st =>
          match (Copy e (l_fs st) (l_server st) req).2 with Returns r => r | _ => unavailable end
      end
  end.

(** The nodes after the copies among [calls] were answered.  A store that copies
    from itself answers before it keeps the copy, to the same effect. *)
Fixpoint serve (e : sys) (calls : list lobs_call) (nodes : gmap N lstate) : gmap N lstate :=
  match calls with
  | CallCopy address req :: calls =>
      let nodes := match node_at nodes address with
                   | Some m => alter (served e req) m nodes
                   | None => nodes
                   end in
      serve e calls nodes
  | _ :: calls => serve e calls nodes
  | [] => nodes
  end.

(** Node [n] takes the step [l]. *)
Definition at_node (n : N) (l : llabel) c : option (cluster DB * list lobs_call) :=
  st ← c_nodes c !! n;
  '(st, calls) ← lexec l st;
  Some (Build_cluster (c_table c) (<[n := st]> (c_nodes c)) (c_net c ++ sent_by n calls), calls).

(** The table takes the operation [op]. *)
Definition at_table (op : gcs_op) c : option (cluster DB) :=
  match gcs_exec cfg op (c_table c) with
  | Returns (g, acts) => Some (Build_cluster g (c_nodes c) (c_net c ++ callbacks acts))
  | _ => None
  end.

Definition without (k : nat) c : cluster DB :=
  Build_cluster (c_table c) (c_nodes c) (delete k (c_net c)).

(** The operations of the table that are not messages of the stores. *)
Definition is_internal (op : gcs_op) : bool :=
  match op with OpNotifyOwns _ | OpRequestLocation _ _ _ => false | _ => true end.

Definition sys_exec (l : slabel) c : option (cluster DB) :=
  match l with
  | AtNode n (CallLocationFound _) | AtNode n (StepGet _ _) => None
  | AtNode n l => fst <$> at_node n l c
  | GetStep n i Dial fault e_remote e =>
      let env := {| env_cfg := cfg; env_Dial := Dial;
                    env_Copy := remote_copy (c_nodes c) fault e_remote; env_sys := e |} in
      '(c, calls) ← at_node n (StepGet i env) c;
      Some (if fault then c
            else Build_cluster (c_table c) (serve e_remote calls (c_nodes c)) (c_net c))
  | TableHandles k pk =>
      match c_net c !! k with
      | Some (MNotify req) => at_table (OpNotifyOwns req) (without k c)
      | Some (MRequest from req) =>
          at_table (OpRequestLocation pk (Some (peer_of from)) req) (without k c)
      | _ => None
      end
  | NodeHandles k n =>
      match c_net c !! k with
      | Some (MCallback to resp) =>
          if decide (to = client_address cfg (peer_of n)) then
            fst <$> at_node n (CallLocationFound resp) (without k c)
          else None
      | _ => None
      end
  | Lose k => Some (without k c)
  | TableOp op => if is_internal op then at_table op c else None
  | Crash n => Some (Build_cluster (c_table c) (alter (restarted n) n (c_nodes c)) (c_net c))
  end.

Fixpoint sys_run (ls : list slabel) c : option (cluster DB) :=
  match ls with
  | [] => Some c
  | l :: ls => c ← sys_exec l c; sys_run ls c
  end.

(** The cluster before any call: every node's store has just started. *)
Definition sys_init (g : GCSObjServer DB) (ids : gset N) : cluster DB :=
  Build_cluster g (set_to_map (λ n, (n, linit n)) ids) [].

Lemma sys_run_invariant (ok : slabel → Prop) (P : cluster DB → Prop) :
  (∀ l c c', ok l → P c → sys_exec l c = Some c' → P c') →
  ∀ ls c c', Forall ok ls → P c → sys_run ls c = Some c' → P c'.
Proof.
  intros Hstep ls. induction ls as [|l ls IH]; simpl; intros c c' Hok Hp E; [by injection E as <-|].
  apply Forall_cons in Hok as [Hl Hok].
  destruct (sys_exec l c) as [c1|] eqn:E1; [|done]. eapply IH; [done| |exact E]. by eapply Hstep.
Qed.
End System.
