(* ===== verification/SystemThms.v ===== *)
(** * What the cluster guarantees

    Invariants of the machine of [System] and what follows for its clients:
    answers are the stored bytes, callbacks name nodes that have the object, and
    how waiting on the node that computes an object breaks the persistence of
    the table. *)
From S2P Require Import Prelude Float32 Net Messages Config Sql MemSql GcsDb.
From S2P Require Import GcsObj GcsObjSpec GcsObjInv GcsObjThms GcsObjDirectory.
From S2P Require Import LocalObjStore LocalObjStoreThms LobsChannels LobsData System.

Section Nodes.
Context (cfg : Config) (D : N → bytes).
Implicit Types nodes : gmap N lstate.

(** Every store satisfies the invariant of [LobsData] and knows its own number. *)
Definition nodes_ok (Q : LocationFoundCallback → Prop) nodes : Prop :=
  ∀ n st, nodes !! n = Some st → (∃ own, data_inv D Q own st) ∧ localNodeID (l_server st) = n.

(** No store lost anything it recorded. *)
Definition nodes_grow nodes nodes' : Prop :=
  ∀ n st, nodes !! n = Some st →
    ∃ st', nodes' !! n = Some st' ∧ grows (l_server st) (l_server st').

#[export] Instance nodes_grow_preorder : PreOrder nodes_grow.
Proof.
  split; [by intros ? ? st ?; exists st|]. intros n1 n2 n3 H12 H23 n st Hn.
  apply H12 in Hn as (st2 & Hn & Hg). apply H23 in Hn as (st3 & Hn & Hg').
  exists st3. split; [done|]. by etrans.
Qed.

Lemma node_at_address nodes address m :
  node_at cfg nodes address = Some m →
  is_Some (nodes !! m) ∧ address = node_address (NodePrefix cfg) m (port_LocalObjectStore (cfg_Ports cfg)).
Proof.
  unfold node_at. intros Hm%head_Some_elem_of.
  apply list_elem_of_filter in Hm as [<- ([m' st] & -> & Hin)%list_elem_of_fmap_1].
  split; [|done]. exists st. by apply elem_of_map_to_list.
Qed.

(** The address of a node of the cluster leads to it. *)
Lemma node_at_node nodes m :
  is_Some (nodes !! m) →
  node_at cfg nodes (node_address (NodePrefix cfg) m (port_LocalObjectStore (cfg_Ports cfg))) = Some m.
Proof.
  intros [st Hm]. destruct (node_at _ _ _) as [m'|] eqn:E.
  - apply node_at_address in E as [_ E]. apply node_address_same in E as [-> _]. done.
  - unfold node_at in E. apply head_None in E. exfalso.
    assert (m ∈ (map_to_list nodes).*1) as Hin
      by (apply list_elem_of_fmap; exists (m, st); by rewrite elem_of_map_to_list).
    eapply not_elem_of_nil. rewrite <-E. apply list_elem_of_filter. split; [reflexivity|exact Hin].
Qed.

Lemma remote_copy_right Q nodes fault e : nodes_ok Q nodes → copies_right D (remote_copy cfg nodes fault e).
Proof.
  intros Hn address req x. unfold remote_copy. destruct fault; [done|].
  destruct (node_at cfg nodes address) as [m|]; simpl; [|done].
  destruct (nodes !! m) as [st|] eqn:Hm; [|done]. apply Hn in Hm as [[own Hi] _].
  destruct (Copy e (l_fs st) (l_server st) req).2 as [r| |] eqn:E; try done. intros ->.
  eapply Copy_contents; [apply Hi|exact E].
Qed.

Lemma served_ok Q own e req st : data_inv D Q own st → data_inv D Q own (served e req st).
Proof.
  intros [Hc Hch Hg Hf]. constructor; try done. intros u Hu. unfold holds. simpl.
  rewrite Copy_files. by apply Hc.
Qed.

Lemma serve_ok Q e calls nodes :
  nodes_ok Q nodes → nodes_ok Q (serve cfg e calls nodes) ∧ nodes_grow nodes (serve cfg e calls nodes).
Proof.
  revert nodes. induction calls as [|[nreq|rreq|address req] calls IH]; intros nodes Hn; simpl.
  1-3: auto; by split.
  destruct (node_at cfg nodes address) as [m|]; [|auto].
  destruct (IH (alter (served e req) m nodes)) as [Hok Hg].
  { intros n st. rewrite lookup_alter_Some. intros [(-> & st0 & Hst & ->)|[_ Hst]]; [|by apply Hn].
    apply Hn in Hst as [[own Hi] Hid]. split; [|done]. exists own. by apply served_ok. }
  split; [done|]. etrans; [|exact Hg]. intros n st Hst. destruct (decide (m = n)) as [->|].
  - exists (served e req st). by rewrite lookup_alter_eq, Hst.
  - exists st. by rewrite lookup_alter_ne.
Qed.

Lemma restarted_ok Q n nodes : nodes_ok Q nodes → nodes_ok Q (alter (restarted n) n nodes).
Proof.
  intros Hn m st. rewrite lookup_alter_Some. intros [(-> & st0 & Hst & ->)|[_ Hst]]; [|by apply Hn].
  split; [|done]. exists (λ _, 0%N). constructor; simpl; [| |constructor..].
  { intros u [? Hu]. simpl in Hu. by rewrite lookup_empty in Hu. }
  intros u c Hc. by rewrite lookup_empty in Hc.
Qed.
End Nodes.

(** Knowing more of the callbacks. *)
Lemma nodes_ok_impl D (Q Q' : LocationFoundCallback → Prop) nodes :
  (∀ resp, Q resp → Q' resp) → nodes_ok D Q nodes → nodes_ok D Q' nodes.
Proof.
  intros HQ Hn n st Hst. destruct (Hn n st Hst) as [[own Hi] Hid].
  split; [|done]. exists own. by eapply data_inv_impl.
Qed.

(** ** Steps *)

(** Every [Store] of a uid brings the same bytes, and some. *)
Definition stores (D : N → bytes) (l : slabel) : Prop :=
  match l with
  | AtNode _ (CallStore _ req) => so_ObjectBytes req = D (so_Uid req) ∧ D (so_Uid req) ≠ []
  | _ => True
  end.

Section Steps.
Context {DB TX STMT : Type} `{!SqlDriver DB TX STMT, !SqlLaws DB TX STMT} (cfg : Config).
Context (peer_of : N → string) (D : N → bytes).
Implicit Types (c : cluster DB) (Q : LocationFoundCallback → Prop).

(** The messages a node sends when it has recorded what it announces. *)
Definition truthful (nodes : gmap N lstate) (m : message) : Prop :=
  match m with
  | MNotify req => ∃ st, nodes !! no_NodeId req = Some st ∧
                     is_Some (objectSizes (l_server st) !! no_Uid req)
  | _ => True
  end.

Definition is_callback (m : message) : Prop := match m with MCallback _ _ => True | _ => False end.

Lemma at_node_ok Q n l c c' calls :
  nodes_ok D Q (c_nodes c) → label_ok D Q l → at_node n l c = Some (c', calls) →
  nodes_ok D Q (c_nodes c') ∧ nodes_grow (c_nodes c) (c_nodes c') ∧ c_table c' = c_table c ∧
  ∃ ms, c_net c' = c_net c ++ ms ∧ Forall (λ m, truthful (c_nodes c') m ∧ ¬ is_callback m) ms.
Proof.
  intros Hn Hl. unfold at_node. destruct (c_nodes c !! n) as [st|] eqn:Hst; simpl; [|done].
  destruct (lexec l st) as [[st' calls']|] eqn:E; simpl; [|done]. intros [= <- <-]. simpl.
  destruct (Hn n st Hst) as [[own Hi] Hid].
  destruct (lexec_data D Q own l st st' calls' Hi Hl E) as (Hi' & Ha & Hg). split_and!.
  - intros m st1. destruct (decide (n = m)) as [<-|].
    + rewrite lookup_insert_eq. intros [= <-]. split; [done|]. by rewrite <-Hid, (proj1 Hg).
    + rewrite lookup_insert_ne by done. apply Hn.
  - intros m st1 Hm. destruct (decide (n = m)) as [<-|].
    + rewrite Hst in Hm. injection Hm as <-. exists st'. by rewrite lookup_insert_eq.
    + exists st1. by rewrite lookup_insert_ne.
  - done.
  - exists (sent_by n calls'). split; [done|]. apply Forall_forall.
    intros m (call & Hin & Hm)%list_elem_of_omap. destruct call; simplify_eq; (split; [|by intros []]); [|done].
    destruct (Ha _ Hin) as [Hno Hs]. exists st'. rewrite Hno, (proj1 Hg). by rewrite lookup_insert_eq.
Qed.

Lemma at_table_nodes op c c' :
  at_table cfg op c = Some c' →
  ∃ g acts, gcs_exec cfg op (c_table c) = Returns (g, acts) ∧
    c' = Build_cluster g (c_nodes c) (c_net c ++ callbacks acts).
Proof. unfold at_table. destruct (gcs_exec _ _ _) as [[g acts]| |]; [|done..]. intros [= <-]. eauto. Qed.

(** What the callbacks on the network satisfy. *)
Definition net_ok Q (ms : list message) : Prop :=
  Forall (λ m, match m with MCallback _ resp => Q resp | _ => True end) ms.

(** The nodes' side of a step: [Q] is to hold of the callbacks under way. *)
Lemma sys_exec_nodes Q l c c' :
  nodes_ok D Q (c_nodes c) → net_ok Q (c_net c) → stores D l → sys_exec cfg peer_of l c = Some c' →
  nodes_ok D Q (c_nodes c').
Proof.
  intros Hn Hnet Hs. destruct l as [n l|n i Dial fault e_remote e|k pk|k n|k|op|n]; simpl.
  - intros E. assert (∃ calls, at_node n l c = Some (c', calls) ∧ label_ok D Q l) as (calls & E' & Hl).
    { destruct l; try done; (destruct (at_node _ _ _) as [[c1 calls]|]; [|done]);
        injection E as <-; by eexists. }
    by apply (at_node_ok Q n l c c' calls).
  - destruct (at_node _ _ _) as [[c1 calls]|] eqn:E; [|done]. intros [= <-].
    eapply at_node_ok in E as (Hn' & _); [|done|by eapply remote_copy_right].
    destruct fault; [done|]. by apply serve_ok.
  - destruct (c_net c !! k) as [[req|from req|to resp]|]; try done;
      intros (g & acts & _ & ->)%at_table_nodes; exact Hn.
  - destruct (c_net c !! k) as [[req|from req|to resp]|] eqn:Hk; try done.
    destruct (decide _); [|done]. destruct (at_node _ _ _) as [[c1 calls]|] eqn:E; [|done].
    intros [= <-]. apply (at_node_ok Q) in E as (Hn' & _); [exact Hn'|exact Hn|].
    exact (Forall_lookup_1 _ _ _ _ Hnet Hk).
  - by intros [= <-].
  - destruct (is_internal op); [|done]. intros (g & acts & _ & ->)%at_table_nodes. exact Hn.
  - intros [= <-]. by apply restarted_ok.
Qed.

(** ** Callbacks name nodes that have the object *)

Definition records (nodes : gmap N lstate) (n u : N) : Prop :=
  ∃ st, nodes !! n = Some st ∧ is_Some (objectSizes (l_server st) !! u).

(** What a callback of the table says: node 0, or a node that has the object. *)
Definition names (nodes : gmap N lstate) (resp : LocationFoundCallback) : Prop :=
  lf_Port resp = 0%N ∧ (lf_Location resp = 0%N ∨ records nodes (lf_Location resp) (lf_Uid resp)).

Lemma records_grow nodes nodes' n u : nodes_grow nodes nodes' → records nodes n u → records nodes' n u.
Proof. intros Hg (st & Hst & Hu). apply Hg in Hst as (st' & Hst & [_ Hs]). exists st'. auto. Qed.

Lemma names_grow nodes nodes' resp : nodes_grow nodes nodes' → names nodes resp → names nodes' resp.
Proof. intros Hg [Hp [Hl|Hl]]; split; eauto using records_grow. Qed.

Lemma truthful_grow nodes nodes' m : nodes_grow nodes nodes' → truthful nodes m → truthful nodes' m.
Proof. destruct m; simpl; [|done..]. apply records_grow. Qed.

(** The state is the nodes, what the table knows and the network. *)
Record holders_ok (nodes : gmap N lstate) (g : GCSObjServer DB) (ms : list message) : Prop := {
  ho_inv : gcs_inv g;
  ho_table u n : n ∈ locations g u → records nodes n u;
  ho_truthful : Forall (truthful nodes) ms;
  ho_net : net_ok (names nodes) ms
}.

Lemma holders_ok_grow nodes nodes' g ms :
  nodes_grow nodes nodes' → holders_ok nodes g ms → holders_ok nodes' g ms.
Proof.
  intros Hg [Hi Ht Htr Hn]. constructor; [done|eauto using records_grow|..].
  - eapply Forall_impl; [exact Htr|]. eauto using truthful_grow.
  - eapply Forall_impl; [exact Hn|]. intros [] ?; eauto using names_grow.
Qed.

Lemma holders_ok_sent nodes g ms ms' :
  holders_ok nodes g ms → Forall (λ m, truthful nodes m ∧ ¬ is_callback m) ms' →
  holders_ok nodes g (ms ++ ms').
Proof.
  intros [Hi Ht Htr Hn] Hms. constructor; [done|done|..]; apply Forall_app; (split; [done|]);
    (eapply Forall_impl; [exact Hms|]); intros m [Hm Hc]; [done|]. by destruct m.
Qed.

Lemma holders_ok_without nodes g ms k : holders_ok nodes g ms → holders_ok nodes g (delete k ms).
Proof. intros [Hi Ht Htr Hn]. constructor; [done|done|..]; by apply Forall_delete. Qed.

(** What the directory's steps say, for the table that implements it. *)
Lemma dir_step_names d op acts d' :
  dir_step cfg false d op acts d' →
  (∀ u n, n ∈ d_where d' u → n ∈ d_where d u ∨
     ∃ req, op = OpNotifyOwns req ∧ no_Uid req = u ∧ no_NodeId req = n) ∧
  (∀ client u n, GoSendCallback client u n ∈ acts → n = 0%N ∨ n ∈ d_where d' u).
Proof.
  intros Hs. destruct Hs as [req keep d' _ Hwh _|? p req n d' [Hwh _] _ Hn|? ? req d' _ Hwh _|? ? ? ? [Hwh _]
    |? ? [Hwh _]|? ? [Hwh _]|? ? ? ? uids ? [Hwh _]|? ? [Hwh _]|? ? ? [Hwh _]]; split;
    try (intros u n'; rewrite Hwh; by left); try (by intros ? ? ? ?%not_elem_of_nil).
  - intros u n. rewrite Hwh. destruct (decide (u = _)) as [->|]; [|by left].
    intros [Hin|Hn%elem_of_singleton]%elem_of_union; [left; by destruct keep|right; eauto].
  - intros client u n (? & [= -> -> ->] & _)%list_elem_of_fmap. right. rewrite Hwh, decide_True by done.
    set_solver.
  - intros client u n' Hin%list_elem_of_singleton. injection Hin as -> -> ->. by rewrite Hwh.
  - intros client u n (? & Hin & _)%list_elem_of_fmap. discriminate Hin.
Qed.

Lemma at_table_holders op c c' :
  holders_ok (c_nodes c) (c_table c) (c_net c) →
  (∀ req, op = OpNotifyOwns req → records (c_nodes c) (no_NodeId req) (no_Uid req)) →
  at_table cfg op c = Some c' → holders_ok (c_nodes c') (c_table c') (c_net c').
Proof.
  intros [Hi Ht Htr Hn] Hop (g & acts & E & ->)%at_table_nodes. simpl.
  pose proof (gcs_inv_exec cfg _ _ _ _ E Hi) as Hi'.
  destruct (dir_step_names _ _ _ _ (gcs_exec_dir cfg false op _ _ _ Hi E (λ H, False_ind _ (diff_false_true H))))
    as [Hwh Ha].
  assert (∀ u n, n ∈ locations g u → records (c_nodes c) n u) as Ht'
    by (intros u n [Hin|(req & -> & <- & <-)]%Hwh; auto).
  constructor; [done|done|..]; apply Forall_app; (split; [done|]); apply Forall_forall;
    intros m (a & Hin & Hm)%list_elem_of_omap; destruct a as [client u n|]; simplify_eq/=; [done|].
  split; [done|]. simpl. apply Ha in Hin as [->|Hin]; [by left|right]. by apply Ht'.
Qed.

Definition is_crash (l : slabel) : Prop := match l with Crash _ => True | _ => False end.

Record sys_inv c : Prop := {
  si_nodes : nodes_ok D (names (c_nodes c)) (c_nodes c);
  si_holders : holders_ok (c_nodes c) (c_table c) (c_net c)
}.

(** A step of one node, its messages sent. *)
Lemma sys_inv_at_node n l c c' calls :
  sys_inv c → label_ok D (names (c_nodes c)) l → at_node n l c = Some (c', calls) →
  sys_inv c' ∧ nodes_grow (c_nodes c) (c_nodes c').
Proof.
  intros [Hn Hh] Hl E.
  destruct (at_node_ok _ _ _ _ _ _ Hn Hl E) as (Hn' & Hg & Ht & ms & Hnet & Hms). split; [|done].
  constructor.
  - eapply nodes_ok_impl; [|exact Hn']. intros resp. by apply names_grow.
  - rewrite Ht, Hnet. apply holders_ok_sent; [|done]. by eapply holders_ok_grow.
Qed.

Lemma sys_inv_exec l c c' :
  ¬ is_crash l → stores D l → sys_inv c → sys_exec cfg peer_of l c = Some c' → sys_inv c'.
Proof.
  intros Hcr Hs Hi. pose proof Hi as [Hn Hh]. destruct l as [n l|n i Dial fault e_remote e|k pk|k n|k|op|n]; simpl.
  - intros E. assert (∃ calls, at_node n l c = Some (c', calls) ∧ label_ok D (names (c_nodes c)) l)
      as (calls & E' & Hl).
    { destruct l; try done; (destruct (at_node _ _ _) as [[c1 calls]|]; [|done]);
        injection E as <-; by eexists. }
    by apply (sys_inv_at_node n l c c' calls).
  - destruct (at_node _ _ _) as [[c1 calls]|] eqn:E; [|done]. intros [= <-].
    apply sys_inv_at_node in E as [[Hn1 Hh1] _]; [|done|by eapply remote_copy_right].
    destruct fault; [done|]. destruct (serve_ok cfg D _ e_remote calls _ Hn1) as [Hn2 Hg].
    constructor; [|by eapply holders_ok_grow]. eapply nodes_ok_impl; [|exact Hn2].
    intros resp. by apply names_grow.
  - destruct (c_net c !! k) as [m|] eqn:Hk; [|done].
    pose proof (Forall_lookup_1 _ _ _ _ (ho_truthful _ _ _ Hh) Hk) as Hm.
    destruct m as [req|from req|to resp]; [..|done]; intros E;
      pose proof (at_table_nodes _ _ _ E) as (g & acts & _ & Hc');
      (apply at_table_holders in E; [|by apply holders_ok_without|]);
      [by (constructor; [subst c'|])|by intros ? [= <-]|by (constructor; [subst c'|])|done].
  - destruct (c_net c !! k) as [[req|from req|to resp]|] eqn:Hk; try done.
    destruct (decide _); [|done]. destruct (at_node _ _ _) as [[c1 calls]|] eqn:E; [|done].
    intros [= <-]. pose proof (Forall_lookup_1 _ _ _ _ (ho_net _ _ _ Hh) Hk) as Hr.
    apply sys_inv_at_node in E as [Hi' _]; [done| |done].
    constructor; [done|by apply holders_ok_without].
  - intros [= <-]. constructor; [done|by apply holders_ok_without].
  - destruct (is_internal op) eqn:Hop; [|done]. intros E.
    pose proof (at_table_nodes _ _ _ E) as (g & acts & _ & Hc').
    apply at_table_holders in E; [|done|by intros ? ->]. by constructor; [subst c'|].
  - done.
Qed.

Lemma init_nodes Q (ids : gset N) : nodes_ok D Q (set_to_map (λ n, (n, linit n)) ids).
Proof.
  intros n st (m & _ & [= -> <-])%lookup_set_to_map; [|done].
  split; [exists (λ _, 0%N); apply data_inv_init|done].
Qed.

Lemma NewGCSObjServer_locations (opened : result DB) f (g : GCSObjServer DB) u :
  NewGCSObjServer opened f = Returns g → locations g u = stored (database g) u.
Proof.
  intros (Ho & _)%NewGCSObjServer_empty. apply locations_uncached. unfold cached. by rewrite Ho.
Qed.

Lemma sys_inv_init opened f g ids :
  NewGCSObjServer opened f = Returns g → tbl (database g) = ∅ → sys_inv (sys_init g ids).
Proof.
  intros Hnew Ht. constructor; [apply init_nodes|]. pose proof (gcs_inv_init _ _ _ Hnew) as Hi.
  constructor; [done| |constructor..]. intros u n. simpl.
  rewrite (NewGCSObjServer_locations _ _ _ _ Hnew), elem_of_stored, Ht. set_solver.
Qed.
End Steps.

(** ** The theorems *)

(** A copy from a node that has the object. *)
Lemma remote_copy_holds cfg nodes m st e u requester data :
  nodes !! m = Some st → holds (l_fs st) (l_server st) u data → faultless e →
  remote_copy cfg nodes None e (node_address (NodePrefix cfg) m (port_LocalObjectStore (cfg_Ports cfg)))
    {| cr_Uid := u; cr_Requester := requester |} =
  (Some {| cp_Uid := u; cp_ObjectBytes := data |}, None).
Proof.
  intros Hm Hh He. unfold remote_copy. rewrite node_at_node by done. simpl.
  by rewrite Hm, (Copy_holds _ _ _ _ _ data).
Qed.

(** Answering copies changes no call of [Get]. *)
Lemma serve_gets cfg e calls nodes n st :
  nodes !! n = Some st → ∃ st', serve cfg e calls nodes !! n = Some st' ∧ gets st' = gets st.
Proof.
  revert nodes st. induction calls as [|[nreq|rreq|address req] calls IH]; intros nodes st Hn; simpl; eauto.
  destruct (node_at cfg nodes address) as [m|]; [|eauto]. destruct (decide (m = n)) as [->|].
  - destruct (IH (alter (served e req) n nodes) (served e req st)) as (st' & Hst' & Hg); [|eauto].
    by rewrite lookup_alter_eq, Hn.
  - apply IH. by rewrite lookup_alter_ne.
Qed.

Lemma Get_received_right cfg CopyFrom e fs s req resp data :
  faultless e → data ≠ [] → ge_Copy req = true → lf_Port resp = 0%N → lf_Uid resp = ge_Uid req →
  let address := node_address (NodePrefix cfg) (lf_Location resp) (port_LocalObjectStore (cfg_Ports cfg)) in
  let copy := {| cr_Uid := ge_Uid req; cr_Requester := localNodeID s |} in
  CopyFrom address copy = (Some {| cp_Uid := ge_Uid req; cp_ObjectBytes := data |}, None) →
  ∃ fs' s', Get_received cfg (λ _, None) CopyFrom e fs s req resp =
    (fs', s', CallCopy address copy ::
       (if ge_Cache req then [CallNotifyOwns {| no_Uid := ge_Uid req; no_NodeId := localNodeID s;
                                                no_ObjectSize := 0 |}] else []),
     (Some {| gr_Uid := ge_Uid req; gr_ObjectBytes := data; gr_Local := false;
              gr_Size := if ge_Cache req then N.of_nat (length data) else 0 |}, None)).
Proof.
  intros He Hd Hcp Hp Hu address copy HC.
  destruct (keep_faultless e fs s (ge_Uid req) data) as (fs' & s' & EB); [done|done|].
  unfold Get_received. rewrite Hcp, Hp, Hu. simpl. fold address copy. rewrite HC. simpl.
  destruct (ge_Cache req); [|by do 2 eexists]. rewrite EB. apply keep_ok in EB as [_ ->]. by do 2 eexists.
Qed.

Section Theorems.
Context {DB TX STMT : Type} `{!SqlDriver DB TX STMT, !SqlLaws DB TX STMT} (cfg : Config).
Context (peer_of : N → string) (D : N → bytes).

(** In every run, with restarts, the stores' files and answers are right. *)
Lemma sys_run_answers (g : GCSObjServer DB) ids ls c n st i req r :
  Forall (stores D) ls → sys_run cfg peer_of ls (sys_init g ids) = Some c →
  c_nodes c !! n = Some st → gets st !! i = Some (req, GetDone r) →
  contents D (l_fs st) (l_server st) ∧ answer_ok D (l_server st) req r.
Proof.
  intros Hls Hrun Hst Hget.
  assert (nodes_ok D (λ _, True) (c_nodes c)) as Hn.
  { eapply (sys_run_invariant cfg peer_of (stores D) (λ c, nodes_ok D (λ _, True) (c_nodes c)));
      [|exact Hls| |exact Hrun].
    - intros l c1 c2 Hl H1 E. eapply sys_exec_nodes; [exact H1| |exact Hl|exact E].
      apply Forall_true. by intros [].
    - apply init_nodes. }
  destruct (Hn _ _ Hst) as [[own Hi] _]. split; [apply Hi|].
  exact (Forall_lookup_1 _ _ _ _ (di_gets _ _ _ _ Hi) Hget).
Qed.

(** C3: Every [Get] answers with the stored bytes.  If every [Store] of a uid, at
    any node and at any time, brings the same non-empty bytes, then in every run
    of the cluster, with messages lost and overtaken, interleaved calls, failing
    system calls and connections, restarted stores and whatever the table's
    database held before, a [Get] that answers without an error answers right:
    bytes it hands over are the object's, and after an answer for an object of
    this node, or a cached copy, the object's file on this node holds exactly
    the object, of the answered size. *)
Theorem get_answers_the_stored_bytes (g : GCSObjServer DB) ids ls c n st i req x :
  Forall (stores D) ls → sys_run cfg peer_of ls (sys_init g ids) = Some c →
  c_nodes c !! n = Some st → gets st !! i = Some (req, GetDone (Some x, None)) →
  let u := ge_Uid req in
  (gr_Local x = false → ge_Copy req = true → gr_ObjectBytes x = D u) ∧
  (gr_Local x = true ∨ ge_Copy req = true ∧ ge_Cache req = true →
   gr_Size x = N.of_nat (length (D u)) ∧ files (l_fs st) !! shm_path (FormatUint u) = Some (D u)).
Proof.
  intros Hls Hrun Hst Hget u.
  destruct (sys_run_answers _ _ _ _ _ _ _ _ _ Hls Hrun Hst Hget) as [Hc Hok]. simpl in Hok. fold u in Hok.
  assert (is_Some (objectSizes (l_server st) !! u) →
    files (l_fs st) !! shm_path (FormatUint u) = Some (D u)) as Hfile by (intros Hu; by destruct (Hc u Hu)).
  destruct (gr_Local x); [naive_solver|].
  split; [naive_solver|]. intros [?|[Hcp Hca]]; [done|]. destruct (Hok Hcp) as (_ & _ & Hs). naive_solver.
Qed.

(** What the step of a [Get] that was called back does when nothing fails. *)
Lemma received_step (c : cluster DB) n st i req resp e_remote e :
  sys_inv D c → c_nodes c !! n = Some st → gets st !! i = Some (req, GetReceived resp) →
  lf_Location resp ≠ 0%N → ge_Copy req = true → faultless e_remote → faultless e →
  ∃ nodes' st', sys_exec cfg peer_of (GetStep n i (λ _, None) None e_remote e) c =
      Some (Build_cluster (c_table c) nodes' (c_net c ++ (if ge_Cache req then [MNotify {|
        no_Uid := ge_Uid req; no_NodeId := n; no_ObjectSize := 0 |}] else []))) ∧
    nodes' !! n = Some st' ∧ gets st' !! i = Some (req, GetDone (Some {|
      gr_Uid := ge_Uid req; gr_ObjectBytes := D (ge_Uid req); gr_Local := false;
      gr_Size := if ge_Cache req then N.of_nat (length (D (ge_Uid req))) else 0 |}, None)).
Proof.
  intros [Hn Hh] Hst Hget H0 Hcp Her He. destruct (Hn _ _ Hst) as [[own Hi] Hid].
  destruct (Forall_lookup_1 _ _ _ _ (di_gets _ _ _ _ Hi) Hget) as [[Hp Hl] Hu]. simpl in Hu.
  destruct Hl as [?|(sth & Hsth & Hrec)]; [done|].
  destruct (Hn _ _ Hsth) as [[ownh Hih] _]. rewrite Hu in Hrec.
  pose proof (di_contents _ _ _ _ Hih _ Hrec) as Hhold.
  destruct (Get_received_right cfg (remote_copy cfg (c_nodes c) None e_remote) e (l_fs st) (l_server st)
    req resp (D (ge_Uid req))) as (fs' & s' & E); [done|apply Hhold|done..|by eapply remote_copy_holds|].
  unfold sys_exec, at_node. rewrite Hst. cbn [mbind option_bind lexec]. rewrite Hget.
  cbn [mbind option_bind Get_step env_cfg env_Dial env_Copy env_sys]. rewrite E.
  cbn [mbind option_bind]. match goal with |- context [serve cfg e_remote ?calls ?nodes] =>
    destruct (serve_gets cfg e_remote calls nodes n _ (lookup_insert_eq _ _ _)) as (st' & Hst' & Hg) end.
  do 2 eexists. split; [|split; [exact Hst'|]].
  - cbn [c_table c_nodes c_net]. rewrite Hid. by destruct (ge_Cache req).
  - rewrite Hg. cbn [gets]. apply list_lookup_insert_eq. by eapply lookup_lt_Some.
Qed.

Lemma at_table_notify req (c : cluster DB) :
  at_table cfg (OpNotifyOwns req) c = Some (Build_cluster (NotifyOwns (c_table c) req).1.1 (c_nodes c)
    (c_net c ++ callbacks (NotifyOwns (c_table c) req).1.2)).
Proof. unfold at_table. cbn [gcs_exec]. by destruct (NotifyOwns (c_table c) req) as [[g acts] r]. Qed.

(** The clusters that a run without restarts reaches from an empty database. *)
Definition reachable_cluster (c : cluster DB) : Prop :=
  ∃ opened f (g : GCSObjServer DB) ids ls,
    NewGCSObjServer opened f = Returns g ∧ tbl (database g) = ∅ ∧
    Forall (λ l, stores D l ∧ ¬ is_crash l) ls ∧ sys_run cfg peer_of ls (sys_init g ids) = Some c.

Lemma reaches_inv c : reachable_cluster c → sys_inv D c.
Proof.
  intros (opened & f & g & ids & ls & Hnew & Ht & Hls & Hrun).
  eapply (sys_run_invariant cfg peer_of (λ l, stores D l ∧ ¬ is_crash l) (sys_inv D));
    [|exact Hls| |exact Hrun]; [|by eapply sys_inv_init].
  intros l c1 c2 [Hl Hcr] H1 E. by eapply sys_inv_exec.
Qed.

(** C5: A [Get] is sent to nodes that have its object.  Started with an empty
    database, and as long as no store restarts, a callback that a [Get] received
    is about its own object and names node 0 or a node whose store has the
    object; unless it names node 0, the next step of the [Get], when nothing
    fails then, copies the object's bytes from the named node and answers with
    them. *)
Theorem callback_leads_to_the_object c n st i req resp :
  reachable_cluster c → c_nodes c !! n = Some st → gets st !! i = Some (req, GetReceived resp) →
  lf_Uid resp = ge_Uid req ∧
  (lf_Location resp = 0%N ∨ records (c_nodes c) (lf_Location resp) (ge_Uid req)) ∧
  (lf_Location resp ≠ 0%N → ge_Copy req = true → ∀ e_remote e, faultless e_remote → faultless e →
   ∃ c' st', sys_exec cfg peer_of (GetStep n i (λ _, None) None e_remote e) c = Some c' ∧
     c_nodes c' !! n = Some st' ∧ gets st' !! i = Some (req, GetDone (Some {|
       gr_Uid := ge_Uid req; gr_ObjectBytes := D (ge_Uid req); gr_Local := false;
       gr_Size := if ge_Cache req then N.of_nat (length (D (ge_Uid req))) else 0 |}, None))).
Proof.
  intros Hi%reaches_inv Hst Hget. destruct (si_nodes _ _ Hi _ _ Hst) as [[own Hd] _].
  destruct (Forall_lookup_1 _ _ _ _ (di_gets _ _ _ _ Hd) Hget) as [[_ Hl] Hu]. simpl in Hu.
  rewrite Hu in Hl. split; [done|]. split; [done|]. intros H0 Hcp e_remote e Her He.
  destruct (received_step c n st i req resp e_remote e) as (nodes' & st' & E & Hst' & Hg); [done..|].
  by do 2 eexists.
Qed.

(** C32: Waiting on the node that computes an object ends the table's
    persistence.  A client waits on node [n] for an object that is not there
    yet; its callback names [n] itself.  The [Get] does not look again whether
    the object is there now: it copies it from its own node and announces it a
    second time.  If the table still has the first announcement in memory, then
    once it has handled this one, no later flush succeeds, whatever happens in
    between. *)
Theorem waiting_locally_ends_persistence c n st i req resp e_remote e :
  reachable_cluster c → c_nodes c !! n = Some st → gets st !! i = Some (req, GetReceived resp) →
  lf_Location resp = n → n ≠ 0%N → n ∈ cached (c_table c) (ge_Uid req) →
  ge_Copy req = true → ge_Cache req = true → faultless e_remote → faultless e →
  ∃ c', sys_run cfg peer_of [GetStep n i (λ _, None) None e_remote e;
                             TableHandles (length (c_net c)) pick_first] c = Some c' ∧
    ∀ ops g acts o1 o2, gcs_run cfg ops (c_table c') = Returns (g, acts) →
      ∃ err, (flushToDisk o1 o2 g).2 = Some err.
Proof.
  intros Hi%reaches_inv Hst Hget <- H0 Hc Hcp Hca Her He.
  destruct (received_step c _ st i req resp e_remote e Hi Hst Hget H0 Hcp Her He)
    as (nodes' & st' & E & _). cbn [sys_run]. rewrite E. cbn [mbind option_bind].
  rewrite Hca. unfold sys_exec. cbn [c_net]. rewrite list_lookup_middle, at_table_notify by done.
  eexists. split; [reflexivity|]. intros ops g acts o1 o2 Hrun. apply (has_dup_flush o1 o2 g (ge_Uid req)).
  eapply (has_dup_run cfg); [exact Hrun|]. unfold has_dup. cbn [c_table without]. rewrite NotifyOwns_cached. cbn [no_Uid no_NodeId]. rewrite decide_True by done.
  intros (_ & Hd & _)%NoDup_app. apply (Hd _ Hc). by apply list_elem_of_singleton.
Qed.
End Theorems.

(** ** Witnesses *)

(** Nodes 2 and 3; object 7 is the bytes 1, 2, 3. *)
Definition demo_peer (n : N) : string := "10.0.0." +:+ FormatUint n +:+ ":33012".
Definition demo_bytes (u : N) : bytes := [Byte.x01; Byte.x02; Byte.x03].
Definition demo_step (n : N) : slabel := GetStep n 0 (λ _, None) None no_faults no_faults.
Definition demo_table : GCSObjServer memdb :=
  match NewGCSObjServer (Ok mem_empty) 1 with Returns g => g | _ => demo_server end.
Definition demo_start : cluster memdb := sys_init demo_table {[2%N; 3%N]}.

(** A client on node [n] asks for object 7 and waits; node 2 stores it; the
    table calls the client back. *)
Definition demo_wait (n : N) : list slabel :=
  AtNode n (CallGet (get_req 7)) :: replicate 4 (demo_step n) ++
  [TableHandles 0 pick_first; AtNode 2 (CallStore no_faults (store_req 7 (demo_bytes 7)));
   TableHandles 0 pick_first; NodeHandles 0 n; AtNode n (StepFound 0); AtNode n (Deliver 0 0)].

Lemma no_faults_faultless : faultless no_faults.
Proof. done. Qed.

Definition after (ls : list slabel) : cluster memdb :=
  default demo_start (sys_run app_config demo_peer ls demo_start).

Lemma demo_wait_stores n : Forall (λ l, stores demo_bytes l ∧ ¬ is_crash l) (demo_wait n).
Proof.
  unfold demo_wait. cbn [replicate app].
  repeat first [apply Forall_nil; exact I|apply Forall_cons; split; [by split; [|intros []]|]].
Qed.

Lemma demo_wait_reaches n : n = 2%N ∨ n = 3%N → reachable_cluster app_config demo_peer demo_bytes (after (demo_wait n)).
Proof.
  intros Hn. exists (Ok mem_empty), 1%Z, demo_table, {[2%N; 3%N]}, (demo_wait n). split_and!.
  - vm_compute. reflexivity.
  - vm_compute. reflexivity.
  - apply demo_wait_stores.
  - destruct Hn as [->| ->]; vm_compute; reflexivity.
Qed.

Lemma get_answers_the_stored_bytes_witness :
  ∃ st x, c_nodes (after (demo_wait 3 ++ [demo_step 3])) !! 3%N = Some st ∧
    gets st !! 0 = Some (get_req 7, GetDone (Some x, None)) ∧ gr_ObjectBytes x = demo_bytes 7 ∧
    files (l_fs st) !! shm_path (FormatUint 7) = Some (demo_bytes 7).
Proof.
  destruct (c_nodes (after (demo_wait 3 ++ [demo_step 3])) !! 3%N) as [st|] eqn:Hst;
    [|vm_compute in Hst; discriminate Hst].
  exists st, {| gr_Uid := 7; gr_ObjectBytes := demo_bytes 7; gr_Local := false; gr_Size := 3 |}.
  split; [done|].
  assert (gets st !! 0 = Some (get_req 7, GetDone (Some {| gr_Uid := 7; gr_ObjectBytes := demo_bytes 7;
    gr_Local := false; gr_Size := 3 |}, None))) as Hget.
  { vm_compute in Hst. injection Hst as <-. vm_compute. reflexivity. }
  destruct (get_answers_the_stored_bytes app_config demo_peer demo_bytes demo_table {[2%N; 3%N]}
    (demo_wait 3 ++ [demo_step 3]) (after (demo_wait 3 ++ [demo_step 3])) 3 st 0 (get_req 7)
    {| gr_Uid := 7; gr_ObjectBytes := demo_bytes 7; gr_Local := false; gr_Size := 3 |}) as [Hb Hf];
    [|vm_compute; reflexivity|exact Hst|exact Hget|].
  - apply Forall_app. split; [|by repeat constructor].
    eapply Forall_impl; [apply demo_wait_stores|]. by intros l [? _].
  - split; [exact Hget|]. split; [exact (Hb eq_refl eq_refl)|].
    destruct Hf as [_ Hf]; [right; exact (conj eq_refl eq_refl)|].
    change (ge_Uid (get_req 7)) with 7%N in Hf. exact Hf.
Defined.

Lemma callback_leads_to_the_object_witness :
  ∃ c' st', sys_exec app_config demo_peer (demo_step 3) (after (demo_wait 3)) = Some c' ∧
    c_nodes c' !! 3%N = Some st' ∧
    gets st' !! 0 = Some (get_req 7, GetDone (Some {| gr_Uid := 7; gr_ObjectBytes := demo_bytes 7;
      gr_Local := false; gr_Size := 3 |}, None)).
Proof.
  destruct (c_nodes (after (demo_wait 3)) !! 3%N) as [st|] eqn:Hst; [|vm_compute in Hst; discriminate Hst].
  destruct (callback_leads_to_the_object app_config demo_peer demo_bytes (after (demo_wait 3)) 3 st 0
    (get_req 7) (found_at 2)) as (_ & _ & H).
  - apply demo_wait_reaches. right. reflexivity.
  - exact Hst.
  - vm_compute in Hst. injection Hst as <-. vm_compute. reflexivity.
  - exact (H (λ E, ltac:(discriminate E)) eq_refl no_faults no_faults no_faults_faultless no_faults_faultless).
Defined.

Lemma waiting_locally_ends_persistence_witness :
  ∃ c', sys_run app_config demo_peer [demo_step 2; TableHandles 0 pick_first] (after (demo_wait 2)) = Some c' ∧
    ∃ err, (flushToDisk order_id order_id (c_table c')).2 = Some err.
Proof.
  destruct (c_nodes (after (demo_wait 2)) !! 2%N) as [st|] eqn:Hst; [|vm_compute in Hst; discriminate Hst].
  destruct (waiting_locally_ends_persistence app_config demo_peer demo_bytes (after (demo_wait 2)) 2 st 0
    (get_req 7) (found_at 2) no_faults no_faults) as (c' & E & H);
    [apply demo_wait_reaches; left; reflexivity|exact Hst| |reflexivity|discriminate| |reflexivity
    |reflexivity|exact no_faults_faultless|exact no_faults_faultless|].
  - vm_compute in Hst. injection Hst as <-. vm_compute. reflexivity.
  - apply (bool_decide_unpack _). vm_compute. exact I.
  - exists c'. split; [exact E|]. exact (H [] (c_table c') [] order_id order_id eq_refl).
Defined.
