(* ===== verification/Restarts.v ===== *)
(** * Stores that restart

    A store keeps what it has in memory ([objectSizes]), and the bytes in files of
    [/dev/shm].  When its process restarts, the files remain but the store does
    not read them, and the object table is not told. *)
From S2P Require Import Prelude Float32 Net Messages Config Sql MemSql GcsDb.
From S2P Require Import GcsObj GcsObjSpec GcsObjInv GcsObjThms GcsObjDirectory.
From S2P Require Import LocalObjStore LocalObjStoreThms LobsChannels LobsData System SystemThms.

Section Restarts.
Context {DB TX STMT : Type} `{!SqlDriver DB TX STMT, !SqlLaws DB TX STMT} (cfg : Config) (peer_of : N → string).
Implicit Types c : cluster DB.

(** The table counts node [n] among the holders of [u], and its store does not
    know the object. *)
Definition stale c (n u : N) : Prop :=
  n ∈ cached (c_table c) u ∧ is_Some (c_nodes c !! n) ∧ ¬ records (c_nodes c) n u.

(** A copy from such a node fails, whatever else fails or not. *)
Lemma remote_copy_stale c n u fault e requester :
  stale c n u → ∃ r err, remote_copy cfg (c_nodes c) fault e
    (node_address (NodePrefix cfg) n (port_LocalObjectStore (cfg_Ports cfg)))
    {| cr_Uid := u; cr_Requester := requester |} = (r, Some err).
Proof.
  intros (_ & [st Hst] & Hr). unfold remote_copy. destruct fault as [err|]; [eauto|].
  rewrite node_at_node by eauto. simpl. rewrite Hst. unfold Copy. cbn [cr_Uid].
  destruct (objectSizes (l_server st) !! u) eqn:E; [|eauto].
  destruct Hr. exists st. split; [done|]. by eexists.
Qed.

Lemma Get_received_fails Dial CopyFrom e fs s req resp :
  ge_Copy req = true → lf_Port resp = 0%N →
  (∃ r err, CopyFrom (node_address (NodePrefix cfg) (lf_Location resp) (port_LocalObjectStore (cfg_Ports cfg)))
     {| cr_Uid := lf_Uid resp; cr_Requester := localNodeID s |} = (r, Some err)) →
  ∃ calls r err, Get_received cfg Dial CopyFrom e fs s req resp = (fs, s, calls, (r, Some err)).
Proof.
  intros Hc Hp (r & err & E). unfold Get_received. rewrite Hc, Hp. cbn [negb].
  rewrite decide_True by done. destruct (Dial _); [by eexists _, _, _|]. rewrite E. destruct r; by eexists _, _, _.
Qed.

(** C30: A store that restarts loses its objects and nobody recovers them.  The
    restart leaves the object's file where it is, but the store no longer knows
    it, and the table still counts the node among the holders in memory.  As
    long as this is so, every [Get] that is sent to that node fails, whatever
    else goes well, and no report by which the node is alive makes the table
    reschedule the object. *)
Theorem restart_loses_objects c n st u :
  c_nodes c !! n = Some st → n ∈ cached (c_table c) u →
  (∃ c' st', sys_exec cfg peer_of (Crash n) c = Some c' ∧ stale c' n u ∧
     c_nodes c' !! n = Some st' ∧ files (l_fs st') = files (l_fs st)) ∧
  ∀ c', stale c' n u →
    (∀ m i stm req resp Dial fault e_remote e c'',
       c_nodes c' !! m = Some stm → gets stm !! i = Some (req, GetReceived resp) →
       lf_Location resp = n → lf_Uid resp = u → lf_Port resp = 0%N → ge_Copy req = true →
       sys_exec cfg peer_of (GetStep m i Dial fault e_remote e) c' = Some c'' →
       ∃ stm' r err, c_nodes c'' !! m = Some stm' ∧ gets stm' !! i = Some (req, GetDone (r, Some err))) ∧
    (∀ o1 o2 o3 lreq, ln_LiveNodes lreq !! n = Some true →
       GoSchedule u ∉ (RegisterLiveNodes o1 o2 o3 (c_table c') lreq).1.2).
Proof.
  intros Hst Hc. split.
  - do 2 eexists. split; [reflexivity|]. cbn [c_table c_nodes].
    assert (alter (restarted n) n (c_nodes c) !! n = Some (restarted n st)) as Hn
      by (by rewrite lookup_alter_eq, Hst).
    split; [|by split]. split; [done|]. split; [by eexists|].
    intros (st' & Hst' & Hu). cbn [c_nodes] in Hst'. rewrite Hn in Hst'. injection Hst' as <-.
    by destruct Hu.
  - intros c' Hs. split.
    + intros m i stm req resp Dial fault e_remote e c'' Hm Hget Hl Hu Hp Hcp E.
      destruct (Get_received_fails Dial (remote_copy cfg (c_nodes c') fault e_remote) e (l_fs stm) (l_server stm)
        req resp Hcp Hp) as (calls & r & err & Er).
      { rewrite Hl, Hu. by apply remote_copy_stale. }
      cbn [sys_exec] in E. unfold at_node in E. rewrite Hm in E. cbn [mbind option_bind lexec] in E.
      rewrite Hget in E. cbn [mbind option_bind Get_step env_cfg env_Dial env_Copy env_sys] in E.
      rewrite Er in E. cbn [mbind option_bind] in E. injection E as <-.
      pose proof (list_lookup_insert_eq (gets stm) i (req, GetDone (r, Some err)) (lookup_lt_Some _ _ _ Hget)) as Hd.
      destruct fault as [ferr|]; cbn [c_nodes].
      * eexists _, r, err. split; [apply lookup_insert_eq|exact Hd].
      * match goal with |- context [serve cfg e_remote ?calls ?nodes] =>
          destruct (serve_gets cfg e_remote calls nodes m _ (lookup_insert_eq _ _ _)) as (st' & Hst' & Hg) end.
        exists st', r, err. split; [exact Hst'|]. rewrite Hg. exact Hd.
    + intros o1 o2 o3 lreq Hlive. destruct Hs as (Hn & _ & _).
      destruct (RegisterLiveNodes_actions o1 o2 o3 (c_table c') lreq) as (uids & -> & _ & Hiff).
      intros (? & [= <-] & Hin)%list_elem_of_fmap. apply Hiff in Hin as [_ Hdead].
      specialize (Hdead n). rewrite Hlive in Hdead. discriminate Hdead.
      rewrite getNodes_eq. apply elem_of_app. by right.
Qed.
End Restarts.

(** ** Witness *)

(** Node 2 stores object 7 and restarts; all nodes are alive. *)
Lemma restart_loses_objects_witness :
  ∃ c', sys_exec app_config demo_peer (Crash 2) (after (demo_wait 3)) = Some c' ∧ stale c' 2 7 ∧
    (∃ c'' stm' r err, sys_exec app_config demo_peer (demo_step 3) c' = Some c'' ∧
       c_nodes c'' !! 3%N = Some stm' ∧ gets stm' !! 0 = Some (get_req 7, GetDone (r, Some err))) ∧
    GoSchedule 7 ∉ (RegisterLiveNodes order_id order_id order_id (c_table c')
      {| ln_LiveNodes := {[ 2%N := true; 3%N := true ]} |}).1.2.
Proof.
  destruct (c_nodes (after (demo_wait 3)) !! 2%N) as [st|] eqn:Hst; [|vm_compute in Hst; discriminate Hst].
  destruct (restart_loses_objects app_config demo_peer (after (demo_wait 3)) 2 st 7 Hst
    ltac:(apply (bool_decide_unpack _); vm_compute; exact I)) as [(c' & st' & E & Hs & _) H].
  exists c'. split; [exact E|]. split; [exact Hs|]. destruct (H c' Hs) as [Hget Hrep]. split.
  - assert (∃ stm, c_nodes c' !! 3%N = Some stm ∧ gets stm !! 0 = Some (get_req 7, GetReceived (found_at 2)))
      as (stm & Hm & Hg).
    { vm_compute in E. injection E as <-. eexists. split; [vm_compute; reflexivity|]. vm_compute. reflexivity. }
    destruct (sys_exec app_config demo_peer (demo_step 3) c') as [c''|] eqn:E''.
    + destruct (Hget 3%N 0 stm (get_req 7) (found_at 2) (λ _, None) None no_faults no_faults c'' Hm Hg
        eq_refl eq_refl eq_refl eq_refl E'') as (stm' & r & err & H1 & H2).
      exists c'', stm', r, err. split; [reflexivity|]. split; [exact H1|exact H2].
    + exfalso. vm_compute in E. injection E as <-. vm_compute in E''. discriminate E''.
  - apply Hrep. reflexivity.
Defined.
