(* ===== verification/PyClient.v ===== *)
(** * The Python client

    [src/python/babyray/__init__.py]: remote functions, futures and [get].  A
    future reads its object from the shared memory of the client's own node after
    the local object store has answered.  The last part puts a client next to
    the cluster of [System] whose stores are filled by the workers of [Worker]:
    [get] returns what the function returned. *)
From S2P Require Import Prelude Float32 Net Messages Config Sql MemSql GcsDb.
From S2P Require Import GlobalScheduler GcsObj GcsObjSpec GcsObjInv GcsObjThms GcsObjDirectory.
From S2P Require Import LocalObjStore LocalObjStoreThms LobsChannels LobsData.
From S2P Require Import Worker WorkerThms Submission System SystemThms.

(** ** Shared memory *)

(** [mmap.mmap(fd, size)] and [read(size)] of a file with this content; [inl] is
    the text of a Python exception. *)
Definition mmap_read (content : bytes) (size : N) : bytes + bytes :=
  if decide (size = 0%N) then
    (if decide (content = []) then inl (text "cannot mmap an empty file") else inr [])
  else if decide (N.of_nat (length content) < size)%N then
    inl (text "mmap length is greater than file size")
  else inr (take (N.to_nat size) content).

Section Client.
Context {obj : Type}.
(** [pickle]: [loads] of an object, [dumps] of a function and of the arguments. *)
Context (loads : bytes → bytes + obj).
(** [posix_ipc.SharedMemory(name)]: the content of the segment, given the files
    of the node. *)
Context (SharedMemory : gmap string bytes → string → option bytes).

Definition read_shared_memory (fs : shm) (uid size : N) : bytes + bytes :=
  match SharedMemory (files fs) ("/" +:+ FormatUint uid) with
  | None => inl (text "No shared memory exists with the specified name")
  | Some content => mmap_read content size
  end.

(** Python values: a future, a container, or an object of another type. *)
Inductive pyval :=
  | PFuture (uid : N)
  | PList (l : list pyval)
  | PTuple (l : list pyval)
  | PDict (l : list (obj * pyval))
  | PBytes (b : bytes)
  | PBool (b : bool)
  | PObj (o : obj).

Section Futures.
(** The client's node: the local object store behind its stub, with the files
    both of them see, and the attribute [get] of objects of other types. *)
Context {S : Type} (Get : S → GetRequest → S * reply GetResponse) (segments : S → shm).
Context (foreign_get : obj → option (S → S * (bytes + pyval))).

(** Computations that call the store and may raise an exception. *)
Definition py (A : Type) : Type := S → S * (bytes + A).
Definition py_ret {A} (a : A) : py A := λ s, (s, inr a).
Definition py_bind {A B} (m : py A) (f : A → py B) : py B := λ s,
  match m s with (s, inl e) => (s, inl e) | (s, inr a) => f a s end.

(** [Future.get]; the lines after its two returns are never reached. *)
Definition Future_get (copy cache pickle_load : bool) (uid : N) : py pyval := λ s,
  if copy then
    match Get s {| ge_Uid := uid; ge_Testing := false; ge_Copy := true; ge_Cache := cache |} with
    | (s, (_, Some err)) => (s, inl (text (error_text err)))
    | (s, (None, None)) => (s, inl (text "no response"))
    | (s, (Some response, None)) =>
        match read_shared_memory (segments s) uid (gr_Size response) with
        | inl e => (s, inl e)
        | inr bytes_ =>
            if pickle_load then match loads bytes_ with inl e => (s, inl e) | inr o => (s, inr (PObj o)) end
            else (s, inr (PBytes bytes_))
        end
    end
  else
    match Get s {| ge_Uid := uid; ge_Testing := false; ge_Copy := false; ge_Cache := cache |} with
    | (s, (_, Some err)) => (s, inl (text (error_text err)))
    | (s, (_, None)) => (s, inr (PBool true))
    end.

(** [f] for every element of a container, in order. *)
Definition py_map {A B} (f : A → py B) : list A → py (list B) :=
  fix go l :=
    match l with
    | [] => py_ret []
    | x :: l => py_bind (f x) (λ y, py_bind (go l) (λ ys, py_ret (y :: ys)))
    end.

(** [get], recursive on containers. *)
Fixpoint get (copy cache pickle_load : bool) (futures : pyval) : py pyval :=
  let get_all := py_map (get copy cache pickle_load) in
  let get_items := py_map (λ kv : obj * pyval,
    py_bind (get copy cache pickle_load kv.2) (λ v, py_ret (kv.1, v))) in
  match futures with
  | PList l => py_bind (get_all l) (λ vs, py_ret (PList vs))
  | PTuple l => py_bind (get_all l) (λ vs, py_ret (PTuple vs))
  | PDict l => py_bind (get_items l) (λ vs, py_ret (PDict vs))
  | PFuture uid => Future_get copy cache pickle_load uid
  | PObj o => match foreign_get o with Some m => m | None => py_ret (PObj o) end
  | v => py_ret v
  end.
End Futures.

(** ** Remote functions *)

(** [self.func], [self.name], [self.node_id] and [self.locality_flag]. *)
Record RemoteFunction := {
  rf_func : obj; rf_name : option N; rf_node_id : option N; rf_locality_flag : bool }.

Definition new_RemoteFunction (func : obj) : RemoteFunction :=
  {| rf_func := func; rf_name := None; rf_node_id := None; rf_locality_flag := true |}.

Definition set_locality_flag (b : bool) (f : RemoteFunction) : RemoteFunction :=
  {| rf_func := rf_func f; rf_name := rf_name f; rf_node_id := rf_node_id f; rf_locality_flag := b |}.
Definition set_node (n : option N) (f : RemoteFunction) : RemoteFunction :=
  {| rf_func := rf_func f; rf_name := rf_name f; rf_node_id := n; rf_locality_flag := rf_locality_flag f |}.
Definition unset_node (f : RemoteFunction) : RemoteFunction := set_node None f.

(** The uids of the futures among the positional arguments themselves. *)
Definition arg_uids (args : list pyval) : list N :=
  omap (λ arg, match arg with PFuture uid => Some uid | _ => None end) args.

Context (dumps_func : obj → bytes + bytes) (dumps_args : list pyval → bytes + bytes)
        (dumps_kwargs : list (string * pyval) → bytes + bytes).

(** The request [remote] sends; [None] when the function has no name, so that
    [remote] returns nothing.  An unset node is the number 0 on the wire. *)
Definition remote_request (f : RemoteFunction) (args : list pyval) (kwargs : list (string * pyval))
    : bytes + option ScheduleRequest :=
  match rf_name f with
  | None => inr None
  | Some name =>
      match dumps_args args with
      | inl e => inl e
      | inr a =>
          match dumps_kwargs kwargs with
          | inl e => inl e
          | inr k => inr (Some {| sr_Name := name; sr_Args := a; sr_Kwargs := k;
              sr_Uids := arg_uids args; sr_NodeId := default 0%N (rf_node_id f);
              sr_LocalityFlag := rf_locality_flag f |})
          end
      end
  end.

Definition remote (Schedule : ScheduleRequest → reply ScheduleResponse) (f : RemoteFunction)
    (args : list pyval) (kwargs : list (string * pyval)) : bytes + option pyval :=
  match remote_request f args kwargs with
  | inl e => inl e
  | inr None => inr None
  | inr (Some req) =>
      match Schedule req with
      | (_, Some err) => inl (text (error_text err))
      | (None, None) => inl (text "no response")
      | (Some resp, None) => inr (Some (PFuture (sp_Uid resp)))
      end
  end.

(** [register], as [remote(func)] the decorator calls it. *)
Definition register (RegisterFunc : RegisterRequest → reply RegisterResponse) (f : RemoteFunction)
    : bytes + RemoteFunction :=
  match dumps_func (rf_func f) with
  | inl e => inl e
  | inr data =>
      match RegisterFunc {| rg_SerializedFunc := data |} with
      | (_, Some err) => inl (text (error_text err))
      | (None, None) => inl (text "no response")
      | (Some resp, None) => inr {| rf_func := rf_func f; rf_name := Some (rg_Name resp);
          rf_node_id := rf_node_id f; rf_locality_flag := rf_locality_flag f |}
      end
  end.
End Client.

(** ** Addresses *)

Definition LOCAL_OBJECT_STORE_PORT : Z := 50000.
Definition LOCAL_SCHEDULER_PORT : Z := 50001.
Definition LOCAL_WORKER_PORT_START : Z := 50002.
Definition GCS_FUNCTION_TABLE_PORT : Z := 50000.
Definition GCS_NODE_ID : N := 0.

(** The channels of the stubs: local scheduler, function table, object store. *)
Definition init_all_stubs : string * string * string :=
  ("localhost:" +:+ pretty LOCAL_SCHEDULER_PORT,
   "node" +:+ FormatUint GCS_NODE_ID +:+ ":" +:+ pretty GCS_FUNCTION_TABLE_PORT,
   "localhost:" +:+ pretty LOCAL_OBJECT_STORE_PORT).

(** [kill_node] and [revive_node]: the calls, in order. *)
Inductive admin_call :=
  | KillLocalScheduler (address : string)
  | KillWorker (address : string)
  | ReviveLocalScheduler (address : string)
  | ReviveWorker (address : string).

Definition kill_node (node_id : N) : list admin_call :=
  [KillLocalScheduler ("node" +:+ FormatUint node_id +:+ ":" +:+ pretty LOCAL_SCHEDULER_PORT);
   KillWorker ("node" +:+ FormatUint node_id +:+ ":" +:+ pretty LOCAL_WORKER_PORT_START)].

Definition revive_node (node_id : N) : list admin_call :=
  [ReviveLocalScheduler ("node" +:+ FormatUint node_id +:+ ":" +:+ pretty LOCAL_SCHEDULER_PORT);
   ReviveWorker ("node" +:+ FormatUint node_id +:+ ":" +:+ pretty LOCAL_WORKER_PORT_START)].

(** The client's constants are the shipped configuration's. *)
Lemma client_addresses node_id :
  init_all_stubs =
    ("localhost:" +:+ pretty (port_LocalScheduler (cfg_Ports app_config)),
     node_address (NodePrefix app_config) (Z.to_N (id_GCS (cfg_NodeIDs app_config)))
       (port_GCSFunctionTable (cfg_Ports app_config)),
     "localhost:" +:+ pretty (port_LocalObjectStore (cfg_Ports app_config))) ∧
  kill_node node_id =
    [KillLocalScheduler (node_address (NodePrefix app_config) node_id (port_LocalScheduler (cfg_Ports app_config)));
     KillWorker (node_address (NodePrefix app_config) node_id (port_LocalWorkerStart (cfg_Ports app_config)))].
Proof. by split. Qed.

(** ** A future's value *)

Section Values.
Context {obj : Type} (loads : bytes → bytes + obj).
Context (SharedMemory : gmap string bytes → string → option bytes).
(** POSIX: the segment [/name] is the file [/dev/shm/name]. *)
Hypothesis SharedMemory_file : ∀ fs name, SharedMemory fs ("/" +:+ name) = fs !! shm_path name.
Context {S : Type} (Get : S → GetRequest → S * reply GetResponse) (segments : S → shm).

Lemma mmap_read_all content : content ≠ [] → mmap_read content (N.of_nat (length content)) = inr content.
Proof.
  intros Hc. unfold mmap_read. rewrite decide_False by (destruct content; simpl; [done|lia]).
  rewrite decide_False by lia. by rewrite Nat2N.id, firstn_all.
Qed.

(** The object in its file, with the size the store answered, is what [get]
    unpickles. *)
Lemma Future_get_reads cache s s' u x data o :
  Get s {| ge_Uid := u; ge_Testing := false; ge_Copy := true; ge_Cache := cache |} = (s', (Some x, None)) →
  gr_Size x = N.of_nat (length data) → files (segments s') !! shm_path (FormatUint u) = Some data →
  data ≠ [] → loads data = inr o →
  Future_get loads SharedMemory Get segments true cache true u s = (s', inr (PObj o)).
Proof.
  intros HG Hs Hf Hd Hl. unfold Future_get, read_shared_memory.
  rewrite HG, Hs, SharedMemory_file, Hf, mmap_read_all by done. by rewrite Hl.
Qed.

(** C40: [get(cache=False)] never gives the value of an object of another node.
    The store answers such a [Get] with the bytes and the size 0, and writes no
    file; the client does not look at the bytes but reads a segment of size 0,
    so it raises an exception, whatever the segment holds. *)
Theorem uncached_get_never_returns cfg Dial CopyFrom e fs sv u resp fs' sv' calls x s s' err :
  let req := {| ge_Uid := u; ge_Testing := false; ge_Copy := true; ge_Cache := false |} in
  Get_received cfg Dial CopyFrom e fs sv req resp = (fs', sv', calls, (Some x, None)) →
  Get s req = (s', (Some x, None)) → loads [] = inl err →
  gr_Size x = 0%N ∧ files fs' = files fs ∧
  ∃ exn, Future_get loads SharedMemory Get segments true false true u s = (s', inl exn).
Proof.
  intros req HR HG Hl.
  assert (gr_Size x = 0%N ∧ files fs' = files fs) as [Hx Hf].
  { unfold Get_received in HR. simpl in HR. destruct (Dial _); [done|].
    destruct (CopyFrom _ _) as [[y|] [?|]]; try done. by injection HR as <- _ _ <-. }
  split; [done|]. split; [done|]. unfold Future_get, read_shared_memory. fold req. rewrite HG, Hx.
  destruct (SharedMemory _ _) as [content|]; [|by eexists].
  unfold mmap_read. rewrite decide_True by done. destruct (decide (content = [])); [by eexists|].
  rewrite Hl. by eexists.
Qed.
End Values.
