(* ===== verification/EndToEnd.v ===== *)
(** * [get(f.remote(x))]

    The Python client of [PyClient] next to the cluster of [System], whose stores
    are filled by calls of the workers' [Run]: what a client gets is what the
    function returned.  And [get] on containers. *)
From S2P Require Import Prelude Float32 Net Messages Base64 Config Sql MemSql GcsDb.
From S2P Require Import GlobalScheduler GlobalSchedulerThms LocalScheduler.
From S2P Require Import GcsObj GcsObjSpec GcsObjInv GcsObjThms GcsObjDirectory.
From S2P Require Import LocalObjStore LocalObjStoreThms LobsChannels LobsData.
From S2P Require Import Worker WorkerThms PyWorker PyWorkerThms Cluster Submission System SystemThms PyClient.

(** ** Containers *)

Section Traversal.
Context {obj : Type}.
Implicit Types v : @pyval obj.

(** Induction through the containers. *)
Section Induction.
Context (P : @pyval obj → Prop).
Hypothesis (HF : ∀ u, P (PFuture u)) (HB : ∀ b, P (PBytes b)) (HT : ∀ b, P (PBool b)) (HO : ∀ o, P (PObj o)).
Hypothesis (HL : ∀ l, Forall P l → P (PList l)) (HTu : ∀ l, Forall P l → P (PTuple l)).
Hypothesis (HD : ∀ l, Forall (λ kv, P kv.2) l → P (PDict l)).

Fixpoint pyval_nested_ind v : P v :=
  let all := fix all (l : list pyval) : Forall P l :=
    match l with [] => Forall_nil_2 P | v :: l => Forall_cons_2 P v l (pyval_nested_ind v) (all l) end in
  let items := fix items (l : list (obj * pyval)) : Forall (λ kv, P kv.2) l :=
    match l with
    | [] => Forall_nil_2 _
    | (k, v) :: l => Forall_cons_2 (λ kv, P kv.2) (k, v) l (pyval_nested_ind v) (items l)
    end in
  match v with
  | PFuture u => HF u | PBytes b => HB b | PBool b => HT b | PObj o => HO o
  | PList l => HL l (all l) | PTuple l => HTu l (all l) | PDict l => HD l (items l)
  end.
End Induction.

(** The futures in a value, and the value with each replaced. *)
Fixpoint futures_of v : list N :=
  match v with
  | PFuture u => [u]
  | PList l | PTuple l => l ≫= futures_of
  | PDict l => l ≫= λ kv, futures_of kv.2
  | _ => []
  end.

Fixpoint resolve (value : N → pyval) v : pyval :=
  match v with
  | PFuture u => value u
  | PList l => PList (resolve value <$> l)
  | PTuple l => PTuple (resolve value <$> l)
  | PDict l => PDict ((λ kv, (kv.1, resolve value kv.2)) <$> l)
  | v => v
  end.

Context (loads : bytes → bytes + obj) (SharedMemory : gmap string bytes → string → option bytes).
Context {S : Type} (Get : S → GetRequest → S * reply GetResponse) (segments : S → shm).

(** A loop over a container whose steps all succeed. *)
Lemma py_map_all {A B} (ready : S → Prop) (f : A → py B) (r : A → B) l s :
  Forall (λ x, ∀ s, ready s → ∃ s', ready s' ∧ f x s = (s', inr (r x))) l → ready s →
  ∃ s', ready s' ∧ py_map f l s = (s', inr (r <$> l)).
Proof.
  intros Hl. revert s. induction Hl as [|x l Hx _ IH]; intros s Hs; simpl; [by exists s|].
  destruct (Hx s Hs) as (s1 & Hs1 & E1). destruct (IH s1 Hs1) as (s2 & Hs2 & E2).
  exists s2. split; [done|]. unfold py_bind. by rewrite E1, E2.
Qed.

(** [get] on a container is the container of the values: lists, tuples and
    dictionaries, nested in any way, keep their shape and keys, every future in
    them is replaced by its value, and other objects stay, provided that the
    store can answer for each of these futures whenever it is asked. *)
Theorem get_keeps_the_shape (ready : S → Prop) value copy cache pickle_load v s :
  (∀ s u, ready s → u ∈ futures_of v → ∃ s', ready s' ∧
     Future_get loads SharedMemory Get segments copy cache pickle_load u s = (s', inr (value u))) →
  ready s →
  ∃ s', ready s' ∧
    get loads SharedMemory Get segments (λ _, None) copy cache pickle_load v s =
    (s', inr (resolve value v)).
Proof.
  revert s. induction v as [u|b|b|o|l IH|l IH|l IH] using pyval_nested_ind;
    intros s Hf Hs; [apply Hf; [done|left]|by exists s..| | |]; simpl in Hf |- *.
  1-2: destruct (py_map_all ready (get loads SharedMemory Get segments (λ _, None) copy cache pickle_load)
         (resolve value) l s) as (s' & Hs' & E); [|done|exists s'; split; [done|unfold py_bind; by rewrite E]];
       apply Forall_forall; intros v Hv s0 Hs0; eapply (proj1 (Forall_forall _ _) IH); [done|..|done];
       intros s1 u H1 Hu; apply Hf; [done|apply list_elem_of_bind; eauto].
  destruct (py_map_all ready (λ kv : obj * pyval,
    py_bind (get loads SharedMemory Get segments (λ _, None) copy cache pickle_load kv.2)
      (λ v, py_ret (kv.1, v))) (λ kv, (kv.1, resolve value kv.2)) l s) as (s' & Hs' & E);
    [|done|exists s'; split; [done|unfold py_bind at 1; by rewrite E]].
  apply Forall_forall. intros [k v] Hv s0 Hs0.
  destruct (proj1 (Forall_forall _ _) IH (k, v) Hv s0) as (s1 & Hs1 & E1); [|done|].
  - intros s1 u H1 Hu. apply Hf; [done|]. apply list_elem_of_bind. by exists (k, v).
  - exists s1. split; [done|]. unfold py_bind. by rewrite E1.
Qed.
End Traversal.

(** ** The value of a remote call *)

Section Remote.
Context {DB TX STMT : Type} `{!SqlDriver DB TX STMT, !SqlLaws DB TX STMT} (cfg : Config).
Context (peer_of : N → string).
(** Python: [pickle], the user's functions and the texts of two exceptions. *)
Context {obj : Type} (loads : bytes → bytes + obj) (dumps : obj → bytes + bytes).
Context (call : obj → obj → obj → bytes * (bytes + obj)) (index_error binascii_error : bytes).
(** The call that was submitted under every uid, and the functions by name:
    the function table registers a name once. *)
Context (task : N → RunRequest) (functions : N → option bytes).

(** The task of [u] returns [v], whose pickle is [data]. *)
Definition computes (u : N) (v : obj) (data : bytes) : Prop :=
  ∃ f F A K, functions (rr_Name (task u)) = Some f ∧ loads f = inr F ∧
    loads (rr_Args (task u)) = inr A ∧ loads (rr_Kwargs (task u)) = inr K ∧
    call F A K = ([], inr v) ∧ dumps v = inr data ∧ data ≠ [].

(** What a worker is answered by the function table and the script. *)
Definition consistent (a : answers) : Prop :=
  (∀ req resp, ans_FetchFunc a req = (Some resp, None) →
     functions (fe_Name req) = Some (fe_SerializedFunc resp)) ∧
  ∀ input, ans_Output a input = Ok (execute_py loads call dumps index_error binascii_error input).

(** A Python worker runs the submitted tasks, on the functions of the table. *)
Definition py_consistent (l : plabel obj) : Prop :=
  p_truthful functions (λ F A K, (call F A K).2) (λ run, run = task (rr_Uid run)) l.

(** A [Store] comes from a run of its uid's task, at any worker, whether or not
    the run was acknowledged in the end; the task returns.  Workers are Go's
    [Run] or Python workers in any state they can reach. *)
Definition from_worker (l : slabel) : Prop :=
  match l with
  | AtNode _ (LobsChannels.CallStore _ sreq) =>
      (∃ v data, computes (so_Uid sreq) v data) ∧
      ((∃ a w w' e calls, consistent a ∧
         Run_spec a (task (so_Uid sreq)) w = Returns (w', e, calls) ∧ Worker.CallStore sreq ∈ calls) ∨
       ∃ ls s calls, Forall py_consistent ls ∧ prun loads dumps ls pinit = Some (s, calls) ∧
         PyStore sreq ∈ calls)
  | _ => True
  end.

(** The bytes that the runs of every uid's task store. *)
Definition output_of (u : N) : bytes :=
  match functions (rr_Name (task u)) with
  | Some f =>
      match executeFunction (λ input, Ok (execute_py loads call dumps index_error binascii_error input))
              f (rr_Args (task u)) (rr_Kwargs (task u)) with
      | Returns (data, _) => data
      | _ => []
      end
  | None => []
  end.

Lemma computes_output u v data : computes u v data → output_of u = data ∧ data ≠ [].
Proof.
  intros (f & F & A & K & Hf & HF & HA & HK & Hc & Hd & Hne). split; [|done].
  unfold output_of. rewrite Hf.
  by rewrite (executeFunction_runs_the_call loads call dumps index_error binascii_error _ _ _ F A K v data).
Qed.

(** A run asks the store for nothing but its output, under its own uid. *)
Lemma Run_spec_store a run w w' e calls sreq :
  Run_spec a run w = Returns (w', e, calls) → Worker.CallStore sreq ∈ calls →
  ∃ resp output, ans_FetchFunc a {| fe_Name := rr_Name run; fe_CallbackNodeId := 0 |} = (Some resp, None) ∧
    executeFunction (ans_Output a) (fe_SerializedFunc resp) (rr_Args run) (rr_Kwargs run)
      = Returns (output, None) ∧
    sreq = {| so_Uid := rr_Uid run; so_ObjectBytes := output |}.
Proof.
  assert (∀ (c1 c2 : worker_call), (∀ r, c1 ≠ Worker.CallStore r) → (∀ r, c2 ≠ Worker.CallStore r) →
    ∀ l, Worker.CallStore sreq ∈ c1 :: c2 :: l → Worker.CallStore sreq ∈ l) as Hskip.
  { intros c1 c2 H1 H2 l [?|[?|?]%elem_of_cons]%elem_of_cons; [by destruct (H1 sreq)|by destruct (H2 sreq)|done]. }
  unfold Run_spec. destruct (ans_FetchFunc a _) as [[resp|] [err|]] eqn:Ef; simpl; try done.
  1, 3: by intros [= _ _ <-] Hin%list_elem_of_singleton.
  destruct (executeFunction _ _ _ _) as [[output err]|why|why] eqn:Eo; simpl; [|done..].
  pose proof (executeFunction_no_error _ _ _ _ _ _ Eo) as ->.
  destruct (Worker.alive w); [|by intros [= _ _ <-] Hin%Hskip%not_elem_of_nil].
  intros E Hin. assert (Worker.CallStore sreq ∈ [Worker.CallStore {| so_Uid := rr_Uid run; so_ObjectBytes := output |}])
    as Hin' by (destruct (ans_Store a _) as [? [?|]]; injection E as _ _ <-; by apply Hskip in Hin).
  apply list_elem_of_singleton in Hin'. injection Hin' as ->. by exists resp, output.
Qed.

Lemma from_worker_stores l : from_worker l → stores output_of l.
Proof.
  destruct l as [n l| | | | | |]; try done. destruct l as [| |e sreq| | |]; try done.
  intros ((v & data & Hc) & Hrun).
  destruct (computes_output _ _ _ Hc) as [Hd Hne]. cbn. rewrite Hd. split; [|done].
  destruct Hrun as [(a & w & w' & e' & calls & [Hf Ho] & Hr & Hin)|(ls & s & calls & Hls & Hr & Hin)].
  2: { destruct (prun_stores _ _ _ _ _ _ _ _ _ Hr Hls Hin) as (run & o & Hsub & Hu & Hret & Ho).
       destruct Hret as (f & F & A & K & Hf & HF & HA & HK & Ho').
       destruct Hc as (f' & F' & A' & K' & Hf' & HF' & HA' & HK' & Hv & Hdv & _).
       rewrite Hu, <-Hsub in *. simplify_eq. cbn in Ho'.
       assert (F = F' ∧ A = A' ∧ K = K') as (-> & -> & ->) by (split_and!; congruence).
       rewrite Hv in Ho'. cbn in Ho'. congruence. }
  destruct (Run_spec_store _ _ _ _ _ _ _ Hr Hin) as (resp & output & Hfetch & Hx & Hs).
  apply Hf in Hfetch. cbn in Hfetch. rewrite <-Hd. rewrite Hs at 1. cbn.
  unfold output_of. rewrite Hfetch. unfold executeFunction in Hx |- *. rewrite Ho in Hx.
  destruct (DecodeString _); [|done]. by injection Hx as ->.
Qed.

(** [get(f.remote(...))] is what the function returns.  Let the stores of the
    cluster be filled by runs of the submitted tasks, by Go or Python workers and
    however often, and let the client's [remote] have submitted the call [req]
    and returned the future [u].  In every run of the cluster, with lost
    messages, failures and restarts, once the store of the client's node has
    answered the future's [Get], the client's [get] returns the very value that
    the function returns on the submitted arguments. *)
Theorem get_of_remote_is_the_result (SharedMemory : gmap string bytes → string → option bytes)
    {S : Type} (Get : S → GetRequest → S * reply GetResponse) (segments : S → shm) foreign_get
    dumps_args dumps_kwargs (rf : @RemoteFunction obj) args kwargs req Schedule
    (g : GCSObjServer DB) ids ls c n st i x s s' u f F A K v data :
  (∀ fs name, SharedMemory fs ("/" +:+ name) = fs !! shm_path name) →
  remote_request dumps_args dumps_kwargs rf args kwargs = inr (Some req) →
  remote dumps_args dumps_kwargs Schedule rf args kwargs = inr (Some (PFuture u)) →
  task u = run_of u req →
  functions (sr_Name req) = Some f → loads f = inr F → loads (sr_Args req) = inr A →
  loads (sr_Kwargs req) = inr K → call F A K = ([], inr v) →
  dumps v = inr data → data ≠ [] → loads data = inr v →
  Forall from_worker ls → sys_run cfg peer_of ls (sys_init g ids) = Some c →
  let greq := {| ge_Uid := u; ge_Testing := false; ge_Copy := true; ge_Cache := true |} in
  c_nodes c !! n = Some st → gets st !! i = Some (greq, GetDone (Some x, None)) →
  Get s greq = (s', (Some x, None)) → segments s' = l_fs st →
  Schedule req = (Some {| sp_Uid := u |}, None) ∧
  get loads SharedMemory Get segments foreign_get true true true (PFuture u) s = (s', inr (PObj v)).
Proof.
  intros Hshm Hreq Hrem Htask Hf HF HA HK Hc Hd Hne Hl Hls Hrun greq Hst Hget HG Hseg. split.
  { unfold remote in Hrem. rewrite Hreq in Hrem.
    destruct (Schedule req) as [[[uid]|] [err|]]; [done| |done..]. by injection Hrem as ->. }
  assert (computes u v data) as Hcomp
    by (exists f, F, A, K; rewrite Htask; by split_and!).
  destruct (computes_output _ _ _ Hcomp) as [Ho _].
  assert (Forall (stores output_of) ls) as Hst'
    by (eapply Forall_impl; [exact Hls|apply from_worker_stores]).
  destruct (sys_run_answers cfg peer_of output_of _ _ _ _ _ _ _ _ _ Hst' Hrun Hst Hget) as [Hcon Hok].
  assert (gr_Size x = N.of_nat (length (output_of u)) ∧ is_Some (objectSizes (l_server st) !! u)) as [Hsz Hrec]
    by (simpl in Hok; destruct (gr_Local x); [exact Hok|by apply Hok]).
  destruct (Hcon u Hrec) as (Hfile & _). rewrite Ho in Hsz, Hfile.
  eapply (Future_get_reads loads SharedMemory Hshm); [exact HG|exact Hsz|by rewrite Hseg|done|done].
Qed.
End Remote.

(** ** Witnesses *)

Definition posix_segment (fs : gmap string bytes) (name : string) : option bytes :=
  fs !! ("/dev/shm" +:+ name).

Definition answered (u : N) : GetResponse :=
  {| gr_Uid := u; gr_ObjectBytes := demo_bytes 7; gr_Local := false; gr_Size := 3 |}.
Definition answers_always (s : unit) (req : GetRequest) : unit * reply GetResponse :=
  (s, (Some (answered (ge_Uid req)), None)).

(** A dictionary with a list of a future and another object, on node 2. *)
Lemma get_keeps_the_shape_witness :
  get demo_loads posix_segment answers_always (λ _, demo_node.1) (λ _, None) true true true
    (PDict [([], PList [PFuture 7; PObj [Byte.x09]])]) tt =
  (tt, inr (PDict [([], PList [PObj (demo_bytes 7); PObj [Byte.x09]])])).
Proof.
  destruct (get_keeps_the_shape demo_loads posix_segment answers_always (λ _, demo_node.1) (λ _, True)
    (λ _, PObj (demo_bytes 7)) true true true (PDict [([], PList [PFuture 7; PObj [Byte.x09]])]) tt)
    as ([] & _ & E); [|exact I|exact E].
  intros [] u _ Hu. apply list_elem_of_singleton in Hu as ->. exists tt. split; [exact I|].
  vm_compute. reflexivity.
Defined.

(** Node 3 copies object 7 from node 2 without caching it. *)
Definition uncached_req : GetRequest :=
  {| ge_Uid := 7; ge_Testing := false; ge_Copy := true; ge_Cache := false |}.
Definition demo_unpickle (b : bytes) : bytes + bytes :=
  if decide (b = []) then inl (text "Ran out of input") else inr b.

Lemma uncached_get_never_returns_witness :
  ∃ exn, Future_get demo_unpickle posix_segment
    (λ s _, (s, (Some {| gr_Uid := 7; gr_ObjectBytes := demo_bytes 7; gr_Local := false; gr_Size := 0 |}, None)))
    (λ _, no_files) true false true 7 tt = (tt, inl exn).
Proof.
  refine (proj2 (proj2 (uncached_get_never_returns demo_unpickle posix_segment
    (λ s _, (s, (Some {| gr_Uid := 7; gr_ObjectBytes := demo_bytes 7; gr_Local := false; gr_Size := 0 |}, None)))
    (λ _, no_files) app_config (λ _, None) from_node_2 no_faults no_files (new_server 3) 7 (found_at 2)
    no_files (new_server 3) _ _ tt tt (text "Ran out of input") _ eq_refl eq_refl))).
  vm_compute. reflexivity.
Defined.

(** The function [x01] is registered under name 3 and called with [x02 x03];
    node 2 runs the call, node 3 gets the result. *)
Definition demo_dumps_args (args : list (@pyval bytes)) : bytes + bytes :=
  inr (args ≫= λ v, match v with PObj o => o | _ => [] end).
Definition demo_dumps_kwargs (kwargs : list (string * @pyval bytes)) : bytes + bytes := inr [].
Definition demo_function : @RemoteFunction bytes :=
  {| rf_func := [Byte.x01]; rf_name := Some 3%N; rf_node_id := None; rf_locality_flag := true |}.
Definition demo_call_request : ScheduleRequest :=
  {| sr_Name := 3; sr_Args := [Byte.x02; Byte.x03]; sr_Kwargs := []; sr_Uids := []; sr_NodeId := 0;
     sr_LocalityFlag := true |}.
Definition demo_functions (name : N) : option bytes :=
  if decide (name = 3%N) then Some [Byte.x01] else None.
Definition demo_script_answers : answers := {|
  ans_FetchFunc req := match demo_functions (fe_Name req) with
    | Some f => (Some {| fe_SerializedFunc := f |}, None)
    | None => (None, Some (StatusError NotFound "function not found"))
    end;
  ans_Output input := Ok (execute_py demo_loads demo_call inr [] [] input);
  ans_Store _ := (Some (Status true), None);
  ans_runningTime := of_ratio 1 2 |}.

Lemma demo_from_worker :
  Forall (from_worker demo_loads inr demo_call [] [] (λ u, run_of u demo_call_request) demo_functions)
    (demo_wait 3 ++ [demo_step 3]).
Proof.
  unfold demo_wait. cbn [replicate app].
  repeat first [apply Forall_nil; exact I|apply Forall_cons; split; [first [exact I|split]|]].
  - exists (demo_bytes 7), (demo_bytes 7), [Byte.x01], [Byte.x01], [Byte.x02; Byte.x03], [].
    by split_and!.
  - left. exists demo_script_answers, initial_worker.
    assert (consistent demo_loads inr demo_call [] [] demo_functions demo_script_answers) as Hc.
    { split; [|done]. intros req resp. cbn. destruct (demo_functions _); [|done]. by intros [= <-]. }
    destruct (Run_spec demo_script_answers (run_of 7 demo_call_request) initial_worker)
      as [[[w' e] calls]| |] eqn:E; vm_compute in E; try discriminate E.
    injection E as Hw He Hcalls. exists w', e, calls. split; [exact Hc|]. split.
    + subst. vm_compute. reflexivity.
    + subst. right. right. left.
Qed.

Lemma get_of_remote_is_the_result_witness :
  ∃ st, c_nodes (after (demo_wait 3 ++ [demo_step 3])) !! 3%N = Some st ∧
    get demo_loads posix_segment answers_always (λ _, l_fs st) (λ _, None) true true true (PFuture 7) tt =
    (tt, inr (PObj [Byte.x01; Byte.x02; Byte.x03])).
Proof.
  destruct (c_nodes (after (demo_wait 3 ++ [demo_step 3])) !! 3%N) as [st|] eqn:Hst;
    [|vm_compute in Hst; discriminate Hst].
  assert (gets st !! 0 = Some (get_req 7, GetDone (Some (answered 7), None))) as Hget.
  { vm_compute in Hst. injection Hst as <-. vm_compute. reflexivity. }
  exists st. split; [reflexivity|].
  refine (proj2 (get_of_remote_is_the_result app_config demo_peer demo_loads inr demo_call [] []
    (λ u, run_of u demo_call_request) demo_functions posix_segment answers_always (λ _, l_fs st) (λ _, None)
    demo_dumps_args demo_dumps_kwargs demo_function [PObj [Byte.x02; Byte.x03]] [] demo_call_request
    (λ _, (Some {| sp_Uid := 7 |}, None)) demo_table {[2%N; 3%N]} (demo_wait 3 ++ [demo_step 3])
    (after (demo_wait 3 ++ [demo_step 3])) 3 st 0 (answered 7) tt tt 7 [Byte.x01] [Byte.x01]
    [Byte.x02; Byte.x03] [] [Byte.x01; Byte.x02; Byte.x03] [Byte.x01; Byte.x02; Byte.x03]
    (λ fs name, eq_refl) eq_refl eq_refl eq_refl eq_refl eq_refl eq_refl eq_refl eq_refl eq_refl _ eq_refl
    demo_from_worker _ Hst Hget eq_refl eq_refl)).
  - discriminate.
  - vm_compute. reflexivity.
Defined.
