(* ===== verification/Platform.v ===== *)
(** * The whole platform

    The cluster of [System] with everything that fills its stores: the function
    table, the global scheduler, and on every node a local scheduler and a
    Python worker.  Clients register functions, submit tasks and get objects;
    the schedulers' calls, which carry tasks, wait in a network of their own,
    where they overtake one another and may be lost; the workers' calls
    interleave step by step; nodes are killed and revived, stores restart and
    the global scheduler may end.  Nothing is assumed of what is stored: objects
    come from the workers, which run what the schedulers send them. *)
From S2P Require Import Prelude Float32 Net Messages Config Sql MemSql GcsDb GcsFunc.
From S2P Require Import GcsObj GcsObjSpec GcsObjInv GcsObjThms GcsObjDirectory.
From S2P Require Import LocalObjStore LocalObjStoreThms LobsChannels LobsData.
From S2P Require Import Worker WorkerThms PyWorker PyWorkerThms Recovery System SystemThms.
From S2P Require LocalScheduler GlobalScheduler.

(** ** The machine *)

(** Calls of the schedulers on their way. *)
Inductive task_message :=
  | TSchedule (req : GlobalScheduleRequest)      (* to the global scheduler *)
  | TGenerating (req : GeneratingRequest)        (* to the object table *)
  | TRun (n : N) (req : RunRequest).             (* to the worker of node [n] *)

Record platform (DB obj : Type) := {
  p_cluster : cluster DB;
  p_functions : GCSFuncServer;
  p_global : option GlobalScheduler.server;      (* [None]: its process has ended *)
  p_locals : gmap N LocalScheduler.server;       (* a process that panicked is gone *)
  p_workers : gmap N (pstate obj);
  p_tasks : list task_message
}.
Arguments p_cluster {_ _} _.
Arguments p_functions {_ _} _.
Arguments p_global {_ _} _.
Arguments p_locals {_ _} _.
Arguments p_workers {_ _} _.
Arguments p_tasks {_ _} _.
Arguments Build_platform {_ _} _ _ _ _ _ _.

(** What is left open about a step of a worker: an exception of its call, an
    exception instead of the peer's answer, and whether the peer was reached
    nevertheless; the faults of the system calls of its store; and the running
    time. *)
Record step_choices := {
  ch_raises : option bytes;
  ch_lost : option (bytes * bool);
  ch_sys : sys;
  ch_running_time : float64
}.

Inductive pf_label :=
  | OnCluster (l : slabel)                       (* a step of [System] *)
  | RegisterFunction (r : random_read) (req : RegisterRequest)
  | Submit (n draw : N) (unregistered : bool) (lost : option goerror) (req : ScheduleRequest)
  | GlobalHandles (k : nat) (env : GlobalScheduler.sched_env)
  | GlobalEnds
  | GlobalStarts
  | SendsHeartbeat (n : N) (now : Z)
  | ReportsLiveNodes (now : N → Z) (o o1 o2 o3 : order)
  | TableGenerates (k : nat)
  | WorkerTakes (k : nat)
  | WorkerSteps (n : N) (i : nat) (ch : step_choices)
  | KillsNode (n : N)
  | RevivesNode (n : N)
  | LosesTask (k : nat).

Section Platform.
Context {DB TX STMT : Type} `{!SqlDriver DB TX STMT} (cfg : Config) (peer_of : N → string).
Context {obj : Type} (loads : bytes → bytes + obj) (dumps : obj → bytes + bytes).
(** What the users' functions return, and how a request arrives: a nil one is
    sent when an object has no lineage. *)
Context (func : obj → obj → obj → bytes + obj) (wire : option GlobalScheduleRequest → GlobalScheduleRequest).
Implicit Types p : platform DB obj.

Definition set_cluster (c : cluster DB) p : platform DB obj :=
  Build_platform c (p_functions p) (p_global p) (p_locals p) (p_workers p) (p_tasks p).
Definition set_functions (f : GCSFuncServer) p : platform DB obj :=
  Build_platform (p_cluster p) f (p_global p) (p_locals p) (p_workers p) (p_tasks p).
Definition set_global (g : option GlobalScheduler.server) p : platform DB obj :=
  Build_platform (p_cluster p) (p_functions p) g (p_locals p) (p_workers p) (p_tasks p).
Definition set_locals (ls : gmap N LocalScheduler.server) p : platform DB obj :=
  Build_platform (p_cluster p) (p_functions p) (p_global p) ls (p_workers p) (p_tasks p).
Definition set_workers (ws : gmap N (pstate obj)) p : platform DB obj :=
  Build_platform (p_cluster p) (p_functions p) (p_global p) (p_locals p) ws (p_tasks p).
Definition set_pending (ts : list task_message) p : platform DB obj :=
  Build_platform (p_cluster p) (p_functions p) (p_global p) (p_locals p) (p_workers p) ts.

(** The steps of [System] that stand for themselves: workers alone store, and
    the schedulers alone call the table's operations for them. *)
Definition is_own (l : slabel) : bool :=
  match l with
  | AtNode _ (LobsChannels.CallStore _ _) => false
  | TableOp (OpFlush _ _) | TableOp (OpGetObjectLocations _) => true
  | TableOp _ => false
  | _ => true
  end.

(** The table takes an operation of a scheduler; what it reschedules is sent. *)
Definition on_table (op : gcs_op) p : option (platform DB obj) :=
  match gcs_exec cfg op (c_table (p_cluster p)) with
  | Returns (g, acts) =>
      let rescheduled := omap (λ a, match a with
        | GoSchedule uid => Some (TSchedule (wire (schedule_request g uid)))
        | GoSendCallback _ _ _ => None
        end) acts in
      Some (set_pending (p_tasks p ++ rescheduled)
        (set_cluster (Build_cluster g (c_nodes (p_cluster p)) (c_net (p_cluster p) ++ callbacks acts)) p))
  | _ => None
  end.

(** What the calls of the schedulers put on their way. *)
Definition sent_locally (n : N) (calls : list LocalScheduler.local_call) : list task_message :=
  calls ≫= λ c, match c with
    | LocalScheduler.GoScheduleGlobally req => [TSchedule req]
    | LocalScheduler.GoRunLocally gen run => [TGenerating gen; TRun n run]
    | _ => []
    end.

(** The node whose worker listens at an address. *)
Definition worker_at p (address : string) : option N :=
  head (filter (λ n, node_address (NodePrefix cfg) n (port_LocalWorkerStart (cfg_Ports cfg)) = address)
    (map_to_list (p_workers p)).*1).

Definition sent_globally p (calls : list GlobalScheduler.sched_call) : list task_message :=
  calls ≫= λ c, match c with
    | GlobalScheduler.CallRegisterGenerating gen => [TGenerating gen]
    | GlobalScheduler.CallRun address run =>
        match worker_at p address with Some n => [TRun n run] | None => [] end
    end.

(** What the worker of a node answers to [WorkerStatus]; [None]: nothing. *)
Definition worker_status p (n : N) (lost : option goerror) : option (reply WorkerStatusResponse) :=
  match lost, p_workers p !! n with
  | Some err, _ => Some (None, Some err)
  | None, None => Some (None, Some (PlainError "connection error"))
  | None, Some w =>
      match WorkerServer_WorkerStatus (pworker w) with
      | Some (inr st) => Some (Some st, None)
      | Some (inl e) => Some (None, Some (PlainError "Exception calling application"))
      | None => None
      end
  end.

(** [Schedule] of a local scheduler.  It registers the lineage first and goes on
    whether or not the call has reached the table ([unregistered]), whose answer
    it ignores; it stays with its worker when that does not answer.  [lost] is an
    error of [WorkerStatus]: the two calls fail independently. *)
Definition submit (n draw : N) (unregistered : bool) (lost : option goerror) (req : ScheduleRequest) p
    : option (platform DB obj) :=
  srv ← p_locals p !! n;
  let registered (calls : list LocalScheduler.local_call) p :=
    match unregistered, calls with
    | false, LocalScheduler.CallRegisterLineage lin :: _ => on_table (OpRegisterLineage lin) p
    | _, _ => Some p
    end in
  match worker_status p n lost with
  | Some status =>
      let '(calls, o) := LocalScheduler.Schedule draw status srv req in
      p ← registered calls p;
      Some (set_pending (p_tasks p ++ sent_locally n calls)
        match o with Returns _ => p | _ => set_locals (delete n (p_locals p)) p end)
  | None =>
      let '(calls, _) := LocalScheduler.Schedule draw (None, None) srv req in
      p ← registered calls p;
      Some (if decide (sr_NodeId req = 0%N) then p else set_pending (p_tasks p ++ sent_locally n calls) p)
  end.

(** What a step of the worker of node [n] is answered. *)
Definition fetch_from (f : GCSFuncServer) (lost : option bytes) (req : FetchRequest) : bytes + FetchResponse :=
  match lost, FetchFunc f req with
  | Some e, _ => inl e
  | None, (Some r, None) => inr r
  | None, (_, Some err) => inl (text (error_text err))
  | None, (None, None) => inl (text "no response")
  end.

Definition answers_at p (n : N) (ch : step_choices) : py_answers obj := {|
  pa_FetchFunc := fetch_from (p_functions p) (fst <$> ch_lost ch);
  pa_func F A K := match ch_raises ch with Some e => inl e | None => func F A K end;
  pa_Store sreq :=
    match ch_lost ch, c_nodes (p_cluster p) !! n with
    | None, Some st =>
        match (Store (ch_sys ch) (l_fs st) (l_server st) sreq).2 with
        | (Some r, None) => inr r
        | _ => inl (text "Store failed")
        end
    | Some (e, _), _ => inl e
    | None, None => inl (text "connection error")
    end;
  pa_running_time := ch_running_time ch |}.

(** The stores that a step asks for, at the store of its node. *)
Fixpoint store_all (n : N) (e : sys) (calls : list py_call) (c : cluster DB) : cluster DB :=
  match calls with
  | [] => c
  | PyStore sreq :: calls =>
      store_all n e calls
        match at_node n (LobsChannels.CallStore e sreq) c with Some (c, _) => c | None => c end
  | PyFetchFunc _ :: calls => store_all n e calls c
  end.

Definition on_worker (n : N) (l : plabel obj) p : option (platform DB obj * list py_call) :=
  w ← p_workers p !! n;
  '(w, calls) ← pexec loads dumps l w;
  Some (set_workers (<[n := w]> (p_workers p)) p, calls).

Definition dropped (k : nat) p : platform DB obj := set_pending (delete k (p_tasks p)) p.

Definition pf_exec (l : pf_label) p : option (platform DB obj) :=
  match l with
  | OnCluster l =>
      if is_own l then (λ c, set_cluster c p) <$> sys_exec cfg peer_of l (p_cluster p) else None
  | RegisterFunction r req => Some (set_functions (RegisterFunc r (p_functions p) req).1 p)
  | Submit n draw unregistered lost req => submit n draw unregistered lost req p
  | GlobalHandles k env =>
      match p_tasks p !! k, p_global p with
      | Some (TSchedule req), Some gs =>
          let env := {| GlobalScheduler.env_now := GlobalScheduler.env_now env;
            GlobalScheduler.env_keys := GlobalScheduler.env_keys env;
            GlobalScheduler.env_locs := GlobalScheduler.env_locs env;
            GlobalScheduler.env_init := GlobalScheduler.env_init env;
            GlobalScheduler.env_shuffle := GlobalScheduler.env_shuffle env;
            GlobalScheduler.env_GetObjectLocations := GetObjectLocations (c_table (p_cluster p));
            GlobalScheduler.env_Dial := GlobalScheduler.env_Dial env;
            GlobalScheduler.env_Run := GlobalScheduler.env_Run env |} in
          let '(calls, o) := GlobalScheduler.Schedule cfg env gs req in
          let p := dropped k p in
          Some (set_pending (p_tasks p ++ sent_globally p calls)
            match calls, o with
            | [], Fatal _ | [], Panics _ => set_global None p     (* no worker was picked *)
            | _, _ => p                                (* the answer to [Run] comes later *)
            end)
      | _, _ => None
      end
  | GlobalEnds => Some (set_global None p)
  | GlobalStarts =>
      match p_global p with
      | None => Some (set_global (Some {| GlobalScheduler.status := ∅ |}) p)
      | Some _ => None
      end
  | SendsHeartbeat n now =>
      match p_locals p !! n, worker_status p n None, c_nodes (p_cluster p) !! n, p_global p with
      | Some srv, Some (Some st, None), Some lst, Some gs =>
          if LocalScheduler.alive srv then
            Some (set_global (Some (GlobalScheduler.Heartbeat now gs
              {| hb_RunningTasks := ws_NumRunningTasks st; hb_QueuedTasks := ws_NumQueuedTasks st;
                 hb_AvgRunningTime := ws_AverageRunningTime st;
                 hb_AvgBandwidth := avgBandwidth (l_server lst); hb_NodeId := n |}).1) p)
          else None
      | _, _, _, _ => None
      end
  | ReportsLiveNodes now o o1 o2 o3 =>
      gs ← p_global p;
      on_table (OpRegisterLiveNodes o1 o2 o3 (GlobalScheduler.SendLiveNodes now o gs)) p
  | TableGenerates k =>
      match p_tasks p !! k with
      | Some (TGenerating gen) => on_table (OpRegisterGenerating gen) (dropped k p)
      | _ => None
      end
  | WorkerTakes k =>
      match p_tasks p !! k with
      | Some (TRun n run) => fst <$> on_worker n (PCall run) (dropped k p)
      | _ => None
      end
  | WorkerSteps n i ch =>
      '(p', calls) ← on_worker n (PStep i (answers_at p n ch)) p;
      Some match ch_lost ch with
           | Some (_, false) => p'
           | _ => set_cluster (store_all n (ch_sys ch) calls (p_cluster p)) p'
           end
  | KillsNode n =>
      Some (set_locals (alter (λ s, (LocalScheduler.KillServer s).1) n (p_locals p))
        (default p (fst <$> on_worker n PKill p)))
  | RevivesNode n =>
      Some (set_locals (alter (λ s, (LocalScheduler.ReviveServer s).1) n (p_locals p))
        (default p (fst <$> on_worker n PRevive p)))
  | LosesTask k => Some (dropped k p)
  end.

Fixpoint pf_run (ls : list pf_label) p : option (platform DB obj) :=
  match ls with
  | [] => Some p
  | l :: ls => p ← pf_exec l p; pf_run ls p
  end.

(** The platform after its start: the nodes [ids] run a store, a scheduler and a
    worker each. *)
Definition pf_init (g : GCSObjServer DB) (ids : gset N) : platform DB obj :=
  Build_platform (sys_init g ids) NewGCSFuncServer (Some {| GlobalScheduler.status := ∅ |})
    (set_to_map (λ n, (n, {| LocalScheduler.localNodeID := n; LocalScheduler.alive := true |})) ids)
    (set_to_map (λ n, (n, pinit)) ids) [].

Lemma pf_run_invariant (ok : pf_label → Prop) (P : platform DB obj → Prop) :
  (∀ l p p', ok l → P p → pf_exec l p = Some p' → P p') →
  ∀ ls p p', Forall ok ls → P p → pf_run ls p = Some p' → P p'.
Proof.
  intros Hstep ls. induction ls as [|l ls IH]; simpl; intros p p' Hok Hp E; [by injection E as <-|].
  apply Forall_cons in Hok as [Hl Hok].
  destruct (pf_exec l p) as [p1|] eqn:E1; [|done]. eapply IH; [done| |exact E]. by eapply Hstep.
Qed.
End Platform.
