(* ===== verification/PlatformThms.v ===== *)
(** * Properties of the whole platform

    Every task that any worker ever runs was submitted, with the registered
    function and the submitted arguments; so every object stored under a uid is
    the result of its task, and [get] returns it. *)
From S2P Require Import Prelude Float32 Net Messages Config Sql MemSql GcsDb GcsFunc.
From S2P Require Import GcsObj GcsObjSpec GcsObjInv GcsObjThms GcsObjDirectory.
From S2P Require Import LocalObjStore LocalObjStoreThms LobsChannels LobsData.
From S2P Require Import Worker WorkerThms PyWorker PyWorkerThms Cluster Recovery System SystemThms PyClient EndToEnd Platform.
From S2P Require LocalScheduler GlobalScheduler GlobalSchedulerThms.

(** The call that a nil request leads to. *)
Definition zero_run : RunRequest := run_of_lineage zero_request.

(** The uids and names that were drawn, with what they were drawn for. *)
Definition submissions (ls : list pf_label) : list (N * RunRequest) :=
  omap (λ l, match l with
    | Submit _ draw _ _ req =>
        let uid := LocalScheduler.TruncateHighBit draw in Some (uid, run_of uid req)
    | _ => None
    end) ls.

Definition registrations (ls : list pf_label) : list (N * bytes) :=
  omap (λ l, match l with
    | RegisterFunction (Ok b) req => Some (big_endian b, rg_SerializedFunc req)
    | _ => None
    end) ls.

Section Thms.
Context {DB TX STMT : Type} `{!SqlDriver DB TX STMT, !SqlLaws DB TX STMT} (cfg : Config) (peer_of : N → string).
Context {obj : Type} (loads : bytes → bytes + obj) (dumps : obj → bytes + bytes).
Context (func : obj → obj → obj → bytes + obj) (wire : option GlobalScheduleRequest → GlobalScheduleRequest).
(** protobuf: a request arrives as it was sent, a nil one without fields. *)
Hypothesis wire_some : ∀ req, wire (Some req) = req.
Hypothesis wire_none : wire None = zero_request.
(** pickle: nothing can be loaded from no bytes, and nothing is dumped to none. *)
Hypothesis loads_nil : ∃ e, loads [] = inl e.
Hypothesis dumps_nonempty : ∀ o data, dumps o = inr data → data ≠ [].
Notation pf_exec := (pf_exec cfg peer_of loads dumps func wire).
Notation pf_run := (pf_run cfg peer_of loads dumps func wire).
Implicit Types (p : platform DB obj) (c : cluster DB).

(** ** What was submitted *)

Section Invariant.
(** The task of every uid, and the function of every name. *)
Context (task : N → RunRequest) (functions : N → option bytes).

Definition agrees (l : pf_label) : Prop :=
  match l with
  | Submit _ draw _ _ req =>
      let uid := LocalScheduler.TruncateHighBit draw in task uid = run_of uid req
  | RegisterFunction (Ok b) req => functions (big_endian b) = Some (rg_SerializedFunc req)
  | _ => True
  end.

Definition was_submitted (run : RunRequest) : Prop := run = task (rr_Uid run) ∨ run = zero_run.

(** The result of the task of a uid. *)
Definition result_of (u : N) : bytes :=
  match functions (rr_Name (task u)) with
  | Some f =>
      match loads f, loads (rr_Args (task u)), loads (rr_Kwargs (task u)) with
      | inr F, inr A, inr K =>
          match func F A K with
          | inr o => match dumps o with inr data => data | inl _ => [] end
          | inl _ => []
          end
      | _, _, _ => []
      end
  | None => []
  end.

Definition task_ok (m : task_message) : Prop :=
  match m with
  | TSchedule req => was_submitted (run_of_lineage req)
  | TRun _ run => was_submitted run
  | TGenerating _ => True
  end.

Lemma store_right_result sreq :
  store_right loads dumps functions func was_submitted sreq →
  so_ObjectBytes sreq = result_of (so_Uid sreq) ∧ result_of (so_Uid sreq) ≠ [].
Proof.
  intros (req & o & Hsub & Hu & (f & F & A & K & Hf & HF & HA & HK & Ho) & Hd).
  assert (result_of (so_Uid sreq) = so_ObjectBytes sreq) as ->.
  { destruct Hsub as [Ht| ->].
    - unfold result_of. by rewrite Hu, <-Ht, Hf, HF, HA, HK, Ho, Hd.
    - destruct loads_nil as [e He]. simpl in HA. by rewrite He in HA. }
  split; [done|by eapply dumps_nonempty].
Qed.

Record pf_ok p : Prop := {
  ok_tasks : Forall task_ok (p_tasks p);
  ok_lineage u req : lineage (c_table (p_cluster p)) !! u = Some req → was_submitted (run_of_lineage req);
  ok_functions name data : functionStore (p_functions p) !! name = Some data → functions name = Some data;
  ok_workers n w : p_workers p !! n = Some w → tasks_right loads dumps functions func was_submitted w;
  ok_nodes : nodes_ok result_of (λ _, True) (c_nodes (p_cluster p))
}.

(** ** The table's lineage *)

Lemma gcs_exec_registers op (g g' : GCSObjServer DB) acts :
  gcs_exec cfg op g = Returns (g', acts) →
  lineage g' = lineage g ∨
  ∃ req, op = OpRegisterLineage req ∧ lineage g' = <[gs_Uid req := req]> (lineage g).
Proof.
  intros E. destruct (decide (∃ req, op = OpRegisterLineage req)) as [[req ->]|Hop].
  - injection E as <- _. unfold RegisterLineage.
    destruct (RegisterLineage_check g req); [by left|right; eauto].
  - left. eapply gcs_exec_lineage_frame; [done|]. intros req ->. apply Hop. by exists req.
Qed.

Lemma at_table_lineage op c c' :
  (∀ req, op ≠ OpRegisterLineage req) → at_table cfg op c = Some c' →
  lineage (c_table c') = lineage (c_table c).
Proof.
  intros Hop (g & acts & E & ->)%at_table_nodes.
  destruct (gcs_exec_registers _ _ _ _ E) as [H|(req & -> & _)]; [done|by destruct (Hop req)].
Qed.

Lemma at_node_table n l c c' calls : at_node n l c = Some (c', calls) → c_table c' = c_table c.
Proof.
  unfold at_node. destruct (c_nodes c !! n) as [st|]; simpl; [|done].
  destruct (lexec l st) as [[st' calls']|]; simpl; [|done]. by intros [= <- _].
Qed.

Lemma sys_exec_lineage l c c' :
  is_own l = true → sys_exec cfg peer_of l c = Some c' → lineage (c_table c') = lineage (c_table c).
Proof.
  intros Ho. destruct l as [n l|n i Dial fault e_remote e|k pk|k n|k|op|n]; simpl.
  - intros E. assert (fst <$> at_node n l c = Some c') as E' by (by destruct l).
    destruct (at_node n l c) as [[c1 calls]|] eqn:E1; [|done]. injection E' as <-.
    by rewrite (at_node_table _ _ _ _ _ E1).
  - destruct (at_node _ _ _) as [[c1 calls]|] eqn:E1; [|done]. intros [= <-].
    apply at_node_table in E1. destruct fault; simpl; by rewrite E1.
  - destruct (c_net c !! k) as [[req|from req|to resp]|]; try done; by intros ->%at_table_lineage.
  - destruct (c_net c !! k) as [[req|from req|to resp]|]; try done. destruct (decide _); [|done].
    destruct (at_node _ _ _) as [[c1 calls]|] eqn:E1; [|done]. intros [= <-].
    by rewrite (at_node_table _ _ _ _ _ E1).
  - by intros [= <-].
  - destruct (is_internal op); [|done]. intros ->%at_table_lineage; [done|]. by intros req ->.
  - by intros [= <-].
Qed.
(** ** The invariant is kept *)

Lemma pf_ok_pending ts p :
  pf_ok p →
  Forall task_ok ts → pf_ok (set_pending (p_tasks p ++ ts) p).
Proof. intros [Ht Hl Hf Hw Hn] Hts. constructor; try done. by apply Forall_app. Qed.

Lemma pf_ok_dropped k p : pf_ok p → pf_ok (dropped k p).
Proof. intros [Ht Hl Hf Hw Hn]. constructor; try done. by apply Forall_delete. Qed.

Lemma pf_ok_global g p : pf_ok p → pf_ok (set_global g p).
Proof. by intros []. Qed.

Lemma pf_ok_locals ls p : pf_ok p → pf_ok (set_locals ls p).
Proof. by intros []. Qed.

(** What the table reschedules was submitted: its lineage is. *)
Lemma pf_ok_on_table op p p' :
  (∀ req, op = OpRegisterLineage req → was_submitted (run_of_lineage req)) →
  pf_ok p → on_table cfg wire op p = Some p' → pf_ok p'.
Proof.
  intros Hop [Ht Hl Hf Hw Hn]. unfold on_table.
  destruct (gcs_exec cfg op (c_table (p_cluster p))) as [[g acts]| |] eqn:E; [|done..]. intros [= <-].
  assert (∀ u req, lineage g !! u = Some req → was_submitted (run_of_lineage req)) as Hl'.
  { intros u req. destruct (gcs_exec_registers _ _ _ _ E) as [->|(r & -> & ->)]; [apply Hl|].
    intros [[_ <-]|[_ ?]]%lookup_insert_Some; [by apply Hop|by eapply Hl]. }
  constructor; simpl; [|exact Hl'|done..].
  apply Forall_app. split; [done|]. apply Forall_forall. intros m (a & _ & Hm)%list_elem_of_omap.
  destruct a as [|uid]; [done|]. injection Hm as <-. unfold schedule_request.
  destruct (lineage g !! uid) as [req|] eqn:Eu; [rewrite wire_some; by eapply Hl'|].
  rewrite wire_none. by right.
Qed.

(** A step of a worker whose answers are those of the platform. *)
Lemma pf_ok_on_worker n l p p' calls :
  p_truthful functions func was_submitted l → pf_ok p → on_worker loads dumps n l p = Some (p', calls) →
  pf_ok p' ∧ p_cluster p' = p_cluster p ∧
  ∀ sreq, PyStore sreq ∈ calls → so_ObjectBytes sreq = result_of (so_Uid sreq) ∧ result_of (so_Uid sreq) ≠ [].
Proof.
  intros Hl [Ht Hli Hf Hw Hn]. unfold on_worker. destruct (p_workers p !! n) as [w|] eqn:Ew; [|done]. simpl.
  destruct (pexec loads dumps l w) as [[w' calls']|] eqn:E; [|done]. simpl. intros [= <- <-].
  apply (pexec_right _ _ functions func was_submitted) in E as [Hw' Hs]; [|done|by eapply Hw].
  split_and!; [|done|intros sreq Hin; by apply store_right_result, Hs].
  constructor; try done. intros m w1. simpl. destruct (decide (n = m)) as [<-|].
  - rewrite lookup_insert_eq. by intros [= <-].
  - rewrite lookup_insert_ne by done. apply Hw.
Qed.

Lemma answers_truthful p n i ch : pf_ok p → p_truthful functions func was_submitted (PStep i (answers_at func p n ch)).
Proof.
  intros Hp. split; simpl.
  - intros req r. unfold fetch_from. destruct (fst <$> ch_lost ch); [done|]. unfold FetchFunc.
    destruct (functionStore _ !! fe_Name req) as [data|] eqn:E; [|done]. intros [= <-]. by apply (ok_functions _ Hp).
  - intros F A K o. by destruct (ch_raises ch).
Qed.

Lemma pf_ok_stores n e calls c :
  (∀ sreq, PyStore sreq ∈ calls → so_ObjectBytes sreq = result_of (so_Uid sreq) ∧ result_of (so_Uid sreq) ≠ []) →
  nodes_ok result_of (λ _, True) (c_nodes c) →
  nodes_ok result_of (λ _, True) (c_nodes (store_all n e calls c)) ∧
  c_table (store_all n e calls c) = c_table c.
Proof.
  revert c. induction calls as [|[fetch|sreq] calls IH]; intros c Hs Hn; simpl; [done| |].
  - apply IH; [|done]. intros sreq Hin. apply Hs. by right.
  - assert (∀ s, PyStore s ∈ calls → so_ObjectBytes s = result_of (so_Uid s) ∧ result_of (so_Uid s) ≠ []) as Hs'
      by (intros s Hin; apply Hs; by right).
    destruct (at_node n _ c) as [[c' calls']|] eqn:E; [|by apply IH].
    destruct (at_node_ok _ (λ _, True) n (LobsChannels.CallStore e sreq) c c' calls' Hn) as (Hn' & _ & Ht & _);
      [apply Hs; left|done|].
    destruct (IH c' Hs' Hn') as [H1 H2]. by rewrite H2, Ht.
Qed.

(** A call of a local scheduler carries the task [run]. *)
Definition carries (run : RunRequest) (x : LocalScheduler.local_call) : Prop :=
  match x with
  | LocalScheduler.CallRegisterLineage r | LocalScheduler.GoScheduleGlobally r => run_of_lineage r = run
  | LocalScheduler.GoRunLocally _ r => r = run
  | LocalScheduler.CallWorkerStatus => True
  end.

(** [Schedule] of a local scheduler sends nothing but the submitted task. *)
Lemma local_calls draw status srv req calls o :
  LocalScheduler.Schedule draw status srv req = (calls, o) →
  let run := run_of (LocalScheduler.TruncateHighBit draw) req in
  Forall (carries run) calls.
Proof.
  unfold LocalScheduler.Schedule.
  destruct (negb _); [|destruct status.1 as [st|]; [destruct (_ <? _)%N|]]; intros [= <- <-]; by repeat constructor.
Qed.

Lemma sent_locally_ok n run calls :
  was_submitted run →
  Forall (carries run) calls →
  Forall task_ok (sent_locally n calls).
Proof.
  intros Hr. induction 1 as [|x calls Hx _ IH]; [done|]. unfold sent_locally. simpl. apply Forall_app.
  split; [|done]. destruct x; simpl in Hx |- *; [apply Forall_nil_2..| |]; repeat apply Forall_cons_2; try apply Forall_nil_2;
    simpl; by rewrite ?Hx.
Qed.

Lemma sent_globally_ok env gs req calls o p :
  GlobalScheduler.Schedule cfg env gs req = (calls, o) → was_submitted (run_of_lineage req) →
  Forall task_ok (sent_globally cfg p calls).
Proof.
  unfold GlobalScheduler.Schedule. intros E Hr.
  destruct (if decide (gs_NodeId req = 0%N) then _ else _) as [node| |]; [|by injection E as <- _..].
  destruct (GlobalScheduler.env_Dial env _); [by injection E as <- _|].
  assert (Forall task_ok (sent_globally cfg p
    [GlobalScheduler.CallRegisterGenerating {| gn_Uid := gs_Uid req; gn_NodeId := node |};
     GlobalScheduler.CallRun (node_address (NodePrefix cfg) node (port_LocalWorkerStart (cfg_Ports cfg)))
       (run_of_lineage req)])) as Hs.
  { unfold sent_globally. simpl. apply Forall_cons. split; [done|].
    destruct (worker_at cfg p _); simpl; [by constructor|done]. }
  destruct (GlobalScheduler.env_Run env _ _) as [[[ok]|] [err|]]; try destruct ok; injection E as <- _; exact Hs.
Qed.

Lemma pf_ok_submit n draw unreg lost req p p' :
  was_submitted (run_of (LocalScheduler.TruncateHighBit draw) req) →
  pf_ok p → submit cfg wire n draw unreg lost req p = Some p' → pf_ok p'.
Proof.
  intros Hr Hp. unfold submit. destruct (p_locals p !! n) as [srv|]; simpl; [|done].
  assert (∀ calls p1, Forall (carries (run_of (LocalScheduler.TruncateHighBit draw) req)) calls →
    match unreg, calls with
    | false, LocalScheduler.CallRegisterLineage lin :: _ => on_table cfg wire (OpRegisterLineage lin) p
    | _, _ => Some p
    end = Some p1 → pf_ok p1) as Hreg.
  { intros calls p1 Hc E. destruct unreg; [by injection E as <-|].
    destruct calls as [|[lin| | |] calls]; try (by injection E as <-).
    apply Forall_cons in Hc as [Hlin _]. simpl in Hlin. eapply pf_ok_on_table; [|exact Hp|exact E].
    intros r [= <-]. by rewrite Hlin. }
  destruct (worker_status p n lost) as [status|].
  - destruct (LocalScheduler.Schedule draw status srv req) as [calls o] eqn:E.
    pose proof (local_calls _ _ _ _ _ _ E) as Hc. simpl.
    destruct (if unreg then _ else _) as [p1|] eqn:E1; simpl; [|done]. intros [= <-].
    pose proof (Hreg _ _ Hc E1) as Hp1. pose proof (sent_locally_ok n _ _ Hr Hc) as Hs.
    destruct o; [by apply pf_ok_pending|..]; apply (pf_ok_pending _ (set_locals _ p1)); try done;
      by apply pf_ok_locals.
  - destruct (LocalScheduler.Schedule draw (None, None) srv req) as [calls o] eqn:E.
    pose proof (local_calls _ _ _ _ _ _ E) as Hc. simpl.
    destruct (if unreg then _ else _) as [p1|] eqn:E1; simpl; [|done]. intros [= <-].
    pose proof (Hreg _ _ Hc E1) as Hp1. pose proof (sent_locally_ok n _ _ Hr Hc) as Hs.
    destruct (decide _); [done|]. by apply pf_ok_pending.
Qed.

Lemma pf_ok_worker_label n l p : p_truthful functions func was_submitted l → pf_ok p →
  pf_ok (default p (fst <$> on_worker loads dumps n l p)).
Proof.
  intros Hl Hp. destruct (on_worker loads dumps n l p) as [[p' calls]|] eqn:E; [|done].
  by apply (pf_ok_on_worker n l p p' calls).
Qed.

Lemma pf_ok_exec l p p' : agrees l → pf_ok p → pf_exec l p = Some p' → pf_ok p'.
Proof.
  intros Hl Hp. destruct l as [l|r req|n draw unreg lost req|k env| | |n now|now o o1 o2 o3|k|k|n i ch|n|n|k]; simpl.
  - destruct (is_own l) eqn:Ho; [|done]. destruct (sys_exec cfg peer_of l (p_cluster p)) as [c|] eqn:E; [|done].
    intros [= <-]. destruct Hp as [Ht Hli Hf Hw Hn]. constructor; try done; simpl.
    + by rewrite (sys_exec_lineage _ _ _ Ho E).
    + eapply (sys_exec_nodes cfg peer_of); [exact Hn| | |exact E]; [apply Forall_true; by intros []|].
      by destruct l as [? []| | | | | |].
  - intros [= <-]. destruct Hp as [Ht Hli Hf Hw Hn]. constructor; try done. simpl.
    destruct r as [b|e]; simpl; [|done]. intros name data [[<- <-]|[_ ?]]%lookup_insert_Some; [exact Hl|by apply Hf].
  - apply pf_ok_submit; [|done]. left. exact (eq_sym Hl).
  - destruct (p_tasks p !! k) as [[req| |]|] eqn:Hk; try done. destruct (p_global p) as [gs|]; [|done].
    destruct (GlobalScheduler.Schedule cfg _ gs req) as [calls o] eqn:E. intros [= <-].
    pose proof (Forall_lookup_1 _ _ _ _ (ok_tasks _ Hp) Hk) as Hreq.
    pose proof (sent_globally_ok _ _ _ _ _ (dropped k p) E Hreq) as Hs.
    pose proof (pf_ok_pending _ _ (pf_ok_dropped k p Hp) Hs) as Hp'.
    destruct calls as [|x calls], o; try exact Hp'; by apply (pf_ok_global None) in Hp'.
  - intros [= <-]. by apply pf_ok_global.
  - destruct (p_global p); [done|]. intros [= <-]. by apply pf_ok_global.
  - repeat case_match; try discriminate; intros [= <-]; by apply pf_ok_global.
  - destruct (p_global p) as [gs|]; [|done]. cbn [mbind option_bind]. intros E.
    eapply pf_ok_on_table; [|exact Hp|exact E]. intros r [=].
  - destruct (p_tasks p !! k) as [[|gen|]|]; try done. intros E.
    eapply pf_ok_on_table; [|by apply (pf_ok_dropped k)|exact E]. intros r [=].
  - destruct (p_tasks p !! k) as [[| |n run]|] eqn:Hk; try done.
    destruct (on_worker _ _ n _ (dropped k p)) as [[p1 calls]|] eqn:E; [|done]. intros [= <-].
    apply (pf_ok_on_worker n (PCall run) (dropped k p) p1 calls); [|by apply pf_ok_dropped|done].
    exact (Forall_lookup_1 _ _ _ _ (ok_tasks _ Hp) Hk).
  - destruct (on_worker _ _ n _ p) as [[p1 calls]|] eqn:E; [|done]. simpl. intros [= <-].
    destruct (pf_ok_on_worker _ _ _ _ _ (answers_truthful p n i ch Hp) Hp E) as (Hp1 & Hc & Hs).
    assert (pf_ok (set_cluster (store_all n (ch_sys ch) calls (p_cluster p)) p1)) as Hp2.
    { destruct (pf_ok_stores n (ch_sys ch) calls (p_cluster p) Hs (ok_nodes _ Hp)) as [Hn2 Ht2].
      destruct Hp1 as [Ht Hli Hf Hw Hn]. constructor; try done. simpl. rewrite Ht2, <-Hc. exact Hli. }
    by destruct (ch_lost ch) as [[e []]|].
  - intros [= <-]. apply pf_ok_locals. by apply pf_ok_worker_label.
  - intros [= <-]. apply pf_ok_locals. by apply pf_ok_worker_label.
  - intros [= <-]. by apply pf_ok_dropped.
Qed.

Lemma pf_ok_init (g : GCSObjServer DB) ids : lineage g = ∅ → pf_ok (pf_init g ids).
Proof.
  intros Hg. constructor; simpl.
  - done.
  - intros u req. by rewrite Hg.
  - done.
  - intros n w (m & _ & [= -> <-])%lookup_set_to_map; [|done]. by apply Forall_nil.
  - apply init_nodes.
Qed.

Lemma pf_ok_run ls (g : GCSObjServer DB) ids p :
  lineage g = ∅ → Forall agrees ls → pf_run ls (pf_init g ids) = Some p → pf_ok p.
Proof.
  intros Hg Hls. apply (pf_run_invariant _ _ _ _ _ _ agrees pf_ok); [apply pf_ok_exec|done|by apply pf_ok_init].
Qed.
End Invariant.

(** ** Draws without repetition *)

Definition task_of (ls : list pf_label) (u : N) : RunRequest :=
  default zero_run ((list_to_map (submissions ls) : gmap N RunRequest) !! u).
Definition function_of (ls : list pf_label) (name : N) : option bytes :=
  (list_to_map (registrations ls) : gmap N bytes) !! name.

(** No uid and no name is drawn twice. *)
Definition distinct_draws (ls : list pf_label) : Prop :=
  NoDup (submissions ls).*1 ∧ NoDup (registrations ls).*1.

Lemma task_of_submitted ls u run : distinct_draws ls → (u, run) ∈ submissions ls → task_of ls u = run.
Proof. intros [Hd _] Hin. unfold task_of. by rewrite (elem_of_list_to_map_1 _ _ _ Hd Hin). Qed.

Lemma function_of_registered ls name f :
  distinct_draws ls → (name, f) ∈ registrations ls → function_of ls name = Some f.
Proof. intros [_ Hd] Hin. exact (elem_of_list_to_map_1 _ _ _ Hd Hin). Qed.

Lemma task_of_inv ls u : (u, task_of ls u) ∈ submissions ls ∨ task_of ls u = zero_run.
Proof.
  unfold task_of. destruct (list_to_map (submissions ls) !! u) as [run|] eqn:E; [left|by right].
  by apply elem_of_list_to_map_2 in E.
Qed.

Lemma in_submissions ls n draw unreg lost req :
  Submit n draw unreg lost req ∈ ls →
  (LocalScheduler.TruncateHighBit draw, run_of (LocalScheduler.TruncateHighBit draw) req) ∈ submissions ls.
Proof. intros Hin. apply list_elem_of_omap. by eexists. Qed.

Lemma in_registrations ls b req :
  RegisterFunction (Ok b) req ∈ ls → (big_endian b, rg_SerializedFunc req) ∈ registrations ls.
Proof. intros Hin. apply list_elem_of_omap. by eexists. Qed.

Lemma agrees_draws ls : distinct_draws ls → Forall (agrees (task_of ls) (function_of ls)) ls.
Proof.
  intros Hd. apply Forall_forall. intros [| [b|e] req|n draw unreg lost req| | | | | | | | | | |] Hin; try done; simpl.
  - by apply function_of_registered, in_registrations.
  - by apply task_of_submitted, (in_submissions _ n _ unreg lost).
Qed.

Lemma NewGCSObjServer_lineage (opened : result DB) f (g : GCSObjServer DB) :
  NewGCSObjServer opened f = Returns g → lineage g = ∅.
Proof. by intros (_ & _ & ? & _)%NewGCSObjServer_empty. Qed.

Lemma platform_ok opened flush (g : GCSObjServer DB) ids ls p :
  NewGCSObjServer opened flush = Returns g → distinct_draws ls → pf_run ls (pf_init g ids) = Some p →
  pf_ok (task_of ls) (function_of ls) p.
Proof.
  intros Hg Hd. apply pf_ok_run; [by eapply NewGCSObjServer_lineage|by apply agrees_draws].
Qed.

(** ** Theorems *)

(** C2: Every object is the result of the task that was submitted under its uid.
    In every run of the whole platform in which no uid and no name is drawn
    twice, with messages lost and overtaken, tasks rescheduled and run any number
    of times, nodes killed and revived, functions that raise exceptions,
    schedulers that end and stores that restart: every call that any worker has
    taken is a submitted one, or the one without fields that a lost object
    without lineage leads to; and every object that any store records is in its
    file, of the recorded size, and is the pickled result of the registered
    function on the submitted arguments. *)
Theorem every_object_is_a_result opened flush (g : GCSObjServer DB) ids ls p :
  NewGCSObjServer opened flush = Returns g → distinct_draws ls → pf_run ls (pf_init g ids) = Some p →
  (∀ n w run pos, p_workers p !! n = Some w → (run, pos) ∈ ptasks w →
     (rr_Uid run, run) ∈ submissions ls ∨ run = zero_run) ∧
  (∀ n st u size, c_nodes (p_cluster p) !! n = Some st → objectSizes (l_server st) !! u = Some size →
     ∃ run f F A K o data,
       (u, run) ∈ submissions ls ∧ (rr_Name run, f) ∈ registrations ls ∧
       loads f = inr F ∧ loads (rr_Args run) = inr A ∧ loads (rr_Kwargs run) = inr K ∧
       func F A K = inr o ∧ dumps o = inr data ∧
       size = N.of_nat (length data) ∧ files (l_fs st) !! shm_path (FormatUint u) = Some data).
Proof.
  intros Hg Hd Hrun. pose proof (platform_ok _ _ _ _ _ _ Hg Hd Hrun) as Hp. split.
  - intros n w run pos Hw Hin. pose proof (ok_workers _ _ _ Hp _ _ Hw) as Ht. unfold tasks_right in Ht.
    rewrite Forall_forall in Ht. destruct (Ht _ Hin) as [[Hs|Hs] _]; simpl in Hs; [|by right].
    destruct (task_of_inv ls (rr_Uid run)) as [H|H]; [left; by rewrite <-Hs in H|right; by rewrite Hs].
  - intros n st u size Hst Hu. destruct (ok_nodes _ _ _ Hp _ _ Hst) as [[own Hi] _].
    destruct (di_contents _ _ _ _ Hi u ltac:(by eexists)) as (Hf & Hs & Hne). rewrite Hu in Hs.
    injection Hs as ->. revert Hf Hne. unfold result_of.
    destruct (function_of ls (rr_Name (task_of ls u))) as [f|] eqn:Ef; [|done].
    destruct (loads f) as [|F] eqn:EF; [done|]. destruct (loads (rr_Args _)) as [|A] eqn:EA; [done|].
    destruct (loads (rr_Kwargs _)) as [|K] eqn:EK; [done|]. destruct (func F A K) as [|o] eqn:Eo; [done|].
    destruct (dumps o) as [|data] eqn:Ed; [done|]. intros Hf _.
    exists (task_of ls u), f, F, A, K, o, data. split_and!; try done.
    + destruct (task_of_inv ls u) as [H|H]; [done|]. rewrite H in EA. destruct loads_nil as [e He].
      simpl in EA. by rewrite He in EA.
    + exact (elem_of_list_to_map_2 _ _ _ Ef).
Qed.

(** C1: On the whole platform [get(f.remote(...))] is what the function returns.
    A client has registered the function and submitted the call, which gave it
    the future [u]; in every run of the platform without repeated draws, in
    which the store of a client's node has answered the [Get] of the future, the
    client's [get] returns the very value that the function returns on the
    submitted arguments. *)
Theorem platform_get_is_the_result opened flush (g : GCSObjServer DB) ids ls p
    (SharedMemory : gmap string bytes → string → option bytes)
    {S : Type} (Get : S → GetRequest → S * reply GetResponse) (segments : S → shm) foreign_get
    m draw unreg lost req b freq F A K v data n st i x s s' :
  NewGCSObjServer opened flush = Returns g → distinct_draws ls → pf_run ls (pf_init g ids) = Some p →
  (∀ fs name, SharedMemory fs ("/" +:+ name) = fs !! shm_path name) →
  RegisterFunction (Ok b) freq ∈ ls → sr_Name req = big_endian b → Submit m draw unreg lost req ∈ ls →
  loads (rg_SerializedFunc freq) = inr F → loads (sr_Args req) = inr A → loads (sr_Kwargs req) = inr K →
  func F A K = inr v → dumps v = inr data → loads data = inr v →
  let u := LocalScheduler.TruncateHighBit draw in
  let greq := {| ge_Uid := u; ge_Testing := false; ge_Copy := true; ge_Cache := true |} in
  c_nodes (p_cluster p) !! n = Some st → gets st !! i = Some (greq, GetDone (Some x, None)) →
  Get s greq = (s', (Some x, None)) → segments s' = l_fs st →
  PyClient.get loads SharedMemory Get segments foreign_get true true true (PFuture u) s = (s', inr (PObj v)).
Proof.
  intros Hg Hd Hrun Hshm Hreg Hname Hsub HF HA HK Hv Hdata Hl u greq Hst Hget HG Hseg.
  pose proof (platform_ok _ _ _ _ _ _ Hg Hd Hrun) as Hp.
  assert (result_of (task_of ls) (function_of ls) u = data) as HD.
  { pose proof (task_of_submitted _ _ _ Hd (in_submissions _ _ _ _ _ _ Hsub)) as Ht. fold u in Ht.
    unfold result_of. rewrite Ht. simpl.
    rewrite Hname, (function_of_registered _ _ _ Hd (in_registrations _ _ _ Hreg)).
    by rewrite HF, HA, HK, Hv, Hdata. }
  destruct (ok_nodes _ _ _ Hp _ _ Hst) as [[own Hi] _].
  pose proof (Forall_lookup_1 _ _ _ _ (di_gets _ _ _ _ Hi) Hget) as Hok. simpl in Hok.
  assert (gr_Size x = N.of_nat (length data) ∧ is_Some (objectSizes (l_server st) !! u)) as [Hsz Hrec].
  { fold u in Hok. rewrite <-HD. destruct (gr_Local x); [exact Hok|by apply Hok]. }
  destruct (di_contents _ _ _ _ Hi u Hrec) as (Hfile & _). rewrite HD in Hfile.
  eapply (Future_get_reads loads SharedMemory Hshm); [exact HG|exact Hsz|by rewrite Hseg|by eapply dumps_nonempty|done].
Qed.
End Thms.

(** ** Witnesses *)

(** A pickle that marks its output; the function [x01], registered under name 3,
    is submitted on node 2 with [x02 x03] and run there; a client on node 3
    waits for the result. *)
Definition pf_loads (b : bytes) : bytes + bytes :=
  match b with [] => inl (text "Ran out of input") | _ :: b => inr b end.
Definition pf_dumps (o : bytes) : bytes + bytes := inr (Byte.x80 :: o).
Definition pf_func (F A K : bytes) : bytes + bytes := inr (F ++ A ++ K).
Definition pf_request : ScheduleRequest :=
  {| sr_Name := big_endian (to_big_endian 8 3); sr_Args := [Byte.x80; Byte.x02; Byte.x03];
     sr_Kwargs := [Byte.x80]; sr_Uids := []; sr_NodeId := 0; sr_LocalityFlag := true |}.
Definition pf_registration : RegisterRequest := {| rg_SerializedFunc := [Byte.x80; Byte.x01] |}.
Definition pf_choices : step_choices :=
  {| ch_raises := None; ch_lost := None; ch_sys := no_faults; ch_running_time := decimal 1 2 |}.
Definition pf_labels : list pf_label :=
  [RegisterFunction (Ok (to_big_endian 8 3)) pf_registration;
   OnCluster (AtNode 3 (CallGet (get_req 7)))] ++ replicate 4 (OnCluster (demo_step 3)) ++
  [OnCluster (TableHandles 0 pick_first); Submit 2 7 false None pf_request; TableGenerates 0; WorkerTakes 0] ++
  replicate 14 (WorkerSteps 2 0 pf_choices) ++
  [OnCluster (TableHandles 0 pick_first); OnCluster (NodeHandles 0 3); OnCluster (AtNode 3 (StepFound 0));
   OnCluster (AtNode 3 (Deliver 0 0)); OnCluster (demo_step 3)].
Definition pf_end : option (platform memdb bytes) :=
  pf_run app_config demo_peer pf_loads pf_dumps pf_func (default zero_request) pf_labels
    (pf_init demo_table {[2%N; 3%N]}).
Definition pf_answer : GetResponse :=
  {| gr_Uid := 7; gr_ObjectBytes := [Byte.x80; Byte.x01; Byte.x02; Byte.x03]; gr_Local := false; gr_Size := 4 |}.

Lemma pf_table : NewGCSObjServer (Ok mem_empty) 1 = Returns demo_table.
Proof. vm_compute. reflexivity. Qed.

Lemma pf_distinct : distinct_draws pf_labels.
Proof. split; vm_compute; repeat constructor; by intros ?%not_elem_of_nil. Qed.

Lemma pf_dumps_nonempty o data : pf_dumps o = inr data → data ≠ [].
Proof. by intros [= <-]. Qed.

Lemma pf_reached : ∃ p st, pf_end = Some p ∧ c_nodes (p_cluster p) !! 3%N = Some st ∧
  gets st !! 0 = Some (get_req 7, GetDone (Some pf_answer, None)).
Proof.
  destruct pf_end as [p|] eqn:E; [|vm_compute in E; discriminate E].
  destruct (c_nodes (p_cluster p) !! 3%N) as [st|] eqn:Hst.
  - exists p, st. split; [first [reflexivity|exact E]|]. split; [exact Hst|].
    vm_compute in E. injection E as <-. vm_compute in Hst. injection Hst as <-. vm_compute. reflexivity.
  - exfalso. vm_compute in E. injection E as <-. vm_compute in Hst. discriminate Hst.
Qed.

Lemma every_object_is_a_result_witness :
  ∃ p st, pf_end = Some p ∧ c_nodes (p_cluster p) !! 3%N = Some st ∧
    ∀ u size, objectSizes (l_server st) !! u = Some size → ∃ run, (u, run) ∈ submissions pf_labels.
Proof.
  destruct pf_reached as (p & st & E & Hst & _). exists p, st. split; [exact E|]. split; [exact Hst|].
  intros u size Hu.
  destruct (every_object_is_a_result app_config demo_peer pf_loads pf_dumps pf_func (default zero_request)
    (λ _, eq_refl) eq_refl (ex_intro _ _ eq_refl) pf_dumps_nonempty (Ok mem_empty) 1 demo_table {[2%N; 3%N]}
    pf_labels p pf_table pf_distinct E) as [_ H].
  destruct (H 3%N st u size Hst Hu) as (run & _ & _ & _ & _ & _ & _ & Hin & _). exists run. exact Hin.
Defined.

Lemma platform_get_is_the_result_witness :
  ∃ p st, pf_end = Some p ∧ c_nodes (p_cluster p) !! 3%N = Some st ∧
    PyClient.get pf_loads posix_segment (λ (s : unit) (_ : GetRequest), (s, (Some pf_answer, None)))
      (λ _, l_fs st) (λ _, None) true true true (PFuture 7) tt = (tt, inr (PObj [Byte.x01; Byte.x02; Byte.x03])).
Proof.
  destruct pf_reached as (p & st & E & Hst & Hget). exists p, st. split; [exact E|]. split; [exact Hst|].
  refine (platform_get_is_the_result app_config demo_peer pf_loads pf_dumps pf_func (default zero_request)
    (λ _, eq_refl) eq_refl (ex_intro _ _ eq_refl) pf_dumps_nonempty (Ok mem_empty) 1 demo_table {[2%N; 3%N]}
    pf_labels p posix_segment _ (λ _, l_fs st) (λ _, None) 2 7 false None pf_request (to_big_endian 8 3) pf_registration
    [Byte.x01] [Byte.x02; Byte.x03] [] [Byte.x01; Byte.x02; Byte.x03] [Byte.x80; Byte.x01; Byte.x02; Byte.x03]
    3 st 0 pf_answer tt tt pf_table pf_distinct E (λ fs name, eq_refl) _ eq_refl _
    eq_refl eq_refl eq_refl eq_refl eq_refl eq_refl Hst Hget eq_refl eq_refl).
  - left.
  - unfold pf_labels. apply elem_of_app. right. apply elem_of_app. right. apply elem_of_app. left. right. left.
Defined.
