(* ===== verification/Locks.v ===== *)
(** * Locks and data races

    A handler as the programs of lock operations and of accesses to shared
    fields that it can run, any number of calls of handlers as threads, and a
    data race as two threads about to access one field, one of them to write.
    The discipline the code means to follow, that every field has a lock that
    is held whenever it is accessed, and held exclusively when it is written,
    excludes data races; and a search finds those of a pair of handlers. *)
From S2P Require Import Prelude.

Section Locks.
Context {lock field : Type} `{EqDecision lock, EqDecision field}.

(** [sync.Mutex] and [sync.RWMutex]: [Lock] is exclusive, [RLock] is not. *)
Inductive instr :=
  | Acquire (l : lock) (exclusive : bool)
  | Release (l : lock) (exclusive : bool)
  | Access (f : field) (write : bool).

(** [Loop] runs any of its bodies any number of times. *)
Inductive prog :=
  | End
  | Do (i : instr) (p : prog)
  | Either (p q : prog)
  | Loop (bodies : list (list instr)) (p : prog).

Fixpoint seq (il : list instr) (p : prog) : prog :=
  match il with [] => p | i :: il => Do i (seq il p) end.

Definition held_locks : Type := list (lock * bool).
Definition thread : Type := prog * held_locks.

Definition release (l : lock) (x : bool) (h : held_locks) : held_locks :=
  filter (λ y, y ≠ (l, x)) h.

(** Thread [i] can take a lock while no other thread holds it in a conflicting
    mode. *)
Definition available (ts : list thread) (i : nat) (l : lock) (x : bool) : Prop :=
  ∀ j t x', j ≠ i → ts !! j = Some t → (l, x') ∈ t.2 → x = false ∧ x' = false.

Inductive thread_step (free : lock → bool → Prop) : thread → thread → Prop :=
  | step_acquire l x p h :
      free l x → thread_step free (Do (Acquire l x) p, h) (p, (l, x) :: h)
  | step_release l x p h :
      thread_step free (Do (Release l x) p, h) (p, release l x h)
  | step_access f w p h : thread_step free (Do (Access f w) p, h) (p, h)
  | step_left p q h : thread_step free (Either p q, h) (p, h)
  | step_right p q h : thread_step free (Either p q, h) (q, h)
  | step_exit bodies p h : thread_step free (Loop bodies p, h) (p, h)
  | step_round bodies p h body :
      body ∈ bodies → thread_step free (Loop bodies p, h) (seq body (Loop bodies p), h).

Inductive step (ts : list thread) : list thread → Prop :=
  | step_thread i t t' :
      ts !! i = Some t → thread_step (available ts i) t t' → step ts (<[i := t']> ts).

(** Calls of the handlers in [ps], at their start. *)
Definition calls (ps : list prog) : list thread := (λ p, (p, [])) <$> ps.

Definition next_access (t : thread) : option (field * bool) :=
  match t.1 with Do (Access f w) _ => Some (f, w) | _ => None end.

Definition race (ts : list thread) (f : field) : Prop :=
  ∃ i j t t' w w', i ≠ j ∧ ts !! i = Some t ∧ ts !! j = Some t' ∧
    next_access t = Some (f, w) ∧ next_access t' = Some (f, w') ∧ w || w' = true.

(** No reachable state of these calls has a race on [f]. *)
Definition race_free (ps : list prog) (f : field) : Prop :=
  ∀ ts, rtc step (calls ps) ts → ¬ race ts f.

(** ** The discipline *)

(** The lock of every field that is watched. *)
Context (guard : field → option lock).

Definition guarded (h : held_locks) (f : field) (w : bool) : bool :=
  match guard f with
  | Some l => bool_decide ((l, true) ∈ h) || (negb w && bool_decide ((l, false) ∈ h))
  | None => true
  end.

(** The locks held after a body, if it keeps the discipline. *)
Fixpoint body_locks (h : held_locks) (il : list instr) : option held_locks :=
  match il with
  | [] => Some h
  | Acquire l x :: il => body_locks ((l, x) :: h) il
  | Release l x :: il => body_locks (release l x h) il
  | Access f w :: il => if guarded h f w then body_locks h il else None
  end.

Fixpoint disciplined (h : held_locks) (p : prog) : bool :=
  match p with
  | End => true
  | Do (Acquire l x) p => disciplined ((l, x) :: h) p
  | Do (Release l x) p => disciplined (release l x h) p
  | Do (Access f w) p => guarded h f w && disciplined h p
  | Either p q => disciplined h p && disciplined h q
  | Loop bodies p =>
      forallb (λ body, bool_decide (body_locks h body = Some h)) bodies && disciplined h p
  end.

Lemma disciplined_seq il h h' p :
  body_locks h il = Some h' → disciplined h' p = true → disciplined h (seq il p) = true.
Proof.
  revert h. induction il as [|[l x|l x|f w] il IH]; intros h; simpl; try by auto.
  - by intros [= ->].
  - destruct (guarded h f w); [|done]. simpl. auto.
Qed.

Lemma disciplined_step free t t' :
  thread_step free t t' → disciplined t.2 t.1 = true → disciplined t'.2 t'.1 = true.
Proof.
  intros Hs. destruct Hs as [l x p h _|l x p h|f w p h|p q h|p q h|bodies p h|bodies p h body Hb]; simpl;
    rewrite ?andb_true_iff; try tauto.
  intros [Hall Hp]. apply (disciplined_seq _ _ h).
  - rewrite forallb_forall in Hall. apply list_elem_of_In in Hb. by apply Hall, bool_decide_eq_true in Hb.
  - simpl. by rewrite andb_true_iff.
Qed.

(** Conflicting locks are never held by two threads. *)
Definition exclusive (ts : list thread) : Prop :=
  ∀ i j t t' l x x', i ≠ j → ts !! i = Some t → ts !! j = Some t' →
    (l, x) ∈ t.2 → (l, x') ∈ t'.2 → x = false ∧ x' = false.

Lemma release_incl l x h y : y ∈ release l x h → y ∈ h.
Proof. by intros [_ ?]%list_elem_of_filter. Qed.

(** A step of a thread takes at most one lock, which was free. *)
Lemma held_step free t t' l x :
  thread_step free t t' → (l, x) ∈ t'.2 → (l, x) ∈ t.2 ∨ free l x.
Proof.
  intros Hs. destruct Hs as [l' x' p h Hf|l' x' p h|f w p h|p q h|p q h|bodies p h|bodies p h body Hb];
    simpl; try by left.
  - intros [E|?]%elem_of_cons; [injection E as -> ->; by right|by left].
  - intros ?%release_incl. by left.
Qed.

Lemma exclusive_step ts ts' : step ts ts' → exclusive ts → exclusive ts'.
Proof.
  intros [i t t' Hi Hs] Hex j k tj tk l x x' Hjk Hj Hk Hx Hx'.
  assert (∀ k tk x', k ≠ i → ts !! k = Some tk → (l, x') ∈ tk.2 → ∀ x, (l, x) ∈ t'.2 →
    x = false ∧ x' = false) as Hmoved.
  { intros k' tk' y Hne Hk' Hy z [Hz|Hz]%(held_step _ _ _ _ _ Hs); [by eapply (Hex i k')|by eapply Hz]. }
  destruct (decide (j = i)) as [->|Hji]; [|destruct (decide (k = i)) as [->|Hki]].
  - rewrite list_lookup_insert_eq in Hj by (by eapply lookup_lt_Some).
    rewrite list_lookup_insert_ne in Hk by done. injection Hj as <-. by eapply (Hmoved k tk).
  - rewrite list_lookup_insert_eq in Hk by (by eapply lookup_lt_Some).
    rewrite list_lookup_insert_ne in Hj by done. injection Hk as <-.
    destruct (Hmoved j tj x Hji Hj Hx x' Hx'). done.
  - rewrite list_lookup_insert_ne in Hj, Hk by done. by eapply (Hex j k).
Qed.

Definition lock_inv (ts : list thread) : Prop :=
  exclusive ts ∧ Forall (λ t, disciplined t.2 t.1 = true) ts.

Lemma lock_inv_steps ts ts' : rtc step ts ts' → lock_inv ts → lock_inv ts'.
Proof.
  induction 1 as [ts|ts ts1 ts2 Hstep _ IH]; [done|]. intros [Hex Hd]. apply IH.
  split; [by eapply exclusive_step|]. destruct Hstep as [i t t' Hi Hs].
  apply Forall_insert; [done|]. eapply disciplined_step; [exact Hs|].
  exact (Forall_lookup_1 _ _ _ _ Hd Hi).
Qed.

Lemma next_guarded t f w :
  disciplined t.2 t.1 = true → next_access t = Some (f, w) → guarded t.2 f w = true.
Proof.
  destruct t as [p h]. unfold next_access. destruct p as [|[| |f' w'] p| |]; simpl; try done.
  rewrite andb_true_iff. by intros [? _] [= -> ->].
Qed.

Lemma guarded_held h f w :
  guarded h f w = true →
  match guard f with
  | Some l => ∃ x, (l, x) ∈ h ∧ (w = true → x = true)
  | None => True
  end.
Proof.
  unfold guarded. destruct (guard f) as [l|]; [|done].
  intros [Hh|[Hw Hh]%andb_true_iff]%orb_true_iff; apply bool_decide_eq_true in Hh; [eauto|].
  exists false. by destruct w.
Qed.

(** Programs that keep the discipline never race on a watched field. *)
Lemma disciplined_race_free ps f :
  is_Some (guard f) → Forall (λ p, disciplined [] p = true) ps → race_free ps f.
Proof.
  intros [l0 Hl] Hps ts Hsteps (i & j & t & t' & w & w' & Hij & Hi & Hj & Ht & Ht' & Hw).
  apply lock_inv_steps in Hsteps as [Hex Hd].
  2: { split; [|by apply Forall_fmap].
       intros i' j' t1 t2 ? x x' _ (p & -> & _)%list_lookup_fmap_Some_1 _ Hx. by apply not_elem_of_nil in Hx. }
  pose proof (guarded_held _ _ _ (next_guarded _ _ _ (Forall_lookup_1 _ _ _ _ Hd Hi) Ht)) as Hg.
  pose proof (guarded_held _ _ _ (next_guarded _ _ _ (Forall_lookup_1 _ _ _ _ Hd Hj) Ht')) as Hg'.
  rewrite Hl in Hg, Hg'. destruct Hg as (x & Hx & Hwx), Hg' as (x' & Hx' & Hwx').
  destruct (Hex i j t t' l0 x x' Hij Hi Hj Hx Hx') as [-> ->]. destruct w, w'; naive_solver.
Qed.

(** ** Finding a race *)

(** One step by number: thread [i] takes its branch [c]. *)
Definition choose (ts : list thread) (i c : nat) : option thread :=
  t ← ts !! i;
  match t with
  | (Do (Acquire l x) p, h) =>
      if decide (Forall (λ t : thread, Forall (λ y, y.1 = l → x = false ∧ y.2 = false) t.2) (delete i ts))
      then Some (p, (l, x) :: h) else None
  | (Do (Release l x) p, h) => Some (p, release l x h)
  | (Do (Access f w) p, h) => Some (p, h)
  | (Either p q, h) => Some (match c with 0 => p | _ => q end, h)
  | (Loop bodies p, h) =>
      match c with
      | 0 => Some (p, h)
      | S c => (λ body, (seq body (Loop bodies p), h)) <$> bodies !! c
      end
  | (End, _) => None
  end.

Fixpoint run_schedule (ts : list thread) (schedule : list (nat * nat)) : option (list thread) :=
  match schedule with
  | [] => Some ts
  | (i, c) :: schedule => t ← choose ts i c; run_schedule (<[i := t]> ts) schedule
  end.

Lemma lookup_delete_other {A} (ts : list A) i j t : j ≠ i → ts !! j = Some t → t ∈ delete i ts.
Proof.
  intros Hne Hj. apply list_elem_of_lookup. destruct (decide (j < i)).
  - exists j. by rewrite list_lookup_delete_lt.
  - destruct j as [|j]; [lia|]. exists j. rewrite list_lookup_delete_ge by lia. done.
Qed.

Lemma choose_step ts i c t : choose ts i c = Some t → step ts (<[i := t]> ts).
Proof.
  unfold choose. destruct (ts !! i) as [[p h]|] eqn:Hi; simpl; [|done].
  intros E. eapply step_thread; [exact Hi|]. destruct p as [|[l x|l x|f w] p|p q|bodies p]; simplify_eq.
  - destruct (decide _) as [Hall|]; [|done]. injection E as <-. constructor.
    intros j t' x' Hne Hj Hx'. pose proof (lookup_delete_other _ _ _ _ Hne Hj) as Hin.
    rewrite Forall_forall in Hall. specialize (Hall _ Hin). rewrite Forall_forall in Hall.
    by apply (Hall (l, x')).
  - constructor.
  - constructor.
  - destruct c; constructor.
  - destruct c as [|c]; simplify_eq; [constructor|].
    destruct (bodies !! c) as [body|] eqn:Hb; [|done]. injection E as <-. constructor. by eapply list_elem_of_lookup_2.
Qed.

Lemma run_schedule_steps schedule ts ts' : run_schedule ts schedule = Some ts' → rtc step ts ts'.
Proof.
  revert ts. induction schedule as [|[i c] schedule IH]; simpl; intros ts E; [by injection E as <-|].
  destruct (choose ts i c) as [t|] eqn:Ec; [|done]. eapply rtc_l; [by eapply choose_step|]. by apply IH.
Qed.

(** The threads that a schedule leads to race on [f]: threads [i] and [j]. *)
Definition race_between (ts : list thread) (i j : nat) (f : field) : bool :=
  match ts !! i, ts !! j with
  | Some t, Some t' =>
      match next_access t, next_access t' with
      | Some (g, w), Some (g', w') =>
          bool_decide (i ≠ j ∧ g = f ∧ g' = f) && (w || w')
      | _, _ => false
      end
  | _, _ => false
  end.

Lemma race_between_race ts i j f : race_between ts i j f = true → race ts f.
Proof.
  unfold race_between. destruct (ts !! i) as [t|] eqn:Hi; [|done].
  destruct (ts !! j) as [t'|] eqn:Hj; [|done]. destruct (next_access t) as [[g w]|] eqn:Ht; [|done].
  destruct (next_access t') as [[g' w']|] eqn:Ht'; [|done].
  intros [(Hij & -> & ->)%bool_decide_eq_true Hw]%andb_true_iff.
  by exists i, j, t, t', w, w'.
Qed.

(** Two calls can race on [f]. *)
Definition can_race (p q : prog) (f : field) : Prop :=
  ∃ ts, rtc step (calls [p; q]) ts ∧ race ts f.

Lemma can_race_by schedule p q f :
  (match run_schedule (calls [p; q]) schedule with
   | Some ts => race_between ts 0 1 f
   | None => false
   end) = true → can_race p q f.
Proof.
  destruct (run_schedule _ _) as [ts|] eqn:E; [|done]. intros Hr%race_between_race.
  exists ts. split; [by eapply run_schedule_steps|done].
Qed.
End Locks.
