(* ===== verification/DataRaces.v ===== *)
(** * The locks of the services

    The handlers of the four services with shared state as programs of [Locks]:
    which mutex they take and which fields they read and write under it, branch
    by branch.  Handlers that are one atomic step in [GcsObj] although they take
    no lock are programs without lock operations here: the theorems say which
    calls may overlap without a data race and which may not.  A map is one
    field: Go ends the process when it notices that a map is written while it is
    read, iterated or written by another goroutine. *)
From S2P Require Import Prelude Float32 Net Messages Config Sql MemSql GcsDb.
From S2P Require Import GcsObj GcsObjSpec GcsObjInv Locks.

(** [go/cmd/gcsobjtable/main.go] *)
Module Table.

Inductive lock := mu | lineageMu.
Inductive field :=
  | ObjectLocations | Waitlist | Database | ObjectSizes | Lineage | LiveNodes | Generating.

#[global] Instance lock_eq_dec : EqDecision lock.
Proof. solve_decision. Defined.
#[global] Instance field_eq_dec : EqDecision field.
Proof. solve_decision. Defined.

Notation prog := (@Locks.prog lock field).
Notation instr := (@Locks.instr lock field).

Definition lk : instr := Acquire mu true.
Definition unlocked : prog := Do (Release mu true) End.
Definition rd (f : field) : instr := Access f false.
Definition wr (f : field) : instr := Access f true.

Definition NotifyOwns_prog : prog :=
  let callbacks := Do (rd Waitlist) (Either (Do (wr Waitlist) unlocked) unlocked) in
  let append := seq [rd ObjectLocations; wr ObjectLocations] callbacks in
  seq [lk; wr Generating; rd ObjectLocations]
    (Either (seq [wr ObjectLocations; wr ObjectSizes] append) append).

Definition getNodeId_prog (failed missing found : prog) : prog :=
  let choose := Loop [[rd LiveNodes]] found in
  Do (rd ObjectLocations)
    (Either choose
       (Do (rd Database)
          (Either failed (Do (wr ObjectLocations) (Either missing choose))))).

Definition RequestLocation_prog : prog :=
  let append := seq [rd Waitlist; wr Waitlist] unlocked in
  let missing := Do (rd Waitlist) (Either (Do (wr Waitlist) append) append) in
  Do lk (Either unlocked (getNodeId_prog unlocked missing unlocked)).

Definition GetObjectLocations_prog : prog :=
  Loop [[rd ObjectLocations]; [rd ObjectLocations; rd ObjectLocations; rd ObjectSizes]] End.

Definition RegisterLineage_prog : prog :=
  seq [Acquire lineageMu false; rd Lineage]
    (Either (Do (Release lineageMu false) End)
       (seq [Release lineageMu false; Acquire lineageMu true; wr Lineage; Release lineageMu true] End)).

(** [getNodes] and [allDead] are the second and third body of the last loop. *)
Definition RegisterLiveNodes_prog : prog :=
  Do (wr LiveNodes)
    (Loop [[rd Generating]] (Loop [[rd ObjectLocations]]
      (Loop [[]; [rd Generating; rd ObjectLocations]; [rd LiveNodes]] End))).

(** The goroutines it starts. *)
Definition reschedule_prog : prog := Do (rd Lineage) End.

Definition RegisterGenerating_prog : prog := Do (wr Generating) End.

Definition flushToDisk_prog : prog :=
  Do lk (Loop [[rd ObjectLocations]] (Do (wr Database)
    (Either unlocked (Do (wr ObjectLocations) unlocked)))).

Definition locked : list prog := [NotifyOwns_prog; RequestLocation_prog; RegisterLineage_prog; flushToDisk_prog].
Definition handlers : list prog :=
  locked ++ [GetObjectLocations_prog; RegisterLiveNodes_prog; reschedule_prog; RegisterGenerating_prog].

(** What the mutexes are there for: [lineageMu] for [lineage], [mu] for the rest. *)
Definition guard (f : field) : option lock :=
  match f with Lineage => Some lineageMu | _ => Some mu end.

(** The programs of the operations of [GcsObjSpec]. *)
Definition programs (op : gcs_op) : list prog :=
  match op with
  | OpNotifyOwns _ => [NotifyOwns_prog]
  | OpRequestLocation _ _ _ => [RequestLocation_prog]
  | OpGetObjectLocations _ => [GetObjectLocations_prog]
  | OpRegisterLineage _ => [RegisterLineage_prog]
  | OpRegisterLiveNodes _ _ _ _ => [RegisterLiveNodes_prog; reschedule_prog]
  | OpRegisterGenerating _ => [RegisterGenerating_prog]
  | OpFlush _ _ => [flushToDisk_prog]
  end.

Fixpoint writes_to (f : field) (p : prog) : bool :=
  match p with
  | End => false
  | Do (Access g true) p => bool_decide (f = g) || writes_to f p
  | Do _ p => writes_to f p
  | Either p q => writes_to f p || writes_to f q
  | Loop bodies p =>
      existsb (existsb (λ i, match i with Access g true => bool_decide (f = g) | _ => false end)) bodies
      || writes_to f p
  end.

(** The field of two states of the table is the same. *)
Definition unchanged {DB} (f : field) (s s' : GCSObjServer DB) : Prop :=
  match f with
  | ObjectLocations => objectLocations s' = objectLocations s
  | Waitlist => waitlist s' = waitlist s
  | Database => database s' = database s
  | ObjectSizes => objectSizes s' = objectSizes s
  | Lineage => lineage s' = lineage s
  | LiveNodes => liveNodes s' = liveNodes s
  | Generating => generating s' = generating s
  end.

(** A handler changes only fields that its program writes. *)
Lemma unwritten_unchanged {DB TX STMT : Type} `{!SqlDriver DB TX STMT, !SqlLaws DB TX STMT} cfg op
    (s s' : GCSObjServer DB) acts f :
  gcs_exec cfg op s = Returns (s', acts) → existsb (writes_to f) (programs op) = false →
  unchanged f s s'.
Proof.
  intros E Hw. destruct op as [req|pk peer req|req|req|o1 o2 o3 req|req|o1 o2]; simpl in E.
  - injection E as E. change s' with (s', acts).1. rewrite <-E.
    destruct (NotifyOwns_frame s req) as (? & ? & ? & _). by destruct f.
  - destruct peer as [p|]; [|injection E as <- <-; by destruct f].
    destruct (RequestLocation_spec cfg pk p s req) as (s0 & [[nid ex] err] & Hl & Er).
    rewrite Er in E. assert (unchanged f s s0) as H0 by (destruct Hl; by destruct f).
    destruct nid, ex, err; try done; injection E as <- <-; try done; by destruct f.
  - injection E as <- <-. by destruct f.
  - injection E as <- <-. unfold GcsObj.RegisterLineage. destruct (RegisterLineage_check s req); by destruct f.
  - injection E as <- <-. by destruct f.
  - injection E as <- <-. by destruct f.
  - injection E as <- <-. unfold GcsObj.flushToDisk. destruct (insertOrUpdateObjectLocations _ _ _ _) as [d []];
      by destruct f.
Qed.
End Table.

(** The other services have one mutex each. *)
Inductive the_lock := mu.
#[export] Instance the_lock_eq_dec : EqDecision the_lock.
Proof. solve_decision. Defined.

(** [go/cmd/globalscheduler/main.go]: the map [status]. *)
Module Scheduler.

Inductive field := Status.
#[global] Instance field_eq_dec : EqDecision field.
Proof. solve_decision. Defined.

Notation prog := (@Locks.prog the_lock field).
Notation instr := (@Locks.instr the_lock field).

Definition rd : instr := Access Status false.
Definition wr : instr := Access Status true.

Definition Heartbeat_prog : prog := seq [Acquire mu true; wr; Release mu true] End.

Definition SendLiveNodes_prog : prog :=
  Do (Acquire mu false) (Loop [[rd]] (Do (Release mu false) End)).

(** [getBestWorker] without and with the locality flag: the second takes the
    lock only around the estimate of a live node. *)
Definition best_worker_prog : prog :=
  seq [Acquire mu false; rd] (Loop [[rd]] (Loop [[rd]] (Do (Release mu false) End))).

Definition best_worker_by_locality_prog : prog :=
  Loop [[rd]] (Do rd (Loop [[rd]]
    (Loop [[rd]; [rd; Acquire mu false; rd; rd; rd; Release mu false]] End))).

Definition Schedule_prog (locality : bool) : prog :=
  Either End (if locality then best_worker_by_locality_prog else best_worker_prog).

Definition locked : list prog := [Heartbeat_prog; SendLiveNodes_prog; Schedule_prog false].
Definition guard (f : field) : option the_lock := Some mu.
End Scheduler.

(** [go/cmd/localobjstore/main.go]: [mu] is for [objectSizes]; the channels have
    no lock. *)
Module Store.

Inductive field := ObjectSizes | Channels.
#[global] Instance field_eq_dec : EqDecision field.
Proof. solve_decision. Defined.

Notation prog := (@Locks.prog the_lock field).
Notation instr := (@Locks.instr the_lock field).

Definition rd (f : field) : instr := Access f false.
Definition wr (f : field) : instr := Access f true.

Definition set_size_prog : prog := seq [Acquire mu true; wr ObjectSizes; Release mu true] End.

Definition Store_prog : prog := Either End set_size_prog.

Definition Get_prog : prog :=
  seq [Acquire mu false; rd ObjectSizes; Release mu false]
    (Either End (seq [wr Channels; rd Channels] (Either End set_size_prog))).

Definition LocationFound_prog : prog := Do (rd Channels) End.

Definition Copy_prog : prog := seq [Acquire mu false; rd ObjectSizes; Release mu false] End.

Definition handlers : list prog := [Store_prog; Get_prog; LocationFound_prog; Copy_prog].
Definition guard (f : field) : option the_lock :=
  match f with ObjectSizes => Some mu | Channels => None end.
End Store.

(** [go/cmd/worker/main.go]: [mu] is for the counters and the average; [alive]
    has no lock. *)
Module WorkerLocks.

Inductive field := NumRunningTasks | NumQueuedTasks | AverageRunningTime | Alive.
#[global] Instance field_eq_dec : EqDecision field.
Proof. solve_decision. Defined.

Notation prog := (@Locks.prog the_lock field).
Notation instr := (@Locks.instr the_lock field).

Definition rd (f : field) : instr := Access f false.
Definition wr (f : field) : instr := Access f true.
Definition lk : instr := Acquire mu true.
Definition ul : instr := Release mu true.

Definition Run_prog : prog :=
  let leave := seq [lk; rd NumRunningTasks; wr NumRunningTasks; ul] End in
  seq [lk; rd NumQueuedTasks; wr NumQueuedTasks; ul;
       lk; rd NumQueuedTasks; wr NumQueuedTasks; rd NumRunningTasks; wr NumRunningTasks; ul]
    (Either leave                                        (* the function is not fetched *)
       (Do (rd Alive)
          (Either leave                                  (* killed, or the store failed *)
             (seq [lk; rd AverageRunningTime; wr AverageRunningTime; ul] leave)))).

Definition WorkerStatus_prog : prog :=
  seq [lk; rd NumRunningTasks; rd NumQueuedTasks; rd AverageRunningTime; ul] End.

(** [KillServer] and [ReviveServer]. *)
Definition worker_alive_prog : prog := Do (wr Alive) End.

Definition handlers : list prog := [Run_prog; WorkerStatus_prog; worker_alive_prog].
Definition guard (f : field) : option the_lock :=
  match f with Alive => None | _ => Some mu end.
End WorkerLocks.

(** [go/cmd/localscheduler/main.go]: [alive], without a lock. *)
Module LocalSchedulerLocks.

Inductive field := Alive.
#[global] Instance field_eq_dec : EqDecision field.
Proof. solve_decision. Defined.

Notation prog := (@Locks.prog the_lock field).

Definition SendHeartbeats_prog : prog := Loop [[Access Alive false]] End.
Definition scheduler_alive_prog : prog := Do (Access Alive true) End.
End LocalSchedulerLocks.

(** ** Theorems *)

(** C21: The locks the services take exclude data races on what they guard.  Any
    number of overlapping calls of the object table's [NotifyOwns],
    [RequestLocation] and [RegisterLineage] and of flushes never race on any
    field, and with all its handlers never on the wait lists and the database;
    heartbeats, reports and placements without the locality flag never race in
    the global scheduler; no calls of a store's handlers race on the sizes; no
    calls of a worker's handlers race on its counters and its average. *)
Theorem locked_calls_never_race :
  (∀ ps f, Forall (λ p, p ∈ Table.locked) ps → race_free ps f) ∧
  (∀ ps f, f = Table.Waitlist ∨ f = Table.Database → Forall (λ p, p ∈ Table.handlers) ps → race_free ps f) ∧
  (∀ ps f, Forall (λ p, p ∈ Scheduler.locked) ps → race_free ps f) ∧
  (∀ ps, Forall (λ p, p ∈ Store.handlers) ps → race_free ps Store.ObjectSizes) ∧
  (∀ ps f, f ≠ WorkerLocks.Alive → Forall (λ p, p ∈ WorkerLocks.handlers) ps → race_free ps f).
Proof.
  assert (∀ {lock field : Type} `{EqDecision lock, EqDecision field} (guard : field → option lock) hs ps f,
    forallb (disciplined guard []) hs = true → is_Some (guard f) → Forall (λ p, p ∈ hs) ps → race_free ps f)
    as Hfree.
  { intros lock field H1 H2 guard hs ps f Hhs Hf Hps. apply (disciplined_race_free guard); [done|].
    eapply Forall_impl; [exact Hps|]. intros p Hp%list_elem_of_In.
    rewrite forallb_forall in Hhs. by apply Hhs. }
  split_and!.
  - intros ps f. apply (Hfree _ _ _ _ Table.guard); [reflexivity|by destruct f].
  - intros ps f Hf. apply (Hfree _ _ _ _ (λ f, match f with
      | Table.Waitlist | Table.Database => Some Table.mu | _ => None end)); [reflexivity|].
    by destruct Hf as [->| ->].
  - intros ps f. apply (Hfree _ _ _ _ Scheduler.guard); [reflexivity|done].
  - intros ps. apply (Hfree _ _ _ _ Store.guard); [reflexivity|done].
  - intros ps f Hf. apply (Hfree _ _ _ _ WorkerLocks.guard); [reflexivity|by destruct f].
Qed.

(** C28: Where the locks are missing, overlapping calls race.  In the object table
    a report races with a notification on the map it iterates, a locality query
    with a notification, two registrations of generating nodes with each other,
    a report with a lookup on the live nodes, and a rescheduling with a lineage
    registration; a placement by locality races with a heartbeat on the map of
    nodes; two [Get]s that miss race on the channels of a store, and so does a
    callback with a [Get]; and killing a worker or a local scheduler races with
    its reading of the flag. *)
Theorem unlocked_calls_race :
  can_race Table.RegisterLiveNodes_prog Table.NotifyOwns_prog Table.Generating ∧
  can_race Table.RegisterLiveNodes_prog Table.NotifyOwns_prog Table.ObjectLocations ∧
  can_race Table.GetObjectLocations_prog Table.NotifyOwns_prog Table.ObjectLocations ∧
  can_race Table.GetObjectLocations_prog Table.NotifyOwns_prog Table.ObjectSizes ∧
  can_race Table.RegisterGenerating_prog Table.RegisterGenerating_prog Table.Generating ∧
  can_race Table.RegisterLiveNodes_prog Table.RequestLocation_prog Table.LiveNodes ∧
  can_race Table.reschedule_prog Table.RegisterLineage_prog Table.Lineage ∧
  can_race (Scheduler.Schedule_prog true) Scheduler.Heartbeat_prog Scheduler.Status ∧
  can_race Store.Get_prog Store.Get_prog Store.Channels ∧
  can_race Store.LocationFound_prog Store.Get_prog Store.Channels ∧
  can_race WorkerLocks.worker_alive_prog WorkerLocks.Run_prog WorkerLocks.Alive ∧
  can_race LocalSchedulerLocks.scheduler_alive_prog LocalSchedulerLocks.SendHeartbeats_prog LocalSchedulerLocks.Alive.
Proof.
  split_and!.
  - by apply (can_race_by [(0, 0); (0, 1); (1, 0)]).
  - by apply (can_race_by [(0, 0); (0, 0); (0, 1); (1, 0); (1, 0); (1, 0); (1, 0)]).
  - by apply (can_race_by [(0, 1); (1, 0); (1, 0); (1, 0); (1, 0)]).
  - by apply (can_race_by [(0, 2); (0, 0); (0, 0); (1, 0); (1, 0); (1, 0); (1, 0); (1, 0)]).
  - by apply (can_race_by []).
  - by apply (can_race_by [(1, 0); (1, 1); (1, 0); (1, 0); (1, 1)]).
  - by apply (can_race_by [(1, 0); (1, 0); (1, 1); (1, 0); (1, 0)]).
  - by apply (can_race_by [(0, 1); (0, 1); (1, 0)]).
  - by apply (can_race_by [(0, 0); (0, 0); (0, 0); (0, 1); (1, 0); (1, 0); (1, 0); (1, 1)]).
  - by apply (can_race_by [(1, 0); (1, 0); (1, 0); (1, 1)]).
  - by apply (can_race_by (replicate 10 (1, 0) ++ [(1, 1)])).
  - by apply (can_race_by [(1, 1)]).
Qed.

(** ** Witness *)

(** Two notifications, a lookup and a flush at the same time. *)
Lemma locked_calls_never_race_witness :
  race_free [Table.NotifyOwns_prog; Table.NotifyOwns_prog; Table.RequestLocation_prog; Table.flushToDisk_prog]
    Table.ObjectLocations ∧
  race_free [Store.Get_prog; Store.Store_prog] Store.ObjectSizes.
Proof.
  destruct locked_calls_never_race as (Ht & _ & _ & Hs & _). split.
  - apply Ht. repeat constructor.
  - apply Hs. repeat constructor.
Defined.
